(* ===== verification/_CoqProject ===== *)
-Q . S2P
Prelude.v
Timestamp.v
CFloat.v
Identity.v
Message.v
Wire.v
World.v
Loops.v
Clock.v
Port.v
Media.v
Runs.v
Ether.v
Servo.v
Transmit.v
PDelay.v
Sync.v
CommonPort.v
Receive.v
Wireless.v
Dispatch.v
Fixture.v
Evolution.v
Locks.v
ServoTheory.v
BestMaster.v
PDelayTheory.v
PDelayExchange.v
SyncTheory.v
TimerQueue.v
TicketLock.v
Ownership.v
Silent.v
HeapSafety.v
Persist.v
Config.v
CommandLine.v
Storage.v
Startup.v
LinuxClock.v
LinuxNet.v
LinuxLink.v
LinuxIpc.v
WinClock.v
WinSimpleClock.v
WinWireless.v
WinNet.v
WinIpc.v
WinThreads.v
WinDevice.v
Conditions.v
LinuxThreads.v
LinuxDrivers.v
Watchdog.v
WinMonitor.v
