(* ===== verification/Prelude.v ===== *)
(** * A verification development for the gPTP daemon (IEEE 802.1AS)

    The program is a daemon that keeps the clocks of a network of bridges and
    end stations in step: it measures the delay to its neighbour, elects the
    best clock of the network, and steers its own hardware clock after it.
    This library models the protocol core under src/common, and the platform
    layers of Linux (src/linux/src) and of Windows (src/windows/daemon_cl), and
    proves what makes them correct.

    ** The parts, and the files that model them

    - Prelude.v (this file): record update, machine integers, byte orders,
      octet buffers with faulting reads and writes, the state-and-fault monad
      [M] and the relation [keeps] that its frame lemmas are stated with.
    - Timestamp.v: [Timestamp] and its arithmetic (ieee1588.hpp).
    - CFloat.v: [float], [double] and x87 [long double] on the Standard
      Library's SpecFloat, with the casts to integers, which are undefined
      ([None]) where C++ leaves them undefined.
    - Identity.v: link layer addresses, clock and port identities.
    - Message.v, Wire.v: the message classes and TLVs (avbts_message.hpp), and
      the octets that ptp_message.cpp writes and reads.
    - World.v: the state: the clock, the ports, the heap of messages, the armed
      timers, the locks held and the trace of effects.  The operating system
      and the hardware are a class [Env] of arbitrary answers, one function per
      kind of call, indexed by the number of answers consumed.
    - Loops.v: the loops over the registered ports.
    - Clock.v, Servo.v: [IEEE1588Clock] (ieee1588clock.cpp, avbts_clock.hpp).
    - Port.v, Media.v, CommonPort.v: [CommonPort]; its virtual methods are the
      class [MediaOps], and the port state machine and the best-master decision
      are written and proved against it.
    - Ether.v, Wireless.v: the two media; Dispatch.v discharges the interface
      by the dynamic class of the port, and composes the daemon: a step is a
      timer that fires, a frame, a link event or a callback of the
      wireless driver.
    - Transmit.v, Receive.v: sendPort of each message, buildPTPMessage.
    - PDelay.v, Sync.v: processMessage of each message.
    - TimerQueue.v, TicketLock.v: the timer queue and the ticket lock of the Linux
      layer (linux_hal_common.cpp), each with the contract the core relies on.
    - LinuxClock.v, LinuxNet.v: the hardware clock and the network interface of
      Linux (linux_hal_generic.cpp, linux_hal_generic_adj.cpp,
      linux_hal_common.cpp): cross timestamps, adjustments, the timestamps of
      sent and received frames and the lock that goes with them.
    - LinuxLink.v, LinuxIpc.v: the thread that watches the link, from the octets
      of its netlink messages to the inputs of the daemon, and the shared memory
      that shows other processes what the daemon's effects tell
      (linux_hal_common.cpp, ipcdef.hpp).
    - CommandLine.v, Config.v: the options of [main] (daemon_cl.cpp), and the
      configuration file (gptp_cfg.cpp), item by item as the ini parser reports
      them.
    - Persist.v, Storage.v: the saved state (serializeState,
      restoreSerializedState, the save callback), and the file that holds it
      (linux_hal_persist_file.cpp).
    - Startup.v: the rest of [main], from the construction of the clock and the
      port to the loop that waits for signals.
    - WinClock.v, WinSimpleClock.v: the cross timestamps of Windows
      (windows_crosststamp.cpp, windows_crosststamp_simple.cpp) and the clock of
      its timestamper (windows_hal.hpp).
    - WinWireless.v: the driver of the wireless adapter and its timestamper
      (intel_wireless.cpp, windows_hal.cpp).
    - WinNet.v: the frames of the packet capture library, the interface and the
      timestamps of the card (packet.cpp, windows_hal.hpp).
    - WinIpc.v: the named pipe, with its listener, its list of peers and what the
      daemon shows through it (IPCListener.cpp, PeerList.hpp, windows_ipc.hpp).
    - WinThreads.v: locks, timer queues and work queues (windows_hal.hpp,
      work_queue.cpp); WinDevice.v: tables of devices, the link, and the command
      line of the Windows build (windows_hal_vendor_intel.cpp,
      windows_hal_iphlpapi.cpp, tsc.hpp, daemon_cl.cpp); WinMonitor.v: the
      handles of the link monitors, and the NDIS way (windows_hal.cpp,
      windows_hal_ndis.cpp).
    - Conditions.v: the condition variables of both platforms as a step relation
      over their threads, and the start of a port, which waits for its listening
      thread (avbts_oscondition.hpp, ether_port.cpp, wireless_port.cpp).
    - LinuxThreads.v: locks, sleeping and threads of Linux
      (linux_hal_common.cpp); LinuxDrivers.v: the CE card and the pulse per second
      of the i210 (linux_hal_intelce.cpp, linux_hal_i210.cpp); Watchdog.v: the
      watchdogs of both platforms (watchdog.cpp).
    - Runs.v: equations and tactics for runs of the monad; Fixture.v: a concrete
      daemon for the witnesses and the examples.

    ** What the theorems show

    - Values (Timestamp.v, CFloat.v, Identity.v, Message.v): the arithmetic on
      timestamps is exact in stated ranges, with the two carries that the
      operators get wrong outside them; interval computations on doubles are
      exact; the comparison of announcements is the order of the standard.
    - Octets (Wire.v): decoding undoes encoding; the decoder's cases; the
      announcement that makes it read past the frame.
    - Handlers, on every branch: BestMaster.v (state decision, receipt
      timeouts), PDelayTheory.v (link delay, duplicates), ServoTheory.v (the
      controller and the rate estimator), SyncTheory.v (a Follow_Up and its Sync:
      what reaches the servo, and the pairs that are dropped).
    - Whole runs, for any inputs and any environment: Evolution.v (ports and
      clock configuration are kept, port states stay live, the frequency
      adjustment stays within its limits), Locks.v (locks are given back),
      HeapSafety.v (no run uses a null or dangling pointer: each pointer a port
      keeps owns its message), on the program logic of Ownership.v and the
      silent operations of Silent.v.
    - Two daemons together: PDelayExchange.v (one asks, the other answers what it
      receives, octet by octet, and the first measures the mean of the two
      directions, whatever the offset of the clocks; the assumptions on the two
      platforms are the class Answers).
    - The platform: TimerQueue.v (the queue refines the list of armed timers of
      World.v; what a stale signal and a refused timer do), TicketLock.v
      (mutual exclusion and fairness by rule induction over the interleavings
      of the threads, and the number of threads beyond which they fail),
      LinuxNet.v (the exchange of a transmit timestamp ends, and gives the lock
      back; each received event frame gets its own timestamp), LinuxClock.v (the
      cross timestamp, the phase and the frequency that the kernel is asked for),
      LinuxLink.v (the link's changes, and nothing else, reach the daemon, whatever
      octets arrive), LinuxIpc.v (the octets of the shared memory refine the
      effects).
    - The Windows layer: WinClock.v (a cross timestamp always answers, between its
      readings and with its estimated error, until 64 bits are full),
      WinSimpleClock.v (the two cross timestamps agree), WinWireless.v (the
      32-bit counter is extended without a jump; which request has whose answer,
      and the time-out after which none has), WinNet.v (what is sent is received,
      up to the octets that are captured), WinIpc.v (the list of peers is a set; the
      listener answers, and with what the shared memory of Linux shows),
      WinThreads.v (the lock excludes; the memory of the timer queue, whose
      handler is empty; each accepted job runs once), WinDevice.v (the monitor tells the
      changes of the link; a command line is read as it was written), WinMonitor.v
      (starting and stopping loses no handle; cleaning up with a monitor that runs
      is undefined).
    - Threads and time: Conditions.v (no signal is lost, for any number of threads
      and in any interleaving; a port's start ends, and what a start that fails
      leaves behind), LinuxThreads.v (the two locks agree when they are recursive;
      a sleep takes its time; the mask of the timers' signal), LinuxDrivers.v (a
      captured time is given once and is that of its message; the bits of the
      registers that change), Watchdog.v (systemd is notified in time; when the
      Windows thread ends by itself).

    - Start-up: CommandLine.v (a command line is read as the options it was
      written for; values that are missing), Config.v (numbers and delays read
      back, refused items, and the values that are cut without a word), Persist.v
      and Storage.v (what was saved last is restored, what a truncated or a stale
      file does), Startup.v (memory safety of the daemon from its start, and that
      a daemon that is started again resumes).

    ** Conventions and bounds

    A C++ integer is a [Z]; the wrap-around of a width is written out ([u32],
    [i64], ...).  Undefined behaviour (a null or dangling pointer, an access
    out of bounds, a cast out of range) and [abort] are [Fault]s of the
    monad.  The retry loops for timestamps carry the code's own bounds (six
    and five); the loops over ports run [number_ports] times; no other fuel is
    used: a run of the daemon is a recursion over the list of its inputs.  The
    host is little-endian with 32-bit [int] and 64-bit [long long].

    ** Not modelled

    Logging; the string conversions; the vendored ini parser; the joining of
    threads when the daemon ends, and the Windows daemon's wait for Ctrl-C; the
    discovery of the PTP clock device; the report on the Windows driver; the
    system calls and the access to registers and to the registry themselves,
    whose answers are arguments; of the NDIS way, the part of the clock rate that
    does not compile; the order in which threads interleave inside a handler (a
    handler runs to its end before the next input; the answers of [trylock] are
    arbitrary, so that the effect of a lock another thread holds is covered). *)

From Stdlib Require Import ZArith Lia.
From stdpp Require Import base gmap list.

Open Scope Z_scope.

(** ** Record update

    [r <| f := v |>] is the record [r] with the field [f] set to [v].  A record
    type gives its eta expansion as an instance of [Settable]; the setter of a
    field is computed from it. *)

Class Settable (R : Type) := eta : R -> R.

Class Setter {R T : Type} (f : R -> T) := field_setter : (T -> T) -> R -> R.

Ltac solve_setter :=
  match goal with
  | |- @Setter ?R ?T ?f =>
      let inst := constr:(_ : Settable R) in
      let e := eval hnf in (@eta R inst) in
      let p := eval pattern f in e in
      match p with
      | ?h _ => exact (fun (u : T -> T) => h (fun r : R => u (f r)))
      end
  end.

#[export] Hint Extern 1 (Setter _) => solve_setter : typeclass_instances.

Definition set {R T : Type} (f : R -> T) {s : Setter f} (u : T -> T) (r : R) : R :=
  @field_setter R T f s u r.
Arguments set {R T} f {s} u r /.
Arguments field_setter {R T} f {_} u r /.

Declare Scope gptp_scope.
Delimit Scope gptp_scope with gptp.
Open Scope gptp_scope.

Notation "r <| f := v |>" := (set f (fun _ => v) r)
  (at level 12, f at next level, left associativity) : gptp_scope.

(** ** Fixed-width integers

    A C++ integer of width [w] is a [Z]; an unsigned operation wraps with
    [uwrap w], a conversion to a signed type with [swrap w] (two's complement,
    as the compilers the code is built with define it). *)

Definition uwrap (w x : Z) : Z := x mod 2 ^ w.
Definition swrap (w x : Z) : Z := (x + 2 ^ (w - 1)) mod 2 ^ w - 2 ^ (w - 1).

Definition u8 (x : Z) : Z := uwrap 8 x.
Definition u16 (x : Z) : Z := uwrap 16 x.
Definition u32 (x : Z) : Z := uwrap 32 x.
Definition u64 (x : Z) : Z := uwrap 64 x.
Definition i8 (x : Z) : Z := swrap 8 x.
Definition i32 (x : Z) : Z := swrap 32 x.
Definition i64 (x : Z) : Z := swrap 64 x.

(** [fits w x]: [x] is a value of the unsigned type of width [w]. *)
Definition fits (w x : Z) : Prop := 0 <= x < 2 ^ w.
Definition sfits (w x : Z) : Prop := - 2 ^ (w - 1) <= x < 2 ^ (w - 1).

Lemma uwrap_fits w x : 0 <= w -> fits w (uwrap w x).
Proof. intros Hw. apply Z.mod_pos_bound, Z.pow_pos_nonneg; lia. Qed.

Lemma uwrap_small w x : fits w x -> uwrap w x = x.
Proof. intros H. apply Z.mod_small, H. Qed.

Lemma uwrap_idem w x : uwrap w (uwrap w x) = uwrap w x.
Proof. apply Zmod_mod. Qed.

Lemma uwrap_shift w x k : uwrap w (x + k * 2 ^ w) = uwrap w x.
Proof. apply Z_mod_plus_full. Qed.

(** A value that differs from a fitting one by a multiple of the modulus. *)
Lemma uwrap_eq w x y k : fits w y -> x = y + k * 2 ^ w -> uwrap w x = y.
Proof. intros Hy ->. rewrite uwrap_shift. by apply uwrap_small. Qed.

Lemma swrap_small w x : sfits w x -> swrap w x = x.
Proof.
  unfold swrap, sfits. intros H.
  destruct (decide (1 <= w)) as [Hw|Hw].
  - assert (2 ^ w = 2 * 2 ^ (w - 1)) by
      (rewrite <- Z.pow_succ_r by lia; f_equal; lia).
    rewrite Z.mod_small by lia. lia.
  - rewrite (Z.pow_neg_r 2 (w - 1)) in H by lia. lia.
Qed.

Lemma swrap_repr w x : 1 <= w -> exists k, swrap w x = x + k * 2 ^ w.
Proof.
  intros Hw. exists (- ((x + 2 ^ (w - 1)) / 2 ^ w)). unfold swrap.
  pose proof (Z.div_mod (x + 2 ^ (w - 1)) (2 ^ w) ltac:(apply Z.pow_nonzero; lia)). lia.
Qed.
Lemma swrap_eq w x y k : sfits w y -> x = y + k * 2 ^ w -> swrap w x = y.
Proof.
  intros Hy ->. rewrite <- (swrap_small w y Hy) at 2. unfold swrap. f_equal.
  replace (y + k * 2 ^ w + 2 ^ (w - 1)) with (y + 2 ^ (w - 1) + k * 2 ^ w) by lia.
  destruct (decide (2 ^ w = 0)) as [->|]; [by rewrite Z.mul_0_r, Z.add_0_r|].
  by rewrite Z.mod_add.
Qed.

Lemma swrap_sfits w x : 1 <= w -> sfits w (swrap w x).
Proof.
  intros Hw. unfold swrap, sfits.
  assert (2 ^ w = 2 * 2 ^ (w - 1)) by
    (rewrite <- Z.pow_succ_r by lia; f_equal; lia).
  pose proof (Z.mod_pos_bound (x + 2 ^ (w - 1)) (2 ^ w)
                ltac:(apply Z.pow_pos_nonneg; lia)). lia.
Qed.

(** [int_lia] closes goals over fixed widths once the wraps are bounded: it
    evaluates the powers of two that occur and calls [lia]. *)
Ltac int_unfold :=
  unfold u8, u16, u32, u64, i8, i32, i64, fits, sfits in *;
  unfold uwrap, swrap in *;
  change (2 ^ 8) with 256 in *; change (2 ^ 16) with 65536 in *;
  change (2 ^ 32) with 4294967296 in *;
  change (2 ^ 48) with 281474976710656 in *;
  change (2 ^ 64) with 18446744073709551616 in *.

Ltac int_lia := int_unfold; Z.div_mod_to_equations; lia.

(** [closed_tac] decides closed bounds by evaluation. *)
Ltac closed_tac := repeat (split || constructor); vm_compute; congruence.

(** Joining a low word and a shifted high word. *)
Lemma lor_shiftl_add w lo hi :
  0 <= w -> fits w lo -> Z.lor lo (Z.shiftl hi w) = lo + hi * 2 ^ w.
Proof.
  intros Hw [H0 H1].
  assert (Hl : Z.land lo (Z.shiftl hi w) = 0).
  { apply Z.bits_inj'. intros n Hn. rewrite Z.land_spec, Z.bits_0, Z.shiftl_spec by lia.
    destruct (decide (n < w)) as [Hd|Hd].
    - rewrite (Z.testbit_neg_r hi) by lia. apply andb_false_r.
    - replace (Z.testbit lo n) with false; [done|]. symmetry.
      rewrite <- (Z.mod_small lo (2 ^ w)) by lia. apply Z.mod_pow2_bits_high. lia. }
  rewrite <- Z.lxor_lor, <- Z.add_nocarry_lxor, Z.shiftl_mul_pow2 by done. done.
Qed.

(** ** Octets and their codecs

    A buffer of [uint8_t] is a list of [Z]; [octets l] says its elements are
    octets.  [le_encode n z] are the [n] octets of [z] as a little-endian host
    stores it, [be_encode] those of the network order. *)

Definition octet (b : Z) : Prop := 0 <= b < 256.
Abbreviation octets := (Forall octet).

Fixpoint le_encode (n : nat) (z : Z) : list Z :=
  match n with
  | O => []
  | S n' => z mod 256 :: le_encode n' (z / 256)
  end.

Fixpoint le_decode (l : list Z) : Z :=
  match l with
  | [] => 0
  | b :: l' => b + 256 * le_decode l'
  end.

Definition be_encode (n : nat) (z : Z) : list Z := rev (le_encode n z).
Definition be_decode (l : list Z) : Z := le_decode (rev l).

Lemma length_le_encode n z : length (le_encode n z) = n.
Proof. revert z; induction n; intros; cbn; [done|by rewrite IHn]. Qed.

Lemma length_be_encode n z : length (be_encode n z) = n.
Proof. unfold be_encode. rewrite length_rev. apply length_le_encode. Qed.

Lemma octets_le_encode n z : octets (le_encode n z).
Proof.
  revert z; induction n; intros; cbn; constructor; [|done].
  apply Z.mod_pos_bound. lia.
Qed.

Lemma octets_be_encode n z : octets (be_encode n z).
Proof. apply Forall_rev, octets_le_encode. Qed.

Lemma pow_octets_S n : 2 ^ (8 * Z.of_nat (S n)) = 256 * 2 ^ (8 * Z.of_nat n).
Proof.
  replace (8 * Z.of_nat (S n)) with (8 + 8 * Z.of_nat n) by lia.
  rewrite Z.pow_add_r by lia. done.
Qed.

Lemma le_decode_encode n z :
  le_decode (le_encode n z) = z mod 2 ^ (8 * Z.of_nat n).
Proof.
  revert z; induction n; intros z.
  - cbn. by rewrite Z.mod_1_r.
  - cbn [le_encode le_decode]. rewrite IHn, pow_octets_S.
    rewrite Z.rem_mul_r; [lia|lia|apply Z.pow_pos_nonneg; lia].
Qed.

Lemma be_decode_encode n z :
  be_decode (be_encode n z) = z mod 2 ^ (8 * Z.of_nat n).
Proof. unfold be_decode, be_encode. rewrite rev_involutive. apply le_decode_encode. Qed.

Lemma le_decode_bound l :
  octets l -> 0 <= le_decode l < 2 ^ (8 * Z.of_nat (length l)).
Proof.
  induction 1 as [|b l Hb _ IH]; [cbn; lia|].
  cbn [le_decode length]. rewrite pow_octets_S. unfold octet in Hb. lia.
Qed.

Lemma be_decode_bound l :
  octets l -> 0 <= be_decode l < 2 ^ (8 * Z.of_nat (length l)).
Proof.
  intros H. unfold be_decode. rewrite <- (length_rev l).
  by apply le_decode_bound, Forall_rev.
Qed.

Lemma le_encode_decode l : octets l -> le_encode (length l) (le_decode l) = l.
Proof.
  induction 1 as [|b l Hb _ IH]; [done|].
  cbn [le_decode length le_encode]. unfold octet in Hb. f_equal.
  - rewrite Z.mul_comm, Z_mod_plus_full. by apply Z.mod_small.
  - rewrite Z.mul_comm, Z_div_plus_full by lia.
    by rewrite (Z.div_small b 256), Z.add_0_l.
Qed.

Lemma be_encode_decode l : octets l -> be_encode (length l) (be_decode l) = l.
Proof.
  intros H. unfold be_encode, be_decode. rewrite <- (length_rev l).
  rewrite le_encode_decode by (by apply Forall_rev). apply rev_involutive.
Qed.

(** [octets_tac] shows that the pieces a frame is made of are octets. *)
Ltac octets_tac :=
  repeat first
    [ assumption
    | apply octets_le_encode
    | apply octets_be_encode
    | apply Forall_app; split
    | apply Forall_nil; exact I
    | apply Forall_cons; split
    | solve [unfold octet in *; lia] ].

(** Host representation of a value that the wire carries in network order, and
    back: what [PLAT_htons], [PLAT_htonl], [PLAT_htonll] and their inverses do
    on a little-endian host.  The octets of the result in memory are the
    network-order octets of the argument. *)
Definition bswap (n : nat) (z : Z) : Z := le_decode (be_encode n z).
Definition htons (x : Z) : Z := bswap 2 (u16 x).
Definition htonl (x : Z) : Z := bswap 4 (u32 x).
Definition htonll (x : Z) : Z := bswap 8 (u64 x).

Lemma bswap_encode n z : le_encode n (bswap n z) = be_encode n z.
Proof.
  unfold bswap. rewrite <- (length_be_encode n z) at 1.
  apply le_encode_decode, octets_be_encode.
Qed.

Lemma bswap_decode l :
  octets l -> bswap (length l) (le_decode l) = be_decode l.
Proof.
  intros H. unfold bswap, be_encode. by rewrite le_encode_decode.
Qed.

Lemma bswap_involutive n z : bswap n (bswap n z) = z mod 2 ^ (8 * Z.of_nat n).
Proof.
  unfold bswap at 1. unfold be_encode. rewrite bswap_encode.
  unfold be_encode. rewrite rev_involutive. apply le_decode_encode.
Qed.

Lemma bswap_bound n z : 0 <= bswap n z < 2 ^ (8 * Z.of_nat n).
Proof.
  unfold bswap. pose proof (le_decode_bound _ (octets_be_encode n z)) as Hd.
  by rewrite length_be_encode in Hd.
Qed.

(** A value stored in network order is read back as it was. *)
Lemma net_back n z :
  bswap n (le_decode (le_encode n (bswap n z)) mod 2 ^ (8 * Z.of_nat n)) = z mod 2 ^ (8 * Z.of_nat n).
Proof.
  rewrite le_decode_encode, Zmod_mod, (Z.mod_small (bswap n z)) by apply bswap_bound.
  apply bswap_involutive.
Qed.

Lemma htons_back x : htons (le_decode (le_encode 2 (htons x))) = u16 x.
Proof. unfold htons at 1. unfold u16 at 1, uwrap, htons. etransitivity; [apply (net_back 2)|]. apply Zmod_mod. Qed.
Lemma htonl_back x : htonl (le_decode (le_encode 4 (htonl x))) = u32 x.
Proof. unfold htonl at 1. unfold u32 at 1, uwrap, htonl. etransitivity; [apply (net_back 4)|]. apply Zmod_mod. Qed.
Lemma htonll_back x : htonll (le_decode (le_encode 8 (htonll x))) = u64 x.
Proof. unfold htonll at 1. unfold u64 at 1, uwrap, htonll. etransitivity; [apply (net_back 8)|]. apply Zmod_mod. Qed.

(** So is a value stored in host order. *)
Lemma le_back n z : 0 <= z < 2 ^ (8 * Z.of_nat n) -> le_decode (le_encode n z) = z.
Proof. intros H. rewrite le_decode_encode. by apply Z.mod_small. Qed.

Lemma swrap_uwrap w x : sfits w x -> swrap w (x mod 2 ^ w) = x.
Proof.
  intros H. rewrite <- (swrap_small w x H) at 2. unfold swrap. by rewrite Zplus_mod_idemp_l.
Qed.

Lemma le_back_signed n z : sfits (8 * Z.of_nat n) z ->
  swrap (8 * Z.of_nat n) (le_decode (le_encode n z)) = z.
Proof. intros H. rewrite le_decode_encode. by apply swrap_uwrap. Qed.

(** ** memcmp: lexicographic order of octet strings *)

Fixpoint memcmp (a b : list Z) : comparison :=
  match a, b with
  | x :: a', y :: b' =>
      match Z.compare x y with Eq => memcmp a' b' | c => c end
  | _, _ => Eq
  end.

Lemma le_decode_app l1 l2 :
  le_decode (l1 ++ l2) =
  le_decode l1 + 2 ^ (8 * Z.of_nat (length l1)) * le_decode l2.
Proof.
  induction l1 as [|b l1 IH]; [cbn [app length le_decode]; rewrite Z.pow_0_r; lia|].
  cbn [app length le_decode]. rewrite IH, pow_octets_S. lia.
Qed.

Lemma be_decode_cons b l :
  be_decode (b :: l) = b * 2 ^ (8 * Z.of_nat (length l)) + be_decode l.
Proof.
  unfold be_decode. cbn [rev]. rewrite le_decode_app, length_rev. cbn. lia.
Qed.

(** On octet strings of one length, [memcmp] compares the big-endian values. *)
Lemma memcmp_be_decode a b :
  octets a -> octets b -> length a = length b ->
  memcmp a b = Z.compare (be_decode a) (be_decode b).
Proof.
  intros Ha; revert b; induction Ha as [|x a Hx Ha IH]; intros b Hb Hl.
  - by destruct b.
  - destruct b as [|y b]; [done|]. apply Forall_cons in Hb as [Hy Hb].
    cbn in Hl. injection Hl as Hl. cbn [memcmp]. rewrite !be_decode_cons, <- Hl.
    pose proof (be_decode_bound a Ha). pose proof (be_decode_bound b Hb) as Hbb.
    rewrite <- Hl in Hbb. unfold octet in *.
    set (p := 2 ^ (8 * Z.of_nat (length a))) in *.
    destruct (Z.compare_spec x y) as [->|H1|H1].
    + rewrite IH by done. symmetry.
      destruct (Z.compare_spec (be_decode a) (be_decode b));
        [apply Z.compare_eq_iff|apply Z.compare_lt_iff|apply Z.compare_gt_iff]; lia.
    + symmetry. apply Z.compare_lt_iff. nia.
    + symmetry. apply Z.compare_gt_iff. nia.
Qed.

Lemma be_decode_inj a b :
  octets a -> octets b -> length a = length b -> be_decode a = be_decode b -> a = b.
Proof.
  intros Ha Hb Hl He.
  rewrite <- (be_encode_decode a Ha), <- (be_encode_decode b Hb). by rewrite Hl, He.
Qed.

(** ** Buffers

    [slice off len buf] reads [len] octets at [off], [put off bs buf] is
    [memcpy(buf + off, bs, len)]; both are [None] outside of the buffer, which
    the callers turn into a fault.  A frame is written as a list of such
    copies, in the order the code makes them. *)

Definition slice (off len : nat) (buf : list Z) : option (list Z) :=
  if decide (off + len <= length buf)%nat then Some (take len (drop off buf)) else None.

Definition put (off : nat) (bs buf : list Z) : option (list Z) :=
  if decide (off + length bs <= length buf)%nat
  then Some (take off buf ++ bs ++ drop (off + length bs) buf) else None.

Fixpoint puts (base : nat) (fs : list (nat * list Z)) (buf : list Z) : option (list Z) :=
  match fs with
  | [] => Some buf
  | (off, bs) :: fs' =>
      match put (base + off) bs buf with
      | Some buf' => puts base fs' buf'
      | None => None
      end
  end.

(** The value that the copies leave at [(off, len)]: the last copy that meets
    the range, when it is exactly the range. *)
Fixpoint last_write (fs : list (nat * list Z)) (off len : nat) : option (list Z) :=
  match fs with
  | [] => None
  | (o, bs) :: fs' =>
      match last_write fs' off len with
      | Some r => Some r
      | None =>
          if forallb (fun '(o', bs') =>
               ((o' + length bs' <=? off) || (off + len <=? o'))%nat) fs'
          then if ((o =? off) && (length bs =? len))%nat then Some bs else None
          else None
      end
  end.

Lemma length_put off bs buf buf' : put off bs buf = Some buf' -> length buf' = length buf.
Proof.
  unfold put. case_decide; [|done]. intros [= <-].
  rewrite !length_app, length_take, length_drop. lia.
Qed.

Lemma length_puts base fs buf buf' :
  puts base fs buf = Some buf' -> length buf' = length buf.
Proof.
  revert buf; induction fs as [|[o bs] fs IH]; intros buf; cbn; [by intros [= ->]|].
  destruct (put _ _ _) eqn:E; [|done]. intros H%IH. apply length_put in E. lia.
Qed.

Lemma puts_defined base fs buf :
  Forall (fun '(o, bs) => (base + o + length bs <= length buf)%nat) fs ->
  exists buf', puts base fs buf = Some buf'.
Proof.
  revert buf; induction fs as [|[o bs] fs IH]; intros buf H; cbn; [by eexists|].
  apply Forall_cons in H as [H1 H2].
  destruct (put (base + o) bs buf) as [b|] eqn:E.
  - apply IH. apply length_put in E. by rewrite E.
  - unfold put in E. case_decide; [done|lia].
Qed.

Lemma slice_put_same off bs buf buf' :
  put off bs buf = Some buf' -> slice off (length bs) buf' = Some bs.
Proof.
  intros H. pose proof (length_put _ _ _ _ H) as Hl. revert H.
  unfold put, slice. case_decide as Hd; [|done]. intros [= <-].
  rewrite decide_True by lia. f_equal.
  rewrite drop_app_length' by (rewrite length_take; lia).
  by rewrite take_app_length' by done.
Qed.

Lemma slice_put_disjoint off len o bs buf buf' :
  put o bs buf = Some buf' ->
  ((o + length bs <= off) \/ (off + len <= o))%nat ->
  slice off len buf' = slice off len buf.
Proof.
  intros H Hd. pose proof (length_put _ _ _ _ H) as Hl. revert H.
  unfold put, slice. case_decide as Hb; [|done]. intros [= <-].
  rewrite Hl. case_decide as Hc; [|done]. f_equal.
  apply list_eq. intros i. destruct (decide (i < len)%nat) as [Hi|Hi].
  2:{ rewrite !lookup_take_ge by lia. done. }
  rewrite !lookup_take_lt, !lookup_drop by lia.
  destruct Hd as [Hd|Hd].
  - rewrite lookup_app_r by (rewrite length_take; lia).
    rewrite lookup_app_r by (rewrite length_take; lia).
    rewrite lookup_drop, length_take. f_equal. lia.
  - rewrite lookup_app_l by (rewrite length_take; lia).
    by rewrite lookup_take_lt by lia.
Qed.

Lemma slice_puts_disjoint base fs off len buf buf' :
  puts base fs buf = Some buf' ->
  forallb (fun '(o', bs') => ((o' + length bs' <=? off) || (off + len <=? o'))%nat) fs = true ->
  slice (base + off) len buf' = slice (base + off) len buf.
Proof.
  revert buf; induction fs as [|[o bs] fs IH]; intros buf; cbn; [by intros [= ->]|].
  destruct (put _ _ _) as [b|] eqn:E; [|done].
  intros H [H1 H2]%andb_true_iff. rewrite (IH _ H H2).
  apply (slice_put_disjoint _ _ _ _ _ _ E).
  apply orb_true_iff in H1 as [H1%Nat.leb_le|H1%Nat.leb_le]; lia.
Qed.

(** Reading back a field of a written frame. *)
Lemma slice_puts base fs off len buf buf' r :
  puts base fs buf = Some buf' -> last_write fs off len = Some r ->
  slice (base + off) len buf' = Some r.
Proof.
  revert buf; induction fs as [|[o bs] fs IH]; intros buf; cbn [puts last_write]; [done|].
  destruct (put _ _ _) as [b|] eqn:E; [|done]. intros Hp.
  destruct (last_write fs off len) as [r'|] eqn:El.
  { intros [= <-]. by apply (IH b). }
  destruct (forallb _ fs) eqn:Ef; [|done].
  destruct ((o =? off) && (length bs =? len))%nat eqn:Ee; [|done]. intros [= <-].
  apply andb_true_iff in Ee as [->%Nat.eqb_eq <-%Nat.eqb_eq].
  rewrite (slice_puts_disjoint _ _ _ _ _ _ Hp Ef). by eapply slice_put_same, E.
Qed.

Lemma slice_length off len buf r : slice off len buf = Some r -> length r = len.
Proof.
  unfold slice. case_decide; [|done]. intros [= <-].
  rewrite length_take, length_drop. lia.
Qed.

Lemma slice_octets off len buf r : octets buf -> slice off len buf = Some r -> octets r.
Proof.
  unfold slice. intros Hb. case_decide; [|done]. intros [= <-].
  by apply Forall_take, Forall_drop.
Qed.

(** A slice of a slice, and of a longer buffer. *)
Lemma slice_sub off L o len buf r :
  slice off L buf = Some r -> (o + len <= L)%nat -> slice (off + o) len buf = slice o len r.
Proof.
  intros H Hl. pose proof (slice_length _ _ _ _ H) as Hr. revert H. unfold slice.
  case_decide as Hd; [|done]. intros [= <-].
  rewrite !decide_True by (rewrite ?length_take, ?length_drop; lia). f_equal.
  rewrite skipn_firstn_comm, drop_drop, take_take. f_equal. lia.
Qed.

Lemma slice_app_l off len a b :
  (off + len <= length a)%nat -> slice off len (a ++ b) = slice off len a.
Proof.
  intros H. unfold slice. rewrite !decide_True by (rewrite ?length_app; lia). f_equal.
  rewrite drop_app_le by lia. rewrite take_app_le by (rewrite length_drop; lia). done.
Qed.

Lemma slice_middle a b c : slice (length a) (length b) (a ++ b ++ c) = Some b.
Proof.
  unfold slice. rewrite decide_True by (rewrite !length_app; lia). f_equal.
  rewrite drop_app_length. apply take_app_length.
Qed.

Lemma slice_defined off len buf : (off + len <= length buf)%nat -> exists r, slice off len buf = Some r.
Proof. intros H. unfold slice. rewrite decide_True by done. eauto. Qed.

(** ** State and faults

    A handler runs on a state and either returns a value and a new state or
    faults; a fault is an execution the C++ program has no defined behaviour
    for, or its own [abort()]. *)

Inductive fault :=
  | NullPointer      (* a null pointer is dereferenced *)
  | DanglingPointer  (* a freed object is used or freed again *)
  | OutOfBounds      (* a read or write outside of a buffer or an array *)
  | CastOverflow     (* a value that the target integer type cannot hold *)
  | Aborted.         (* the code calls abort() *)

#[export] Instance fault_eq_dec : EqDecision fault.
Proof. solve_decision. Defined.

Inductive res (S A : Type) :=
  | Done (a : A) (s : S)
  | Fault (f : fault).
Arguments Done {S A} a s.
Arguments Fault {S A} f.

Definition M (S A : Type) : Type := S -> res S A.

#[export] Instance M_ret S : MRet (M S) := fun A a s => Done a s.
#[export] Instance M_bind S : MBind (M S) := fun A B k m s =>
  match m s with
  | Done a s' => k a s'
  | Fault f => Fault f
  end.

Definition gets {S A} (f : S -> A) : M S A := fun s => Done (f s) s.
Definition modify {S} (f : S -> S) : M S unit := fun s => Done tt (f s).
Definition fail {S A} (f : fault) : M S A := fun _ => Fault f.
Definition when {S} (b : bool) (m : M S unit) : M S unit := if b then m else mret tt.
Definition from_option {S A} (f : fault) (o : option A) : M S A :=
  match o with Some a => mret a | None => fail f end.

(** [returns m s Q]: [m] does not fault on [s] and ends in a state and value
    that satisfy [Q]. *)
Definition returns {S A} (m : M S A) (s : S) (Q : A -> S -> Prop) : Prop :=
  match m s with Done a s' => Q a s' | Fault _ => False end.

(** [keeps R m]: whenever [m] returns, the states before and after are related
    by [R]. *)
Definition keeps {S A} (R : S -> S -> Prop) (m : M S A) : Prop :=
  forall s a s', m s = Done a s' -> R s s'.

Section Monad.
Context {S : Type}.
Implicit Types R : S -> S -> Prop.

Lemma returns_bind {A B} (m : M S A) (k : A -> M S B) s Q :
  returns m s (fun a s' => returns (k a) s' Q) -> returns (m ≫= k) s Q.
Proof. unfold returns, mbind, M_bind. by destruct (m s). Qed.

Lemma returns_mono {A} (m : M S A) s (Q Q' : A -> S -> Prop) :
  returns m s Q -> (forall a s', Q a s' -> Q' a s') -> returns m s Q'.
Proof. unfold returns. destruct (m s); [|done]. auto. Qed.

Lemma returns_run {A} (m : M S A) s Q :
  returns m s Q -> exists a s', m s = Done a s' /\ Q a s'.
Proof. unfold returns. destruct (m s) as [a s'|f]; [|done]. eauto. Qed.

Lemma bind_Done {A B} (m : M S A) (k : A -> M S B) s a s' :
  m s = Done a s' -> (m ≫= k) s = k a s'.
Proof. intros H. unfold mbind, M_bind. by rewrite H. Qed.

Lemma keeps_ret {A} R `{!Reflexive R} (a : A) : keeps R (mret a).
Proof. intros s b s' [= _ <-]. reflexivity. Qed.

Lemma keeps_gets {A} R `{!Reflexive R} (f : S -> A) : keeps R (gets f).
Proof. intros s b s' [= _ <-]. reflexivity. Qed.

Lemma keeps_fail {A} R f : keeps R (fail f : M S A).
Proof. intros s b s' [=]. Qed.

Lemma keeps_modify R (f : S -> S) : (forall s, R s (f s)) -> keeps R (modify f).
Proof. intros H s b s' [= _ <-]. apply H. Qed.

Lemma keeps_bind {A B} R `{!Transitive R} (m : M S A) (k : A -> M S B) :
  keeps R m -> (forall a, keeps R (k a)) -> keeps R (m ≫= k).
Proof.
  intros Hm Hk s b s'. unfold mbind, M_bind.
  destruct (m s) as [a t|f] eqn:E; [|done]. intros Ek.
  etrans; [by eapply Hm|by eapply Hk].
Qed.

Lemma keeps_if {A} R (b : bool) (m1 m2 : M S A) :
  keeps R m1 -> keeps R m2 -> keeps R (if b then m1 else m2).
Proof. by destruct b. Qed.

Lemma keeps_when R `{!Reflexive R} (b : bool) (m : M S unit) :
  keeps R m -> keeps R (when b m).
Proof. intros H. destruct b; [done|]. apply keeps_ret; done. Qed.

Lemma keeps_from_option {A} R `{!Reflexive R} f (o : option A) :
  keeps R (from_option f o : M S A).
Proof. destruct o; [by apply keeps_ret|apply keeps_fail]. Qed.
End Monad.

Create HintDb gptp discriminated.
#[export] Hint Resolve keeps_ret keeps_gets keeps_fail keeps_when keeps_from_option : gptp.

(** [keeps_tac] walks the structure of a handler and leaves the state updates
    it makes. *)
Ltac keeps_tac :=
  repeat first
    [ apply keeps_ret; try typeclasses eauto
    | apply keeps_gets; try typeclasses eauto
    | apply keeps_fail
    | apply keeps_when; [try typeclasses eauto|]
    | apply keeps_from_option; try typeclasses eauto
    | solve [eauto 2 with gptp nocore]
    | apply keeps_bind; [try typeclasses eauto| |intros ?]
    | apply keeps_if
    | match goal with
      | |- keeps _ (match ?x with _ => _ end) => destruct x
      end ].
