(* ===== verification/Timestamp.v ===== *)
(** * Timestamps

    The class [Timestamp] of common/ieee1588.hpp (48 bits of seconds in two
    fields, 32 bits of nanoseconds, a version octet), its arithmetic, and the
    in-place nanosecond arithmetic [TIMESTAMP_ADD_NS], [TIMESTAMP_SUB_NS] and
    [TIMESTAMP_TO_NS] that the protocol code computes with.  [ts_val] is the
    abstract value, in nanoseconds. *)

From Stdlib Require Import ZArith Lia.
From stdpp Require Import base list.
From S2P Require Import Prelude.

Definition INVALID_TIMESTAMP_VERSION : Z := 255.
Definition MAX_NANOSECONDS : Z := 1000000000.
Definition NS_PER_SECOND : Z := 1000000000.
Definition LS_SEC_MAX : Z := 4294967295.

Record Timestamp := mkTimestamp {
  nanoseconds : Z;   (* uint32_t *)
  seconds_ls : Z;    (* uint32_t *)
  seconds_ms : Z;    (* uint16_t *)
  _version : Z;      (* uint8_t *)
}.

#[export] Instance eta_Timestamp : Settable Timestamp := fun t =>
  mkTimestamp (nanoseconds t) (seconds_ls t) (seconds_ms t) (_version t).

#[export] Instance Timestamp_eq_dec : EqDecision Timestamp.
Proof. solve_decision. Defined.

(** [Timestamp(ns, s_l, s_m)], with the default version argument. *)
Definition timestamp (ns s_l s_m : Z) : Timestamp :=
  mkTimestamp ns s_l s_m INVALID_TIMESTAMP_VERSION.

Definition INVALID_TIMESTAMP : Timestamp := timestamp 0xC0000000 0 0.
Definition PDELAY_PENDING_TIMESTAMP : Timestamp := timestamp 0xC0000001 0 0.

(** [operator+] *)
Definition ts_plus (this o : Timestamp) : Timestamp :=
  let ns := u32 (nanoseconds this + nanoseconds o) in
  let carry := (ns <? nanoseconds this) || (MAX_NANOSECONDS <=? ns) in
  let ns := u32 (ns - if carry then MAX_NANOSECONDS else 0) in
  let ls := u32 (seconds_ls this + seconds_ls o) in
  let ls := u32 (ls + if carry then 1 else 0) in
  let carry := ls <? seconds_ls this in
  let ms := u16 (seconds_ms this + seconds_ms o) in
  let ms := u16 (ms + if carry then 1 else 0) in
  let version := if _version this =? _version o then _version this
                 else INVALID_TIMESTAMP_VERSION in
  mkTimestamp ns ls ms version.

(** [operator-] *)
Definition ts_minus (this o : Timestamp) : Timestamp :=
  let borrow_this := nanoseconds this <? nanoseconds o in
  let ns := u32 ((if borrow_this then MAX_NANOSECONDS else 0)
                 + nanoseconds this - nanoseconds o) in
  let carry := MAX_NANOSECONDS <? ns in
  let ns := u32 (ns - if carry then MAX_NANOSECONDS else 0) in
  let borrow_total := if borrow_this then 1 else 0 in
  let ls := u32 ((if carry then 1 else 0) + seconds_ls this) in
  let borrow_this := (ls <? borrow_total) || (u32 (ls - borrow_total) <? seconds_ls o) in
  let ls := if borrow_this then u32 (ls - seconds_ls o + 0xFFFFFFFF)
            else u32 (u32 (ls - borrow_total) - seconds_ls o) in
  let borrow_total := if borrow_this then borrow_total + 1 else 0 in
  let ms := u16 ((if carry then 1 else 0) + seconds_ms this) in
  let borrow_this := (ms <? borrow_total) || (u32 (ms - borrow_total) <? seconds_ms o) in
  let ms := if borrow_this then u16 (u32 (ms - seconds_ms o + 0xFFFFFFFF))
            else u16 (u32 (ms - borrow_total - seconds_ms o)) in
  let version := if _version this =? _version o then _version this
                 else INVALID_TIMESTAMP_VERSION in
  mkTimestamp ns ls ms version.

(** [set64]: the version is left as it is. *)
Definition set64 (t : Timestamp) (value : Z) : Timestamp :=
  t <| nanoseconds := value mod 1000000000 |>
    <| seconds_ls := u32 (value / 1000000000) |>
    <| seconds_ms := u16 (Z.shiftr (value / 1000000000) 32) |>.

(** The product is computed on [long long] and returned as [uint64_t]. *)
Definition TIMESTAMP_TO_NS (ts : Timestamp) : Z :=
  u64 ((Z.shiftl (seconds_ms ts) 32 + seconds_ls ts) * 1000000000 + nanoseconds ts).

Definition TIMESTAMP_SUB_NS (ts : Timestamp) (ns : Z) : Timestamp :=
  let secs := Z.lor (seconds_ls ts) (Z.shiftl (seconds_ms ts) 32) in
  let nanos := nanoseconds ts in
  let secs := u64 (secs - ns / NS_PER_SECOND) in
  let ns := ns mod NS_PER_SECOND in
  let '(nanos, secs) :=
    if nanos <? ns then (u64 (nanos + NS_PER_SECOND), u64 (secs - 1)) else (nanos, secs) in
  let nanos := u64 (nanos - ns) in
  ts <| seconds_ms := u16 (Z.shiftr secs 32) |>
     <| seconds_ls := Z.land secs LS_SEC_MAX |>
     <| nanoseconds := u32 nanos |>.

Definition TIMESTAMP_ADD_NS (ts : Timestamp) (ns : Z) : Timestamp :=
  let secs := Z.lor (seconds_ls ts) (Z.shiftl (seconds_ms ts) 32) in
  let nanos := nanoseconds ts in
  let secs := u64 (secs + ns / NS_PER_SECOND) in
  let nanos := u64 (nanos + ns mod NS_PER_SECOND) in
  let '(nanos, secs) :=
    if NS_PER_SECOND <? nanos then (u64 (nanos - NS_PER_SECOND), u64 (secs + 1))
    else (nanos, secs) in
  ts <| seconds_ms := u16 (Z.shiftr secs 32) |>
     <| seconds_ls := Z.land secs LS_SEC_MAX |>
     <| nanoseconds := u32 nanos |>.

(** [byte_swap64]: two cursors exchange the octets of the host representation
    until they meet; [swap_ends] is the loop, with the distance as fuel. *)
Fixpoint swap_ends (fuel : nat) (s e : nat) (mem : list Z) : list Z :=
  match fuel with
  | O => mem
  | S fuel' =>
      if (s <? e)%nat then
        match mem !! s, mem !! e with
        | Some a, Some b => swap_ends fuel' (S s) (e - 1) (<[e := a]> (<[s := b]> mem))
        | _, _ => mem
        end
      else mem
  end.

Definition byte_swap64 (x : Z) : Z :=
  le_decode (swap_ends 8 0 7 (le_encode 8 x)).

(** ** Values *)

Record ts_wf (t : Timestamp) : Prop := {
  wf_ns : fits 32 (nanoseconds t);
  wf_ls : fits 32 (seconds_ls t);
  wf_ms : fits 16 (seconds_ms t);
}.

(** Below one second of nanoseconds; [ts_near] also admits exactly one second,
    which [TIMESTAMP_ADD_NS] produces. *)
Definition ts_normal (t : Timestamp) : Prop := ts_wf t /\ nanoseconds t < NS_PER_SECOND.
Definition ts_near (t : Timestamp) : Prop := ts_wf t /\ nanoseconds t <= NS_PER_SECOND.

Definition ts_secs (t : Timestamp) : Z := seconds_ms t * 2 ^ 32 + seconds_ls t.
Definition ts_val (t : Timestamp) : Z := ts_secs t * NS_PER_SECOND + nanoseconds t.

Lemma ts_normal_near t : ts_normal t -> ts_near t.
Proof. intros [H1 H2]. split; [done|lia]. Qed.

Lemma shiftr32 x : Z.shiftr x 32 = x / 4294967296.
Proof. by rewrite Z.shiftr_div_pow2 by lia. Qed.

Lemma shiftl32 x : Z.shiftl x 32 = x * 4294967296.
Proof. by rewrite Z.shiftl_mul_pow2 by lia. Qed.

Lemma land32 x : Z.land x LS_SEC_MAX = x mod 4294967296.
Proof. change LS_SEC_MAX with (Z.ones 32). by rewrite Z.land_ones by lia. Qed.

Lemma lor32 t : ts_wf t ->
  Z.lor (seconds_ls t) (Z.shiftl (seconds_ms t) 32) = ts_secs t.
Proof. intros []. rewrite lor_shiftl_add by (done || lia). unfold ts_secs. lia. Qed.

(** [ts_lia] opens the bounds of the timestamps in the context and the widths. *)
Ltac ts_lia :=
  unfold ts_near, ts_normal, ts_val, ts_secs, NS_PER_SECOND, MAX_NANOSECONDS in *;
  repeat match goal with
    | H : ts_wf _ |- _ => destruct H
    | H : _ /\ _ |- _ => destruct H
    end; int_unfold; cbn -[Z.mul Z.pow Z.div Z.modulo] in *;
  Z.div_mod_to_equations; lia.

(** Two timestamps below one second of nanoseconds and with one value are one. *)
Lemma ts_val_inj a b :
  ts_normal a -> ts_normal b -> _version a = _version b -> ts_val a = ts_val b -> a = b.
Proof.
  intros Ha Hb Hv He. destruct a as [n1 l1 m1 v1], b as [n2 l2 m2 v2]. cbn in Hv. subst v2.
  assert (n1 = n2 /\ l1 = l2 /\ m1 = m2) as (-> & -> & ->); [|done].
  ts_lia.
Qed.

(** ** Nanosecond arithmetic *)

Lemma add_ns_spec t n :
  ts_near t -> fits 64 n -> ts_val t + n < 2 ^ 48 * NS_PER_SECOND ->
  ts_val (TIMESTAMP_ADD_NS t n) = ts_val t + n /\
  ts_near (TIMESTAMP_ADD_NS t n) /\ _version (TIMESTAMP_ADD_NS t n) = _version t.
Proof.
  intros Ht Hn Hb. unfold TIMESTAMP_ADD_NS. rewrite lor32 by apply Ht.
  destruct (Z.ltb_spec NS_PER_SECOND (u64 (nanoseconds t + n mod NS_PER_SECOND)));
    cbn; rewrite ?shiftr32, ?land32; (split; [|split; [split; [constructor|]|done]]); ts_lia.
Qed.

Lemma add_ns_secs t n :
  ts_normal t -> fits 64 n -> ts_val t + n < 2 ^ 48 * NS_PER_SECOND ->
  n / NS_PER_SECOND <= ts_secs (TIMESTAMP_ADD_NS t n).
Proof.
  intros Ht Hn Hb. unfold TIMESTAMP_ADD_NS. rewrite lor32 by apply Ht.
  destruct (Z.ltb_spec NS_PER_SECOND (u64 (nanoseconds t + n mod NS_PER_SECOND)));
    unfold ts_secs at 1; cbn; rewrite ?shiftr32, ?land32; ts_lia.
Qed.

Lemma add_ns_denormal t n :
  ts_normal t -> fits 64 n ->
  nanoseconds (TIMESTAMP_ADD_NS t n) = NS_PER_SECOND <->
  nanoseconds t + n mod NS_PER_SECOND = NS_PER_SECOND.
Proof.
  intros Ht Hn. unfold TIMESTAMP_ADD_NS.
  destruct (Z.ltb_spec NS_PER_SECOND (u64 (nanoseconds t + n mod NS_PER_SECOND)));
    cbn; ts_lia.
Qed.

Lemma sub_ns_spec t n :
  ts_near t -> 0 <= n <= ts_val t -> n / NS_PER_SECOND <= ts_secs t ->
  ts_val (TIMESTAMP_SUB_NS t n) = ts_val t - n /\
  ts_near (TIMESTAMP_SUB_NS t n) /\ _version (TIMESTAMP_SUB_NS t n) = _version t.
Proof.
  intros Ht Hn Hs. unfold TIMESTAMP_SUB_NS. rewrite lor32 by apply Ht.
  destruct (Z.ltb_spec (nanoseconds t) (n mod NS_PER_SECOND));
    cbn; rewrite ?shiftr32, ?land32; (split; [|split; [split; [constructor|]|done]]); ts_lia.
Qed.

Lemma sub_ns_normal t n :
  ts_near t -> 0 <= n <= ts_val t -> n / NS_PER_SECOND <= ts_secs t ->
  (nanoseconds t = NS_PER_SECOND -> n mod NS_PER_SECOND <> 0) ->
  ts_normal (TIMESTAMP_SUB_NS t n).
Proof.
  intros Ht Hn Hs Hz. destruct (sub_ns_spec t n Ht Hn Hs) as (_ & [Hw _] & _).
  split; [done|]. unfold TIMESTAMP_SUB_NS.
  destruct (Z.ltb_spec (nanoseconds t) (n mod NS_PER_SECOND)); cbn; ts_lia.
Qed.

(** [TIMESTAMP_TO_NS] is the value while 64 bits hold it. *)
Lemma TIMESTAMP_TO_NS_val t :
  ts_wf t -> ts_val t < 2 ^ 64 -> TIMESTAMP_TO_NS t = ts_val t.
Proof. intros Ht Hb. unfold TIMESTAMP_TO_NS. rewrite shiftl32. ts_lia. Qed.

Lemma TIMESTAMP_TO_NS_fits t : fits 64 (TIMESTAMP_TO_NS t).
Proof. apply uwrap_fits. lia. Qed.

(** [TIMESTAMP_ADD_NS] adds: for a timestamp of at most one second of
    nanoseconds and a sum that 48 bits of seconds hold, the value of the result
    is the sum, no field wraps, and the version is kept.  The carry is taken on
    [>], not on [>=]: a normal timestamp is left with a whole second in its
    nanosecond field exactly when the two nanosecond parts add up to one second. *)
Theorem TIMESTAMP_ADD_NS_value t n :
  ts_near t -> fits 64 n -> ts_val t + n < 2 ^ 48 * NS_PER_SECOND ->
  ts_val (TIMESTAMP_ADD_NS t n) = ts_val t + n /\
  ts_near (TIMESTAMP_ADD_NS t n) /\ _version (TIMESTAMP_ADD_NS t n) = _version t /\
  (nanoseconds t < NS_PER_SECOND ->
   nanoseconds (TIMESTAMP_ADD_NS t n) = NS_PER_SECOND <->
   nanoseconds t + n mod NS_PER_SECOND = NS_PER_SECOND).
Proof.
  intros Ht Hn Hb. destruct (add_ns_spec t n Ht Hn Hb) as (? & ? & ?).
  do 3 (split; [done|]). intros. apply add_ns_denormal; [split; [apply Ht|done]|done].
Qed.

Lemma TIMESTAMP_ADD_NS_value_witness :
  ts_val (TIMESTAMP_ADD_NS (timestamp 999999999 7 0) 2500000001) = 10500000000.
Proof.
  refine (eq_trans (proj1 (TIMESTAMP_ADD_NS_value (timestamp 999999999 7 0) 2500000001 _ _ _)) _);
    [closed_tac | closed_tac | closed_tac | reflexivity].
Defined.

(** [TIMESTAMP_SUB_NS] subtracts: when a normal timestamp is not smaller
    than the amount, the value of the result is the difference, the result is
    normal, and no field wraps. *)
Theorem TIMESTAMP_SUB_NS_value t n :
  ts_normal t -> 0 <= n <= ts_val t ->
  ts_val (TIMESTAMP_SUB_NS t n) = ts_val t - n /\
  ts_normal (TIMESTAMP_SUB_NS t n) /\ _version (TIMESTAMP_SUB_NS t n) = _version t.
Proof.
  intros Ht Hn. pose proof (ts_normal_near t Ht) as Hw.
  assert (Hs : n / NS_PER_SECOND <= ts_secs t) by ts_lia.
  destruct (sub_ns_spec t n Hw Hn Hs) as (? & _ & ?). split; [done|]. split; [|done].
  apply sub_ns_normal; [done..|]. destruct Ht; lia.
Qed.

Lemma TIMESTAMP_SUB_NS_value_witness :
  ts_val (TIMESTAMP_SUB_NS (timestamp 5 7 1) 4294967297000000006) = 5999999999.
Proof.
  refine (eq_trans (proj1 (TIMESTAMP_SUB_NS_value (timestamp 5 7 1) 4294967297000000006 _ _)) _);
    [closed_tac | closed_tac | reflexivity].
Defined.

(** Subtracting what was added gives the same timestamp back, field by
    field, also when the sum is the denormal one. *)
Theorem TIMESTAMP_SUB_ADD t n :
  ts_normal t -> fits 64 n -> ts_val t + n < 2 ^ 48 * NS_PER_SECOND ->
  TIMESTAMP_SUB_NS (TIMESTAMP_ADD_NS t n) n = t.
Proof.
  intros Ht Hn Hb. pose proof (add_ns_secs t n Ht Hn Hb) as Hs.
  destruct (add_ns_spec t n (ts_normal_near t Ht) Hn Hb) as (Hv & Hw & Hver).
  assert (Hle : 0 <= n <= ts_val (TIMESTAMP_ADD_NS t n)).
  { rewrite Hv. clear - Ht Hn. ts_lia. }
  destruct (sub_ns_spec _ n Hw Hle Hs) as (Hv' & _ & Hver').
  apply ts_val_inj; [|done|congruence|lia].
  apply sub_ns_normal; [done..|]. intros Hd. apply add_ns_denormal in Hd; [|done..].
  clear - Hd Ht. ts_lia.
Qed.

Lemma TIMESTAMP_SUB_ADD_witness :
  TIMESTAMP_SUB_NS (TIMESTAMP_ADD_NS (timestamp 999999999 7 0) 3000000001) 3000000001
  = timestamp 999999999 7 0.
Proof.
  apply (TIMESTAMP_SUB_ADD (timestamp 999999999 7 0) 3000000001); closed_tac.
Defined.

(** [set64] and [TIMESTAMP_TO_NS] are inverse on every 64-bit count of
    nanoseconds, and [set64] always leaves a normal timestamp. *)
Theorem set64_TO_NS t v :
  fits 64 v ->
  TIMESTAMP_TO_NS (set64 t v) = v /\ ts_normal (set64 t v) /\ _version (set64 t v) = _version t.
Proof.
  intros Hv. unfold set64, TIMESTAMP_TO_NS. cbn -[Z.mul Z.div Z.modulo].
  rewrite shiftl32, shiftr32. split; [ts_lia|]. split; [|done].
  split; [constructor|]; cbn; ts_lia.
Qed.

Lemma set64_TO_NS_witness :
  TIMESTAMP_TO_NS (set64 (timestamp 0 0 0) 18446744073709551615) = 18446744073709551615.
Proof. apply (set64_TO_NS (timestamp 0 0 0) 18446744073709551615). closed_tac. Defined.

(** ** The operators [+] and [-] *)

(** [operator+] adds two normal timestamps: unless the low second word of
    the second operand is all ones (where the code can lose the carry), the
    result is normal and its value is the sum, up to 48 bits of seconds. *)
Theorem ts_plus_value a b :
  ts_normal a -> ts_normal b -> seconds_ls b < 0xFFFFFFFF ->
  ts_val a + ts_val b < 2 ^ 48 * NS_PER_SECOND ->
  ts_val (ts_plus a b) = ts_val a + ts_val b /\ ts_normal (ts_plus a b).
Proof.
  intros Ha Hb Hl Hs.
  assert (Hn : u32 (nanoseconds a + nanoseconds b) = nanoseconds a + nanoseconds b) by ts_lia.
  unfold ts_plus. rewrite Hn.
  assert ((nanoseconds a + nanoseconds b <? nanoseconds a) = false) as ->
    by (apply Z.ltb_ge; ts_lia).
  cbn [orb].
  destruct (Z.leb_spec MAX_NANOSECONDS (nanoseconds a + nanoseconds b)) as [H|H];
    match goal with
    | |- context [if ?x <? seconds_ls a then _ else _] =>
        destruct (Z.ltb_spec x (seconds_ls a))
    end; (split; [|split; [constructor|]]); ts_lia.
Qed.

Lemma ts_plus_value_witness :
  ts_val (ts_plus (timestamp 999999999 0xFFFFFFFF 0) (timestamp 2 0 0)) = 4294967296000000001.
Proof.
  refine (eq_trans (proj1 (ts_plus_value (timestamp 999999999 0xFFFFFFFF 0)
    (timestamp 2 0 0) _ _ _ _)) _); [closed_tac..|reflexivity].
Defined.

(** The carry that [operator+] loses: with the low second word of the
    second operand all ones and a carry out of the nanoseconds, the low words
    wrap to the first operand's and the high word is not incremented, so that
    the result is short of the sum by 2^32 seconds. *)
Theorem ts_plus_lost_carry a b :
  ts_normal a -> ts_normal b -> seconds_ls b = 0xFFFFFFFF ->
  NS_PER_SECOND <= nanoseconds a + nanoseconds b ->
  ts_val a + ts_val b < 2 ^ 48 * NS_PER_SECOND ->
  ts_val (ts_plus a b) = ts_val a + ts_val b - 2 ^ 32 * NS_PER_SECOND.
Proof.
  intros Ha Hb Hl Hc Hs.
  assert (Hn : u32 (nanoseconds a + nanoseconds b) = nanoseconds a + nanoseconds b) by ts_lia.
  unfold ts_plus. rewrite Hn.
  assert ((MAX_NANOSECONDS <=? nanoseconds a + nanoseconds b) = true) as ->
    by (apply Z.leb_le; ts_lia).
  rewrite orb_true_r. rewrite Hl.
  assert (Hw : u32 (u32 (seconds_ls a + 0xFFFFFFFF) + 1) = seconds_ls a) by ts_lia.
  rewrite Hw, Z.ltb_irrefl. ts_lia.
Qed.

Lemma ts_plus_lost_carry_witness :
  ts_val (ts_plus (timestamp 500000000 0 0) (timestamp 500000000 0xFFFFFFFF 0)) = 0.
Proof.
  refine (eq_trans (ts_plus_lost_carry (timestamp 500000000 0 0)
    (timestamp 500000000 0xFFFFFFFF 0) _ _ _ _ _) _); [closed_tac..|reflexivity].
Defined.

(** [operator-] subtracts two normal timestamps whenever the low second
    words need no borrow: the result is normal and its value is the difference.
    This covers every compensation by a delay of less than a second on a
    timestamp whose low second word is not zero. *)
Theorem ts_minus_value a b :
  ts_normal a -> ts_normal b -> seconds_ms b <= seconds_ms a ->
  seconds_ls b + (if nanoseconds a <? nanoseconds b then 1 else 0) <= seconds_ls a ->
  ts_val (ts_minus a b) = ts_val a - ts_val b /\ ts_normal (ts_minus a b).
Proof.
  intros Ha Hb Hms Hls. unfold ts_minus.
  set (bt := if nanoseconds a <? nanoseconds b then 1 else 0) in *.
  assert (Hn : u32 ((if nanoseconds a <? nanoseconds b then MAX_NANOSECONDS else 0)
                    + nanoseconds a - nanoseconds b)
               = bt * MAX_NANOSECONDS + nanoseconds a - nanoseconds b).
  { subst bt. destruct (Z.ltb_spec (nanoseconds a) (nanoseconds b)); ts_lia. }
  assert (Hr : 0 <= bt <= 1 /\ 0 <= bt * MAX_NANOSECONDS + nanoseconds a - nanoseconds b
               < MAX_NANOSECONDS).
  { subst bt. destruct (Z.ltb_spec (nanoseconds a) (nanoseconds b)); ts_lia. }
  rewrite Hn. clearbody bt. clear Hn.
  set (ns := bt * MAX_NANOSECONDS + nanoseconds a - nanoseconds b) in *.
  assert ((MAX_NANOSECONDS <? ns) = false) as -> by (apply Z.ltb_ge; lia).
  rewrite !Z.sub_0_r, !Z.add_0_l.
  assert (H1 : u32 ns = ns /\ u32 (seconds_ls a) = seconds_ls a
    /\ u32 (seconds_ls a - bt) = seconds_ls a - bt /\ u16 (seconds_ms a) = seconds_ms a)
    by ts_lia.
  destruct H1 as (-> & -> & -> & ->).
  assert ((seconds_ls a <? bt) || (seconds_ls a - bt <? seconds_ls b) = false) as ->
    by (apply orb_false_iff; rewrite !Z.ltb_ge; ts_lia).
  rewrite Z.sub_0_r.
  assert ((seconds_ms a <? 0) || (u32 (seconds_ms a) <? seconds_ms b) = false) as ->
    by (apply orb_false_iff; rewrite !Z.ltb_ge; ts_lia).
  split; [|split; [constructor|]]; subst ns; ts_lia.
Qed.

Lemma ts_minus_value_witness :
  ts_val (ts_minus (timestamp 100 7 0) (timestamp 200 0 0)) = 6999999900.
Proof.
  refine (eq_trans (proj1 (ts_minus_value (timestamp 100 7 0) (timestamp 200 0 0) _ _ _ _)) _);
    [closed_tac..|reflexivity].
Defined.

(** The borrow between the second words is off by one: when the low second
    word of the first operand is the smaller one and the nanoseconds need no
    borrow, the low word of the result is one less than the difference. *)
Theorem ts_minus_borrow a b :
  ts_normal a -> ts_normal b -> nanoseconds b <= nanoseconds a ->
  seconds_ls a < seconds_ls b -> seconds_ms b < seconds_ms a ->
  ts_val (ts_minus a b) = ts_val a - ts_val b - NS_PER_SECOND.
Proof.
  intros Ha Hb Hn Hl Hm. unfold ts_minus.
  assert ((nanoseconds a <? nanoseconds b) = false) as -> by (apply Z.ltb_ge; lia).
  assert (H1 : u32 (0 + nanoseconds a - nanoseconds b) = nanoseconds a - nanoseconds b) by ts_lia.
  rewrite H1. clear H1.
  assert ((MAX_NANOSECONDS <? nanoseconds a - nanoseconds b) = false) as ->
    by (apply Z.ltb_ge; ts_lia).
  rewrite !Z.sub_0_r, !Z.add_0_l.
  assert (H1 : u32 (seconds_ls a) = seconds_ls a /\ u16 (seconds_ms a) = seconds_ms a) by ts_lia.
  destruct H1 as (-> & ->).
  assert ((seconds_ls a <? 0) || (u32 (seconds_ls a) <? seconds_ls b) = true) as ->
    by (apply orb_true_iff; right; apply Z.ltb_lt; ts_lia).
  assert ((seconds_ms a <? 1) || (u32 (seconds_ms a - 1) <? seconds_ms b) = false) as ->
    by (apply orb_false_iff; rewrite !Z.ltb_ge; ts_lia).
  ts_lia.
Qed.

Lemma ts_minus_borrow_witness :
  ts_val (ts_minus (timestamp 0 0 1) (timestamp 0 1 0)) = 4294967294 * 1000000000.
Proof.
  refine (eq_trans (ts_minus_borrow (timestamp 0 0 1) (timestamp 0 1 0) _ _ _ _ _) _);
    [closed_tac..|reflexivity].
Defined.

(** ** Octet swapping *)

(** [byte_swap64] reverses the eight octets of its argument (the exchange
    loop ends with the cursors met), hence applying it twice is the identity on
    64-bit values. *)
Theorem byte_swap64_spec x :
  byte_swap64 x = le_decode (rev (le_encode 8 x)) /\
  byte_swap64 (byte_swap64 x) = u64 x.
Proof.
  assert (H : forall y, byte_swap64 y = bswap 8 y) by (intros y; reflexivity).
  split; [apply H|]. rewrite !H. apply bswap_involutive.
Qed.
