(* ===== verification/CFloat.v ===== *)
(** * Floating point

    The code computes ratios on [long double] ([FrequencyRatio], ptptypes.hpp:
    the 80-bit extended format of x86-64 Linux), intervals on [double], and the
    servo's output on [float].  The three formats are instances of the
    Standard Library's executable IEEE-754 specification.  A conversion to an
    integer truncates and is undefined out of range, which callers turn into a
    fault. *)

From Stdlib Require Import ZArith Lia.
From Stdlib.Floats Require Import SpecFloat.
From stdpp Require Import base list.
From S2P Require Import Prelude.

(** Precision and largest exponent of the formats. *)
Record format := mkFormat { prec : Z; emax : Z }.
Definition fmt_float : format := mkFormat 24 128.
Definition fmt_double : format := mkFormat 53 1024.
Definition fmt_ldouble : format := mkFormat 64 16384.

(** The value nearest to [m * 2^e]. *)
Definition fl (f : format) (m e : Z) : spec_float := binary_normalize (prec f) (emax f) m e false.
Definition fl_of_Z (f : format) (z : Z) : spec_float := fl f z 0.

(** The value nearest to the decimal [n / d], as a literal denotes it. *)
Definition fl_lit (f : format) (n d : Z) : spec_float :=
  SFdiv (prec f) (emax f) (fl_of_Z f n) (fl_of_Z f d).

Definition fl_add (f : format) := SFadd (prec f) (emax f).
Definition fl_sub (f : format) := SFsub (prec f) (emax f).
Definition fl_mul (f : format) := SFmul (prec f) (emax f).
Definition fl_div (f : format) := SFdiv (prec f) (emax f).

(** Conversion to another format, rounding to nearest. *)
Definition fl_cvt (f : format) (x : spec_float) : spec_float :=
  match x with
  | S754_finite s m e => binary_normalize (prec f) (emax f) (cond_Zopp s (Zpos m)) e s
  | _ => x
  end.

(** Truncation towards zero; none for an infinity or a NaN. *)
Definition fl_trunc (x : spec_float) : option Z :=
  match x with
  | S754_zero _ => Some 0
  | S754_finite s m e =>
      Some (cond_Zopp s (if 0 <=? e then Zpos m * 2 ^ e else Zpos m / 2 ^ (- e)))
  | _ => None
  end.

(** Casts to the integer types, undefined outside of their range. *)
Definition cast_u (w : Z) (x : spec_float) : option Z :=
  match fl_trunc x with
  | Some z => if decide (0 <= z < 2 ^ w) then Some z else None
  | None => None
  end.
Definition cast_s (w : Z) (x : spec_float) : option Z :=
  match fl_trunc x with
  | Some z => if decide (- 2 ^ (w - 1) <= z < 2 ^ (w - 1)) then Some z else None
  | None => None
  end.

Lemma cast_u_fits w x z : cast_u w x = Some z -> fits w z.
Proof. unfold cast_u, fits. destruct (fl_trunc x); [|done]. case_decide; [|done]. by intros [= <-]. Qed.

Lemma cast_s_sfits w x z : cast_s w x = Some z -> sfits w z.
Proof. unfold cast_s, sfits. destruct (fl_trunc x); [|done]. case_decide; [|done]. by intros [= <-]. Qed.

(** A value is a number (not a NaN). *)
Definition is_number (x : spec_float) : bool := match x with S754_nan => false | _ => true end.

Lemma SFltb_false_leb x y :
  is_number x = true -> is_number y = true -> SFltb x y = false -> SFleb y x = true.
Proof.
  unfold SFltb, SFleb.
  assert (H : is_number x = true -> is_number y = true ->
              exists c, SFcompare x y = Some c /\ SFcompare y x = Some (CompOpp c)).
  { destruct x as [sx|sx| |sx mx ex], y as [sy|sy| |sy my ey]; cbn; try done; intros _ _;
      try (destruct sx); try (destruct sy); cbn; eauto.
    - rewrite (Z.compare_antisym ex ey).
      destruct (Z.compare ex ey); cbn; eauto.
      fold (Pos.compare mx my) (Pos.compare my mx). rewrite (Pos.compare_antisym mx my).
      destruct (Pos.compare mx my); cbn; eauto.
    - rewrite (Z.compare_antisym ex ey).
      destruct (Z.compare ex ey); cbn; eauto.
      fold (Pos.compare mx my) (Pos.compare my mx). rewrite (Pos.compare_antisym mx my).
      destruct (Pos.compare mx my); cbn; eauto. }
  intros Hx Hy. destruct (H Hx Hy) as (c & -> & ->). by destruct c.
Qed.

(** ** Integers on [long double] are exact *)

Lemma digits2_pos_size m : Zpos (digits2_pos m) = Z.log2 (Zpos m) + 1.
Proof.
  induction m as [m IH|m IH|]; cbn [digits2_pos]; [..|done]; rewrite Pos2Z.inj_succ, IH.
  - change (Zpos m~1) with (2 * Zpos m + 1). rewrite Z.log2_succ_double by lia. lia.
  - change (Zpos m~0) with (2 * Zpos m). rewrite Z.log2_double by lia. lia.
Qed.

Lemma iter_xO m n : Zpos (Pos.iter xO m n) = Zpos m * 2 ^ Zpos n.
Proof.
  induction n as [|n IH] using Pos.peano_ind; [cbn; lia|].
  rewrite Pos.iter_succ, Pos2Z.inj_xO, IH, Pos2Z.inj_succ, Z.pow_succ_r by lia. lia.
Qed.

(** A normal mantissa with an exponent in range is kept as it is. *)
Lemma round_normal s m e :
  Z.log2 (Zpos m) = 63 -> -16445 <= e <= 16320 ->
  binary_round_aux 64 16384 s (Zpos m) e loc_Exact = S754_finite s m e.
Proof.
  intros Hm He.
  assert (Hs : shr_fexp 64 16384 (Zpos m) e loc_Exact = (shr_record_of_loc (Zpos m) loc_Exact, e)).
  { unfold shr_fexp, shr, fexp, Zdigits2. rewrite digits2_pos_size, Hm.
    unfold SpecFloat.emin. replace (Z.max _ _ - e) with 0 by lia. done. }
  unfold binary_round_aux. rewrite Hs. cbn -[Z.leb Z.sub]. rewrite Hs. cbn -[Z.leb Z.sub].
  destruct (Z.leb_spec e (16384 - 64)); [done|lia].
Qed.

(** An integer of at most 64 bits is normalised. *)
Lemma fl_of_pos z : Zpos z < 2 ^ 64 ->
  exists m e, fl_of_Z fmt_ldouble (Zpos z) = S754_finite false m e /\
    Z.log2 (Zpos m) = 63 /\ Zpos m = Zpos z * 2 ^ (- e) /\ -63 <= e <= 0.
Proof.
  intros Hz. assert (Hl : 0 <= Z.log2 (Zpos z) <= 63).
  { split; [apply Z.log2_nonneg|]. apply Z.lt_succ_r, Z.log2_lt_pow2; [lia|done]. }
  unfold fl_of_Z, fl, binary_normalize, binary_round. cbn [prec emax fmt_ldouble].
  rewrite digits2_pos_size. unfold fexp, SpecFloat.emin, shl_align.
  replace (Z.max _ _) with (Z.log2 (Zpos z) - 63) by lia.
  destruct (Z.log2 (Zpos z) - 63 - 0) as [|d|d] eqn:Ed; [..|].
  - exists z, 0. rewrite round_normal by lia. split; [done|]. lia.
  - lia.
  - exists (Pos.iter xO z d), (Z.log2 (Zpos z) - 63).
    assert (Hd : Z.log2 (Zpos (Pos.iter xO z d)) = 63).
    { rewrite iter_xO, Z.log2_mul_pow2 by lia. lia. }
    rewrite round_normal by lia. split; [done|]. split; [done|]. split; [|lia].
    rewrite iter_xO. f_equal. f_equal. lia.
Qed.

(** The quotient of an integer by itself is exactly one. *)
Lemma fl_div_self z : 0 < z < 2 ^ 64 ->
  fl_div fmt_ldouble (fl_of_Z fmt_ldouble z) (fl_of_Z fmt_ldouble z) = fl_of_Z fmt_ldouble 1.
Proof.
  intros Hz. destruct z as [|z|z]; [lia| |lia].
  destruct (fl_of_pos z) as (m & e & -> & Hm & _ & He); [lia|].
  unfold fl_div, SFdiv, SFdiv_core_binary. cbn [prec emax fmt_ldouble].
  unfold Zdigits2, fexp, SpecFloat.emin. rewrite !Z.sub_diag.
  change (Z.min (Z.max (0 - 64) (3 - 16384 - 64)) 0) with (-64). change (0 - -64) with 64. cbn iota.
  rewrite Z.shiftl_mul_pow2 by lia.
  pose proof (Z_div_mod (Zpos m * 2 ^ 64) (Zpos m) ltac:(lia)) as Hd.
  destruct (Z.div_eucl (Zpos m * 2 ^ 64) (Zpos m)) as [q r]. destruct Hd as [Hq Hr].
  assert (Hq2 : q = Zpos m * 2 ^ 64 / Zpos m) by (apply (Z.div_unique _ _ q r); lia).
  rewrite Z.mul_comm, Z.div_mul in Hq2 by lia. subst q. replace r with 0 by lia.
  unfold new_location, new_location_even, new_location_odd. cbn [Z.eqb].
  destruct (Z.even _); vm_compute; reflexivity.
Qed.

(** An integer of at most 64 bits survives the way to [long double] and back. *)
Lemma fl_trunc_of_Z z : 0 <= z < 2 ^ 64 -> fl_trunc (fl_of_Z fmt_ldouble z) = Some z.
Proof.
  intros Hz. destruct z as [|z|z]; [done| |lia].
  destruct (fl_of_pos z) as (m & e & -> & _ & Hm & He); [lia|]. cbn [fl_trunc cond_Zopp].
  rewrite Hm. f_equal. destruct (Z.leb_spec 0 e).
  - replace e with 0 by lia. lia.
  - apply Z.div_mul, Z.pow_nonzero; lia.
Qed.

(** Shifting out zeros is exact. *)
Lemma iter_pos_iter {A : Type} (f : A -> A) n x : SpecFloat.iter_pos f n x = @Pos.iter A f x n.
Proof.
  revert x. induction n as [n IH|n IH|]; intros x; cbn [SpecFloat.iter_pos Pos.iter]; [..|done].
  - by rewrite !IH, !Pos.iter_swap.
  - by rewrite !IH.
Qed.

Lemma shr_zeros m n :
  SpecFloat.iter_pos shr_1 n (Build_shr_record (Zpos m * 2 ^ Zpos n) false false) =
  Build_shr_record (Zpos m) false false.
Proof.
  rewrite iter_pos_iter. induction n as [|n IH] using Pos.peano_ind.
  - change (2 ^ 1) with 2. rewrite Z.mul_comm. done.
  - rewrite Pos.iter_succ_r, Pos2Z.inj_succ, Z.pow_succ_r by lia.
    replace (Zpos m * (2 * 2 ^ Zpos n)) with (2 * (Zpos m * 2 ^ Zpos n)) by lia.
    rewrite <- (iter_xO m n) in *. exact IH.
Qed.

(** The product of an integer with one is the integer. *)
Lemma fl_mul_one z : 0 <= z < 2 ^ 64 ->
  fl_mul fmt_ldouble (fl_of_Z fmt_ldouble z) (fl_of_Z fmt_ldouble 1) = fl_of_Z fmt_ldouble z.
Proof.
  intros Hz. destruct z as [|z|z]; [by vm_compute| |lia].
  destruct (fl_of_pos z) as (m & e & -> & Hm & _ & He); [lia|].
  assert (E1 : fl_of_Z fmt_ldouble 1 = S754_finite false (2 ^ 63) (-63)) by (by vm_compute).
  rewrite E1. unfold fl_mul, SFmul. cbn [prec emax fmt_ldouble].
  rewrite Pos2Z.inj_mul, Pos2Z.inj_pow. change (Zpos 2 ^ Zpos 63) with (2 ^ 63).
  assert (Hs : shr_fexp 64 16384 (Zpos m * 2 ^ 63) (e + -63) loc_Exact =
               (Build_shr_record (Zpos m) false false, e)).
  { unfold shr_fexp, shr, fexp, SpecFloat.emin.
    assert (Hd : Zdigits2 (Zpos m * 2 ^ 63) = 127).
    { rewrite <- (iter_xO m 63). unfold Zdigits2. rewrite digits2_pos_size, iter_xO.
      rewrite Z.log2_mul_pow2, Hm by lia. done. }
    rewrite Hd. replace (Z.max _ _ - _) with 63 by lia. unfold shr_record_of_loc.
    rewrite (shr_zeros m 63). f_equal. lia. }
  assert (Hr : binary_round_aux 64 16384 (xorb false false) (Zpos m) e loc_Exact = S754_finite false m e).
  { apply round_normal; lia. }
  unfold binary_round_aux in *. rewrite Hs.
  assert (Hk : shr_fexp 64 16384 (Zpos m) e loc_Exact = (Build_shr_record (Zpos m) false false, e)).
  { unfold shr_fexp, shr, fexp, Zdigits2, SpecFloat.emin. rewrite digits2_pos_size, Hm.
    replace (Z.max _ _ - e) with 0 by lia. done. }
  rewrite Hk in Hr. exact Hr.
Qed.

(** ** Message intervals

    [pow(2, log) * 1000000000.0] on doubles; [pow] is exact on powers of two. *)
Definition pow2 (log : Z) : spec_float := fl fmt_double 1 log.

Definition interval_f (log : Z) : spec_float :=
  fl_mul fmt_double (pow2 log) (fl_of_Z fmt_double 1000000000).

(** [(unsigned long long)(pow(2, log) * 1000000000.0)] *)
Definition interval_ns (log : Z) : option Z := cast_u 64 (interval_f log).

(** [(unsigned long long)(3 * (pow(2, log) * 1000000000.0))] *)
Definition interval3_ns (log : Z) : option Z :=
  cast_u 64 (fl_mul fmt_double (fl_of_Z fmt_double 3) (interval_f log)).

(** [(3 * pow(2.0, log)) * 1000000000.0], with the product from the left. *)
Definition interval3l_ns (log : Z) : option Z :=
  cast_u 64 (fl_mul fmt_double (fl_mul fmt_double (fl_of_Z fmt_double 3) (pow2 log))
               (fl_of_Z fmt_double 1000000000)).

(** What the intervals mean: exact seconds, scaled, truncated to nanoseconds,
    where a [uint64_t] holds them. *)
Definition scaled_ns (k log : Z) : option Z :=
  let v := if 0 <=? log then k * 1000000000 * 2 ^ log
           else (k * 1000000000) / 2 ^ (- log) in
  if v <? 2 ^ 64 then Some v else None.

Definition logs : list Z := map (fun n => Z.of_nat n - 128) (seq 0 256).

Lemma logs_spec log : sfits 8 log -> In log logs.
Proof.
  unfold sfits, logs. intros H. change (2 ^ (8 - 1)) with 128 in H. apply in_map_iff. exists (Z.to_nat (log + 128)).
  split; [lia|]. apply in_seq. lia.
Qed.

(** The interval arithmetic is exact: for every [signed char] exponent the
    double computation, in each of the forms the handlers use, yields precisely
    the truncated nanosecond count, and the conversion is undefined precisely
    when 64 bits do not hold that count. *)
Theorem intervals_exact log :
  sfits 8 log ->
  interval_ns log = scaled_ns 1 log /\
  interval3_ns log = scaled_ns 3 log /\
  interval3l_ns log = scaled_ns 3 log.
Proof.
  intros H%logs_spec.
  assert (Hall : forallb (fun l =>
     bool_decide (interval_ns l = scaled_ns 1 l) &&
     bool_decide (interval3_ns l = scaled_ns 3 l) &&
     bool_decide (interval3l_ns l = scaled_ns 3 l)) logs = true) by (vm_compute; reflexivity).
  rewrite forallb_forall in Hall. specialize (Hall log H).
  rewrite !andb_true_iff, !bool_decide_eq_true in Hall. tauto.
Qed.

Lemma intervals_exact_witness :
  interval_ns (-3) = Some 125000000 /\ interval3_ns (-3) = Some 375000000.
Proof.
  destruct (intervals_exact (-3) ltac:(closed_tac)) as (H1 & H2 & _).
  split; [exact (eq_trans H1 eq_refl) | exact (eq_trans H2 eq_refl)].
Defined.
