(* ===== verification/Identity.v ===== *)
(** * Addresses and identities

    [LinkLayerAddress] (common/avbts_osnet.hpp), [ClockIdentity]
    (common/ieee1588.hpp, and its construction from a MAC address in
    common/ieee1588clock.cpp) and [PortIdentity] (common/common_port.hpp).  The
    three are octet strings ordered by [memcmp]; the interface [OctetOrder]
    states what their order promises to the map and to the best-master
    comparison. *)

From Stdlib Require Import ZArith Lia.
From stdpp Require Import base gmap list.
From S2P Require Import Prelude.

Definition ETHER_ADDR_OCTETS : nat := 6.
Definition PTP_CLOCK_IDENTITY_LENGTH : nat := 8.

(** Both identities are fixed-length octet arrays. *)
Abbreviation LinkLayerAddress := (list Z).
Abbreviation ClockIdentity := (list Z).

Definition octets_of_length (n : nat) (l : list Z) : Prop := octets l /\ length l = n.
Abbreviation lla_wf := (octets_of_length 6).
Abbreviation cid_wf := (octets_of_length 8).

(** The comparison operators that the classes overload with [memcmp]. *)
Definition mem_eq (a b : list Z) : bool := match memcmp a b with Eq => true | _ => false end.
Definition mem_lt (a b : list Z) : bool := match memcmp a b with Lt => true | _ => false end.
Definition mem_gt (a b : list Z) : bool := match memcmp a b with Gt => true | _ => false end.

(** ** LinkLayerAddress *)

(** [LinkLayerAddress(uint64_t)]: shift the 48 low bits to the top and peel the
    top octet six times. *)
Fixpoint lla_loop (n : nat) (address_scalar : Z) : LinkLayerAddress :=
  match n with
  | O => []
  | S n' =>
      Z.shiftr (Z.land address_scalar 0xFF00000000000000) 56
        :: lla_loop n' (u64 (Z.shiftl address_scalar 8))
  end.
Definition LinkLayerAddress_of_scalar (address_scalar : Z) : LinkLayerAddress :=
  lla_loop ETHER_ADDR_OCTETS (u64 (Z.shiftl address_scalar 16)).

(** The constructor from an octet array copies six octets. *)
Definition LinkLayerAddress_of_octets (a : list Z) : LinkLayerAddress := take ETHER_ADDR_OCTETS a.

Definition lla_eq : LinkLayerAddress -> LinkLayerAddress -> bool := mem_eq.
Definition lla_lt : LinkLayerAddress -> LinkLayerAddress -> bool := mem_lt.
Definition lla_gt : LinkLayerAddress -> LinkLayerAddress -> bool := mem_gt.

(** ** ClockIdentity *)

Definition ClockIdentity_zero : ClockIdentity := repeat 0 PTP_CLOCK_IDENTITY_LENGTH.

Definition cid_eq : ClockIdentity -> ClockIdentity -> bool := mem_eq.
Definition cid_ne (a b : ClockIdentity) : bool := negb (mem_eq a b).
Definition cid_lt : ClockIdentity -> ClockIdentity -> bool := mem_lt.
Definition cid_gt : ClockIdentity -> ClockIdentity -> bool := mem_gt.

(** [ClockIdentity::set] of an address, on a little-endian host: the
    address is copied to the low octets of a zeroed 64-bit word, which is then
    cut and rejoined around 0xFEFF. *)
Definition cid_set_addr (addr : LinkLayerAddress) : ClockIdentity :=
  let tmp1 := le_decode addr in
  let tmp2 := Z.land tmp1 0xFFFFFF in
  let tmp1 := Z.shiftr tmp1 24 in
  let tmp1 := u64 (Z.shiftl tmp1 16) in
  let tmp1 := Z.lor tmp1 0xFEFF in
  let tmp1 := u64 (Z.shiftl tmp1 24) in
  let tmp1 := Z.lor tmp1 tmp2 in
  le_encode PTP_CLOCK_IDENTITY_LENGTH tmp1.

(** ** PortIdentity *)

Record PortIdentity := mkPortIdentity {
  clock_id : ClockIdentity;
  portNumber : Z;   (* uint16_t, host order *)
}.

#[export] Instance eta_PortIdentity : Settable PortIdentity := fun p =>
  mkPortIdentity (clock_id p) (portNumber p).

#[export] Instance PortIdentity_eq_dec : EqDecision PortIdentity.
Proof. solve_decision. Defined.
#[export] Program Instance PortIdentity_countable : Countable PortIdentity :=
  inj_countable' (fun p => (clock_id p, portNumber p)) (fun x => mkPortIdentity x.1 x.2) _.
Next Obligation. by intros []. Qed.

(** [PortIdentity(clock_id, portNumber)] of two pointers: the port number is
    read from memory in network order. *)
Definition PortIdentity_of_wire (id number : list Z) : PortIdentity :=
  mkPortIdentity id (htons (le_decode number)).

Definition pid_eq (a b : PortIdentity) : bool :=
  cid_eq (clock_id a) (clock_id b) && (portNumber a =? portNumber b).
Definition pid_ne (a b : PortIdentity) : bool :=
  negb (cid_eq (clock_id a) (clock_id b)) || negb (portNumber a =? portNumber b).
Definition pid_lt (a b : PortIdentity) : bool :=
  if cid_lt (clock_id a) (clock_id b) then true
  else cid_eq (clock_id a) (clock_id b) && (portNumber a <? portNumber b).
Definition pid_gt (a b : PortIdentity) : bool :=
  if cid_gt (clock_id a) (clock_id b) then true
  else cid_eq (clock_id a) (clock_id b) && (portNumber b <? portNumber a).

(** [getPortNumberNO] writes the port number in network order. *)
Definition pid_number_NO (p : PortIdentity) : list Z := le_encode 2 (htons (portNumber p)).

Definition pid_wf (p : PortIdentity) : Prop := cid_wf (clock_id p) /\ fits 16 (portNumber p).

(** ** The order interface

    A strict total order on the well-formed values of a type, decided by a
    boolean, with its equality and its converse: what [std::map] and the
    best-master algorithm rely on. *)
Class OctetOrder {T : Type} (wf : T -> Prop) (eqb ltb gtb : T -> T -> bool) := {
  oo_eqb a b : wf a -> wf b -> eqb a b = true <-> a = b;
  oo_gtb a b : wf a -> wf b -> gtb a b = ltb b a;
  oo_irrefl a : wf a -> ltb a a = false;
  oo_trans a b c : wf a -> wf b -> wf c ->
    ltb a b = true -> ltb b c = true -> ltb a c = true;
  oo_total a b : wf a -> wf b -> ltb a b = true \/ a = b \/ ltb b a = true;
}.

Section OctetOrderFacts.
Context {T : Type} {wf : T -> Prop} {eqb ltb gtb : T -> T -> bool}.
Context `{!OctetOrder wf eqb ltb gtb}.

Lemma oo_asym a b : wf a -> wf b -> ltb a b = true -> ltb b a = false.
Proof.
  intros Ha Hb Hab. destruct (ltb b a) eqn:Hba; [|done].
  rewrite <- (oo_irrefl a Ha). symmetry. by apply (oo_trans a b a).
Qed.

Lemma oo_ltb_eqb a b : wf a -> wf b -> ltb a b = true -> eqb a b = false.
Proof.
  intros Ha Hb Hab. destruct (eqb a b) eqn:He; [|done].
  apply oo_eqb in He as ->; [|done..]. by rewrite oo_irrefl in Hab.
Qed.

Lemma oo_not_ltb a b : wf a -> wf b -> ltb a b = false -> a = b \/ ltb b a = true.
Proof. intros Ha Hb Hn. destruct (oo_total a b Ha Hb) as [H|H]; [congruence|done]. Qed.
End OctetOrderFacts.

(** [memcmp] orders the octet strings of one length. *)
#[export] Instance mem_order n : OctetOrder (octets_of_length n) mem_eq mem_lt mem_gt.
Proof.
  assert (Hc : forall a b, octets_of_length n a -> octets_of_length n b ->
    memcmp a b = Z.compare (be_decode a) (be_decode b)).
  { intros a b [??] [??]. apply memcmp_be_decode; [done..|congruence]. }
  split; unfold mem_eq, mem_lt, mem_gt.
  - intros a b Ha Hb. rewrite Hc by done. split.
    + destruct (Z.compare_spec (be_decode a) (be_decode b)); try done.
      destruct Ha, Hb. intros _. apply be_decode_inj; congruence.
    + intros ->. by rewrite Z.compare_refl.
  - intros a b Ha Hb. rewrite !Hc, Z.compare_antisym by done.
    by destruct (Z.compare (be_decode b) (be_decode a)).
  - intros a Ha. by rewrite Hc, Z.compare_refl.
  - intros a b c Ha Hb Hd. rewrite !Hc by done.
    destruct (Z.compare_spec (be_decode a) (be_decode b)); try done.
    destruct (Z.compare_spec (be_decode b) (be_decode c)); try done. intros _ _.
    by assert ((be_decode a ?= be_decode c) = Lt) as -> by (apply Z.compare_lt_iff; lia).
  - intros a b Ha Hb. rewrite !Hc by done.
    rewrite (Z.compare_antisym (be_decode a) (be_decode b)).
    destruct (Z.compare_spec (be_decode a) (be_decode b)); cbn; [|by left|by right; right].
    right; left. destruct Ha, Hb. apply be_decode_inj; congruence.
Qed.

(** [PortIdentity]'s operators order the well-formed identities. *)
#[export] Instance pid_order : OctetOrder pid_wf pid_eq pid_lt pid_gt.
Proof.
  assert (He : forall a b, cid_wf a -> cid_wf b -> cid_eq a b = true <-> a = b)
    by (intros; apply (oo_eqb (ltb := mem_lt) (gtb := mem_gt)); done).
  assert (Hr : forall a, cid_wf a -> cid_lt a a = false)
    by (intros; apply (oo_irrefl (eqb := mem_eq) (gtb := mem_gt) (wf := cid_wf)); done).
  assert (Hrefl : forall a, cid_wf a -> cid_eq a a = true) by (intros; by apply He).
  split; unfold pid_eq, pid_lt, pid_gt.
  - intros [c1 n1] [c2 n2] [Hc1 _] [Hc2 _]; cbn in *.
    rewrite andb_true_iff, He, Z.eqb_eq by done.
    split; [intros [-> ->]; done|intros [= -> ->]; done].
  - intros [c1 n1] [c2 n2] [Hc1 _] [Hc2 _]; cbn in *.
    replace (cid_gt c1 c2) with (cid_lt c2 c1)
      by (symmetry; apply (oo_gtb (eqb := mem_eq) (wf := cid_wf)); done).
    destruct (cid_lt c2 c1); [done|].
    destruct (cid_eq c1 c2) eqn:E1, (cid_eq c2 c1) eqn:E2; try done;
      [apply He in E1 as ->|apply He in E2 as ->]; try done; by rewrite Hrefl in *.
  - intros [c n] [Hc _]; cbn in *. by rewrite Hr, Z.ltb_irrefl, andb_false_r.
  - intros [c1 n1] [c2 n2] [c3 n3] [H1 _] [H2 _] [H3 _]; cbn in *.
    destruct (cid_lt c1 c2) eqn:E12, (cid_lt c2 c3) eqn:E23; intros HA HB.
    + by replace (cid_lt c1 c3) with true
        by (symmetry; apply (oo_trans (eqb := mem_eq) (gtb := mem_gt) (wf := cid_wf) c1 c2 c3); done).
    + apply andb_true_iff in HB as [HB _]. apply He in HB as ->; [|done..]. by rewrite E12.
    + apply andb_true_iff in HA as [HA _]. apply He in HA as ->; [|done..]. by rewrite E23.
    + apply andb_true_iff in HA as [HA HA'], HB as [HB HB'].
      apply He in HA as ->; [|done..]. apply He in HB as ->; [|done..].
      rewrite Hr, Hrefl by done. apply Z.ltb_lt in HA', HB'. apply Z.ltb_lt. lia.
  - intros [c1 n1] [c2 n2] [H1 _] [H2 _]; cbn in *.
    destruct (oo_total (eqb := mem_eq) (gtb := mem_gt) (wf := cid_wf) c1 c2 H1 H2) as [H|[->|H]].
    + left. by unfold cid_lt; rewrite H.
    + rewrite Hr, Hrefl by done. cbn.
      destruct (Z.lt_trichotomy n1 n2) as [Hn|[->|Hn]]; [left|right; left|right; right];
        try done; by apply Z.ltb_lt.
    + right; right. by unfold cid_lt; rewrite H.
Qed.

(** A port number written to the wire is the number read back. *)
Lemma pid_number_NO_be p : fits 16 (portNumber p) -> pid_number_NO p = be_encode 2 (portNumber p).
Proof.
  intros H. unfold pid_number_NO, htons, u16. rewrite bswap_encode.
  by rewrite uwrap_small.
Qed.

Lemma PortIdentity_of_wire_back p :
  pid_wf p -> PortIdentity_of_wire (clock_id p) (pid_number_NO p) = p.
Proof.
  intros [_ H]. unfold PortIdentity_of_wire, pid_number_NO, htons.
  rewrite le_decode_encode. destruct p as [c n]; cbn [clock_id portNumber] in *. f_equal.
  unfold u16, uwrap. change (2 ^ (8 * Z.of_nat 2)) with (2 ^ 16).
  rewrite Zmod_mod, (Z.mod_small n) by done.
  rewrite (Z.mod_small (bswap 2 n)).
  - rewrite bswap_involutive. by apply Z.mod_small.
  - unfold bswap. pose proof (le_decode_bound _ (octets_be_encode 2 n)) as Hd.
    by rewrite length_be_encode in Hd.
Qed.

Lemma length6 (l : list Z) : length l = 6%nat ->
  exists a b c d e f, l = [a; b; c; d; e; f].
Proof. destruct l as [|? [|? [|? [|? [|? [|? [|]]]]]]]; intros [=]; eauto 10. Qed.

Lemma length8 (l : list Z) : length l = 8%nat ->
  exists a b c d e f g h, l = [a; b; c; d; e; f; g; h].
Proof. destruct l as [|? [|? [|? [|? [|? [|? [|? [|? [|]]]]]]]]]; intros [=]; eauto 12. Qed.

(** [Ltac] for an octet string of known length: name its octets. *)
Ltac split_octets H :=
  let Ho := fresh "Ho" in let Hl := fresh "Hl" in
  destruct H as [Ho Hl];
  first [apply length6 in Hl | apply length8 in Hl];
  repeat match type of Hl with ex _ => let x := fresh "o" in destruct Hl as [x Hl] end;
  subst; repeat match goal with H' : Forall octet (_ :: _) |- _ =>
    let H'' := fresh "Ho" in apply Forall_cons in H' as [H'' H'] end.

Lemma land_low24 x : Z.land x 0xFFFFFF = x mod 2 ^ 24.
Proof. change 0xFFFFFF with (Z.ones 24). by rewrite Z.land_ones by lia. Qed.

(** One turn of the scalar constructor's loop takes the top octet. *)
Lemma top_octet y : fits 64 y -> Z.shiftr (Z.land y 0xFF00000000000000) 56 = y / 2 ^ 56.
Proof.
  intros [H0 H1]. rewrite Z.shiftr_land.
  change (Z.shiftr 0xFF00000000000000 56) with (Z.ones 8).
  rewrite Z.land_ones, Z.shiftr_div_pow2 by lia. apply Z.mod_small.
  split; [apply Z.div_pos; lia|apply Z.div_lt_upper_bound; lia].
Qed.

Lemma lla_loop_be l : octets l -> (length l <= 8)%nat ->
  lla_loop (length l) (be_decode l * 2 ^ (64 - 8 * Z.of_nat (length l))) = l.
Proof.
  induction 1 as [|b l Hb Hl IH]; intros Hlen; [done|]. cbn [length] in *.
  pose proof (be_decode_bound l Hl) as Hd. rewrite be_decode_cons. unfold octet in Hb.
  set (n := Z.of_nat (length l)) in *.
  assert (Hp : 2 ^ (8 * n) * 2 ^ (64 - 8 * Z.of_nat (S (length l))) = 2 ^ 56)
    by (rewrite <- Z.pow_add_r by lia; f_equal; lia).
  assert (Hq : 2 ^ (64 - 8 * n) = 256 * 2 ^ (64 - 8 * Z.of_nat (S (length l)))).
  { change 256 with (2 ^ 8). rewrite <- Z.pow_add_r by lia. f_equal. lia. }
  set (q := 2 ^ (64 - 8 * Z.of_nat (S (length l)))) in *.
  assert (0 < q) by (apply Z.pow_pos_nonneg; lia).
  assert (Hr : be_decode l * q < 2 ^ 56) by (rewrite <- Hp; nia).
  assert (Hy : (b * 2 ^ (8 * n) + be_decode l) * q = be_decode l * q + b * 2 ^ 56)
    by (rewrite <- Hp; ring).
  rewrite Hy. cbn [lla_loop]. f_equal.
  - rewrite top_octet by (unfold fits; nia).
    rewrite Z_div_plus_full by lia. rewrite (Z.div_small (be_decode l * q)) by nia. lia.
  - etransitivity; [|apply IH; lia]. f_equal. rewrite Hq. unfold u64.
    rewrite Z.shiftl_mul_pow2 by lia. apply (uwrap_eq 64 _ _ b); unfold fits; nia.
Qed.

(** The constructor of an address from a scalar stores the 48 low bits of
    the scalar in network order, whatever the 16 high bits are. *)
Theorem LinkLayerAddress_of_scalar_be x :
  fits 64 x ->
  LinkLayerAddress_of_scalar x = be_encode 6 x /\ lla_wf (LinkLayerAddress_of_scalar x).
Proof.
  intros Hx.
  assert (Heq : LinkLayerAddress_of_scalar x = be_encode 6 x).
  2:{ rewrite Heq. split; [done|split; [apply octets_be_encode|apply length_be_encode]]. }
  unfold LinkLayerAddress_of_scalar.
  rewrite <- (lla_loop_be (be_encode 6 x)) by
    (apply octets_be_encode || (rewrite length_be_encode; lia)).
  rewrite length_be_encode, be_decode_encode, Z.shiftl_mul_pow2 by lia.
  change (2 ^ (8 * Z.of_nat 6)) with (2 ^ 48). f_equal.
  apply (uwrap_eq 64 _ _ (x / 2 ^ 48)); int_lia.
Qed.

Lemma LinkLayerAddress_of_scalar_be_witness :
  LinkLayerAddress_of_scalar 0x0180C200000E = [0x01; 0x80; 0xC2; 0x00; 0x00; 0x0E].
Proof. apply (LinkLayerAddress_of_scalar_be 0x0180C200000E). closed_tac. Defined.

(** The clock identity made from a MAC address is the EUI-64 of the address:
    its first three octets, 0xFF 0xFE, its last three octets. *)
Theorem cid_set_addr_eui64 a b c d e f :
  octets [a; b; c; d; e; f] ->
  cid_set_addr [a; b; c; d; e; f] = [a; b; c; 0xFF; 0xFE; d; e; f] /\
  cid_wf (cid_set_addr [a; b; c; d; e; f]).
Proof.
  intros H. repeat (apply Forall_cons in H as [? H]). unfold octet in *.
  assert (Heq : cid_set_addr [a; b; c; d; e; f] = [a; b; c; 0xFF; 0xFE; d; e; f]).
  2:{ split; [done|]. split; [|done]. rewrite Heq. repeat constructor; unfold octet; lia. }
  unfold cid_set_addr.
  set (lo := a + 256 * (b + 256 * c)). set (hi := d + 256 * (e + 256 * f)).
  assert (0 <= lo < 2 ^ 24) by (subst lo; lia). assert (0 <= hi < 2 ^ 24) by (subst hi; lia).
  assert (Hd : le_decode [a; b; c; d; e; f] = lo + hi * 2 ^ 24) by (subst lo hi; cbn; lia).
  rewrite Hd, land_low24, Z.shiftr_div_pow2, Z_mod_plus_full by lia.
  rewrite Z_div_plus_full by lia.
  rewrite (Z.mod_small lo), (Z.div_small lo), Z.add_0_l by lia.
  rewrite (Z.shiftl_mul_pow2 hi) by lia.
  unfold u64. rewrite (uwrap_small 64 (hi * 2 ^ 16)) by (unfold fits; lia).
  rewrite <- (Z.shiftl_mul_pow2 hi), (Z.lor_comm (Z.shiftl hi 16)) by lia.
  rewrite (lor_shiftl_add 16) by (unfold fits; lia).
  rewrite Z.shiftl_mul_pow2 by lia.
  rewrite uwrap_small by (unfold fits; lia).
  rewrite Z.lor_comm, <- Z.shiftl_mul_pow2 by lia.
  rewrite (lor_shiftl_add 24) by (unfold fits; lia).
  transitivity (le_encode 8 (le_decode [a; b; c; 0xFF; 0xFE; d; e; f])).
  - unfold PTP_CLOCK_IDENTITY_LENGTH. f_equal. subst lo hi. cbn [le_decode]. lia.
  - apply (le_encode_decode [a; b; c; 0xFF; 0xFE; d; e; f]).
    repeat constructor; unfold octet; lia.
Qed.

Lemma cid_set_addr_eui64_witness :
  cid_set_addr [0x00; 0x1B; 0xC5; 0x0A; 0xC0; 0x01]
  = [0x00; 0x1B; 0xC5; 0xFF; 0xFE; 0x0A; 0xC0; 0x01].
Proof.
  apply (cid_set_addr_eui64 0x00 0x1B 0xC5 0x0A 0xC0 0x01). repeat constructor; vm_compute; congruence.
Defined.

(** C40: the comparison operators of [PortIdentity], which key the address map,
    are a strict total order on well-formed identities: [<] is irreflexive and
    transitive, two identities are ordered or equal, [==] is equality, [>] is
    the converse of [<], and [!=] the negation of [==]. *)
Theorem PortIdentity_strict_total_order a b c :
  pid_wf a -> pid_wf b -> pid_wf c ->
  pid_lt a a = false /\
  (pid_lt a b = true -> pid_lt b c = true -> pid_lt a c = true) /\
  (pid_lt a b = true \/ a = b \/ pid_lt b a = true) /\
  (pid_eq a b = true <-> a = b) /\
  pid_gt a b = pid_lt b a /\ pid_ne a b = negb (pid_eq a b).
Proof.
  intros Ha Hb Hc. split; [by apply oo_irrefl|]. split; [by apply oo_trans|].
  split; [by apply oo_total|]. split; [by apply oo_eqb|]. split; [by apply oo_gtb|].
  unfold pid_ne, pid_eq. by rewrite negb_andb.
Qed.

Lemma PortIdentity_strict_total_order_witness :
  let a := mkPortIdentity [0; 0; 0; 0; 0; 0; 0; 1] 2 in
  let b := mkPortIdentity [0; 0; 0; 0; 0; 0; 0; 2] 1 in
  pid_lt a b = true /\ pid_gt b a = true.
Proof.
  intros a b. split; [reflexivity|].
  assert (Ha : pid_wf a) by (split; [split|]; closed_tac).
  assert (Hb : pid_wf b) by (split; [split|]; closed_tac).
  refine (eq_trans (proj1 (proj2 (proj2 (proj2 (proj2
    (PortIdentity_strict_total_order b a a Hb Ha Ha)))))) _). reflexivity.
Defined.
