(* ===== verification/Message.v ===== *)
(** * Messages

    The data of common/avbts_message.hpp: the message types, the common header
    [PTPMessageCommon], the TLVs, and one constructor per message class with
    the fields of its own.  The best-master comparison of two announcements is
    [annc_isBetterThan] (common/ptp_message.cpp), an instance of the
    comparison of 14-octet keys that the clock uses as well. *)

From Stdlib Require Import ZArith Lia.
From stdpp Require Import base gmap list.
From S2P Require Import Prelude Timestamp Identity.

Definition GPTP_VERSION : Z := 2.

Inductive MessageType :=
  | SYNC_MESSAGE | DELAY_REQ_MESSAGE | PATH_DELAY_REQ_MESSAGE | PATH_DELAY_RESP_MESSAGE
  | FOLLOWUP_MESSAGE | DELAY_RESP_MESSAGE | PATH_DELAY_FOLLOWUP_MESSAGE
  | ANNOUNCE_MESSAGE | SIGNALLING_MESSAGE | MANAGEMENT_MESSAGE.

#[export] Instance MessageType_eq_dec : EqDecision MessageType.
Proof. solve_decision. Defined.

Definition MessageType_code (t : MessageType) : Z :=
  match t with
  | SYNC_MESSAGE => 0 | DELAY_REQ_MESSAGE => 1 | PATH_DELAY_REQ_MESSAGE => 2
  | PATH_DELAY_RESP_MESSAGE => 3 | FOLLOWUP_MESSAGE => 8 | DELAY_RESP_MESSAGE => 9
  | PATH_DELAY_FOLLOWUP_MESSAGE => 0xA | ANNOUNCE_MESSAGE => 0xB
  | SIGNALLING_MESSAGE => 0xC | MANAGEMENT_MESSAGE => 0xD
  end.

Inductive LegacyMessageType := SYNC | DELAY_REQ | FOLLOWUP | DELAY_RESP | MANAGEMENT | MESSAGE_OTHER.

Definition LegacyMessageType_code (t : LegacyMessageType) : Z :=
  match t with
  | SYNC => 0 | DELAY_REQ => 1 | FOLLOWUP => 2 | DELAY_RESP => 3 | MANAGEMENT => 4
  | MESSAGE_OTHER => 5
  end.

Inductive MulticastType := MCAST_NONE | MCAST_PDELAY | MCAST_TEST_STATUS | MCAST_OTHER.

(** [PTPMessageId] names a message to the timestamper. *)
Record PTPMessageId := mkPTPMessageId { _messageType : Z; _sequenceId : Z }.

Definition msgid_eq (a b : PTPMessageId) : bool :=
  (_sequenceId a =? _sequenceId b) && (_messageType a =? _messageType b).
Definition msgid_ne (a b : PTPMessageId) : bool :=
  negb (_sequenceId a =? _sequenceId b) || negb (_messageType a =? _messageType b).

(** ** TLVs

    The two organisation TLVs are packed structs copied from and to the wire
    as they are, so their multi-octet members hold the host's reading of the
    wire octets. *)

Record scaledNs := mkScaledNs { sn_ms : Z (* int32_t *); sn_ls : Z (* uint64_t *) }.
Definition scaledNs_new : scaledNs := mkScaledNs 0 0.

Record FollowUpTLV := mkFollowUpTLV {
  fu_tlvType : Z;                   (* uint16_t *)
  fu_lengthField : Z;               (* uint16_t *)
  fu_organizationId : list Z;       (* uint8_t[3] *)
  fu_organizationSubType_ms : Z;    (* uint8_t *)
  fu_organizationSubType_ls : Z;    (* uint16_t *)
  cumulativeScaledRateOffset : Z;   (* int32_t *)
  gmTimeBaseIndicator : Z;          (* uint16_t *)
  scaledLastGmPhaseChange : scaledNs;
  scaledLastGmFreqChange : Z;       (* int32_t *)
}.

#[export] Instance eta_FollowUpTLV : Settable FollowUpTLV := fun t =>
  mkFollowUpTLV (fu_tlvType t) (fu_lengthField t) (fu_organizationId t)
    (fu_organizationSubType_ms t) (fu_organizationSubType_ls t)
    (cumulativeScaledRateOffset t) (gmTimeBaseIndicator t)
    (scaledLastGmPhaseChange t) (scaledLastGmFreqChange t).

Definition FollowUpTLV_new : FollowUpTLV :=
  mkFollowUpTLV (htons 0x3) (htons 28) [0x00; 0x80; 0xC2] 0 (htons 1)
    (i32 (htonl 0)) 0 scaledNs_new (i32 (htonl 0)).

(** [setScaledLastGmFreqChange] swaps its argument. *)
Definition fu_setScaledLastGmFreqChange (val : Z) (t : FollowUpTLV) : FollowUpTLV :=
  t <| scaledLastGmFreqChange := i32 (htonl val) |>.
Definition fu_setScaledLastGmPhaseChange (pc : scaledNs) (t : FollowUpTLV) : FollowUpTLV :=
  t <| scaledLastGmPhaseChange := pc |>.
Definition fu_setGMTimeBaseIndicator (tbi : Z) (t : FollowUpTLV) : FollowUpTLV :=
  t <| gmTimeBaseIndicator := tbi |>.
Definition fu_incrementGMTimeBaseIndicator (t : FollowUpTLV) : FollowUpTLV :=
  t <| gmTimeBaseIndicator := u16 (gmTimeBaseIndicator t + 1) |>.

(** [PTPMessageFollowUp::setClockSourceTime] copies three members of the
    clock's TLV through the accessors. *)
Definition setClockSourceTime (fup tlv : FollowUpTLV) : FollowUpTLV :=
  fu_setScaledLastGmPhaseChange (scaledLastGmPhaseChange fup)
    (fu_setScaledLastGmFreqChange (scaledLastGmFreqChange fup)
      (fu_setGMTimeBaseIndicator (gmTimeBaseIndicator fup) tlv)).

Record SignallingTLV := mkSignallingTLV {
  sig_tlvType : Z;
  sig_lengthField : Z;
  sig_organizationId : list Z;
  sig_organizationSubType_ms : Z;
  sig_organizationSubType_ls : Z;
  linkDelayInterval : Z;   (* int8_t *)
  timeSyncInterval : Z;    (* int8_t *)
  announceInterval : Z;    (* int8_t *)
  sig_flags : Z;           (* uint8_t *)
  sig_reserved : Z;        (* uint16_t *)
}.

#[export] Instance eta_SignallingTLV : Settable SignallingTLV := fun t =>
  mkSignallingTLV (sig_tlvType t) (sig_lengthField t) (sig_organizationId t)
    (sig_organizationSubType_ms t) (sig_organizationSubType_ls t) (linkDelayInterval t)
    (timeSyncInterval t) (announceInterval t) (sig_flags t) (sig_reserved t).

Definition SignallingTLV_new : SignallingTLV :=
  mkSignallingTLV (htons 0x3) (htons 12) [0x00; 0x80; 0xC2] 0 (htons 2) 0 0 0 3 (htons 0).

(** [PTPMessageSignalling::setintervals] *)
Definition setintervals (ld ts an : Z) (t : SignallingTLV) : SignallingTLV :=
  t <| linkDelayInterval := ld |> <| timeSyncInterval := ts |> <| announceInterval := an |>.

Definition sigMsgInterval_Initial : Z := 126.
Definition sigMsgInterval_NoSend : Z := 127.
Definition sigMsgInterval_NoChange : Z := -128.

(** [PathTraceTLV]: the type is kept in network order, the list in order. *)
Definition PATH_TRACE_TLV_TYPE : Z := 0x8.
Definition PathTraceTLV : Type := list ClockIdentity.

Definition tlv_appendClockIdentity (id : ClockIdentity) (tlv : PathTraceTLV) : PathTraceTLV :=
  tlv ++ [id].
Definition tlv_has (id : ClockIdentity) (tlv : PathTraceTLV) : bool := existsb (fun x => cid_eq x id) tlv.
Definition tlv_length (tlv : PathTraceTLV) : Z := 2 * 2 + 8 * Z.of_nat (length tlv).

(** [toByteString]: the type, the length of the identities, the identities. *)
Definition tlv_toByteString (tlv : PathTraceTLV) : list Z :=
  le_encode 2 (htons PATH_TRACE_TLV_TYPE)
    ++ le_encode 2 (htons (u16 (Z.of_nat (length tlv)) * 8)) ++ concat tlv.

(** ** Message classes *)

Record ClockQuality := mkClockQuality {
  cq_class : Z;                   (* unsigned char *)
  clockAccuracy : Z;              (* unsigned char *)
  offsetScaledLogVariance : Z;    (* uint16_t, host order *)
}.

#[export] Instance ClockQuality_eq_dec : EqDecision ClockQuality.
Proof. solve_decision. Defined.

Record AnnounceFields := mkAnnounce {
  grandmasterIdentity : ClockIdentity;
  grandmasterClockQuality : ClockQuality;
  tlv : PathTraceTLV;
  currentUtcOffset : Z;       (* uint16_t *)
  grandmasterPriority1 : Z;   (* unsigned char *)
  grandmasterPriority2 : Z;   (* unsigned char *)
  stepsRemoved : Z;           (* uint16_t *)
  timeSource : Z;             (* unsigned char *)
}.

Inductive Payload :=
  | Sync (originTimestamp : Timestamp)
  | FollowUp (preciseOriginTimestamp : Timestamp) (ftlv : FollowUpTLV)
  | PathDelayReq
  | PathDelayResp (requestingPortIdentity : PortIdentity) (requestReceiptTimestamp : Timestamp)
  | PathDelayRespFollowUp (responseOriginTimestamp : Timestamp) (requestingPortIdentity : PortIdentity)
  | Announce (a : AnnounceFields)
  | Signalling (targetPortIdentify : Z) (stlv : SignallingTLV).

(** [PTPMessageCommon], without [versionNetwork], which nothing reads, and
    with the type, the class and the members of the class in [payload]. *)
Record Message := mkMessage {
  versionPTP : Z;                   (* unsigned char *)
  sourcePortIdentity : PortIdentity;
  sequenceId : Z;                   (* uint16_t *)
  control : Z;                      (* LegacyMessageType, a 32-bit int *)
  flags : list Z;                   (* unsigned char[2] *)
  messageLength : Z;                (* uint16_t *)
  logMeanMessageInterval : Z;       (* char *)
  correctionField : Z;              (* long long *)
  domainNumber : Z;                 (* unsigned char *)
  _timestamp : Timestamp;
  _timestamp_counter_value : Z;
  _gc : bool;
  payload : Payload;
}.

#[export] Instance eta_Message : Settable Message := fun m =>
  mkMessage (versionPTP m) (sourcePortIdentity m) (sequenceId m) (control m) (flags m)
    (messageLength m) (logMeanMessageInterval m) (correctionField m) (domainNumber m)
    (_timestamp m) (_timestamp_counter_value m) (_gc m) (payload m).

Definition payload_type (p : Payload) : MessageType :=
  match p with
  | Sync _ => SYNC_MESSAGE
  | FollowUp _ _ => FOLLOWUP_MESSAGE
  | PathDelayReq => PATH_DELAY_REQ_MESSAGE
  | PathDelayResp _ _ => PATH_DELAY_RESP_MESSAGE
  | PathDelayRespFollowUp _ _ => PATH_DELAY_FOLLOWUP_MESSAGE
  | Announce _ => ANNOUNCE_MESSAGE
  | Signalling _ _ => SIGNALLING_MESSAGE
  end.
Definition messageType (m : Message) : MessageType := payload_type (payload m).

Definition isEvent (m : Message) : bool :=
  Z.land (Z.shiftr (MessageType_code (messageType m)) 3) 0x1 =? 0.
Definition getMessageId (m : Message) : PTPMessageId :=
  mkPTPMessageId (MessageType_code (messageType m)) (sequenceId m).
Definition isSenderEqual (m : Message) (id : PortIdentity) : bool := pid_eq id (sourcePortIdentity m).

Definition PTP_ASSIST_BYTE : nat := 0.
Definition PTP_ASSIST_BIT : Z := 1.
Definition PTP_PTPTIMESCALE_BYTE : nat := 1.
Definition PTP_PTPTIMESCALE_BIT : Z := 3.

(** [flags[byte] |= (0x1 << bit)] *)
Definition set_flag (byte : nat) (bit : Z) (fl : list Z) : list Z :=
  alter (fun b => Z.lor b (Z.shiftl 1 bit)) byte fl.

(** [PTPMessageCommon(port)]: the fields it sets, from the clock's domain.
    [garbage] is the memory it leaves as it is: the port number of its
    identity and the members that the derived class sets. *)
Definition PTPMessageCommon_new (domain garbage : Z) (p : Payload) : Message := {|
  versionPTP := GPTP_VERSION;
  sourcePortIdentity := mkPortIdentity ClockIdentity_zero (u16 garbage);
  sequenceId := u16 garbage;
  control := garbage;
  flags := set_flag PTP_PTPTIMESCALE_BYTE PTP_PTPTIMESCALE_BIT [0; 0];
  messageLength := u16 garbage;
  logMeanMessageInterval := i8 garbage;
  correctionField := 0;
  domainNumber := domain;
  _timestamp := timestamp 0 0 0;
  _timestamp_counter_value := garbage;
  _gc := false;
  payload := p;
|}.

(** ** The best-master comparison *)

(** The 14 octets that both comparisons lay out: priority 1, class, accuracy,
    variance in network order, priority 2, identity. *)
Definition bmca_key (p1 : Z) (q : ClockQuality) (p2 : Z) (id : ClockIdentity) : list Z :=
  [p1; cq_class q; clockAccuracy q] ++ le_encode 2 (htons (offsetScaledLogVariance q))
    ++ [p2] ++ id.

Definition annc_key (a : AnnounceFields) : list Z :=
  bmca_key (grandmasterPriority1 a) (grandmasterClockQuality a) (grandmasterPriority2 a)
    (grandmasterIdentity a).

Definition annc_isBetterThan (this msg : AnnounceFields) : bool := mem_lt (annc_key this) (annc_key msg).

Definition quality_wf (q : ClockQuality) : Prop :=
  octet (cq_class q) /\ octet (clockAccuracy q) /\ fits 16 (offsetScaledLogVariance q).
Definition annc_wf (a : AnnounceFields) : Prop :=
  octet (grandmasterPriority1 a) /\ octet (grandmasterPriority2 a) /\
  quality_wf (grandmasterClockQuality a) /\ cid_wf (grandmasterIdentity a).

(** What the standard orders announcements by. *)
Definition bmca_tuple (p1 : Z) (q : ClockQuality) (p2 : Z) (id : ClockIdentity) : list Z :=
  [p1; cq_class q; clockAccuracy q; offsetScaledLogVariance q; p2; be_decode id].

Fixpoint lex_lt (a b : list Z) : Prop :=
  match a, b with
  | x :: a', y :: b' => x < y \/ (x = y /\ lex_lt a' b')
  | _, _ => False
  end.

Lemma htons_octets x : fits 16 x -> le_encode 2 (htons x) = be_encode 2 x.
Proof. intros H. unfold htons, u16. by rewrite bswap_encode, uwrap_small. Qed.

Lemma bmca_key_wf p1 q p2 id :
  octet p1 -> octet p2 -> quality_wf q -> cid_wf id ->
  octets_of_length 14 (bmca_key p1 q p2 id).
Proof.
  intros Hp1 Hp2 (Hc & Ha & _) [Hi Hl]. unfold bmca_key. split.
  - octets_tac.
  - rewrite !length_app, length_le_encode, Hl. done.
Qed.

Lemma memcmp_app a1 a2 b1 b2 : length a1 = length b1 ->
  memcmp (a1 ++ a2) (b1 ++ b2) = match memcmp a1 b1 with Eq => memcmp a2 b2 | c => c end.
Proof.
  revert b1; induction a1 as [|x a1 IH]; intros [|y b1]; try done; intros [= Hl].
  cbn. rewrite IH by done. by destruct (x ?= y).
Qed.

(** The key's order is the lexicographic order of the fields. *)
Lemma bmca_key_lt p1 q p2 id p1' q' p2' id' :
  quality_wf q -> quality_wf q' -> cid_wf id -> cid_wf id' ->
  mem_lt (bmca_key p1 q p2 id) (bmca_key p1' q' p2' id') = true <->
  lex_lt (bmca_tuple p1 q p2 id) (bmca_tuple p1' q' p2' id').
Proof.
  intros (_ & _ & Hv) (_ & _ & Hv') [Hi Hl] [Hi' Hl'].
  unfold mem_lt, bmca_key, bmca_tuple.
  rewrite !memcmp_app by (by rewrite ?length_le_encode).
  rewrite !htons_octets, (memcmp_be_decode (be_encode 2 _)) by
    (done || apply octets_be_encode || by rewrite !length_be_encode).
  rewrite !be_decode_encode, !Z.mod_small by done.
  rewrite (memcmp_be_decode id) by congruence.
  cbn [memcmp lex_lt].
  repeat match goal with
  | |- context [ match (?x ?= ?y) with _ => _ end ] => destruct (Z.compare_spec x y)
  end; (split; [intros Hd; try discriminate Hd; lia | intros Hd; try reflexivity; exfalso; lia]).
Qed.

(** C35: an announcement is better than another exactly when its
    (priority 1, class, accuracy, variance, priority 2, identity) is smaller in
    the lexicographic order of IEEE 802.1AS 10.3.4; the relation is therefore
    irreflexive, transitive, and total up to equal keys. *)
Theorem annc_isBetterThan_spec a b c :
  annc_wf a -> annc_wf b -> annc_wf c ->
  (annc_isBetterThan a b = true <->
   lex_lt (bmca_tuple (grandmasterPriority1 a) (grandmasterClockQuality a)
             (grandmasterPriority2 a) (grandmasterIdentity a))
          (bmca_tuple (grandmasterPriority1 b) (grandmasterClockQuality b)
             (grandmasterPriority2 b) (grandmasterIdentity b))) /\
  annc_isBetterThan a a = false /\
  (annc_isBetterThan a b = true -> annc_isBetterThan b c = true ->
   annc_isBetterThan a c = true) /\
  (annc_isBetterThan a b = true \/ annc_key a = annc_key b \/ annc_isBetterThan b a = true).
Proof.
  intros (A1 & A2 & A3 & A4) (B1 & B2 & B3 & B4) (C1 & C2 & C3 & C4).
  pose proof (bmca_key_wf _ _ _ _ A1 A2 A3 A4) as Ha.
  pose proof (bmca_key_wf _ _ _ _ B1 B2 B3 B4) as Hb.
  pose proof (bmca_key_wf _ _ _ _ C1 C2 C3 C4) as Hc.
  split; [by apply bmca_key_lt|]. unfold annc_isBetterThan. split; [|split].
  - by apply (oo_irrefl (eqb := mem_eq) (gtb := mem_gt) _ Ha).
  - by apply (oo_trans (eqb := mem_eq) (gtb := mem_gt) _ _ _ Ha Hb Hc).
  - by apply (oo_total (eqb := mem_eq) (gtb := mem_gt) _ _ Ha Hb).
Qed.

Definition annc_example (p1 : Z) (id : Z) : AnnounceFields :=
  mkAnnounce [0; 0; 0; 0; 0; 0; 0; id] (mkClockQuality 248 0x22 0x436A) [] 0 p1 248 0 160.

Lemma annc_isBetterThan_spec_witness :
  annc_isBetterThan (annc_example 100 2) (annc_example 248 1) = true /\
  annc_isBetterThan (annc_example 248 1) (annc_example 248 1) = false.
Proof.
  assert (W : forall p i, octet p -> octet i -> annc_wf (annc_example p i)).
  { intros p i Hp Hi. split; [done|]. split; [closed_tac|]. split; [closed_tac|].
    split; [repeat (constructor; [unfold octet in *; cbn; lia|]); constructor|done]. }
  assert (W1 : annc_wf (annc_example 100 2)) by (apply W; closed_tac).
  assert (W2 : annc_wf (annc_example 248 1)) by (apply W; closed_tac).
  split.
  - apply (proj2 (proj1 (annc_isBetterThan_spec _ _ _ W1 W2 W2))). left. reflexivity.
  - apply (annc_isBetterThan_spec _ _ _ W2 W2 W2).
Defined.
