(* ===== verification/Wire.v ===== *)
(** * The wire format

    The frames that the [sendPort] methods build and the decoding half of
    [buildPTPMessage] (common/ptp_message.cpp).  A frame is built by a list of
    [memcpy]s into a zeroed 256-octet array at the interface's payload offset;
    a received frame sits in the 128-octet array of [EtherPort::openPort],
    whose octets past the received length hold whatever was there, so the
    decoder's reads are slices of that array and are out of bounds only past
    octet 128. *)

From Stdlib Require Import ZArith Lia.
From stdpp Require Import base gmap list.
From S2P Require Import Prelude Timestamp Identity Message.

Definition PTP_COMMON_HDR_LENGTH : nat := 34.
Definition PTP_ANNOUNCE_LENGTH : nat := 30.
Definition PTP_SYNC_LENGTH : nat := 10.
Definition PTP_FOLLOWUP_LENGTH : nat := 10.
Definition PTP_PDELAY_REQ_LENGTH : nat := 20.
Definition PTP_PDELAY_RESP_LENGTH : nat := 20.
Definition PTP_SIGNALLING_LENGTH : nat := 10.
Definition sizeof_FollowUpTLV : nat := 32.
Definition sizeof_SignallingTLV : nat := 16.

(** ** Building frames *)

Abbreviation copies := (list (nat * list Z)).

(** Host-order values stored in network order. *)
Definition net16 (x : Z) : list Z := le_encode 2 (htons x).
Definition net32 (x : Z) : list Z := le_encode 4 (htonl x).
Definition net64 (x : Z) : list Z := le_encode 8 (htonll x).

(** [buildCommonHeader].  [control] is copied with the size of its enum; the
    octets after the first are overwritten by the copies that follow. *)
Definition buildCommonHeader (m : Message) : copies :=
  [ (0, [Z.lor (MessageType_code (messageType m)) 0x10]);
    (1, [versionPTP m]);
    (2, net16 (messageLength m));
    (4, [domainNumber m]);
    (6, flags m);
    (8, net64 (correctionField m));
    (20, clock_id (sourcePortIdentity m));
    (28, pid_number_NO (sourcePortIdentity m));
    (30, net16 (sequenceId m));
    (32, le_encode 4 (control m));
    (33, le_encode 1 (logMeanMessageInterval m)) ]%nat.

(** The three copies of a timestamp at an offset. *)
Definition put_timestamp (off : nat) (t : Timestamp) : copies :=
  [ (off, net16 (seconds_ms t)); (off + 2, net32 (seconds_ls t)); (off + 6, net32 (nanoseconds t)) ]%nat.

(** [toByteString] of the packed TLVs. *)
Definition fu_toByteString (t : FollowUpTLV) : list Z :=
  le_encode 2 (fu_tlvType t) ++ le_encode 2 (fu_lengthField t) ++ fu_organizationId t
    ++ [fu_organizationSubType_ms t] ++ le_encode 2 (fu_organizationSubType_ls t)
    ++ le_encode 4 (cumulativeScaledRateOffset t) ++ le_encode 2 (gmTimeBaseIndicator t)
    ++ le_encode 4 (sn_ms (scaledLastGmPhaseChange t)) ++ le_encode 8 (sn_ls (scaledLastGmPhaseChange t))
    ++ le_encode 4 (scaledLastGmFreqChange t).

Definition sig_toByteString (t : SignallingTLV) : list Z :=
  le_encode 2 (sig_tlvType t) ++ le_encode 2 (sig_lengthField t) ++ sig_organizationId t
    ++ [sig_organizationSubType_ms t] ++ le_encode 2 (sig_organizationSubType_ls t)
    ++ le_encode 1 (linkDelayInterval t) ++ le_encode 1 (timeSyncInterval t)
    ++ le_encode 1 (announceInterval t) ++ [sig_flags t] ++ le_encode 2 (sig_reserved t).

(** [PTPMessageFollowUp::buildMessage] swaps the time base indicator with the
    32-bit [PLAT_htonl] and keeps 16 bits of the result. *)
Definition tbi_NO (t : FollowUpTLV) : Z := u16 (htonl (gmTimeBaseIndicator t)).

(** What [sendPort] puts in the message before it builds the frame: the
    length, and the follow-up's time base indicator. *)
Definition prepare (m : Message) : Message :=
  match payload m with
  | Sync _ => m <| messageLength := 34 + 10 |>
  | FollowUp t f =>
      m <| messageLength := 34 + 10 + 32 |>
        <| payload := FollowUp t (fu_setGMTimeBaseIndicator (tbi_NO f) f) |>
  | PathDelayReq => m <| messageLength := 34 + 20 |>
  | PathDelayResp _ _ => m <| messageLength := 34 + 20 |>
  | PathDelayRespFollowUp _ _ => m <| messageLength := 34 + 20 |>
  | Announce a => m <| messageLength := u16 (34 + 30 + tlv_length (tlv a)) |>
  | Signalling _ _ => m <| messageLength := 34 + 10 + 16 |>
  end.

Definition payload_copies (p : Payload) : copies :=
  match p with
  | Sync t => put_timestamp 34 t
  | FollowUp t f => put_timestamp 34 t ++ [(44%nat, fu_toByteString f)]
  | PathDelayReq => []
  | PathDelayResp id t =>
      [(44%nat, clock_id id); (52%nat, pid_number_NO id)] ++ put_timestamp 34 t
  | PathDelayRespFollowUp t id =>
      [(44%nat, clock_id id); (52%nat, pid_number_NO id)] ++ put_timestamp 34 t
  | Announce a =>
      [ (44, net16 (currentUtcOffset a));
        (47, [grandmasterPriority1 a]);
        (48, [cq_class (grandmasterClockQuality a); clockAccuracy (grandmasterClockQuality a)]
               ++ net16 (offsetScaledLogVariance (grandmasterClockQuality a)));
        (52, [grandmasterPriority2 a]);
        (53, grandmasterIdentity a);
        (61, net16 (stepsRemoved a));
        (63, [timeSource a]);
        (64, tlv_toByteString (tlv a)) ]%nat
  | Signalling t s => [(34%nat, le_encode 1 t); (44%nat, sig_toByteString s)]
  end.

(** The array that [sendPort] hands to the interface: [None] when a copy
    leaves it.  A wireless port has its follow-up built in an array of its own. *)
Definition build_into (buf : list Z) (payload_offset : nat) (m : Message) : option (list Z) :=
  let m := prepare m in
  puts payload_offset (buildCommonHeader m ++ payload_copies (payload m)) buf.
Definition build : nat -> Message -> option (list Z) := build_into (repeat 0 256).

(** The frame in that array. *)
Definition frame_of (payload_offset : nat) (m : Message) : option (list Z) :=
  b ← build payload_offset m;
  slice payload_offset (Z.to_nat (messageLength (prepare m))) b.

(** ** Reading frames *)

Definition rd8 (off : nat) (buf : list Z) : option Z := le_decode <$> slice off 1 buf.
Definition rd16 (off : nat) (buf : list Z) : option Z :=
  (fun b => htons (le_decode b)) <$> slice off 2 buf.
Definition rd32 (off : nat) (buf : list Z) : option Z :=
  (fun b => htonl (le_decode b)) <$> slice off 4 buf.
Definition rd64 (off : nat) (buf : list Z) : option Z :=
  (fun b => htonll (le_decode b)) <$> slice off 8 buf.

Definition rd_timestamp (off : nat) (buf : list Z) : option Timestamp :=
  ms ← rd16 off buf; ls ← rd32 (off + 2) buf; ns ← rd32 (off + 6) buf;
  Some (timestamp ns ls ms).

Definition rd_identity (off_id off_num : nat) (buf : list Z) : option PortIdentity :=
  id ← slice off_id 8 buf; num ← slice off_num 2 buf; Some (PortIdentity_of_wire id num).

(** The outcome of the body's decoding: [None] when a read leaves the array,
    [Some None] when the message is not accepted (the [abort] label), else the
    payload and the value of [buf] afterwards. *)
Abbreviation parsed := (option (option (Payload * nat))).
Definition reject : parsed := Some None.
Definition accept (p : Payload) : parsed := Some (Some (p, 0%nat)).

(** The seconds and nanoseconds of a Sync message are copied as they are. *)
Definition parse_sync (buf : list Z) (size : Z) : parsed :=
  if size <? 34 + 10 then reject else
  ms ← slice 34 2 buf; ls ← slice 36 4 buf; ns ← slice 40 4 buf;
  accept (Sync (timestamp (le_decode ns) (le_decode ls) (le_decode ms))).

Definition fu_of_octets (b : list Z) : FollowUpTLV := {|
  fu_tlvType := le_decode (take 2 b);
  fu_lengthField := le_decode (take 2 (drop 2 b));
  fu_organizationId := take 3 (drop 4 b);
  fu_organizationSubType_ms := le_decode (take 1 (drop 7 b));
  fu_organizationSubType_ls := le_decode (take 2 (drop 8 b));
  cumulativeScaledRateOffset := i32 (le_decode (take 4 (drop 10 b)));
  gmTimeBaseIndicator := le_decode (take 2 (drop 14 b));
  scaledLastGmPhaseChange :=
    mkScaledNs (i32 (le_decode (take 4 (drop 16 b)))) (le_decode (take 8 (drop 20 b)));
  scaledLastGmFreqChange := i32 (le_decode (take 4 (drop 28 b)));
|}.

Definition parse_followup (buf : list Z) (size : Z) : parsed :=
  if size <? 34 + 10 + 32 then reject else
  t ← rd_timestamp 34 buf;
  b ← slice 44 sizeof_FollowUpTLV buf;
  accept (FollowUp t (fu_of_octets b)).

Definition parse_pdelay_req (buf : list Z) (size : Z) : parsed :=
  if (size <? 34 + 20) && negb (size =? 46) then reject else accept PathDelayReq.

Definition parse_pdelay_resp (buf : list Z) (size : Z) : parsed :=
  if size <? 34 + 20 then reject else
  id ← rd_identity 44 52 buf;
  t ← rd_timestamp 34 buf;
  accept (PathDelayResp id t).

(** The size check of the follow-up response is commented out. *)
Definition parse_pdelay_resp_followup (buf : list Z) : parsed :=
  id ← rd_identity 44 52 buf;
  t ← rd_timestamp 34 buf;
  accept (PathDelayRespFollowUp t id).

(** [PathTraceTLV::parseClockIdentity]: [n] identities from [off]. *)
Fixpoint read_identities (n off : nat) (buf : list Z) : option (list ClockIdentity) :=
  match n with
  | O => Some []
  | S n' => id ← slice off 8 buf; l ← read_identities n' (off + 8) buf; Some (id :: l)
  end.

Definition parseClockIdentity (off : nat) (size : Z) (buf : list Z) : option PathTraceTLV :=
  length ← rd16 off buf;
  let size := size - 2 in
  let length := if u32 size <? u32 length then size else length in
  let length := Z.quot length 8 in
  read_identities (Z.to_nat length) (off + 2) buf.

(** The remaining length adds the length of the body where it means to
    subtract it; [buf] is moved past the body, and past the type of a path
    trace, before the common header is read. *)
Definition parse_announce (buf : list Z) (size : Z) : parsed :=
  let tlv_length := size - 34 + 30 in
  utc ← rd16 44 buf;
  p1 ← rd8 47 buf;
  cls ← rd8 48 buf;
  acc ← rd8 49 buf;
  var ← rd16 50 buf;
  p2 ← rd8 52 buf;
  id ← slice 53 8 buf;
  steps ← rd16 61 buf;
  src ← rd8 63 buf;
  ty ← (if 2 * 2 <? tlv_length then rd16 64 buf else Some 0);
  path ← (if (2 * 2 <? tlv_length) && (ty =? PATH_TRACE_TLV_TYPE)
          then tr ← parseClockIdentity 66 (tlv_length - 2) buf; Some (tr, 66%nat)
          else Some ([], 64%nat));
  Some (Some (Announce (mkAnnounce id (mkClockQuality cls acc var) path.1 utc p1 p2 steps src), path.2)).

Definition sig_of_octets (b : list Z) : SignallingTLV := {|
  sig_tlvType := le_decode (take 2 b);
  sig_lengthField := le_decode (take 2 (drop 2 b));
  sig_organizationId := take 3 (drop 4 b);
  sig_organizationSubType_ms := le_decode (take 1 (drop 7 b));
  sig_organizationSubType_ls := le_decode (take 2 (drop 8 b));
  linkDelayInterval := i8 (le_decode (take 1 (drop 10 b)));
  timeSyncInterval := i8 (le_decode (take 1 (drop 11 b)));
  announceInterval := i8 (le_decode (take 1 (drop 12 b)));
  sig_flags := le_decode (take 1 (drop 13 b));
  sig_reserved := le_decode (take 2 (drop 14 b));
|}.

Definition parse_signalling (buf : list Z) : parsed :=
  t ← rd8 34 buf;
  b ← slice 44 sizeof_SignallingTLV buf;
  accept (Signalling (i8 t) (sig_of_octets b)).

(** The [switch] on the message type; [None] stands for the [default] case. *)
Definition parse_body (ty : Z) (buf : list Z) (size : Z) : option parsed :=
  if ty =? 0 then Some (parse_sync buf size)
  else if ty =? 8 then Some (parse_followup buf size)
  else if ty =? 2 then Some (parse_pdelay_req buf size)
  else if ty =? 3 then Some (parse_pdelay_resp buf size)
  else if ty =? 0xA then Some (parse_pdelay_resp_followup buf)
  else if ty =? 0xB then Some (parse_announce buf size)
  else if ty =? 0xC then Some (parse_signalling buf)
  else None.

(** The fields read first. *)
Definition parse_prefix (buf : list Z) : option (Z * Z * PortIdentity * Z) :=
  b ← rd8 0 buf;
  id ← rd_identity 20 28 buf;
  seq ← rd16 30 buf;
  Some (Z.land b 0xF, Z.land (Z.shiftr b 4) 0x0F, id, seq).

(** The rest of the common header, at [buf], and the two members of the
    receive path. *)
Definition parse_header (base : nat) (buf : list Z) (id : PortIdentity) (seq : Z)
    (ts : Timestamp) (counter_value : Z) (p : Payload) : option Message :=
  version ← rd8 (base + 1) buf;
  len ← rd16 (base + 2) buf;
  dom ← rd8 (base + 4) buf;
  fl ← slice (base + 6) 2 buf;
  corr ← rd64 (base + 8) buf;
  ctl ← slice (base + 32) 4 buf;
  log ← rd8 (base + 33) buf;
  Some (mkMessage version id seq (le_decode ctl) fl len (i8 log) (i64 corr) dom ts counter_value
          false p).

(** ** Well-formed messages *)

Definition ts_fits (t : Timestamp) : Prop :=
  fits 16 (seconds_ms t) /\ fits 32 (seconds_ls t) /\ fits 32 (nanoseconds t).
Definition fu_wf (f : FollowUpTLV) : Prop :=
  fits 16 (fu_tlvType f) /\ fits 16 (fu_lengthField f) /\ octets_of_length 3 (fu_organizationId f) /\
  octet (fu_organizationSubType_ms f) /\ fits 16 (fu_organizationSubType_ls f) /\
  sfits 32 (cumulativeScaledRateOffset f) /\ fits 16 (gmTimeBaseIndicator f) /\
  sfits 32 (sn_ms (scaledLastGmPhaseChange f)) /\ fits 64 (sn_ls (scaledLastGmPhaseChange f)) /\
  sfits 32 (scaledLastGmFreqChange f).
Definition sig_wf (s : SignallingTLV) : Prop :=
  fits 16 (sig_tlvType s) /\ fits 16 (sig_lengthField s) /\ octets_of_length 3 (sig_organizationId s) /\
  octet (sig_organizationSubType_ms s) /\ fits 16 (sig_organizationSubType_ls s) /\
  sfits 8 (linkDelayInterval s) /\ sfits 8 (timeSyncInterval s) /\ sfits 8 (announceInterval s) /\
  octet (sig_flags s) /\ fits 16 (sig_reserved s).

Definition payload_wf (p : Payload) : Prop :=
  match p with
  | Sync t => ts_fits t
  | FollowUp t f => ts_fits t /\ fu_wf f
  | PathDelayReq => True
  | PathDelayResp id t | PathDelayRespFollowUp t id => pid_wf id /\ ts_fits t
  | Announce a =>
      annc_wf a /\ fits 16 (currentUtcOffset a) /\ fits 16 (stepsRemoved a) /\ octet (timeSource a) /\
      Forall cid_wf (tlv a) /\ (length (tlv a) <= 7)%nat
  | Signalling t s => sfits 8 t /\ sig_wf s
  end.

Definition msg_wf (m : Message) : Prop :=
  octet (versionPTP m) /\ pid_wf (sourcePortIdentity m) /\ fits 16 (sequenceId m) /\
  octets_of_length 2 (flags m) /\ sfits 8 (logMeanMessageInterval m) /\
  sfits 64 (correctionField m) /\ octet (domainNumber m) /\ payload_wf (payload m).

(** ** Round trips *)

Lemma rd16_net off buf x : slice off 2 buf = Some (net16 x) -> rd16 off buf = Some (u16 x).
Proof. intros H. unfold rd16. rewrite H. cbn [fmap option_fmap option_map]. f_equal. apply htons_back. Qed.
Lemma rd32_net off buf x : slice off 4 buf = Some (net32 x) -> rd32 off buf = Some (u32 x).
Proof. intros H. unfold rd32. rewrite H. cbn [fmap option_fmap option_map]. f_equal. apply htonl_back. Qed.
Lemma rd64_net off buf x : slice off 8 buf = Some (net64 x) -> rd64 off buf = Some (u64 x).
Proof. intros H. unfold rd64. rewrite H. cbn [fmap option_fmap option_map]. f_equal. apply htonll_back. Qed.
Lemma rd8_octet off buf x : slice off 1 buf = Some [x] -> rd8 off buf = Some x.
Proof. intros H. unfold rd8. rewrite H. cbn. f_equal. lia. Qed.

Lemma rd_timestamp_net off buf t :
  ts_fits t ->
  slice off 2 buf = Some (net16 (seconds_ms t)) ->
  slice (off + 2) 4 buf = Some (net32 (seconds_ls t)) ->
  slice (off + 6) 4 buf = Some (net32 (nanoseconds t)) ->
  rd_timestamp off buf = Some (timestamp (nanoseconds t) (seconds_ls t) (seconds_ms t)).
Proof.
  intros (Hm & Hl & Hn) H1 H2 H3. unfold rd_timestamp.
  rewrite (rd16_net _ _ _ H1), (rd32_net _ _ _ H2), (rd32_net _ _ _ H3). cbn.
  unfold u16, u32. by rewrite !uwrap_small.
Qed.

Lemma rd_identity_net o1 o2 buf id :
  pid_wf id -> slice o1 8 buf = Some (clock_id id) -> slice o2 2 buf = Some (pid_number_NO id) ->
  rd_identity o1 o2 buf = Some id.
Proof.
  intros Hw H1 H2. unfold rd_identity. rewrite H1, H2.
  change (Some (PortIdentity_of_wire (clock_id id) (pid_number_NO id)) = Some id).
  by rewrite PortIdentity_of_wire_back.
Qed.

Ltac le_backs :=
  match goal with
  | H : fits ?w ?x |- le_decode _ = ?x =>
      first [ exact (le_back 2 x H) | exact (le_back 8 x H) | exact (le_back 4 x H) ]
  | H : sfits 32 ?x |- i32 _ = ?x => exact (le_back_signed 4 x H)
  | H : sfits 8 ?x |- i8 _ = ?x => exact (le_back_signed 1 x H)
  | H : octet ?x |- le_decode _ = ?x => cbn; lia
  end.

(** The packed TLVs come back as they were. *)
Lemma fu_of_octets_back f : fu_wf f -> fu_of_octets (fu_toByteString f) = f.
Proof.
  destruct f as [ty len org ms ls rate tbi [pms pls] freq].
  intros (H1 & H2 & [_ H3] & H4 & H5 & H6 & H7 & H8 & H9 & H10).
  cbn [fu_tlvType fu_lengthField fu_organizationId fu_organizationSubType_ms
    fu_organizationSubType_ls cumulativeScaledRateOffset gmTimeBaseIndicator
    scaledLastGmPhaseChange scaledLastGmFreqChange sn_ms sn_ls] in *.
  destruct org as [|a [|b [|c [|]]]]; try discriminate H3.
  unfold fu_of_octets, fu_toByteString.
  cbv [take drop app fu_tlvType fu_lengthField fu_organizationId fu_organizationSubType_ms
    fu_organizationSubType_ls cumulativeScaledRateOffset gmTimeBaseIndicator
    scaledLastGmPhaseChange scaledLastGmFreqChange sn_ms sn_ls le_encode].
  f_equal; try le_backs. f_equal; le_backs.
Qed.

Lemma sig_of_octets_back s : sig_wf s -> sig_of_octets (sig_toByteString s) = s.
Proof.
  destruct s as [ty len org ms ls ld tsi an fl rs].
  intros (H1 & H2 & [_ H3] & H4 & H5 & H6 & H7 & H8 & H9 & H10).
  cbn [sig_tlvType sig_lengthField sig_organizationId sig_organizationSubType_ms
    sig_organizationSubType_ls linkDelayInterval timeSyncInterval announceInterval
    sig_flags sig_reserved] in *.
  destruct org as [|a [|b [|c [|]]]]; try discriminate H3.
  unfold sig_of_octets, sig_toByteString.
  cbv [take drop app sig_tlvType sig_lengthField sig_organizationId sig_organizationSubType_ms
    sig_organizationSubType_ls linkDelayInterval timeSyncInterval announceInterval
    sig_flags sig_reserved le_encode].
  f_equal; le_backs.
Qed.

Definition wire_copies (m : Message) : copies :=
  buildCommonHeader (prepare m) ++ payload_copies (payload (prepare m)).

Lemma last_write_below fs o len :
  (0 < len)%nat -> forallb (fun '(o', _) => (o + len <=? o')%nat) fs = true ->
  last_write fs o len = None.
Proof.
  intros Hlen. induction fs as [|[o' bs] fs IH]; [done|]. cbn [forallb last_write].
  intros [H1%Nat.leb_le H2]%andb_true_iff. rewrite IH by done.
  replace (o' =? o)%nat with false by (symmetry; apply Nat.eqb_neq; lia).
  clear. by destruct (forallb _ fs).
Qed.

(** Copies above a range leave what the earlier ones wrote there. *)
Lemma last_write_app_below fs1 fs2 o len :
  (0 < len)%nat -> forallb (fun '(o', _) => (o + len <=? o')%nat) fs2 = true ->
  last_write (fs1 ++ fs2) o len = last_write fs1 o len.
Proof.
  intros Hlen H. induction fs1 as [|[o' bs] fs IH]; [by apply last_write_below|].
  cbn [app last_write]. rewrite IH, forallb_app.
  replace (forallb _ fs2) with true; [by rewrite andb_true_r|].
  symmetry. apply forallb_forall. intros [o2 b2] Hin. rewrite forallb_forall in H.
  specialize (H _ Hin). cbn in H. rewrite H. apply orb_true_r.
Qed.

(** What the last copies leave. *)
Lemma last_write_app_r fs1 fs2 o len r :
  last_write fs2 o len = Some r -> last_write (fs1 ++ fs2) o len = Some r.
Proof. intros H. induction fs1 as [|[o' b'] fs IH]; [done|]. cbn [app last_write]. by rewrite IH. Qed.

Lemma last_write_one o bs : last_write [(o, bs)] o (length bs) = Some bs.
Proof. cbn. by rewrite !Nat.eqb_refl. Qed.

Lemma payload_copies_above p o len : (o + len <= 34)%nat ->
  forallb (fun '(o', _) => (o + len <=? o')%nat) (payload_copies p) = true.
Proof.
  intros H. apply forallb_forall. intros [o' bs] Hin. apply Nat.leb_le.
  transitivity 34%nat; [done|].
  destruct p; cbn in Hin; repeat destruct Hin as [[= <- _]|Hin]; try done; lia.
Qed.

Lemma frame_of_length off m f :
  frame_of off m = Some f -> length f = Z.to_nat (messageLength (prepare m)).
Proof.
  unfold frame_of. intros H. destruct (build off m) as [b|]; [|done]. by apply slice_length in H.
Qed.

(** What the receiver reads is what the last copy wrote. *)
Lemma frame_slice off m f rest o len r :
  frame_of off m = Some f -> (o + len <= length f)%nat ->
  last_write (wire_copies m) o len = Some r -> slice o len (f ++ rest) = Some r.
Proof.
  intros Hf Hl Hw. rewrite slice_app_l by done.
  pose proof (frame_of_length _ _ _ Hf) as Hlen.
  unfold frame_of in Hf. destruct (build off m) as [b|] eqn:Hb; [|done].
  cbn [mbind option_bind] in Hf.
  rewrite <- (slice_sub _ _ _ _ _ _ Hf) by lia.
  unfold build, build_into in Hb. eapply slice_puts; [exact Hb|exact Hw].
Qed.

Lemma frame_header_slice off m f rest o len r :
  frame_of off m = Some f -> (34 <= length f)%nat -> (0 < len)%nat -> (o + len <= 34)%nat ->
  last_write (buildCommonHeader (prepare m)) o len = Some r -> slice o len (f ++ rest) = Some r.
Proof.
  intros Hf Hl H0 Hb Hw. eapply frame_slice; [done|lia|]. unfold wire_copies.
  rewrite last_write_app_below; [done|done|by apply payload_copies_above].
Qed.

Lemma tspec_fields t :
  Z.land (Z.lor (MessageType_code t) 0x10) 0xF = MessageType_code t /\
  Z.land (Z.shiftr (Z.lor (MessageType_code t) 0x10) 4) 0x0F = 1.
Proof. by destruct t. Qed.

(** The members that [prepare] leaves alone. *)
Lemma prepare_fields m :
  messageType (prepare m) = messageType m /\ versionPTP (prepare m) = versionPTP m /\
  sourcePortIdentity (prepare m) = sourcePortIdentity m /\ sequenceId (prepare m) = sequenceId m /\
  flags (prepare m) = flags m /\ correctionField (prepare m) = correctionField m /\
  domainNumber (prepare m) = domainNumber m /\
  logMeanMessageInterval (prepare m) = logMeanMessageInterval m.
Proof. destruct m as [? ? ? ? ? ? ? ? ? ? ? ? p]. by destruct p. Qed.

Lemma prepare_length m : payload_wf (payload m) ->
  fits 16 (messageLength (prepare m)) /\ 44 <= messageLength (prepare m) <= 124.
Proof.
  intros H. assert (44 <= messageLength (prepare m) <= 124); [|split; [unfold fits|]; lia].
  destruct m as [? ? ? ? ? ? ? ? ? ? ? ? p]. destruct p; cbn -[u16] in *; try lia.
  destruct H as (_ & _ & _ & _ & _ & H). unfold tlv_length, u16.
  rewrite uwrap_small; unfold fits; lia.
Qed.

(** [hdr_slice]: what the frame holds at a place of the common header. *)
Ltac hdr_slice Hf P :=
  rewrite <- ?P; eapply frame_header_slice; [exact Hf|assumption|lia|lia|];
  repeat match goal with
  | Hlen : length (clock_id ?i) = 8%nat |- _ =>
      let E := fresh "E" in
      pose proof (length8 _ Hlen) as (?&?&?&?&?&?&?&?&E); clear Hlen
  | Hfl : length (flags ?m) = 2%nat |- _ =>
      let E := fresh "E" in
      destruct (flags m) as [|? [|? [|]]] eqn:E; try discriminate Hfl; clear Hfl
  end;
  unfold buildCommonHeader;
  repeat match goal with E : clock_id _ = _ |- _ => rewrite E; clear E
    | E : flags _ = _ |- _ => rewrite E; clear E end;
  reflexivity.

(** The prefix that [buildPTPMessage] reads first. *)
Lemma parse_prefix_frame off m f rest :
  msg_wf m -> frame_of off m = Some f -> (34 <= length f)%nat ->
  parse_prefix (f ++ rest) =
    Some (MessageType_code (messageType m), 1, sourcePortIdentity m, sequenceId m).
Proof.
  intros (Hv & Hid & Hseq & [_ Hfl] & _) Hf Hl.
  destruct (prepare_fields m) as (Pt & Pv & Pid & Pseq & Pfl & _).
  pose proof Hid as [[_ Hlen] _]. rewrite <- Pid in Hlen. rewrite <- Pfl in Hfl.
  unfold parse_prefix.
  assert (H1 : slice 0 1 (f ++ rest) = Some [Z.lor (MessageType_code (messageType m)) 0x10])
    by hdr_slice Hf Pt.
  assert (H2 : slice 20 8 (f ++ rest) = Some (clock_id (sourcePortIdentity m))) by hdr_slice Hf Pid.
  assert (H3 : slice 28 2 (f ++ rest) = Some (pid_number_NO (sourcePortIdentity m)))
    by hdr_slice Hf Pid.
  assert (H4 : slice 30 2 (f ++ rest) = Some (net16 (sequenceId m))) by hdr_slice Hf Pseq.
  rewrite (rd8_octet _ _ _ H1), (rd_identity_net _ _ _ _ Hid H2 H3), (rd16_net _ _ _ H4).
  cbn [mbind option_bind].
  destruct (tspec_fields (messageType m)) as [-> ->]. unfold u16. by rewrite uwrap_small.
Qed.

(** The rest of the common header; only the first octet of [control] is the
    sender's. *)
Lemma parse_header_frame off m f rest ts cv p :
  msg_wf m -> frame_of off m = Some f -> (34 <= length f)%nat -> (128 <= length (f ++ rest))%nat ->
  exists ctl,
  parse_header 0 (f ++ rest) (sourcePortIdentity m) (sequenceId m) ts cv p =
    Some (mkMessage (versionPTP m) (sourcePortIdentity m) (sequenceId m) ctl (flags m)
            (messageLength (prepare m)) (logMeanMessageInterval m) (correctionField m)
            (domainNumber m) ts cv false p).
Proof.
  intros (Hv & Hid & Hseq & [_ Hfl] & Hlog & Hcorr & Hdom & Hp) Hf Hl Hbuf.
  destruct (prepare_fields m) as (Pt & Pv & Pid & Pseq & Pfl & Pcorr & Pdom & Plog).
  pose proof Hid as [[_ Hlen] _]. rewrite <- Pid in Hlen. rewrite <- Pfl in Hfl.
  assert (H1 : slice (0 + 1) 1 (f ++ rest) = Some [versionPTP m]) by hdr_slice Hf Pv.
  assert (H2 : slice (0 + 2) 2 (f ++ rest) = Some (net16 (messageLength (prepare m))))
    by hdr_slice Hf Pv.
  assert (H3 : slice (0 + 4) 1 (f ++ rest) = Some [domainNumber m]) by hdr_slice Hf Pdom.
  assert (H4 : slice (0 + 6) 2 (f ++ rest) = Some (flags m)) by hdr_slice Hf Pfl.
  assert (H5 : slice (0 + 8) 8 (f ++ rest) = Some (net64 (correctionField m))) by hdr_slice Hf Pcorr.
  assert (H6 : slice (0 + 33) 1 (f ++ rest) = Some (le_encode 1 (logMeanMessageInterval m)))
    by hdr_slice Hf Plog.
  destruct (slice_defined (0 + 32) 4 (f ++ rest)) as [c Hc]; [lia|]. exists (le_decode c).
  unfold parse_header. unfold rd8 at 1 2 3.
  rewrite H1, (rd16_net _ _ _ H2), H3, H4, (rd64_net _ _ _ H5), Hc, H6.
  cbn [mbind option_bind fmap option_fmap option_map].
  destruct (prepare_length m Hp) as [Hml _].
  unfold u16. rewrite uwrap_small by done.
  change (u64 (correctionField m)) with (correctionField m mod 2 ^ 64).
  unfold i64. rewrite swrap_uwrap by done.
  change (i8 (le_decode (le_encode 1 (logMeanMessageInterval m)))) with
    (swrap (8 * Z.of_nat 1) (le_decode (le_encode 1 (logMeanMessageInterval m)))).
  rewrite le_back_signed by done. cbn. by rewrite !Z.add_0_r.
Qed.

(** What the receiver's body holds: a Sync's time is not swapped back, a
    follow-up's time base indicator is lost, the rest is what was sent. *)
Definition wire_time (t : Timestamp) : Timestamp := timestamp (nanoseconds t) (seconds_ls t) (seconds_ms t).

Definition received (p : Payload) : Payload :=
  match p with
  | Sync t => Sync (timestamp (htonl (nanoseconds t)) (htonl (seconds_ls t)) (htons (seconds_ms t)))
  | FollowUp t f => FollowUp (wire_time t) (fu_setGMTimeBaseIndicator 0 f)
  | PathDelayReq => PathDelayReq
  | PathDelayResp id t => PathDelayResp id (wire_time t)
  | PathDelayRespFollowUp t id => PathDelayRespFollowUp (wire_time t) id
  | Announce a => Announce a
  | Signalling t s => Signalling t s
  end.

Lemma tbi_NO_zero f : fits 16 (gmTimeBaseIndicator f) -> tbi_NO f = 0.
Proof.
  unfold tbi_NO, htonl, bswap, be_encode. intros H. unfold u32. rewrite uwrap_small by
    (unfold fits in *; lia).
  cbn [le_encode rev app le_decode]. int_lia.
Qed.

(** [body_slice]: what the frame of a message with a known payload holds at a
    place of the body. *)
Ltac body_slice Hf :=
  eapply frame_slice;
  [ exact Hf
  | match goal with Hl : length _ = _ |- _ => rewrite Hl end; unfold sizeof_FollowUpTLV, sizeof_SignallingTLV; cbn; lia
  | cbv [wire_copies buildCommonHeader prepare set field_setter payload messageLength
         sourcePortIdentity flags messageType versionPTP domainNumber correctionField sequenceId
         control logMeanMessageInterval payload_copies put_timestamp app];
    repeat match goal with
    | E : clock_id _ = _ |- _ => rewrite E
    | E : flags _ = _ |- _ => rewrite E end;
    reflexivity ].

Lemma read_identities_back l : forall off buf, Forall cid_wf l ->
  slice off (8 * length l) buf = Some (concat l) -> read_identities (length l) off buf = Some l.
Proof.
  induction l as [|id l IH]; intros off buf Hl Hs; [done|].
  apply Forall_cons in Hl as [[_ Hid] Hl]. cbn [length read_identities concat] in *.
  assert (H1 : slice off 8 buf = Some id).
  { rewrite <- (Nat.add_0_r off), (slice_sub _ _ _ _ _ _ Hs) by lia.
    rewrite <- Hid. exact (slice_middle [] id (concat l)). }
  rewrite H1. cbn [mbind option_bind]. rewrite (IH (off + 8)%nat buf Hl); [done|].
  rewrite (slice_sub _ _ _ _ _ _ Hs) by lia. pose proof (slice_length _ _ _ _ Hs) as Hlen.
  rewrite length_app, Hid in Hlen.
  replace (8 * length l)%nat with (length (concat l)) by lia.
  rewrite <- Hid at 1. rewrite <- (app_nil_r (concat l)) at 2. apply slice_middle.
Qed.

Lemma length_concat_ids l : Forall cid_wf l -> length (concat l) = (8 * length l)%nat.
Proof.
  induction 1 as [|id l [_ Hid] _ IH]; [done|]. cbn [concat length]. rewrite length_app, Hid, IH. lia.
Qed.

Lemma length_tlv_toByteString l :
  Forall cid_wf l -> length (tlv_toByteString l) = (4 + 8 * length l)%nat.
Proof.
  intros H. unfold tlv_toByteString. rewrite !length_app, !length_le_encode, length_concat_ids by done. lia.
Qed.

(** The path trace of at most seven identities, read where it was written. *)
Lemma parse_path_back l buf :
  Forall cid_wf l -> (length l <= 7)%nat ->
  slice 64 (4 + 8 * length l) buf = Some (tlv_toByteString l) ->
  rd16 64 buf = Some PATH_TRACE_TLV_TYPE /\
  slice 66 2 buf = Some (net16 (8 * Z.of_nat (length l))) /\
  parseClockIdentity 66 (Z.of_nat (2 + 8 * length l) + 60) buf = Some l.
Proof.
  intros Hl Hn Hs. unfold tlv_toByteString in Hs.
  assert (H1 : slice 64 2 buf = Some (net16 PATH_TRACE_TLV_TYPE)).
  { rewrite (slice_sub 64 _ 0 _ _ _ Hs) by lia. exact (slice_middle [] (net16 _) _). }
  assert (H2 : slice 66 2 buf = Some (net16 (u16 (Z.of_nat (length l)) * 8))).
  { rewrite (slice_sub 64 _ 2 _ _ _ Hs) by lia. exact (slice_middle (net16 _) (net16 _) _). }
  assert (H3 : slice 68 (8 * length l) buf = Some (concat l)).
  { rewrite (slice_sub 64 _ 4 _ _ _ Hs) by lia. rewrite <- (length_concat_ids l Hl).
    rewrite <- (app_nil_r (concat l)) at 2. exact (slice_middle (net16 _ ++ net16 _) _ []). }
  split; [exact (rd16_net _ _ _ H1)|].
  replace (u16 (Z.of_nat (length l)) * 8) with (8 * Z.of_nat (length l)) in H2 by int_lia.
  split; [done|].
  unfold parseClockIdentity. rewrite (rd16_net _ _ _ H2). cbn [mbind option_bind].
  assert (Hu : u16 (8 * Z.of_nat (length l)) = 8 * Z.of_nat (length l)) by int_lia.
  rewrite Hu. replace (u32 _ <? u32 _) with false by (symmetry; apply Z.ltb_ge; int_lia).
  rewrite Z.mul_comm, Z.quot_mul, Nat2Z.id by lia. by apply read_identities_back.
Qed.

Section Bodies.
Context (off : nat) (m : Message) (f rest : list Z).
Context (Hwf : msg_wf m) (Hf : frame_of off m = Some f).

Local Ltac body_start :=
  let Hl := fresh "Hl" in
  pose proof (frame_of_length _ _ _ Hf) as Hl;
  destruct Hwf as (_ & [[_ Hlen] _] & _ & [_ Hfl] & _ & _ & _ & Hp);
  destruct m as [v sid seq ctl fl ml lg corr dom ts tc gc p];
  cbn [payload sourcePortIdentity flags] in *; subst p;
  pose proof (length8 _ Hlen) as (?&?&?&?&?&?&?&?&E);
  destruct fl as [|? [|? [|]]]; try discriminate Hfl.

Lemma parse_sync_frame t : payload m = Sync t ->
  parse_sync (f ++ rest) (Z.of_nat (length f)) = accept (received (payload m)).
Proof.
  intros Hpl. body_start.
  assert (H1 : slice 34 2 (f ++ rest) = Some (net16 (seconds_ms t))) by body_slice Hf.
  assert (H2 : slice 36 4 (f ++ rest) = Some (net32 (seconds_ls t))) by body_slice Hf.
  assert (H3 : slice 40 4 (f ++ rest) = Some (net32 (nanoseconds t))) by body_slice Hf.
  unfold parse_sync. rewrite H1, H2, H3, Hl.
  cbn [mbind option_bind prepare payload messageLength].
  change (Z.of_nat (Z.to_nat (34 + 10)) <? 34 + 10) with false. cbn iota.
  unfold received, net16, net32. rewrite !le_back by apply bswap_bound. done.
Qed.

Lemma parse_followup_frame t fu : payload m = FollowUp t fu ->
  parse_followup (f ++ rest) (Z.of_nat (length f)) = accept (received (payload m)).
Proof.
  intros Hpl. body_start. destruct Hp as [Ht Hfu].
  assert (Hfu0 : fu_wf (fu_setGMTimeBaseIndicator 0 fu)).
  { unfold fu_wf, fu_setGMTimeBaseIndicator in *. cbn in *. intuition. unfold fits; lia. }
  assert (Htbi : tbi_NO fu = 0) by (apply tbi_NO_zero, Hfu).
  assert (H1 : slice 34 2 (f ++ rest) = Some (net16 (seconds_ms t))) by body_slice Hf.
  assert (H2 : slice 36 4 (f ++ rest) = Some (net32 (seconds_ls t))) by body_slice Hf.
  assert (H3 : slice 40 4 (f ++ rest) = Some (net32 (nanoseconds t))) by body_slice Hf.
  assert (H4 : slice 44 sizeof_FollowUpTLV (f ++ rest) =
               Some (fu_toByteString (fu_setGMTimeBaseIndicator 0 fu))).
  { destruct Hfu as (_ & _ & [_ Ho] & _). rewrite <- Htbi.
    destruct fu as [? ? org ? ? ? ? ? ?]. cbn [fu_organizationId] in Ho.
    destruct org as [|? [|? [|? [|]]]]; try discriminate Ho. body_slice Hf. }
  unfold parse_followup. rewrite (rd_timestamp_net 34 _ t Ht H1 H2 H3), H4, Hl.
  cbn [mbind option_bind prepare payload messageLength].
  change (Z.of_nat (Z.to_nat (34 + 10 + 32)) <? 34 + 10 + 32) with false. cbn iota.
  by rewrite fu_of_octets_back.
Qed.

Lemma parse_pdelay_resp_frame id t : payload m = PathDelayResp id t ->
  parse_pdelay_resp (f ++ rest) (Z.of_nat (length f)) = accept (received (payload m)).
Proof.
  intros Hpl. body_start. destruct Hp as [Hid Ht].
  assert (Hlid : length (clock_id id) = 8%nat) by apply Hid.
  pose proof (length8 _ Hlid) as (?&?&?&?&?&?&?&?&Eid).
  assert (H1 : slice 34 2 (f ++ rest) = Some (net16 (seconds_ms t))) by body_slice Hf.
  assert (H2 : slice 36 4 (f ++ rest) = Some (net32 (seconds_ls t))) by body_slice Hf.
  assert (H3 : slice 40 4 (f ++ rest) = Some (net32 (nanoseconds t))) by body_slice Hf.
  assert (H4 : slice 44 8 (f ++ rest) = Some (clock_id id)) by body_slice Hf.
  assert (H5 : slice 52 2 (f ++ rest) = Some (pid_number_NO id)) by body_slice Hf.
  unfold parse_pdelay_resp.
  rewrite (rd_identity_net _ _ _ _ Hid H4 H5), (rd_timestamp_net 34 _ t Ht H1 H2 H3), Hl.
  by cbn [mbind option_bind prepare payload messageLength].
Qed.

Lemma parse_pdelay_resp_followup_frame t id : payload m = PathDelayRespFollowUp t id ->
  parse_pdelay_resp_followup (f ++ rest) = accept (received (payload m)).
Proof.
  intros Hpl. body_start. destruct Hp as [Hid Ht].
  assert (Hlid : length (clock_id id) = 8%nat) by apply Hid.
  pose proof (length8 _ Hlid) as (?&?&?&?&?&?&?&?&Eid).
  assert (H1 : slice 34 2 (f ++ rest) = Some (net16 (seconds_ms t))) by body_slice Hf.
  assert (H2 : slice 36 4 (f ++ rest) = Some (net32 (seconds_ls t))) by body_slice Hf.
  assert (H3 : slice 40 4 (f ++ rest) = Some (net32 (nanoseconds t))) by body_slice Hf.
  assert (H4 : slice 44 8 (f ++ rest) = Some (clock_id id)) by body_slice Hf.
  assert (H5 : slice 52 2 (f ++ rest) = Some (pid_number_NO id)) by body_slice Hf.
  unfold parse_pdelay_resp_followup.
  by rewrite (rd_identity_net _ _ _ _ Hid H4 H5), (rd_timestamp_net 34 _ t Ht H1 H2 H3).
Qed.

Lemma parse_signalling_frame t s : payload m = Signalling t s ->
  parse_signalling (f ++ rest) = accept (received (payload m)).
Proof.
  intros Hpl. body_start. destruct Hp as [Ht Hs].
  assert (H1 : slice 34 1 (f ++ rest) = Some (le_encode 1 t)) by body_slice Hf.
  assert (H2 : slice 44 sizeof_SignallingTLV (f ++ rest) = Some (sig_toByteString s)).
  { destruct Hs as (_ & _ & [_ Ho] & _).
    destruct s as [? ? org ? ? ? ? ? ? ?]. cbn [sig_organizationId] in Ho.
    destruct org as [|? [|? [|? [|]]]]; try discriminate Ho. body_slice Hf. }
  unfold parse_signalling, rd8. rewrite H1, H2.
  cbn [mbind option_bind fmap option_fmap option_map].
  change (i8 (le_decode (le_encode 1 t))) with
    (swrap (8 * Z.of_nat 1) (le_decode (le_encode 1 t))).
  by rewrite le_back_signed, sig_of_octets_back.
Qed.

Lemma parse_announce_frame a : payload m = Announce a ->
  parse_announce (f ++ rest) (Z.of_nat (length f)) = Some (Some (received (payload m), 66%nat)) /\
  slice 66 2 (f ++ rest) = Some (net16 (8 * Z.of_nat (length (tlv a)))).
Proof.
  intros Hpl. body_start.
  destruct Hp as ((Hp1 & Hp2 & (Hc & Ha & Hv) & [_ Hg]) & Hu & Hs & Hts & Htlv & Hn).
  pose proof (length8 _ Hg) as (?&?&?&?&?&?&?&?&Eg).
  cbn [prepare payload messageLength set field_setter] in Hl.
  assert (Hlf : length f = (68 + 8 * length (tlv a))%nat)
    by (rewrite Hl; unfold tlv_length; int_lia).
  clear Hl. rename Hlf into Hl.
  destruct a as [gid [cc ca cv] tr utc p1 p2 steps src].
  cbn [grandmasterIdentity grandmasterClockQuality cq_class clockAccuracy offsetScaledLogVariance
    tlv currentUtcOffset grandmasterPriority1 grandmasterPriority2 stepsRemoved timeSource] in *.
  subst gid.
  assert (H1 : slice 44 2 (f ++ rest) = Some (net16 utc)) by body_slice Hf.
  assert (H2 : slice 47 1 (f ++ rest) = Some [p1]) by body_slice Hf.
  assert (H3 : slice 48 4 (f ++ rest) = Some ([cc; ca] ++ net16 cv)) by body_slice Hf.
  assert (H4 : slice 52 1 (f ++ rest) = Some [p2]) by body_slice Hf.
  assert (H5 : slice 53 8 (f ++ rest) = Some [x7; x8; x9; x10; x11; x12; x13; x14]) by body_slice Hf.
  assert (H6 : slice 61 2 (f ++ rest) = Some (net16 steps)) by body_slice Hf.
  assert (H7 : slice 63 1 (f ++ rest) = Some [src]) by body_slice Hf.
  assert (H8 : slice 64 (4 + 8 * length tr) (f ++ rest) = Some (tlv_toByteString tr)).
  { rewrite <- length_tlv_toByteString by done. eapply frame_slice; [exact Hf| |].
    - rewrite length_tlv_toByteString, Hl by done. lia.
    - unfold wire_copies. apply last_write_app_r.
      apply (last_write_app_r [_; _; _; _; _; _; _] [_]). apply last_write_one. }
  destruct (parse_path_back tr _ Htlv Hn H8) as (P1 & P3 & P2).
  assert (H31 : slice 48 1 (f ++ rest) = Some [cc])
    by exact (slice_sub 48 4 0 1 _ _ H3 ltac:(lia)).
  assert (H32 : slice 49 1 (f ++ rest) = Some [ca])
    by exact (slice_sub 48 4 1 1 _ _ H3 ltac:(lia)).
  assert (H33 : slice 50 2 (f ++ rest) = Some (net16 cv))
    by exact (slice_sub 48 4 2 2 _ _ H3 ltac:(lia)).
  split; [|exact P3]. unfold parse_announce. rewrite Hl.
  rewrite (rd16_net _ _ _ H1), (rd8_octet _ _ _ H2), (rd8_octet _ _ _ H31),
    (rd8_octet _ _ _ H32), (rd16_net _ _ _ H33), (rd8_octet _ _ _ H4), H5,
    (rd16_net _ _ _ H6), (rd8_octet _ _ _ H7), P1.
  replace (Z.of_nat (68 + 8 * length tr) - 34 + 30 - 2)
    with (Z.of_nat (2 + 8 * length tr) + 60) by lia.
  rewrite P2. replace (2 * 2 <? Z.of_nat (68 + 8 * length tr) - 34 + 30) with true
    by (symmetry; apply Z.ltb_lt; lia).
  cbn. unfold u16. by rewrite !uwrap_small.
Qed.
End Bodies.

(** ** Frames are built, and received, within their arrays *)

Lemma length_net16 x : length (net16 x) = 2%nat. Proof. apply length_le_encode. Qed.
Lemma length_net32 x : length (net32 x) = 4%nat. Proof. apply length_le_encode. Qed.
Lemma length_net64 x : length (net64 x) = 8%nat. Proof. apply length_le_encode. Qed.

Lemma length_fu_toByteString f :
  length (fu_organizationId f) = 3%nat -> length (fu_toByteString f) = 32%nat.
Proof. intros H. unfold fu_toByteString. rewrite !length_app, !length_le_encode, H. done. Qed.

Lemma length_sig_toByteString s :
  length (sig_organizationId s) = 3%nat -> length (sig_toByteString s) = 16%nat.
Proof. intros H. unfold sig_toByteString. rewrite !length_app, !length_le_encode, H. done. Qed.

Lemma payload_copies_within p : payload_wf p ->
  Forall (fun '(o, bs) => (o + length bs <= 124)%nat) (payload_copies (payload
    (prepare (mkMessage 0 (mkPortIdentity [] 0) 0 0 [] 0 0 0 0 INVALID_TIMESTAMP 0 false p)))).
Proof.
  intros H.
  destruct p as [t|t f| |id t|t id|a|t s];
    cbn [prepare payload payload_copies set field_setter app put_timestamp];
    repeat (apply Forall_cons; split); try apply Forall_nil; try exact I;
    rewrite ?length_net16, ?length_net32, ?length_le_encode, ?length_app; cbn [length];
    rewrite ?length_net16; try lia.
  - destruct H as [_ H]. rewrite length_fu_toByteString; [lia|]. apply H.
  - destruct H as [[[_ H] _] _]. lia.
  - unfold pid_number_NO. rewrite length_le_encode. lia.
  - destruct H as [[[_ H] _] _]. lia.
  - unfold pid_number_NO. rewrite length_le_encode. lia.
  - destruct H as ((_ & _ & _ & [_ H]) & _). lia.
  - destruct H as (_ & _ & _ & _ & H & Hn). rewrite length_tlv_toByteString by done. lia.
  - destruct H as [_ H]. rewrite length_sig_toByteString; [lia|]. apply H.
Qed.

Lemma wire_copies_within m : msg_wf m ->
  Forall (fun '(o, bs) => (o + length bs <= 124)%nat) (wire_copies m).
Proof.
  intros (_ & [[_ Hid] _] & _ & [_ Hfl] & _ & _ & _ & Hp). apply Forall_app. split.
  - destruct (prepare_fields m) as (_ & _ & Pid & _ & Pfl & _). unfold buildCommonHeader.
    rewrite Pid, Pfl.
    repeat (apply Forall_cons; split); try apply Forall_nil; try exact I;
      rewrite ?length_net16, ?length_net64, ?length_le_encode; cbn [length]; try lia.
    unfold pid_number_NO. rewrite length_le_encode. lia.
  - pose proof (payload_copies_within _ Hp) as H. by destruct m as [? ? ? ? ? ? ? ? ? ? ? ? []].
Qed.

Lemma frame_defined off m : msg_wf m -> (off <= 132)%nat ->
  exists f, frame_of off m = Some f /\ length f = Z.to_nat (messageLength (prepare m)).
Proof.
  intros Hm Ho. pose proof (wire_copies_within m Hm) as Hw.
  destruct (puts_defined off (wire_copies m) (repeat 0 256)) as [b Hb].
  { eapply Forall_impl; [exact Hw|]. intros [o bs] H. cbn in H. rewrite repeat_length. lia. }
  destruct (prepare_length m ltac:(apply Hm)) as [_ Hl].
  destruct (slice_defined off (Z.to_nat (messageLength (prepare m))) b) as [f Hf].
  { rewrite (length_puts _ _ _ _ Hb), repeat_length. lia. }
  exists f. assert (H : frame_of off m = Some f); [|split; [done|by apply frame_of_length in H]].
  unfold frame_of, build, build_into. unfold wire_copies in Hb. rewrite Hb. exact Hf.
Qed.

Lemma parse_body_frame off m f rest : msg_wf m -> frame_of off m = Some f ->
  exists base, parse_body (MessageType_code (messageType m)) (f ++ rest) (Z.of_nat (length f)) =
    Some (Some (Some (received (payload m), base))) /\
    (messageType m <> ANNOUNCE_MESSAGE -> base = 0%nat).
Proof.
  intros Hm Hf. pose proof (frame_of_length _ _ _ Hf) as Hl.
  unfold messageType. destruct (payload m) as [t|t fu| |id t|t id|a|t s] eqn:Ep;
    cbn [payload_type MessageType_code]; rewrite <- Ep.
  - exists 0%nat. split; [|done]. change (Some (parse_sync (f ++ rest) (Z.of_nat (length f))) =
      Some (accept (received (payload m)))). f_equal. by eapply parse_sync_frame.
  - exists 0%nat. split; [|done]. change (Some (parse_followup (f ++ rest) (Z.of_nat (length f))) =
      Some (accept (received (payload m)))). f_equal. by eapply parse_followup_frame.
  - exists 0%nat. split; [|done]. rewrite Ep.
    destruct m as [v sid seq ctl fl ml lg corr dom t1 tc gc p]. cbn in Ep. subst p.
    cbn [prepare payload messageLength set field_setter] in Hl. rewrite Hl. reflexivity.
  - exists 0%nat. split; [|done]. change (Some (parse_pdelay_resp (f ++ rest) (Z.of_nat (length f))) =
      Some (accept (received (payload m)))). f_equal. by eapply parse_pdelay_resp_frame.
  - exists 0%nat. split; [|done]. change (Some (parse_pdelay_resp_followup (f ++ rest)) =
      Some (accept (received (payload m)))). f_equal. by eapply parse_pdelay_resp_followup_frame.
  - destruct (parse_announce_frame off m f rest Hm Hf a Ep) as [Hb _]. exists 66%nat.
    split; [|done]. change (Some (parse_announce (f ++ rest) (Z.of_nat (length f))) =
      Some (Some (Some (received (payload m), 66%nat)))). by f_equal.
  - exists 0%nat. split; [|done]. change (Some (parse_signalling (f ++ rest)) =
      Some (accept (received (payload m)))). f_equal. by eapply parse_signalling_frame.
Qed.

(** C9: encoding then decoding.  Every well-formed message (an announcement
    with at most seven path-trace identities) is built within the 256-octet
    array, and what the receiver decodes from a 128-octet array that starts
    with the frame, whatever follows it, is the sender's transport nibble,
    identity, sequence id and payload, and, unless it is an announcement, the
    sender's header.  [received] states the two payload fields that do not
    survive: a Sync's origin time, and a follow-up's time base indicator. *)
Theorem wire_roundtrip off m ts cv :
  msg_wf m -> (off <= 132)%nat ->
  exists f, frame_of off m = Some f /\ length f = Z.to_nat (messageLength (prepare m)) /\
  forall rest, length (f ++ rest) = 128%nat ->
    parse_prefix (f ++ rest) =
      Some (MessageType_code (messageType m), 1, sourcePortIdentity m, sequenceId m) /\
    exists base, parse_body (MessageType_code (messageType m)) (f ++ rest) (Z.of_nat (length f)) =
      Some (Some (Some (received (payload m), base))) /\
    (messageType m <> ANNOUNCE_MESSAGE -> exists ctl,
      parse_header base (f ++ rest) (sourcePortIdentity m) (sequenceId m) ts cv (received (payload m)) =
      Some (mkMessage (versionPTP m) (sourcePortIdentity m) (sequenceId m) ctl (flags m)
              (messageLength (prepare m)) (logMeanMessageInterval m) (correctionField m)
              (domainNumber m) ts cv false (received (payload m)))).
Proof.
  intros Hm Ho. destruct (frame_defined off m Hm Ho) as (f & Hf & Hl).
  exists f. split; [done|]. split; [done|]. intros rest Hr.
  destruct (prepare_length m ltac:(apply Hm)) as [_ Hb].
  split; [by eapply parse_prefix_frame; [..|lia]|].
  destruct (parse_body_frame off m f rest Hm Hf) as (base & Hp & Hbase).
  exists base. split; [done|]. intros Hn. rewrite (Hbase Hn).
  eapply parse_header_frame; [done|done|lia|lia].
Qed.

Definition id_example : PortIdentity := mkPortIdentity [0; 1; 2; 0xFF; 0xFE; 3; 4; 5] 1.
Definition pdelay_resp_example : Message :=
  PTPMessageCommon_new 0 7 (PathDelayResp id_example (timestamp 999999999 0x12345678 1))
    <| sourcePortIdentity := id_example |> <| sequenceId := 0xABCD |>.

Lemma wire_roundtrip_witness : exists f,
  frame_of 14 pdelay_resp_example = Some f /\ length f = 54%nat.
Proof.
  destruct (wire_roundtrip 14 pdelay_resp_example INVALID_TIMESTAMP 0) as (f & Hf & Hl & _).
  - repeat split; closed_tac.
  - lia.
  - exists f. split; [exact Hf|exact Hl].
Defined.

(** ** What is rejected, and which reads stay inside the array *)

Lemma rd16_defined off buf : (off + 2 <= length buf)%nat -> exists x, rd16 off buf = Some x.
Proof. intros H. unfold rd16. destruct (slice_defined off 2 buf H) as [r ->]. by eexists. Qed.
Lemma rd8_defined off buf : (off + 1 <= length buf)%nat -> exists x, rd8 off buf = Some x.
Proof. intros H. unfold rd8. destruct (slice_defined off 1 buf H) as [r ->]. by eexists. Qed.
Lemma rd32_defined off buf : (off + 4 <= length buf)%nat -> exists x, rd32 off buf = Some x.
Proof. intros H. unfold rd32. destruct (slice_defined off 4 buf H) as [r ->]. by eexists. Qed.

Lemma rd_timestamp_defined off buf :
  (off + 10 <= length buf)%nat -> exists t, rd_timestamp off buf = Some t.
Proof.
  intros H. unfold rd_timestamp.
  destruct (rd16_defined off buf) as [a ->]; [lia|].
  destruct (rd32_defined (off + 2) buf) as [b ->]; [lia|].
  destruct (rd32_defined (off + 6) buf) as [c ->]; [lia|]. by eexists.
Qed.

Lemma rd_identity_defined o1 o2 buf :
  (o1 + 8 <= length buf)%nat -> (o2 + 2 <= length buf)%nat ->
  exists id, rd_identity o1 o2 buf = Some id.
Proof.
  intros H1 H2. unfold rd_identity. destruct (slice_defined _ _ _ H1) as [r ->].
  destruct (slice_defined _ _ _ H2) as [n ->]. by eexists.
Qed.

(** The minimal length of each message type, as the cases test it; two types
    are decoded whatever the length, and one more length is let through for
    the peer delay request. *)
Definition too_short (ty size : Z) : bool :=
  if ty =? 0 then size <? 44
  else if ty =? 8 then size <? 76
  else if ty =? 2 then (size <? 54) && negb (size =? 46)
  else if ty =? 3 then size <? 54
  else false.

Definition is_known (ty : Z) : bool :=
  (ty =? 0) || (ty =? 8) || (ty =? 2) || (ty =? 3) || (ty =? 0xA) || (ty =? 0xB) || (ty =? 0xC).

(** C38: the cases of the decoder other than the announcement.  An unknown type
    reaches the [default] case, a known one that is too short is rejected, and
    every other one is decoded with all of its reads inside the receive array,
    although the peer delay follow-up and the signalling message are decoded
    from whatever the array holds when the frame is shorter than they are. *)
Theorem parse_body_cases ty buf size :
  length buf = 128%nat -> ty <> 0xB ->
  (parse_body ty buf size = None <-> is_known ty = false) /\
  (parse_body ty buf size = Some reject <-> too_short ty size = true) /\
  (is_known ty = true -> too_short ty size = false ->
   exists p, parse_body ty buf size = Some (accept p)) /\
  (exists x, parse_prefix buf = Some x).
Proof.
  intros Hb Hty.
  assert (Hpre : exists x, parse_prefix buf = Some x).
  { unfold parse_prefix. destruct (rd8_defined 0 buf) as [a ->]; [lia|].
    destruct (rd_identity_defined 20 28 buf) as [id ->]; [lia..|].
    destruct (rd16_defined 30 buf) as [b ->]; [lia|]. by eexists. }
  destruct (rd_timestamp_defined 34 buf) as [t Ht]; [lia|].
  destruct (rd_identity_defined 44 52 buf) as [id Hid]; [lia..|].
  assert (Hs : forall o n, (o + n <= 128)%nat -> exists r, slice o n buf = Some r)
    by (intros; apply slice_defined; lia).
  unfold parse_body, is_known, too_short, parse_sync, parse_followup, parse_pdelay_req,
    parse_pdelay_resp, parse_pdelay_resp_followup, parse_signalling.
  rewrite Ht, Hid. unfold rd8.
  destruct (Hs 34 2)%nat as [s1 ->]; [lia|]. destruct (Hs 36 4)%nat as [s2 ->]; [lia|].
  destruct (Hs 40 4)%nat as [s3 ->]; [lia|].
  destruct (Hs 44 sizeof_FollowUpTLV)%nat as [s4 ->]; [unfold sizeof_FollowUpTLV; lia|].
  destruct (Hs 44 sizeof_SignallingTLV)%nat as [s5 ->]; [unfold sizeof_SignallingTLV; lia|].
  destruct (Hs 34 1)%nat as [s6 ->]; [lia|]. replace (ty =? 0xB) with false by lia.
  cbn [mbind option_bind fmap option_fmap option_map].
  change (34 + 10) with 44. change (44 + 32) with 76. change (34 + 20) with 54.
  repeat case_match; cbn; (split; [|split; [|split]]); try done; try tauto;
    try (split; intros; congruence); try (intros; eexists; reflexivity); try (intros; congruence).
Qed.

Lemma parse_body_cases_witness :
  parse_body 3 (repeat 0 128) 53 = Some reject /\
  exists p, parse_body 3 (repeat 0 128) 54 = Some (accept p).
Proof.
  split.
  - apply (parse_body_cases 3 (repeat 0 128) 53); [reflexivity|discriminate|reflexivity].
  - apply (parse_body_cases 3 (repeat 0 128) 54); [reflexivity|discriminate|reflexivity|reflexivity].
Defined.

Lemma read_identities_defined n off buf :
  read_identities n off buf = None <-> (0 < n)%nat /\ (length buf < off + 8 * n)%nat.
Proof.
  revert off; induction n as [|n IH]; intros off; [cbn; split; [done|lia]|].
  cbn [read_identities]. destruct (slice off 8 buf) as [r|] eqn:E; cbn [mbind option_bind].
  - unfold slice in E. case_decide; [|done].
    destruct (read_identities n (off + 8) buf) as [l|] eqn:E2; cbn.
    + split; [done|]. intros [_ H2]. destruct (decide (n = 0%nat)) as [->|Hn]; [lia|].
      assert (Hx : read_identities n (off + 8) buf = None) by (apply IH; lia). congruence.
    + apply IH in E2. split; [intros _|done]. lia.
  - unfold slice in E. case_decide; [done|]. split; [intros _|done]. lia.
Qed.

(** An announcement can make the decoder read past the end of the receive
    array.  For a received length of at most 128 octets the read is out of
    bounds exactly when 72 octets or more were received with a path-trace TLV
    that declares 64 octets or more. *)
Theorem announce_overread buf size :
  length buf = 128%nat -> 34 <= size <= 128 ->
  parse_announce buf size = None <->
  72 <= size /\ rd16 64 buf = Some PATH_TRACE_TLV_TYPE /\
  exists declared, rd16 66 buf = Some declared /\ 64 <= declared.
Proof.
  intros Hb Hsz. unfold parse_announce.
  destruct (rd16_defined 44 buf) as [a1 ->]; [lia|]. destruct (rd8_defined 47 buf) as [a2 ->]; [lia|].
  destruct (rd8_defined 48 buf) as [a3 ->]; [lia|]. destruct (rd8_defined 49 buf) as [a4 ->]; [lia|].
  destruct (rd16_defined 50 buf) as [a5 ->]; [lia|]. destruct (rd8_defined 52 buf) as [a6 ->]; [lia|].
  destruct (slice_defined 53 8 buf) as [a7 ->]; [lia|]. destruct (rd16_defined 61 buf) as [a8 ->]; [lia|].
  destruct (rd8_defined 63 buf) as [a9 ->]; [lia|]. destruct (rd16_defined 64 buf) as [ty Hty]; [lia|].
  destruct (rd16_defined 66 buf) as [d Hd]; [lia|].
  assert (Hdb : 0 <= d < 2 ^ 16).
  { unfold rd16 in Hd. destruct (slice 66 2 buf); [|done]. cbn in Hd. injection Hd as <-.
    apply (bswap_bound 2). }
  cbn [mbind option_bind]. replace (2 * 2 <? size - 34 + 30) with true by (symmetry; lia).
  rewrite Hty, Hd. cbn [mbind option_bind andb].
  assert (Hparse : parseClockIdentity 66 (size - 34 + 30 - 2) buf = None <->
                   size >= 72 /\ 64 <= d).
  { unfold parseClockIdentity. rewrite Hd. cbn [mbind option_bind].
    assert (Hu1 : u32 (size - 34 + 30 - 2 - 2) = u32 (size - 8)) by (f_equal; lia).
    rewrite Hu1, read_identities_defined, Hb.
    replace (size - 34 + 30 - 2 - 2) with (size - 8) by lia.
    unfold u32. rewrite (uwrap_small 32 d) by (unfold fits; lia).
    destruct (decide (8 <= size)) as [H8|H8]; [|lia].
    rewrite (uwrap_small 32 (size - 8)) by (unfold fits; lia).
    destruct (size - 8 <? d) eqn:E; rewrite Z.quot_div_nonneg by lia.
    - apply Z.ltb_lt in E. Z.div_mod_to_equations. lia.
    - apply Z.ltb_ge in E. Z.div_mod_to_equations. lia. }
  destruct (ty =? PATH_TRACE_TLV_TYPE) eqn:Et.
  - apply Z.eqb_eq in Et as ->.
    destruct (parseClockIdentity 66 (size - 34 + 30 - 2) buf) as [l|] eqn:El; cbn.
    + split; [done|]. intros (H1 & _ & d' & [= <-] & H2).
      assert (Hx : Some l = None) by (apply Hparse; lia). done.
    + split; [intros _|done]. destruct Hparse as [Hp _]. specialize (Hp eq_refl).
      split; [lia|]. split; [done|]. exists d. split; [done|lia].
  - apply Z.eqb_neq in Et. cbn. split; [done|]. intros (_ & [= ->] & _). done.
Qed.

Definition overread_example : list Z := repeat 0 64 ++ [0; 8; 0; 64] ++ repeat 0 60.

Lemma announce_overread_witness : parse_announce overread_example 72 = None.
Proof.
  apply (announce_overread overread_example 72); [reflexivity|lia|].
  split; [lia|]. split; [vm_compute; reflexivity|]. exists 64. split; [vm_compute; reflexivity|lia].
Defined.

(** The common header of a received announcement is read from the wrong
    place: the decoder has moved [buf] past the body by then, so the version of
    a well-formed announcement with [n] path-trace identities decodes as [8 n],
    the low octet of its path-trace length. *)
Theorem announce_header_misread off m a f rest ts cv :
  msg_wf m -> payload m = Announce a -> frame_of off m = Some f -> length (f ++ rest) = 128%nat ->
  exists base msg,
    parse_announce (f ++ rest) (Z.of_nat (length f)) = Some (Some (Announce a, base)) /\
    parse_header base (f ++ rest) (sourcePortIdentity m) (sequenceId m) ts cv (Announce a) = Some msg /\
    versionPTP msg = 8 * Z.of_nat (length (tlv a)).
Proof.
  intros Hm Hp Hf Hr.
  destruct (parse_announce_frame off m f rest Hm Hf a Hp) as [Hb Hs]. rewrite Hp in Hb. cbn in Hb.
  assert (Hv : rd8 67 (f ++ rest) = Some (8 * Z.of_nat (length (tlv a)))).
  { unfold rd8. change 67%nat with (66 + 1)%nat. rewrite (slice_sub 66 2 1 1 _ _ Hs) by lia.
    destruct Hm as (_ & _ & _ & _ & _ & _ & _ & Hw). rewrite Hp in Hw.
    destruct Hw as (_ & _ & _ & _ & _ & Hn).
    assert (Hx : 0 <= 8 * Z.of_nat (length (tlv a)) < 256) by lia.
    revert Hx. generalize (8 * Z.of_nat (length (tlv a))). intros x Hx.
    unfold net16. rewrite htons_octets by (unfold fits; lia).
    change (Some (x mod 256 + 256 * 0) = Some x). f_equal. rewrite Z.mod_small; lia. }
  exists 66%nat. cut (exists msg, parse_header 66 (f ++ rest) (sourcePortIdentity m) (sequenceId m)
    ts cv (Announce a) = Some msg /\ versionPTP msg = 8 * Z.of_nat (length (tlv a))).
  { intros (msg & H1 & H2). by exists msg. }
  unfold parse_header. change (66 + 1)%nat with 67%nat. rewrite Hv.
  destruct (rd16_defined (66 + 2) (f ++ rest)) as [b1 ->]; [lia|].
  destruct (rd8_defined (66 + 4) (f ++ rest)) as [b2 ->]; [lia|].
  destruct (slice_defined (66 + 6) 2 (f ++ rest)) as [b3 ->]; [lia|].
  destruct (slice_defined (66 + 8) 8 (f ++ rest)) as [b4 H4]; [lia|]. unfold rd64. rewrite H4.
  destruct (slice_defined (66 + 32) 4 (f ++ rest)) as [b5 ->]; [lia|].
  destruct (rd8_defined (66 + 33) (f ++ rest)) as [b6 ->]; [lia|].
  eexists. split; [reflexivity|reflexivity].
Qed.

Definition announce_example : Message :=
  PTPMessageCommon_new 0 7 (Announce (mkAnnounce (repeat 1 8) (mkClockQuality 248 0x22 0x436A)
    [repeat 1 8] 37 248 248 0 160)) <| sourcePortIdentity := id_example |>.

Lemma announce_header_misread_witness : exists base msg,
  parse_header base (default [] (frame_of 0 announce_example) ++ repeat 0 52) id_example 7
    INVALID_TIMESTAMP 0 (payload announce_example) = Some msg /\ versionPTP msg = 8.
Proof.
  destruct (announce_header_misread 0 announce_example
    (mkAnnounce (repeat 1 8) (mkClockQuality 248 0x22 0x436A) [repeat 1 8] 37 248 248 0 160)
    (default [] (frame_of 0 announce_example)) (repeat 0 52) INVALID_TIMESTAMP 0)
    as (base & msg & _ & H1 & H2).
  - repeat split; closed_tac.
  - reflexivity.
  - vm_compute. reflexivity.
  - vm_compute. reflexivity.
  - exists base, msg. split; [exact H1|exact H2].
Defined.
