(* ===== verification/World.v ===== *)
(** * The state of the daemon

    The clock, the ports, the timer queue, the messages allocated on the heap
    and the trace of what the daemon did to its environment.  A handler of the
    daemon runs in [D], the state-and-fault monad over [World].  The code that
    is not under src/common (the operating system, the timestamping hardware,
    the network) is an [Env]: what each kind of call answers, as a function of
    the number of calls made so far, so that a handler may get any sequence of
    answers. *)

From Stdlib Require Import ZArith Lia.
From Stdlib.Floats Require Import SpecFloat.
From stdpp Require Import base gmap list.
From S2P Require Import Prelude Timestamp CFloat Identity Message.

(** ** Data *)

(** [Event] (common/ieee1588.hpp). *)
Inductive Event :=
  | NULL_EVENT | POWERUP | INITIALIZE | LINKUP | LINKDOWN | STATE_CHANGE_EVENT
  | SYNC_INTERVAL_TIMEOUT_EXPIRES | PDELAY_INTERVAL_TIMEOUT_EXPIRES
  | SYNC_RECEIPT_TIMEOUT_EXPIRES | QUALIFICATION_TIMEOUT_EXPIRES
  | ANNOUNCE_RECEIPT_TIMEOUT_EXPIRES | ANNOUNCE_INTERVAL_TIMEOUT_EXPIRES | FAULT_DETECTED
  | PDELAY_DEFERRED_PROCESSING | PDELAY_RESP_RECEIPT_TIMEOUT_EXPIRES
  | PDELAY_RESP_PEER_MISBEHAVING_TIMEOUT_EXPIRES | SYNC_RATE_INTERVAL_TIMEOUT_EXPIRED.

#[export] Instance Event_eq_dec : EqDecision Event.
Proof. solve_decision. Defined.

(** [PortState] (common/ptptypes.hpp), with the values of its enum. *)
Inductive PortState :=
  | PTP_MASTER | PTP_PRE_MASTER | PTP_SLAVE | PTP_UNCALIBRATED | PTP_DISABLED | PTP_FAULTY
  | PTP_INITIALIZING | PTP_LISTENING.

#[export] Instance PortState_eq_dec : EqDecision PortState.
Proof. solve_decision. Defined.

Definition PortState_code (s : PortState) : Z :=
  match s with
  | PTP_MASTER => 7 | PTP_PRE_MASTER => 8 | PTP_SLAVE => 9 | PTP_UNCALIBRATED => 10
  | PTP_DISABLED => 11 | PTP_FAULTY => 12 | PTP_INITIALIZING => 13 | PTP_LISTENING => 14
  end.

(** [StationState_t] (common/avbap_message.hpp). *)
Inductive StationState :=
  | STATION_STATE_RESERVED | STATION_STATE_ETHERNET_READY | STATION_STATE_AVB_SYNC
  | STATION_STATE_AVB_MEDIA_READY.

Definition StationState_code (s : StationState) : Z :=
  match s with
  | STATION_STATE_RESERVED => 0 | STATION_STATE_ETHERNET_READY => 1
  | STATION_STATE_AVB_SYNC => 2 | STATION_STATE_AVB_MEDIA_READY => 3
  end.

(** Pointers to messages, and to ports; [None] is the null pointer. *)
Abbreviation ptr := nat (only parsing).
Abbreviation pid := nat (only parsing).

(** [PortCounters_t] *)
Record PortCounters := mkCounters {
  RxSyncCount : Z; RxFollowUpCount : Z; RxPdelayRequest : Z; RxPdelayResponse : Z;
  RxPdelayResponseFollowUp : Z; RxAnnounce : Z; RxPTPPacketDiscard : Z;
  RxSyncReceiptTimeouts : Z; AnnounceReceiptTimeouts : Z;
  PdelayAllowedLostResponsesExceeded : Z; TxSyncCount : Z; TxFollowUpCount : Z;
  TxPdelayRequest : Z; TxPdelayResponse : Z; TxPdelayResponseFollowUp : Z; TxAnnounce : Z;
}.
#[export] Instance eta_PortCounters : Settable PortCounters := fun c =>
  mkCounters (RxSyncCount c) (RxFollowUpCount c) (RxPdelayRequest c) (RxPdelayResponse c)
    (RxPdelayResponseFollowUp c) (RxAnnounce c) (RxPTPPacketDiscard c) (RxSyncReceiptTimeouts c)
    (AnnounceReceiptTimeouts c) (PdelayAllowedLostResponsesExceeded c) (TxSyncCount c)
    (TxFollowUpCount c) (TxPdelayRequest c) (TxPdelayResponse c) (TxPdelayResponseFollowUp c)
    (TxAnnounce c).
Definition PortCounters_zero : PortCounters := mkCounters 0 0 0 0 0 0 0 0 0 0 0 0 0 0 0 0.

(** What [EtherPort] adds to [CommonPort]. *)
Record EtherPart := mkEther {
  linkUp : bool;
  duplicate_resp_counter : Z;           (* unsigned int *)
  last_invalid_seqid : Z;               (* uint16_t *)
  operLogPdelayReqInterval : Z;         (* signed char *)
  operLogSyncInterval : Z;              (* signed char *)
  linkUpCount : Z;                      (* uint32_t *)
  linkDownCount : Z;                    (* uint32_t *)
  stationState : StationState;
  avbSyncState : Z;                     (* uint32_t *)
  pdelay_sequence_id : Z;               (* uint16_t *)
  last_pdelay_req : option ptr;
  last_pdelay_resp : option ptr;
  last_pdelay_resp_fwup : option ptr;
  identity_map : gmap PortIdentity LinkLayerAddress;
  last_sync : option ptr;
  pdelay_started : bool;
  pdelay_halted : bool;
  sync_rate_interval_timer_started : bool;
}.
#[export] Instance eta_EtherPart : Settable EtherPart := fun e =>
  mkEther (linkUp e) (duplicate_resp_counter e) (last_invalid_seqid e)
    (operLogPdelayReqInterval e) (operLogSyncInterval e) (linkUpCount e) (linkDownCount e)
    (stationState e) (avbSyncState e) (pdelay_sequence_id e) (last_pdelay_req e)
    (last_pdelay_resp e) (last_pdelay_resp_fwup e) (identity_map e) (last_sync e)
    (pdelay_started e) (pdelay_halted e) (sync_rate_interval_timer_started e).

(** What [WirelessPort] adds. *)
Record WirelessDialog := mkDialog {
  wd_action : Timestamp; action_devclk : Z; wd_ack : Timestamp; ack_devclk : Z;
  dialog_token : Z; fwup_seq : Z;
}.
#[export] Instance eta_WirelessDialog : Settable WirelessDialog := fun d =>
  mkDialog (wd_action d) (action_devclk d) (wd_ack d) (ack_devclk d) (dialog_token d) (fwup_seq d).

Record WirelessPart := mkWireless { peer_addr : LinkLayerAddress; prev_dialog : WirelessDialog }.
#[export] Instance eta_WirelessPart : Settable WirelessPart := fun w =>
  mkWireless (peer_addr w) (prev_dialog w).

(** The dynamic class of a port. *)
Inductive Media := Ether (e : EtherPart) | Wireless (w : WirelessPart).

(** The timestamper a port was created with: none, one that can timestamp
    frames ([EtherTimestamper]), one for timing measurement
    ([WirelessTimestamper]). *)
Inductive Timestamper := NoTimestamper | EtherTs | WirelessTs.

(** [CommonPort]; the lifetime of its locks and threads is not modelled, their
    use is. *)
Record Port := mkPort {
  local_addr : LinkLayerAddress;
  port_identity : PortIdentity;
  ifindex : Z;                              (* uint16_t *)
  link_speed : Z;                           (* uint32_t *)
  one_way_delay : Z;                        (* int64_t *)
  neighbor_prop_delay_thresh : Z;           (* int64_t *)
  port_state : PortState;
  testMode : bool;
  automotive_profile : bool;
  allow_negative_correction_field : bool;
  log_mean_sync_interval : Z;               (* signed char *)
  log_mean_announce_interval : Z;           (* signed char *)
  initialLogSyncInterval : Z;               (* signed char *)
  sync_receipt_thresh : Z;                  (* unsigned int *)
  wrongSeqIDCounter : Z;                    (* unsigned int *)
  counters : PortCounters;
  listening_thread_running : bool;
  _peer_rate_offset : spec_float;           (* FrequencyRatio *)
  _peer_offset_ts_theirs : Timestamp;
  _peer_offset_ts_mine : Timestamp;
  _peer_offset_init : bool;
  asCapable : bool;
  sync_count : Z;                           (* unsigned *)
  pdelay_count : Z;                         (* unsigned *)
  initialLogPdelayReqInterval : Z;          (* signed char *)
  log_min_mean_pdelay_req_interval : Z;     (* signed char *)
  qualified_announce : option ptr;
  announce_sequence_id : Z;                 (* uint16_t *)
  signal_sequence_id : Z;                   (* uint16_t *)
  sync_sequence_id : Z;                     (* uint16_t *)
  lastGmTimeBaseIndicator : Z;              (* uint16_t *)
  _hw_timestamper : Timestamper;
  isGM : bool;
  phy_delay : gmap Z (Z * Z);               (* link speed -> tx, rx delay *)
  media : Media;
}.
#[export] Instance eta_Port : Settable Port := fun p =>
  mkPort (local_addr p) (port_identity p) (ifindex p) (link_speed p) (one_way_delay p)
    (neighbor_prop_delay_thresh p) (port_state p) (testMode p) (automotive_profile p)
    (allow_negative_correction_field p) (log_mean_sync_interval p)
    (log_mean_announce_interval p) (initialLogSyncInterval p) (sync_receipt_thresh p)
    (wrongSeqIDCounter p) (counters p) (listening_thread_running p) (_peer_rate_offset p)
    (_peer_offset_ts_theirs p) (_peer_offset_ts_mine p) (_peer_offset_init p) (asCapable p)
    (sync_count p) (pdelay_count p) (initialLogPdelayReqInterval p)
    (log_min_mean_pdelay_req_interval p) (qualified_announce p) (announce_sequence_id p)
    (signal_sequence_id p) (sync_sequence_id p) (lastGmTimeBaseIndicator p)
    (_hw_timestamper p) (isGM p) (phy_delay p) (media p).

(** [IEEE1588Clock].  Fields that no code of the daemon reads are left out
    ([initializable], [is_boundary_clock], [two_step_clock],
    [number_foreign_records], [slave_only], the leap flags, [epoch_number],
    [steps_removed], [offset_from_master], [one_way_delay], [parent_identity],
    [last_sync_time]). *)
Record Clock := mkClock {
  clock_identity : ClockIdentity;
  clock_quality : ClockQuality;
  priority1 : Z;                            (* unsigned char *)
  priority2 : Z;                            (* unsigned char *)
  domain_number : Z;                        (* unsigned char *)
  number_ports : Z;                         (* uint16_t *)
  current_utc_offset : Z;                   (* int16_t *)
  grandmaster_clock_identity : ClockIdentity;
  grandmaster_clock_quality : ClockQuality;
  grandmaster_priority1 : Z;                (* unsigned char *)
  grandmaster_priority2 : Z;                (* unsigned char *)
  time_source : Z;                          (* uint8_t *)
  LastEBestIdentity : ClockIdentity;
  _syntonize : bool;
  _new_syntonization_set_point : bool;
  _ppm : spec_float;                        (* float *)
  _phase_error_violation : Z;               (* int *)
  port_list : list (option pid);            (* CommonPort *[MAX_PORTS] *)
  _master_local_freq_offset_init : bool;
  _prev_master_time : Timestamp;
  _prev_sync_time : Timestamp;
  _local_system_freq_offset_init : bool;
  _prev_local_time : Timestamp;
  _prev_system_time : Timestamp;
  ipc : bool;                               (* an OS_IPC is attached *)
  forceOrdinarySlave : bool;
  _master_local_freq_offset : spec_float;   (* FrequencyRatio *)
  _local_system_freq_offset : spec_float;   (* FrequencyRatio *)
  fup_info : FollowUpTLV;
  fup_status : FollowUpTLV;
}.
#[export] Instance eta_Clock : Settable Clock := fun c =>
  mkClock (clock_identity c) (clock_quality c) (priority1 c) (priority2 c) (domain_number c)
    (number_ports c) (current_utc_offset c) (grandmaster_clock_identity c)
    (grandmaster_clock_quality c) (grandmaster_priority1 c) (grandmaster_priority2 c)
    (time_source c) (LastEBestIdentity c) (_syntonize c) (_new_syntonization_set_point c)
    (_ppm c) (_phase_error_violation c) (port_list c) (_master_local_freq_offset_init c)
    (_prev_master_time c) (_prev_sync_time c) (_local_system_freq_offset_init c)
    (_prev_local_time c) (_prev_system_time c) (ipc c) (forceOrdinarySlave c)
    (_master_local_freq_offset c) (_local_system_freq_offset c) (fup_info c) (fup_status c).

Definition MAX_PORTS : Z := 32.

(** An armed timer: the delay it was added with, its event, its port. *)
Record Timer := mkTimer { tm_micros : Z; tm_event : Event; tm_port : pid }.

(** The locks the daemon takes. *)
Inductive LockId :=
  | TimerQLock | SyncReceiptTimerLock (p : pid) | SyncIntervalTimerLock (p : pid)
  | AnnounceIntervalTimerLock (p : pid) | PDelayIntervalTimerLock (p : pid)
  | PDelayRxLock (p : pid) | PortTxLock (p : pid).
#[export] Instance LockId_eq_dec : EqDecision LockId.
Proof. solve_decision. Defined.

(** What the daemon does to its environment. *)
Inductive Effect :=
  | ESend (p : pid) (dest : LinkLayerAddress) (etherType : Z) (buf : list Z) (size : Z) (ts : bool)
  | EAdjustClockRate (p : pid) (freq : spec_float)
  | EAdjustClockPhase (p : pid) (phase : Z)
  | EIpcUpdate (master_offset local_offset : Z) (master_ratio local_ratio : spec_float)
      (time sync_count pdelay_count : Z) (state : PortState) (as_capable : bool)
  | EIpcGrandmaster (id : ClockIdentity) (domain : Z)
  | EIpcInterface (id : ClockIdentity) (p1 : Z) (q : ClockQuality) (p2 domain log_sync log_announce
      log_pdelay port_number : Z)
  | EStartLinkThread (p : pid)
  | EStartListeningThread (p : pid)
  | EResetTimestamper (p : pid)
  | ETimingMeasurement (p : pid) (dest : LinkLayerAddress) (seq : Z) (prev : WirelessDialog)
      (buf : list Z).

Record World := mkWorld {
  clk : Clock;
  ports : list Port;
  timers : list Timer;
  heap : gmap nat Message;
  next_ptr : nat;
  held : list LockId;
  ap_sequenceId : Z;
  trace : list Effect;
  tick : nat;
}.
#[export] Instance eta_World : Settable World := fun w =>
  mkWorld (clk w) (ports w) (timers w) (heap w) (next_ptr w) (held w) (ap_sequenceId w)
    (trace w) (tick w).

(** ** The environment *)

Class Env := {
  env_lock : nat -> LockId -> bool;          (* lock() succeeds *)
  env_trylock : nat -> LockId -> bool;       (* trylock() succeeds *)
  env_gettime : nat -> option (Timestamp * Timestamp);
      (* HWTimestamper_gettime: system and device time, when it writes them *)
  env_version : nat -> Z;                    (* the timestamper's version *)
  env_adjclockrate : nat -> bool;
  env_adjclockphase : nat -> bool;
  env_txtimestamp : nat -> PortIdentity -> PTPMessageId -> bool -> Z * Timestamp * Z;
  env_rxtimestamp : nat -> PortIdentity -> PTPMessageId -> bool -> Z * Timestamp * Z;
  env_send : nat -> bool;                    (* net_succeed *)
  env_payload_offset : nat;                  (* of the network interface *)
  env_thread_start : nat -> bool;
  env_timing_measurement : nat -> bool;      (* _requestTimingMeasurement *)
  env_garbage : Z;                           (* memory that is read before it is set *)
}.

Abbreviation D := (M World).

(** ** Access to the state *)

(** The next answer of the environment. *)
Definition ask {A} (f : nat -> A) : D A := fun w => Done (f (tick w)) (w <| tick := S (tick w) |>).

Definition get_clock : D Clock := gets clk.
Definition mod_clock (f : Clock -> Clock) : D unit := modify (fun w => w <| clk := f (clk w) |>).

Definition get_port (p : pid) : D Port := fun w =>
  match ports w !! p with Some x => Done x w | None => Fault DanglingPointer end.
Definition mod_port (p : pid) (f : Port -> Port) : D unit := fun w =>
  match ports w !! p with
  | Some x => Done tt (w <| ports := <[p := f x]> (ports w) |>)
  | None => Fault DanglingPointer
  end.

(** [dynamic_cast<EtherPort *>]: none when the port is of another class. *)
Definition as_ether (p : pid) : D (option EtherPart) :=
  x ← get_port p; mret (match media x with Ether e => Some e | Wireless _ => None end).
(** The members of a port known to be an [EtherPort]. *)
Definition get_ether (p : pid) : D EtherPart := o ← as_ether p; from_option NullPointer o.
Definition upd_ether (f : EtherPart -> EtherPart) (x : Port) : Port :=
  match media x with Ether e => x <| media := Ether (f e) |> | Wireless _ => x end.
Definition mod_ether (p : pid) (f : EtherPart -> EtherPart) : D unit := mod_port p (upd_ether f).

Definition emit (e : Effect) : D unit := modify (fun w => w <| trace := trace w ++ [e] |>).

(** Messages: [new], [delete], and the access through a pointer. *)
Definition new_msg (m : Message) : D ptr := fun w =>
  Done (next_ptr w) (w <| heap := <[next_ptr w := m]> (heap w) |> <| next_ptr := S (next_ptr w) |>).
Definition get_msg (q : ptr) : D Message := fun w =>
  match heap w !! q with Some m => Done m w | None => Fault DanglingPointer end.
Definition mod_msg (q : ptr) (f : Message -> Message) : D unit := fun w =>
  match heap w !! q with
  | Some m => Done tt (w <| heap := <[q := f m]> (heap w) |>)
  | None => Fault DanglingPointer
  end.
Definition delete_msg (q : ptr) : D unit := fun w =>
  match heap w !! q with
  | Some _ => Done tt (w <| heap := base.delete q (heap w) |>)
  | None => Fault DanglingPointer
  end.
(** [delete] of a pointer that may be null. *)
Definition delete_opt (q : option ptr) : D unit :=
  match q with Some q => delete_msg q | None => mret tt end.

(** Locks are recursive: a lock is held as many times as it was taken. *)
Fixpoint release (l : LockId) (h : list LockId) : option (list LockId) :=
  match h with
  | [] => None
  | x :: h' => if decide (x = l) then Some h' else cons x <$> release l h'
  end.

Lemma release_head l h : release l (l :: h) = Some h.
Proof. cbn. by rewrite decide_True. Qed.

Section Locks.
Context `{Env}.
Definition lock (l : LockId) : D bool :=
  ok ← ask (fun n => env_lock n l);
  when ok (modify (fun w => w <| held := l :: held w |>));; mret ok.
Definition trylock (l : LockId) : D bool :=
  ok ← ask (fun n => env_trylock n l);
  when ok (modify (fun w => w <| held := l :: held w |>));; mret ok.
Definition unlock (l : LockId) : D bool := fun w =>
  match release l (held w) with
  | Some h => Done true (w <| held := h |>)
  | None => Done false w
  end.
End Locks.

(** ** The timer queue

    The queue's contract, which TimerQueue.v shows of the implementation:
    [addEvent] arms one more timer, [cancelEvent] disarms every timer of an
    event type, whichever port it was armed for. *)
Definition addEvent (micros : Z) (e : Event) (p : pid) : D unit :=
  modify (fun w => w <| timers := timers w ++ [mkTimer micros e p] |>).
Definition cancelEvent (e : Event) : D unit :=
  modify (fun w => w <| timers := List.filter (fun t => negb (bool_decide (tm_event t = e))) (timers w) |>).

(** ** Loops over the registered ports

    [while( ports[j] == NULL ) ++j;]: the next index and the port there;
    [None] past the end of the array. *)
Fixpoint skip_null (j : nat) (l : list (option pid)) : option (nat * pid) :=
  match l with
  | [] => None
  | Some p :: _ => Some (j, p)
  | None :: l' => skip_null (S j) l'
  end.

(** [for( i = 0; i < n; ++i ) { while( ports[j] == NULL ) ++j; body }]; the
    body ends the loop with [inr]. *)
Fixpoint for_ports {A B} (n j : nat) (body : pid -> A -> D (A + B)) (a : A) : D (A + B) :=
  match n with
  | O => mret (inl a)
  | S n' =>
      c ← get_clock;
      jp ← from_option OutOfBounds (skip_null j (drop j (port_list c)));
      r ← body jp.2 a;
      match r with
      | inl a' => for_ports n' jp.1 body a'
      | inr b => mret (inr b)
      end
  end.
