(* ===== verification/Loops.v ===== *)
(** * Loops over the registered ports

    [j] does not move past the first registered port, so each loop acts on
    that port as many times as ports are registered. *)

From Stdlib Require Import ZArith Lia.
From stdpp Require Import base gmap list.
From S2P Require Import Prelude Timestamp Identity Message World.

Lemma skip_null_stable j l j' p :
  skip_null j (drop j l) = Some (j', p) -> skip_null j' (drop j' l) = Some (j', p).
Proof.
  assert (Hg : forall l0 k, skip_null k l0 = Some (j', p) ->
                 exists i, j' = (k + i)%nat /\ l0 !! i = Some (Some p)).
  { induction l0 as [|[q|] l0 IH]; intros k; cbn; [done|..].
    - intros [= <- <-]. exists 0%nat. split; [lia|done].
    - intros (i & -> & Hi)%IH. exists (S i). split; [lia|done]. }
  intros (i & -> & Hi)%Hg. rewrite lookup_drop in Hi.
  rewrite (drop_S _ _ _ Hi). done.
Qed.

(** [n] runs of [body] on one port. *)
Fixpoint repeat_port {A B} (n : nat) (p : pid) (body : pid -> A -> D (A + B)) (a : A) : D (A + B) :=
  match n with
  | O => mret (inl a)
  | S n' => r ← body p a; match r with inl a' => repeat_port n' p body a' | inr b => mret (inr b) end
  end.

Definition same_list (w w' : World) : Prop := port_list (clk w') = port_list (clk w).
#[export] Instance same_list_refl : Reflexive same_list.
Proof. done. Qed.
#[export] Instance same_list_trans : Transitive same_list.
Proof. intros a b c H1 H2. unfold same_list in *. congruence. Qed.

Lemma for_ports_repeat {A B} (body : pid -> A -> D (A + B)) n : forall j j' p a w,
  (forall p a, keeps same_list (body p a)) ->
  skip_null j (drop j (port_list (clk w))) = Some (j', p) ->
  for_ports n j body a w = repeat_port n p body a w.
Proof.
  induction n as [|n IH]; intros j j' p a w Hb Hs; [done|].
  cbn [for_ports repeat_port]. unfold mbind, M_bind, get_clock, gets. rewrite Hs. cbn.
  destruct (body p a w) as [[a'|b] w'|f] eqn:E; [|done|done].
  apply (IH j' j' p a' w' Hb). rewrite (Hb _ _ _ _ _ E). by apply skip_null_stable in Hs.
Qed.

(** Without a registered port the loops leave the array. *)
Lemma for_ports_none {A B} (body : pid -> A -> D (A + B)) n j a w :
  skip_null j (drop j (port_list (clk w))) = None ->
  for_ports (S n) j body a w = Fault OutOfBounds.
Proof. intros Hs. cbn [for_ports]. unfold mbind, M_bind, get_clock, gets. by rewrite Hs. Qed.
