(* ===== verification/Clock.v ===== *)
(** * The clock

    [IEEE1588Clock] (common/avbts_clock.hpp, common/ieee1588clock.cpp): its
    construction, its timers, the two rate estimators, the comparison of its
    own data set with an announcement, and the registration of ports.  The
    servo, which also drives ports, is in Servo.v. *)

From Stdlib Require Import ZArith Lia.
From Stdlib.Floats Require Import SpecFloat.
From stdpp Require Import base gmap list.
From S2P Require Import Prelude Timestamp CFloat Identity Message World.

(** ** Construction

    [mem] is the memory the object is constructed in: the constructor leaves
    the fields it does not set, among them the port list and the UTC offset. *)
Definition IEEE1588Clock_new (mem : Clock) (forceOrdinarySlave_ syntonize : bool)
    (priority1_ : Z) (ipc_ : bool) : Clock :=
  mem <| clock_identity := ClockIdentity_zero |>
      <| grandmaster_clock_identity := ClockIdentity_zero |>
      <| priority1 := priority1_ |> <| priority2 := 248 |> <| number_ports := 0 |>
      <| forceOrdinarySlave := forceOrdinarySlave_ |>
      <| clock_quality := mkClockQuality 248 0x22 0x436A |>
      <| time_source := 160 |> <| domain_number := 0 |>
      <| _syntonize := syntonize |> <| _new_syntonization_set_point := false |>
      <| _ppm := S754_zero false |> <| _phase_error_violation := 0 |>
      <| _master_local_freq_offset_init := false |> <| _local_system_freq_offset_init := false |>
      <| _prev_master_time := timestamp 0 0 0 |> <| _prev_sync_time := timestamp 0 0 0 |>
      <| _prev_local_time := timestamp 0 0 0 |> <| _prev_system_time := timestamp 0 0 0 |>
      <| ipc := ipc_ |> <| LastEBestIdentity := repeat 0xFF 8 |>
      <| fup_info := FollowUpTLV_new |> <| fup_status := FollowUpTLV_new |>.

Definition getSystemTime : Timestamp := timestamp 0 0 0.

(** [getNextPortId] and [registerPort]; an index of 0 writes before the array. *)
Definition getNextPortId : D Z :=
  c ← get_clock;
  mod_clock (fun c => c <| number_ports := u16 (number_ports c + 1) |>);;
  mret (u16 (number_ports c mod (MAX_PORTS + 1) + 1)).

Definition registerPort (p : pid) (index : Z) : D unit :=
  c ← get_clock;
  (if index <? MAX_PORTS then
     if index =? 0 then fail OutOfBounds
     else mod_clock (fun c => c <| port_list := <[Z.to_nat (index - 1) := Some p]> (port_list c) |>)
   else mret tt);;
  mod_clock (fun c => c <| number_ports := u16 (number_ports c + 1) |>).

(** [setGrandmasterClockIdentity] and its companions, as the two callers use
    them together: the data set of the grandmaster. *)
Definition set_grandmaster (id : ClockIdentity) (p1 p2 : Z) (q : ClockQuality) : D unit :=
  mod_clock (fun c =>
    (if cid_ne id (grandmaster_clock_identity c)
     then c <| grandmaster_clock_identity := id |> else c)
      <| grandmaster_priority1 := p1 |> <| grandmaster_priority2 := p2 |>
      <| grandmaster_clock_quality := q |>).

(** [updateFUPInfo] *)
Definition fup_update (status info : FollowUpTLV) : FollowUpTLV :=
  fu_setScaledLastGmPhaseChange (scaledLastGmPhaseChange status)
    (fu_setScaledLastGmFreqChange (scaledLastGmFreqChange status)
      (fu_incrementGMTimeBaseIndicator info)).
Definition updateFUPInfo : D unit :=
  mod_clock (fun c => c <| fup_info := fup_update (fup_status c) (fup_info c) |>).

Definition newSyntonizationSetPoint : D unit :=
  mod_clock (fun c => c <| _new_syntonization_set_point := true |>).

(** [IEEE1588Clock::isBetterThan]; a clock is better than no announcement. *)
Definition clock_key (c : Clock) : list Z :=
  bmca_key (priority1 c) (clock_quality c) (priority2 c) (clock_identity c).
Definition clock_isBetterThan (c : Clock) (msg : option AnnounceFields) : bool :=
  match msg with
  | None => true
  | Some a => mem_lt (clock_key c) (annc_key a)
  end.

(** ** Rate estimators *)

(** [((FrequencyRatio)a) / b], or 1 when [b] is 0. *)
Definition rate_ratio (a b : Z) : spec_float :=
  if b =? 0 then fl_of_Z fmt_ldouble 1
  else fl_div fmt_ldouble (fl_of_Z fmt_ldouble a) (fl_of_Z fmt_ldouble b).

Definition ratio_one : spec_float := fl_of_Z fmt_ldouble 1.
Definition NEGATIVE_TIME_JUMP : spec_float := fl_of_Z fmt_ldouble 0.

Definition calcLocalSystem (c : Clock) (local_time system_time : Timestamp) : spec_float * Clock :=
  if negb (_local_system_freq_offset_init c) then
    (ratio_one, c <| _prev_system_time := system_time |> <| _prev_local_time := local_time |>
                  <| _local_system_freq_offset_init := true |>)
  else
    let inter_system_time := u64 (TIMESTAMP_TO_NS system_time - TIMESTAMP_TO_NS (_prev_system_time c)) in
    let inter_local_time := u64 (TIMESTAMP_TO_NS local_time - TIMESTAMP_TO_NS (_prev_local_time c)) in
    (rate_ratio inter_local_time inter_system_time,
     c <| _prev_system_time := system_time |> <| _prev_local_time := local_time |>).

Definition calcLocalSystemClockRateDifference (local_time system_time : Timestamp) : D spec_float :=
  c ← get_clock;
  let r := calcLocalSystem c local_time system_time in
  mod_clock (fun _ => r.2);; mret r.1.

Definition calcMasterLocal (c : Clock) (master_time sync_time : Timestamp) : spec_float * Clock :=
  if negb (_master_local_freq_offset_init c) then
    (ratio_one, c <| _prev_sync_time := sync_time |> <| _prev_master_time := master_time |>
                  <| _master_local_freq_offset_init := true |>)
  else
    let inter_sync_time := u64 (TIMESTAMP_TO_NS sync_time - TIMESTAMP_TO_NS (_prev_sync_time c)) in
    let master_time_ns := TIMESTAMP_TO_NS master_time in
    let prev_master_time_ns := TIMESTAMP_TO_NS (_prev_master_time c) in
    let inter_master_time := u64 (master_time_ns - prev_master_time_ns) in
    if master_time_ns <? prev_master_time_ns then
      (NEGATIVE_TIME_JUMP, c <| _master_local_freq_offset_init := false |>)
    else
      (rate_ratio inter_master_time inter_sync_time,
       c <| _prev_sync_time := sync_time |> <| _prev_master_time := master_time |>).

Definition calcMasterLocalClockRateDifference (master_time sync_time : Timestamp) : D spec_float :=
  c ← get_clock;
  let r := calcMasterLocal c master_time sync_time in
  mod_clock (fun _ => r.2);; mret r.1.

(** ** Timers *)

(** The delay in microseconds is cast to [unsigned]. *)
Definition addEventTimer (target : pid) (e : Event) (time_ns : Z) : D unit :=
  addEvent (u32 (time_ns / 1000)) e target.

(** The port that a deletion names is not used. *)
Definition deleteEventTimer (target : pid) (e : Event) : D unit := cancelEvent e.

Section Timers.
Context `{Env}.

Definition addEventTimerLocked (target : pid) (e : Event) (time_ns : Z) : D unit :=
  ok ← lock TimerQLock;
  if (ok : bool) then addEventTimer target e time_ns;; _ ← unlock TimerQLock; mret tt else mret tt.

Definition deleteEventTimerLocked (target : pid) (e : Event) : D unit :=
  ok ← lock TimerQLock;
  if (ok : bool) then cancelEvent e;; _ ← unlock TimerQLock; mret tt else mret tt.
End Timers.

(** ** Theorems *)

(** The lists of timers after the two operations. *)
Definition without (e : Event) (ts : list Timer) : list Timer :=
  List.filter (fun t => negb (bool_decide (tm_event t = e))) ts.

Section TimerFacts.
Context `{Env}.

(** A locked timer operation leaves everything but the timers alone, and does
    nothing when the lock is not obtained. *)
Lemma addEventTimerLocked_run p e ns w :
  addEventTimerLocked p e ns w = Done tt
    ((if env_lock (tick w) TimerQLock
      then w <| timers := timers w ++ [mkTimer (u32 (ns / 1000)) e p] |> else w)
     <| tick := S (tick w) |>).
Proof.
  unfold addEventTimerLocked, lock, ask, mbind, M_bind.
  by destruct (env_lock (tick w) TimerQLock).
Qed.

Lemma deleteEventTimerLocked_run p e w :
  deleteEventTimerLocked p e w = Done tt
    ((if env_lock (tick w) TimerQLock then w <| timers := without e (timers w) |> else w)
     <| tick := S (tick w) |>).
Proof.
  unfold deleteEventTimerLocked, lock, ask, mbind, M_bind.
  by destruct (env_lock (tick w) TimerQLock).
Qed.
End TimerFacts.
