(* ===== verification/Port.v ===== *)
(** * Ports: the operations common to every medium

    The part of [CommonPort] (common/common_port.hpp, common/common_port.cpp)
    that makes no virtual call: construction, the asCapable and link-delay
    state, the counters, sequence ids, the locked timers, and the access to the
    timestamping hardware and the network interface. *)

From Stdlib Require Import ZArith Lia.
From Stdlib.Floats Require Import SpecFloat.
From stdpp Require Import base gmap list.
From S2P Require Import Prelude Timestamp CFloat Identity Message World Clock.

Definition SYNC_RECEIPT_TIMEOUT_MULTIPLIER : Z := 3.
Definition ANNOUNCE_RECEIPT_TIMEOUT_MULTIPLIER : Z := 3.
Definition LOG2_INTERVAL_INVALID : Z := -127.
Definition INVALID_LINKDELAY : Z := 3600000000000.
Definition ONE_WAY_DELAY_DEFAULT : Z := INVALID_LINKDELAY.
Definition INVALID_LINKSPEED : Z := 4294967295.
Definition PTP_ETHERTYPE : Z := 0x88F7.
Definition EVENT_TIMER_GRANULARITY : Z := 5000000.

(** ** Construction *)

Record PortInit := mkPortInit {
  pi_index : Z;
  pi_timestamper : Timestamper;
  pi_automotive_profile : bool;
  pi_isGM : bool;
  pi_testMode : bool;
  pi_linkUp : bool;
  pi_initialLogSyncInterval : Z;
  pi_initialLogPdelayReqInterval : Z;
  pi_operLogPdelayReqInterval : Z;
  pi_operLogSyncInterval : Z;
  pi_phy_delay : gmap Z (Z * Z);
  pi_syncReceiptThreshold : Z;
  pi_neighborPropDelayThreshold : Z;
  pi_allowNegativeCorrField : bool;
}.

(** [CommonPort(portInit)], in the memory [mem]; the media part is set by the
    derived constructor, the registration with the clock is [registerPort]. *)
Definition CommonPort_new (mem : Port) (i : PortInit) : Port :=
  mem <| _hw_timestamper := pi_timestamper i |> <| isGM := pi_isGM i |>
      <| phy_delay := pi_phy_delay i |>
      <| one_way_delay := ONE_WAY_DELAY_DEFAULT |>
      <| neighbor_prop_delay_thresh := pi_neighborPropDelayThreshold i |>
      <| sync_receipt_thresh := pi_syncReceiptThreshold i |> <| wrongSeqIDCounter := 0 |>
      <| _peer_rate_offset := ratio_one |> <| _peer_offset_init := false |>
      <| ifindex := pi_index i |> <| testMode := false |> <| port_state := PTP_INITIALIZING |>
      <| qualified_announce := None |> <| automotive_profile := pi_automotive_profile i |>
      <| announce_sequence_id := 0 |> <| signal_sequence_id := 0 |> <| sync_sequence_id := 0 |>
      <| initialLogPdelayReqInterval := pi_initialLogPdelayReqInterval i |>
      <| initialLogSyncInterval := pi_initialLogSyncInterval i |>
      <| log_mean_announce_interval := 0 |> <| pdelay_count := 0 |> <| asCapable := false |>
      <| link_speed := INVALID_LINKSPEED |>
      <| allow_negative_correction_field := pi_allowNegativeCorrField i |>
      <| counters := PortCounters_zero |>.

(** [init_port]: the interface's address makes the clock's identity, and the
    clock's identity and the index the port's. *)
Definition init_port (p : pid) (addr : LinkLayerAddress) : D unit :=
  mod_port p (fun x => x <| log_mean_sync_interval := initialLogSyncInterval x |>
                         <| local_addr := addr |>);;
  mod_clock (fun c => c <| clock_identity := cid_set_addr addr |>);;
  c ← get_clock;
  mod_port p (fun x => x <| port_identity := mkPortIdentity (clock_identity c) (ifindex x) |>).

(** ** State *)

Definition setPortState (p : pid) (s : PortState) : D unit :=
  mod_port p (fun x => x <| port_state := s |>).

(** [getLinkDelay( &delay )] reads [one_way_delay] through an unsigned
    variable, and the threshold is signed, so the comparison is unsigned. *)
Definition getLinkDelay_u (x : Port) : Z := if 0 <? one_way_delay x then one_way_delay x else 0.
Definition getLinkDelay_ok (x : Port) : bool := getLinkDelay_u x <? INVALID_LINKDELAY.

(** [setLinkDelay] stores the delay and tells whether it is under threshold. *)
Definition setLinkDelay (p : pid) (delay : Z) : D bool :=
  mod_port p (fun x => x <| one_way_delay := delay |>);;
  x ← get_port p;
  mret (i64 (if one_way_delay x <? 0 then - one_way_delay x else one_way_delay x)
          <=? neighbor_prop_delay_thresh x).

Definition set_asCapable (ascap : bool) (x : Port) : Port :=
  (if ascap then x else x <| _peer_offset_init := false |>) <| asCapable := ascap |>.
Definition setAsCapable (p : pid) (ascap : bool) : D unit := mod_port p (set_asCapable ascap).

Definition setPeerOffset (p : pid) (mine theirs : Timestamp) : D unit :=
  mod_port p (fun x => x <| _peer_offset_ts_mine := mine |> <| _peer_offset_ts_theirs := theirs |>
                         <| _peer_offset_init := true |>).
Definition restartPDelay (p : pid) : D unit := mod_port p (fun x => x <| _peer_offset_init := false |>).

Definition setSyncCount (p : pid) (n : Z) : D unit := mod_port p (fun x => x <| sync_count := n |>).
Definition incSyncCount (p : pid) : D unit := mod_port p (fun x => x <| sync_count := u32 (sync_count x + 1) |>).
Definition setPdelayCount (p : pid) (n : Z) : D unit := mod_port p (fun x => x <| pdelay_count := n |>).
Definition incPdelayCount (p : pid) : D unit :=
  mod_port p (fun x => x <| pdelay_count := u32 (pdelay_count x + 1) |>).

(** [incWrongSeqIDCounter]: true while the count is under the threshold. *)
Definition inc_wrongSeqID (x : Port) : Port :=
  if asCapable x then x <| wrongSeqIDCounter := u32 (wrongSeqIDCounter x + 1) |> else x.
Definition incWrongSeqIDCounter (p : pid) : D bool :=
  mod_port p inc_wrongSeqID;;
  x ← get_port p; mret (wrongSeqIDCounter x <? sync_receipt_thresh x).
Definition setWrongSeqIDCounter (p : pid) (cnt : Z) : D unit :=
  mod_port p (fun x => x <| wrongSeqIDCounter := cnt |>).

(** The counters wrap at 32 bits. *)
Definition count (f : PortCounters -> PortCounters) (p : pid) : D unit :=
  mod_port p (fun x => x <| counters := f (counters x) |>).
Definition inc_RxSyncCount := count (fun c => c <| RxSyncCount := u32 (RxSyncCount c + 1) |>).
Definition inc_RxFollowUpCount := count (fun c => c <| RxFollowUpCount := u32 (RxFollowUpCount c + 1) |>).
Definition inc_RxPdelayRequest := count (fun c => c <| RxPdelayRequest := u32 (RxPdelayRequest c + 1) |>).
Definition inc_RxPdelayResponse := count (fun c => c <| RxPdelayResponse := u32 (RxPdelayResponse c + 1) |>).
Definition inc_RxPdelayResponseFollowUp :=
  count (fun c => c <| RxPdelayResponseFollowUp := u32 (RxPdelayResponseFollowUp c + 1) |>).
Definition inc_RxAnnounce := count (fun c => c <| RxAnnounce := u32 (RxAnnounce c + 1) |>).
Definition inc_RxPTPPacketDiscard :=
  count (fun c => c <| RxPTPPacketDiscard := u32 (RxPTPPacketDiscard c + 1) |>).
Definition inc_RxSyncReceiptTimeouts :=
  count (fun c => c <| RxSyncReceiptTimeouts := u32 (RxSyncReceiptTimeouts c + 1) |>).
Definition inc_AnnounceReceiptTimeouts :=
  count (fun c => c <| AnnounceReceiptTimeouts := u32 (AnnounceReceiptTimeouts c + 1) |>).
Definition inc_TxSyncCount := count (fun c => c <| TxSyncCount := u32 (TxSyncCount c + 1) |>).
Definition inc_TxFollowUpCount := count (fun c => c <| TxFollowUpCount := u32 (TxFollowUpCount c + 1) |>).
Definition inc_TxPdelayRequest := count (fun c => c <| TxPdelayRequest := u32 (TxPdelayRequest c + 1) |>).
Definition inc_TxPdelayResponse := count (fun c => c <| TxPdelayResponse := u32 (TxPdelayResponse c + 1) |>).
Definition inc_TxPdelayResponseFollowUp :=
  count (fun c => c <| TxPdelayResponseFollowUp := u32 (TxPdelayResponseFollowUp c + 1) |>).
Definition inc_TxAnnounce := count (fun c => c <| TxAnnounce := u32 (TxAnnounce c + 1) |>).

(** The sequence ids are post-incremented. *)
Definition getNextAnnounceSequenceId (p : pid) : D Z :=
  x ← get_port p;
  mod_port p (fun x => x <| announce_sequence_id := u16 (announce_sequence_id x + 1) |>);;
  mret (announce_sequence_id x).
Definition getNextSignalSequenceId (p : pid) : D Z :=
  x ← get_port p;
  mod_port p (fun x => x <| signal_sequence_id := u16 (signal_sequence_id x + 1) |>);;
  mret (signal_sequence_id x).
Definition getNextSyncSequenceId (p : pid) : D Z :=
  x ← get_port p;
  mod_port p (fun x => x <| sync_sequence_id := u16 (sync_sequence_id x + 1) |>);;
  mret (sync_sequence_id x).

(** [setQualifiedAnnounce] deletes the announcement it replaces. *)
Definition setQualifiedAnnounce (p : pid) (annc : option ptr) : D unit :=
  x ← get_port p;
  delete_opt (qualified_announce x);;
  mod_port p (fun x => x <| qualified_announce := annc |>).

(** The announcement that [calculateERBest] points to. *)
Definition calculateERBest (p : pid) : D (option ptr) := x ← get_port p; mret (qualified_announce x).

Definition getTxPhyDelay (x : Port) (speed : Z) : Timestamp :=
  match phy_delay x !! speed with Some d => timestamp d.1 0 0 | None => timestamp 0 0 0 end.
Definition getRxPhyDelay (x : Port) (speed : Z) : Timestamp :=
  match phy_delay x !! speed with Some d => timestamp d.2 0 0 | None => timestamp 0 0 0 end.

Section PortOps.
Context `{Env}.

(** ** Hardware *)

(** System and device time; times the hardware does not write stay as the
    callers declared them. *)
Definition getDeviceTime (p : pid) : D (Timestamp * Timestamp) :=
  x ← get_port p;
  match _hw_timestamper x with
  | NoTimestamper => mret (getSystemTime, getSystemTime)
  | _ => r ← ask env_gettime; mret (default (timestamp 0 0 0, timestamp 0 0 0) r)
  end.

Definition getTimestampVersion (p : pid) : D Z :=
  x ← get_port p;
  match _hw_timestamper x with NoTimestamper => fail NullPointer | _ => ask env_version end.

(** The ratio is cast to [float] for the hardware. *)
Definition adjustClockRate (p : pid) (freq_offset : spec_float) : D bool :=
  x ← get_port p;
  match _hw_timestamper x with
  | NoTimestamper => mret false
  | _ => emit (EAdjustClockRate p (fl_cvt fmt_float freq_offset));; ask env_adjclockrate
  end.

Definition adjustClockPhase (p : pid) (phase_adjust : Z) : D bool :=
  x ← get_port p;
  match _hw_timestamper x with
  | NoTimestamper => mret false
  | _ => emit (EAdjustClockPhase p phase_adjust);; ask env_adjclockphase
  end.

Definition timestamper_reset (p : pid) : D unit :=
  x ← get_port p;
  match _hw_timestamper x with NoTimestamper => mret tt | _ => emit (EResetTimestamper p) end.

(** ** Timers *)

Definition startSyncReceiptTimer (p : pid) (waitTime : Z) : D unit :=
  _ ← lock TimerQLock;
  _ ← lock (SyncReceiptTimerLock p);
  deleteEventTimer p SYNC_RECEIPT_TIMEOUT_EXPIRES;;
  addEventTimer p SYNC_RECEIPT_TIMEOUT_EXPIRES waitTime;;
  _ ← unlock (SyncReceiptTimerLock p);
  _ ← unlock TimerQLock; mret tt.

Definition stopSyncReceiptTimer (p : pid) : D unit :=
  _ ← lock TimerQLock;
  _ ← lock (SyncReceiptTimerLock p);
  deleteEventTimer p SYNC_RECEIPT_TIMEOUT_EXPIRES;;
  _ ← unlock (SyncReceiptTimerLock p);
  _ ← unlock TimerQLock; mret tt.

Definition startSyncIntervalTimer (p : pid) (waitTime : Z) : D unit :=
  ok ← trylock (SyncIntervalTimerLock p);
  if (ok : bool) then
    deleteEventTimerLocked p SYNC_INTERVAL_TIMEOUT_EXPIRES;;
    addEventTimerLocked p SYNC_INTERVAL_TIMEOUT_EXPIRES waitTime;;
    _ ← unlock (SyncIntervalTimerLock p); mret tt
  else mret tt.

Definition startAnnounceIntervalTimer (p : pid) (waitTime : Z) : D unit :=
  _ ← lock (AnnounceIntervalTimerLock p);
  deleteEventTimerLocked p ANNOUNCE_INTERVAL_TIMEOUT_EXPIRES;;
  addEventTimerLocked p ANNOUNCE_INTERVAL_TIMEOUT_EXPIRES waitTime;;
  _ ← unlock (AnnounceIntervalTimerLock p); mret tt.

Definition startAnnounce (p : pid) : D unit := startAnnounceIntervalTimer p 16000000.

(** ** Network *)

(** [net_iface->send]: true for [net_succeed]. *)
Definition send (p : pid) (addr : LinkLayerAddress) (etherType : Z) (payload : list Z)
    (length : Z) (ts : bool) : D bool :=
  emit (ESend p addr etherType payload length ts);; ask env_send.
End PortOps.

(** Intervals in nanoseconds, as the handlers compute them; a value that the
    integer type cannot hold is a fault. *)
Definition interval (log : Z) : D Z := from_option CastOverflow (interval_ns log).
Definition interval3 (log : Z) : D Z := from_option CastOverflow (interval3_ns log).
Definition interval3l (log : Z) : D Z := from_option CastOverflow (interval3l_ns log).
(** [(long long)(pow(2, log) * 1000000000.0)] *)
Definition interval_s (log : Z) : D Z := from_option CastOverflow (cast_s 64 (interval_f log)).
(** [waitTime > EVENT_TIMER_GRANULARITY ? waitTime : EVENT_TIMER_GRANULARITY] *)
Definition at_least_granularity (t : Z) : Z :=
  if EVENT_TIMER_GRANULARITY <? t then t else EVENT_TIMER_GRANULARITY.
