(* ===== verification/Media.v ===== *)
(** * The media interface

    The virtual methods of [CommonPort] as a class of operations.  The
    protocol code (Transmit.v, Servo.v, Sync.v, CommonPort.v) is written, and
    its theorems are proved, against this interface and the laws of
    [MediaLaws]; Dispatch.v gives the instance that selects the method of the
    port's dynamic class. *)

From Stdlib Require Import ZArith Lia.
From stdpp Require Import base gmap list.
From S2P Require Import Prelude Timestamp Identity Message World Clock Port.

Class MediaOps := {
  m_becomeMaster : pid -> bool -> D unit;
  m_becomeSlave : pid -> bool -> D unit;
  m_getTxLock : pid -> D bool;
  m_putTxLock : pid -> D bool;
  m_syncDone : pid -> D unit;
  m_sendGeneralPort : pid -> Z -> list Z -> Z -> MulticastType -> option PortIdentity -> D unit;
  m_startPDelayIntervalTimer : pid -> Z -> D unit;
}.

(** [_processEvent], the media's part of the event handler. *)
Class MediaEvents := { m_processEvent : pid -> Event -> D bool }.

(** ** What an operation may change

    The trace grows, by effects that satisfy [P]. *)
Definition adds_effects (P : Effect -> Prop) (w w' : World) : Prop :=
  exists es, trace w' = trace w ++ es /\ Forall P es.

#[export] Instance adds_effects_refl P : Reflexive (adds_effects P).
Proof. intros w. exists []. split; [by rewrite app_nil_r|constructor]. Qed.
#[export] Instance adds_effects_trans P : Transitive (adds_effects P).
Proof.
  intros a b c (es & E & F) (es' & E' & F'). exists (es ++ es').
  split; [by rewrite E', E, app_assoc|by apply Forall_app].
Qed.
Lemma adds_effects_same P w w' : trace w' = trace w -> adds_effects P w w'.
Proof. intros E. exists []. split; [by rewrite E, app_nil_r|constructor]. Qed.
Lemma adds_effects_mono (P Q : Effect -> Prop) w w' :
  (forall e, P e -> Q e) -> adds_effects P w w' -> adds_effects Q w w'.
Proof. intros H (es & E & F). exists es. split; [done|]. by eapply Forall_impl. Qed.

(** Anything but a frequency adjustment. *)
Definition no_rate (e : Effect) : Prop :=
  match e with EAdjustClockRate _ _ => False | _ => True end.

(** [quiet]: nothing but timers, locks, the answers consumed and effects other
    than a frequency adjustment. *)
Definition quiet (w w' : World) : Prop :=
  clk w' = clk w /\ ports w' = ports w /\ heap w' = heap w /\ next_ptr w' = next_ptr w /\
  ap_sequenceId w' = ap_sequenceId w /\ adds_effects no_rate w w'.

#[export] Instance quiet_refl : Reflexive quiet.
Proof. intros w. repeat split; done. Qed.
#[export] Instance quiet_trans : Transitive quiet.
Proof.
  intros a b c (?&?&?&?&?&?) (?&?&?&?&?&?). repeat split; try congruence. by etrans.
Qed.
Lemma quiet_untraced w w' :
  clk w' = clk w -> ports w' = ports w -> heap w' = heap w -> next_ptr w' = next_ptr w ->
  ap_sequenceId w' = ap_sequenceId w -> trace w' = trace w -> quiet w w'.
Proof. intros. repeat split; try done. by apply adds_effects_same. Qed.

(** The locks held stay the same. *)
Definition same_locks (w w' : World) : Prop := held w' = held w.
#[export] Instance same_locks_refl : Reflexive same_locks.
Proof. done. Qed.
#[export] Instance same_locks_trans : Transitive same_locks.
Proof. intros a b c H1 H2. unfold same_locks in *. congruence. Qed.

(** [lock] blocks until the lock is there; [trylock] may fail. *)
Class LocksGranted `{Env} := { lock_granted n l : env_lock n l = true }.

Section Quiet.
Context `{Env}.

Lemma quiet_modify f :
  (forall w, clk (f w) = clk w /\ ports (f w) = ports w /\ heap (f w) = heap w /\
             next_ptr (f w) = next_ptr w /\ ap_sequenceId (f w) = ap_sequenceId w /\
             trace (f w) = trace w) -> keeps quiet (modify f).
Proof. intros Hf. apply keeps_modify. intros w. destruct (Hf w) as (?&?&?&?&?&?). by apply quiet_untraced. Qed.
Lemma quiet_ask {A} (f : nat -> A) : keeps quiet (ask f).
Proof. intros w a w' [= _ <-]. by apply quiet_untraced. Qed.
Lemma quiet_emit e : no_rate e -> keeps quiet (emit e).
Proof. intros He. apply keeps_modify. intros w. repeat split. exists [e]. auto. Qed.
Lemma quiet_lock l : keeps quiet (lock l).
Proof.
  unfold lock. apply keeps_bind; [apply _|apply quiet_ask|]. intros ok.
  apply keeps_bind; [apply _| |intros; by apply keeps_ret, _].
  apply keeps_when; [apply _|]. by apply quiet_modify.
Qed.
Lemma quiet_trylock l : keeps quiet (trylock l).
Proof.
  unfold trylock. apply keeps_bind; [apply _|apply quiet_ask|]. intros ok.
  apply keeps_bind; [apply _| |intros; by apply keeps_ret, _].
  apply keeps_when; [apply _|]. by apply quiet_modify.
Qed.
Lemma quiet_unlock l : keeps quiet (unlock l).
Proof.
  intros w a w'. unfold unlock. destruct (release l (held w)); intros [= _ <-]; [|done].
  by apply quiet_untraced.
Qed.
Lemma quiet_cancel e : keeps quiet (cancelEvent e).
Proof. by apply quiet_modify. Qed.
Lemma quiet_add t e p : keeps quiet (addEventTimer p e t).
Proof. by apply quiet_modify. Qed.
Lemma quiet_delete e p : keeps quiet (deleteEventTimer p e).
Proof. apply quiet_cancel. Qed.
End Quiet.
#[export] Hint Extern 1 (keeps quiet (emit _)) => apply quiet_emit; exact I : gptp.
#[export] Hint Resolve quiet_ask quiet_lock quiet_trylock quiet_unlock quiet_cancel
  quiet_add quiet_delete : gptp.

(** [keeps_quiet] settles the operations that are made of the above. *)
Ltac keeps_quiet := keeps_tac; try solve [eauto with gptp].

Section QuietOps.
Context `{Env}.
Lemma quiet_addLocked p e t : keeps quiet (addEventTimerLocked p e t).
Proof. unfold addEventTimerLocked. keeps_quiet. Qed.
Lemma quiet_deleteLocked p e : keeps quiet (deleteEventTimerLocked p e).
Proof. unfold deleteEventTimerLocked. keeps_quiet. Qed.
Lemma quiet_startSyncReceiptTimer p t : keeps quiet (startSyncReceiptTimer p t).
Proof. unfold startSyncReceiptTimer. keeps_quiet. Qed.
Lemma quiet_stopSyncReceiptTimer p : keeps quiet (stopSyncReceiptTimer p).
Proof. unfold stopSyncReceiptTimer. keeps_quiet. Qed.
Hint Resolve quiet_addLocked quiet_deleteLocked : gptp.
Lemma quiet_startSyncIntervalTimer p t : keeps quiet (startSyncIntervalTimer p t).
Proof. unfold startSyncIntervalTimer. keeps_quiet. Qed.
Lemma quiet_startAnnounceIntervalTimer p t : keeps quiet (startAnnounceIntervalTimer p t).
Proof. unfold startAnnounceIntervalTimer. keeps_quiet. Qed.
Lemma quiet_startAnnounce p : keeps quiet (startAnnounce p).
Proof. apply quiet_startAnnounceIntervalTimer. Qed.
Lemma quiet_get_port p : keeps quiet (get_port p).
Proof. intros w a w'. unfold get_port. destruct (ports w !! p); [|done]. by intros [= _ <-]. Qed.
Lemma quiet_get_msg q : keeps quiet (get_msg q).
Proof. intros w a w'. unfold get_msg. destruct (heap w !! q); [|done]. by intros [= _ <-]. Qed.
End QuietOps.
#[export] Hint Resolve quiet_addLocked quiet_deleteLocked quiet_startSyncReceiptTimer
  quiet_stopSyncReceiptTimer quiet_startSyncIntervalTimer quiet_startAnnounceIntervalTimer
  quiet_startAnnounce quiet_get_port quiet_get_msg : gptp.

Section QuietHw.
Context `{Env}.
Lemma quiet_getDeviceTime p : keeps quiet (getDeviceTime p).
Proof. unfold getDeviceTime. keeps_quiet. Qed.
Lemma quiet_send p a t b l ts : keeps quiet (send p a t b l ts).
Proof. unfold send. keeps_quiet. Qed.
Lemma quiet_adjustClockPhase p f : keeps quiet (adjustClockPhase p f).
Proof. unfold adjustClockPhase. keeps_quiet. Qed.
Lemma quiet_interval l : keeps quiet (interval l).
Proof. unfold interval. keeps_quiet. Qed.
Lemma quiet_interval3 l : keeps quiet (interval3 l).
Proof. unfold interval3. keeps_quiet. Qed.
Lemma quiet_interval3l l : keeps quiet (interval3l l).
Proof. unfold interval3l. keeps_quiet. Qed.
Lemma quiet_interval_s l : keeps quiet (interval_s l).
Proof. unfold interval_s. keeps_quiet. Qed.
End QuietHw.
#[export] Hint Resolve quiet_getDeviceTime quiet_send quiet_adjustClockPhase
  quiet_interval quiet_interval3 quiet_interval3l quiet_interval_s : gptp.
