(* ===== verification/Runs.v ===== *)
(** * Running handlers

    Equations for the operations of [D] on a world that has what they ask for,
    and a tactic that runs a handler by them: [run] turns
    [returns (m ≫= k) w Q] into [returns (k a) w' Q] while it can see what [m]
    does on [w]. *)

From Stdlib Require Import ZArith Lia.
From stdpp Require Import base gmap list.
From S2P Require Import Prelude Timestamp Identity Message World Clock Port Media.

Section Runs.
Context `{Env}.

Lemma returns_step {S A B} (m : M S A) (k : A -> M S B) s a s' Q :
  m s = Done a s' -> returns (k a) s' Q -> returns (m ≫= k) s Q.
Proof. intros E HQ. apply returns_bind. unfold returns at 1. by rewrite E. Qed.

Lemma run_ret {A} (a : A) w : (mret a : D A) w = Done a w.
Proof. done. Qed.
Lemma run_gets {A} (f : World -> A) w : gets f w = Done (f w) w.
Proof. done. Qed.
Lemma run_get_clock w : get_clock w = Done (clk w) w.
Proof. done. Qed.
Lemma run_mod_clock f w : mod_clock f w = Done tt (w <| clk := f (clk w) |>).
Proof. done. Qed.
Lemma run_emit e w : emit e w = Done tt (w <| trace := trace w ++ [e] |>).
Proof. done. Qed.
Lemma run_ask {A} (f : nat -> A) w : ask f w = Done (f (tick w)) (w <| tick := S (tick w) |>).
Proof. done. Qed.
Lemma run_new_msg m w :
  new_msg m w =
  Done (next_ptr w) (w <| heap := <[next_ptr w := m]> (heap w) |> <| next_ptr := S (next_ptr w) |>).
Proof. done. Qed.
Lemma run_when_true (m : D unit) w a w' : m w = Done a w' -> when true m w = Done a w'.
Proof. done. Qed.

Lemma run_get_port p x w : ports w !! p = Some x -> get_port p w = Done x w.
Proof. intros Hx. unfold get_port. by rewrite Hx. Qed.
Lemma run_mod_port p f x w :
  ports w !! p = Some x -> mod_port p f w = Done tt (w <| ports := <[p := f x]> (ports w) |>).
Proof. intros Hx. unfold mod_port. by rewrite Hx. Qed.
Lemma run_as_ether p x e w :
  ports w !! p = Some x -> media x = Ether e -> as_ether p w = Done (Some e) w.
Proof.
  intros Hx He. unfold as_ether, get_port, mbind, M_bind. by rewrite Hx, He.
Qed.
Lemma run_get_ether p x e w :
  ports w !! p = Some x -> media x = Ether e -> get_ether p w = Done e w.
Proof.
  intros Hx He. unfold get_ether. rewrite (bind_Done _ _ _ _ _ (run_as_ether _ _ _ _ Hx He)). done.
Qed.
Lemma run_mod_ether p f x e w :
  ports w !! p = Some x -> media x = Ether e ->
  mod_ether p f w = Done tt (w <| ports := <[p := x <| media := Ether (f e) |>]> (ports w) |>).
Proof.
  intros Hx He. unfold mod_ether. rewrite (run_mod_port _ _ _ _ Hx). unfold upd_ether. by rewrite He.
Qed.
Lemma run_get_msg q m w : heap w !! q = Some m -> get_msg q w = Done m w.
Proof. intros Hm. unfold get_msg. by rewrite Hm. Qed.
Lemma run_mod_msg q f m w :
  heap w !! q = Some m -> mod_msg q f w = Done tt (w <| heap := <[q := f m]> (heap w) |>).
Proof. intros Hm. unfold mod_msg. by rewrite Hm. Qed.
Lemma run_delete_msg q m w :
  heap w !! q = Some m -> delete_msg q w = Done tt (w <| heap := base.delete q (heap w) |>).
Proof. intros Hm. unfold delete_msg. by rewrite Hm. Qed.
Lemma run_from_option {A} f (o : option A) a w : o = Some a -> (from_option f o : D A) w = Done a w.
Proof. by intros ->. Qed.

Context `{!LocksGranted}.
Lemma run_lock l w :
  lock l w = Done true (w <| tick := S (tick w) |> <| held := l :: held w |>).
Proof. unfold lock, ask, mbind, M_bind. by rewrite lock_granted. Qed.
Lemma run_unlock l h w : held w = l :: h -> unlock l w = Done true (w <| held := h |>).
Proof. intros Hh. unfold unlock. rewrite Hh, release_head. done. Qed.

Lemma run_addLocked p e ns w :
  addEventTimerLocked p e ns w =
  Done tt (w <| tick := S (tick w) |> <| timers := timers w ++ [mkTimer (u32 (ns / 1000)) e p] |>).
Proof. rewrite addEventTimerLocked_run, lock_granted. done. Qed.
Lemma run_deleteLocked p e w :
  deleteEventTimerLocked p e w =
  Done tt (w <| tick := S (tick w) |> <| timers := without e (timers w) |>).
Proof. rewrite deleteEventTimerLocked_run, lock_granted. done. Qed.
End Runs.

Create HintDb runs discriminated.
#[export] Hint Resolve run_ret run_gets run_get_clock run_mod_clock run_emit run_ask run_new_msg
  run_get_port run_mod_port run_as_ether run_get_ether run_mod_ether run_get_msg run_mod_msg
  run_delete_msg run_from_option run_lock run_unlock run_addLocked run_deleteLocked : runs.

(** Lookups in a world that a handler has updated. *)
Lemma lookup_insert_port (l : list Port) p x y : l !! p = Some x -> <[p := y]> l !! p = Some y.
Proof. intros Hl. rewrite list_lookup_insert_eq; [done|]. by eapply lookup_lt_Some. Qed.
Lemma lookup_insert_msg (h : gmap nat Message) q m : <[q := m]> h !! q = Some m.
Proof. apply lookup_insert_eq. Qed.

#[export] Hint Extern 1 (_ !! _ = Some _) => first [eassumption | cbn; eassumption] : runs.
#[export] Hint Extern 2 (ports _ !! _ = Some _) =>
  cbn; repeat (eapply lookup_insert_port); eassumption : runs.
#[export] Hint Extern 2 (heap _ !! _ = Some _) => cbn; apply lookup_insert_eq : runs.
#[export] Hint Extern 1 (media _ = Ether _) => cbn; first [eassumption|reflexivity] : runs.
#[export] Hint Extern 1 (held _ = _ :: _) => cbn; reflexivity : runs.

Ltac run1 :=
  lazymatch goal with
  | |- returns ((_ ≫= _) ≫= _) _ _ => apply returns_bind
  | |- returns (_ ≫= _) _ _ => eapply returns_step; [solve [eauto 3 with runs nocore]|cbn beta iota]
  | |- returns (when ?b _) _ _ => destruct b eqn:?; cbn [when]
  | |- returns (mret _) _ _ => unfold returns, mret, M_ret; cbn beta iota
  end.
Ltac run := repeat run1.

(** ** Operations that always return *)

Definition total {A} (m : D A) : Prop := forall w, exists a w', m w = Done a w'.

Section Total.
Context `{Env}.
Lemma total_bind {A B} (m : D A) (k : A -> D B) : total m -> (forall a, total (k a)) -> total (m ≫= k).
Proof.
  intros Hm Hk w. destruct (Hm w) as (a & w' & E). rewrite (bind_Done _ _ _ _ _ E). apply Hk.
Qed.
Lemma total_ret {A} (a : A) : total (mret a).
Proof. intros w. by do 2 eexists. Qed.
Lemma total_gets {A} (f : World -> A) : total (gets f).
Proof. intros w. by do 2 eexists. Qed.
Lemma total_modify f : total (modify f).
Proof. intros w. by do 2 eexists. Qed.
Lemma total_ask {A} (f : nat -> A) : total (ask f).
Proof. intros w. by do 2 eexists. Qed.
Lemma total_when b m : total m -> total (when b m).
Proof. intros Hm. destruct b; [done|apply total_ret]. Qed.
Lemma total_lock l : total (lock l).
Proof. unfold lock. apply total_bind; [apply total_ask|intros ok]. by destruct ok; do 2 eexists. Qed.
Lemma total_trylock l : total (trylock l).
Proof. unfold trylock. apply total_bind; [apply total_ask|intros ok]. by destruct ok; do 2 eexists. Qed.
Lemma total_unlock l : total (unlock l).
Proof. intros w. unfold unlock. destruct (release l (held w)); by do 2 eexists. Qed.
End Total.

Ltac total_tac :=
  repeat first
    [ assumption | apply total_ret | apply total_gets | apply total_modify | apply total_ask
    | apply total_lock | apply total_trylock | apply total_unlock | apply total_when
    | apply total_bind; [|intros ?]
    | match goal with
      | |- total (match ?x with _ => _ end) => destruct x
      | |- total (addEventTimerLocked _ _ _) => unfold addEventTimerLocked, addEventTimer, addEvent
      | |- total (deleteEventTimerLocked _ _) => unfold deleteEventTimerLocked, cancelEvent
      | |- total (addEventTimer _ _ _) => unfold addEventTimer, addEvent
      | |- total (deleteEventTimer _ _) => unfold deleteEventTimer, cancelEvent
      | |- total (cancelEvent _) => unfold cancelEvent
      end ].

Section TotalOps.
Context `{Env}.
Lemma total_addLocked p e t : total (addEventTimerLocked p e t).
Proof. total_tac. Qed.
Lemma total_deleteLocked p e : total (deleteEventTimerLocked p e).
Proof. total_tac. Qed.
Lemma total_startSyncReceiptTimer p t : total (startSyncReceiptTimer p t).
Proof. unfold startSyncReceiptTimer. total_tac. Qed.
Lemma total_stopSyncReceiptTimer p : total (stopSyncReceiptTimer p).
Proof. unfold stopSyncReceiptTimer. total_tac. Qed.
Lemma total_startSyncIntervalTimer p t : total (startSyncIntervalTimer p t).
Proof. unfold startSyncIntervalTimer. total_tac. Qed.
Lemma total_startAnnounce p : total (startAnnounce p).
Proof. unfold startAnnounce, startAnnounceIntervalTimer. total_tac. Qed.
End TotalOps.
