(* ===== verification/Ether.v ===== *)
(** * Ethernet ports

    [EtherPort] (common/ether_port.hpp, common/ether_port.cpp) without its
    event handlers: construction, the peer delay process, the master and slave
    transitions, the address map, sending, timestamping, and the automotive
    profile's test status message (common/ap_message.cpp). *)

From Stdlib Require Import ZArith Lia.
From Stdlib.Floats Require Import SpecFloat.
From stdpp Require Import base gmap list.
From S2P Require Import Prelude Timestamp CFloat Identity Message Wire World Clock Port.

Definition PDELAY_MULTICAST : Z := 0x0180C200000E.
Definition OTHER_MULTICAST : Z := 0x0180C200000E.
Definition TEST_STATUS_MULTICAST : Z := 0x011BC50AC000.
Definition PDELAY_RESP_RECEIPT_TIMEOUT_MULTIPLIER : Z := 3.
Definition DUPLICATE_RESP_THRESH : Z := 3.
Definition AVTP_ETHERTYPE : Z := 0x22F0.
Definition AP_TEST_STATUS_LENGTH : Z := 160.

(** ** Construction *)

Definition or_default (v d : Z) : Z := if v =? LOG2_INTERVAL_INVALID then d else v.

(** [EtherPort(portInit)]: the automotive profile starts asCapable, and with a
    shorter sync interval when none is configured. *)
Definition EtherPart_new (mem : EtherPart) (i : PortInit) : EtherPart :=
  let e := mem <| linkUp := pi_linkUp i |> <| pdelay_sequence_id := 0 |>
    <| pdelay_started := false |> <| pdelay_halted := false |>
    <| sync_rate_interval_timer_started := false |> <| duplicate_resp_counter := 0 |>
    <| last_invalid_seqid := 0 |>
    <| operLogPdelayReqInterval := or_default (pi_operLogPdelayReqInterval i) 0 |>
    <| operLogSyncInterval := or_default (pi_operLogSyncInterval i) 0 |>
    <| last_sync := None |> <| last_pdelay_req := None |> <| last_pdelay_resp := None |>
    <| last_pdelay_resp_fwup := None |> <| identity_map := ∅ |> in
  if pi_automotive_profile i then
    let e := e <| avbSyncState := if pi_isGM i then 1 else 2 |>
               <| stationState := STATION_STATE_RESERVED |> in
    if pi_testMode i then e <| linkUpCount := 1 |> <| linkDownCount := 0 |> else e
  else e.

Definition EtherPort_new (mem : Port) (emem : EtherPart) (i : PortInit) : Port :=
  let x := CommonPort_new mem i <| testMode := pi_testMode i |> in
  let x := set_asCapable (pi_automotive_profile i) x in
  let x := x <| initialLogSyncInterval :=
                  or_default (initialLogSyncInterval x) (if pi_automotive_profile i then -5 else -3) |>
             <| initialLogPdelayReqInterval := or_default (initialLogPdelayReqInterval x) 0 |> in
  x <| log_min_mean_pdelay_req_interval := initialLogPdelayReqInterval x |>
    <| pdelay_count := 0 |> <| sync_count := 0 |>
    <| media := Ether (EtherPart_new emem i) |>.

(** ** Small operations *)

Definition haltPdelay (p : pid) (hlt : bool) : D unit := mod_ether p (fun e => e <| pdelay_halted := hlt |>).
Definition setLastSync (p : pid) (m : option ptr) : D unit := mod_ether p (fun e => e <| last_sync := m |>).
Definition setLastPDelayReq (p : pid) (m : option ptr) : D unit :=
  mod_ether p (fun e => e <| last_pdelay_req := m |>).
Definition setLastPDelayResp (p : pid) (m : option ptr) : D unit :=
  mod_ether p (fun e => e <| last_pdelay_resp := m |>).
Definition setLastPDelayRespFollowUp (p : pid) (m : option ptr) : D unit :=
  mod_ether p (fun e => e <| last_pdelay_resp_fwup := m |>).
Definition setLastInvalidSeqID (p : pid) (n : Z) : D unit :=
  mod_ether p (fun e => e <| last_invalid_seqid := n |>).
Definition setDuplicateRespCounter (p : pid) (n : Z) : D unit :=
  mod_ether p (fun e => e <| duplicate_resp_counter := n |>).
Definition setStationState (p : pid) (s : StationState) : D unit :=
  mod_ether p (fun e => e <| stationState := s |>).
(** True when the increment reaches the threshold. *)
Definition incrementDuplicateRespCounter (p : pid) : D bool :=
  mod_ether p (fun e => e <| duplicate_resp_counter := u32 (duplicate_resp_counter e + 1) |>);;
  e ← get_ether p; mret (duplicate_resp_counter e =? DUPLICATE_RESP_THRESH).
Definition getNextPDelaySequenceId (p : pid) : D Z :=
  e ← get_ether p;
  mod_ether p (fun e => e <| pdelay_sequence_id := u16 (pdelay_sequence_id e + 1) |>);;
  mret (pdelay_sequence_id e).

(** The address map: a lookup of an unknown identity inserts an address whose
    octets are not initialised. *)
Definition addSockAddrMap (p : pid) (id : PortIdentity) (remote : LinkLayerAddress) : D unit :=
  mod_ether p (fun e => e <| identity_map := <[id := remote]> (identity_map e) |>).

Section EtherOps.
Context `{Env}.

Definition mapSocketAddr (p : pid) (id : PortIdentity) : D LinkLayerAddress :=
  e ← get_ether p;
  match identity_map e !! id with
  | Some a => mret a
  | None =>
      let a := repeat (env_garbage mod 256) 6 in
      addSockAddrMap p id a;; mret a
  end.

Definition eth_getTxLock (p : pid) : D bool := lock (PortTxLock p).
Definition eth_putTxLock (p : pid) : D bool := unlock (PortTxLock p).
Definition tryPDelayRxLock (p : pid) : D bool := trylock (PDelayRxLock p).
Definition putPDelayRxLock (p : pid) : D bool := unlock (PDelayRxLock p).

(** ** Sending *)

Definition port_send (p : pid) (etherType : Z) (buf : list Z) (size : Z) (mcast : MulticastType)
    (dest : option PortIdentity) (ts : bool) : D bool :=
  addr ← match mcast with
    | MCAST_NONE => id ← from_option NullPointer dest; mapSocketAddr p id
    | MCAST_PDELAY => mret (LinkLayerAddress_of_scalar PDELAY_MULTICAST)
    | MCAST_TEST_STATUS => mret (LinkLayerAddress_of_scalar TEST_STATUS_MULTICAST)
    | MCAST_OTHER => mret (LinkLayerAddress_of_scalar OTHER_MULTICAST)
    end;
  send p addr etherType buf size ts.

(** The link speed that the frame was sent at. *)
Definition sendEventPort (p : pid) (etherType : Z) (buf : list Z) (size : Z)
    (mcast : MulticastType) (dest : option PortIdentity) : D Z :=
  ok ← port_send p etherType buf size mcast dest true;
  x ← get_port p;
  mret (if (ok : bool) then link_speed x else INVALID_LINKSPEED).

Definition eth_sendGeneralPort (p : pid) (etherType : Z) (buf : list Z) (size : Z)
    (mcast : MulticastType) (dest : option PortIdentity) : D unit :=
  _ ← port_send p etherType buf size mcast dest false; mret tt.

(** ** Timestamps

    A port whose timestamper cannot timestamp frames answers with the system
    time, which is zero, and success; the counter value is not written then. *)
Definition eth_getTxTimestamp (p : pid) (id : PortIdentity) (mid : PTPMessageId) (last : bool)
    : D (Z * Timestamp) :=
  x ← get_port p;
  match _hw_timestamper x with
  | EtherTs => r ← ask (fun n => env_txtimestamp n id mid last); mret (r.1.1, r.1.2)
  | _ => mret (0, getSystemTime)
  end.
Definition eth_getRxTimestamp (p : pid) (id : PortIdentity) (mid : PTPMessageId)
    (counter_value : Z) (last : bool) : D (Z * Timestamp * Z) :=
  x ← get_port p;
  match _hw_timestamper x with
  | EtherTs => ask (fun n => env_rxtimestamp n id mid last)
  | _ => mret (0, getSystemTime, counter_value)
  end.

(** ** The test status message *)

Definition ap_copies (x : Port) (e : EtherPart) (seq : Z) (system_time : Timestamp) : copies :=
  [ (0, [0xFB%Z]); (1, [1%Z]); (2, net16 148);
    (4, local_addr x);
    (20, net16 seq);
    (22, le_encode 2 (Z.lor (htons (u16 (Z.shiftl 1 15))) (htons 0x29)));
    (24, net16 0x09); (26, net16 0x00); (28, net32 0x07000023);
    (32, net32 (linkUpCount e)); (36, net32 (linkDownCount e));
    (128, net64 (TIMESTAMP_TO_NS system_time));
    (136, [StationState_code (stationState e)]) ]%nat.

(** [APMessageTestStatus::sendPort]; the sequence id is a static variable. *)
Definition ap_sendPort (p : pid) : D unit :=
  seq ← gets ap_sequenceId;
  modify (fun w => w <| ap_sequenceId := u16 (seq + 1) |>);;
  times ← getDeviceTime p;
  x ← get_port p;
  e ← get_ether p;
  buf ← from_option OutOfBounds
          (puts env_payload_offset (ap_copies x e seq times.1) (repeat 0 256));
  eth_sendGeneralPort p AVTP_ETHERTYPE buf AP_TEST_STATUS_LENGTH MCAST_TEST_STATUS None.

Definition send_test_status (p : pid) : D unit :=
  x ← get_port p; when (testMode x) (ap_sendPort p).

(** ** The peer delay process *)

Definition eth_startPDelayIntervalTimer (p : pid) (waitTime : Z) : D unit :=
  _ ← lock (PDelayIntervalTimerLock p);
  deleteEventTimerLocked p PDELAY_INTERVAL_TIMEOUT_EXPIRES;;
  addEventTimerLocked p PDELAY_INTERVAL_TIMEOUT_EXPIRES waitTime;;
  _ ← unlock (PDelayIntervalTimerLock p); mret tt.

Definition startPDelay (p : pid) : D unit :=
  x ← get_port p;
  e ← get_ether p;
  if pdelay_halted e then mret tt
  else if automotive_profile x then
    if log_min_mean_pdelay_req_interval x =? sigMsgInterval_NoSend then mret tt
    else
      mod_ether p (fun e => e <| pdelay_started := true |>);;
      eth_startPDelayIntervalTimer p EVENT_TIMER_GRANULARITY
  else
    mod_ether p (fun e => e <| pdelay_started := true |>);;
    eth_startPDelayIntervalTimer p 32000000.

Definition stopPDelay (p : pid) : D unit :=
  haltPdelay p true;;
  mod_ether p (fun e => e <| pdelay_started := false |>);;
  deleteEventTimerLocked p PDELAY_INTERVAL_TIMEOUT_EXPIRES.

Definition startSyncRateIntervalTimer (p : pid) : D unit :=
  x ← get_port p;
  when (automotive_profile x) (
    mod_ether p (fun e => e <| sync_rate_interval_timer_started := true |>);;
    addEventTimerLocked p SYNC_RATE_INTERVAL_TIMEOUT_EXPIRED
      (if isGM x then 8000000000 else 4000000000)).

(** ** Master and slave *)

Definition eth_becomeMaster (p : pid) (annc : bool) : D unit :=
  setPortState p PTP_MASTER;;
  deleteEventTimerLocked p ANNOUNCE_RECEIPT_TIMEOUT_EXPIRES;;
  stopSyncReceiptTimer p;;
  x ← get_port p;
  when (annc && negb (automotive_profile x)) (startAnnounce p);;
  startSyncIntervalTimer p 16000000;;
  updateFUPInfo.

Definition eth_becomeSlave (p : pid) (restart_syntonization : bool) : D unit :=
  deleteEventTimerLocked p ANNOUNCE_INTERVAL_TIMEOUT_EXPIRES;;
  deleteEventTimerLocked p SYNC_INTERVAL_TIMEOUT_EXPIRES;;
  setPortState p PTP_SLAVE;;
  x ← get_port p;
  (if automotive_profile x then mret tt
   else
     t ← interval (log_mean_announce_interval x);
     addEventTimerLocked p ANNOUNCE_RECEIPT_TIMEOUT_EXPIRES
       (u64 (ANNOUNCE_RECEIPT_TIMEOUT_MULTIPLIER * t)));;
  when restart_syntonization newSyntonizationSetPoint;;
  updateFUPInfo.

(** One step of the count-down to the AVB_SYNC station state. *)
Definition avb_sync_step (p : pid) : D unit :=
  e ← get_ether p;
  when (0 <? avbSyncState e) (
    mod_ether p (fun e => e <| avbSyncState := u32 (avbSyncState e - 1) |>);;
    when (avbSyncState e =? 1) (
      setStationState p STATION_STATE_AVB_SYNC;;
      send_test_status p)).

Definition eth_syncDone (p : pid) : D unit :=
  x ← get_port p;
  when (automotive_profile x && bool_decide (port_state x = PTP_SLAVE)) (avb_sync_step p);;
  e ← get_ether p;
  x ← get_port p;
  when (automotive_profile x && negb (sync_rate_interval_timer_started e)
        && negb (log_mean_sync_interval x =? operLogSyncInterval e))
    (startSyncRateIntervalTimer p);;
  e ← get_ether p;
  when (negb (pdelay_started e)) (startPDelay p).
End EtherOps.
