(* ===== verification/Servo.v ===== *)
(** * The servo

    [IEEE1588Clock::setMasterOffset] (common/ieee1588clock.cpp) and the loops
    over all ports that it uses (common/avbts_clock.hpp): the offset and the
    rate are published, and, when the clock syntonizes, the local clock is
    stepped or its frequency steered by a proportional-integral controller. *)

From Stdlib Require Import ZArith Lia.
From Stdlib.Floats Require Import SpecFloat.
From stdpp Require Import base gmap list.
From S2P Require Import Prelude Timestamp CFloat Identity Message World Clock Port Media.

Definition PHASE_ERROR_THRESHOLD : Z := 1000000000.
Definition PHASE_ERROR_MAX_COUNT : Z := 6.
Definition INTEGRAL : spec_float := fl_lit fmt_double 3 10000.
Definition UPPER_FREQ_LIMIT : spec_float := fl_of_Z fmt_double 250.
Definition LOWER_FREQ_LIMIT : spec_float := fl_of_Z fmt_double (-250).

(** [(float)(1.0 / pow((float)2, log))] *)
Definition sync_per_sec (log : Z) : spec_float :=
  fl_cvt fmt_float (fl_div fmt_double (fl_of_Z fmt_double 1) (pow2 log)).

(** What a phase error and a rate ratio add to the frequency adjustment, in
    parts per million: [INTEGRAL * syncPerSec] on doubles, the rest on long
    doubles, the sum cast to [float]. *)
Definition ppm_increment (log : Z) (phase_error ratio : spec_float) : spec_float :=
  let i := fl_mul fmt_ldouble
    (fl_cvt fmt_ldouble (fl_mul fmt_double INTEGRAL (fl_cvt fmt_double (sync_per_sec log)))) phase_error in
  let p := fl_mul fmt_ldouble (fl_of_Z fmt_ldouble 1)
    (fl_mul fmt_ldouble (fl_sub fmt_ldouble ratio ratio_one) (fl_of_Z fmt_ldouble 1000000)) in
  fl_cvt fmt_float (fl_add fmt_ldouble i p).

(** The clamp compares on doubles and stores a [float]. *)
Definition clamp_ppm (ppm : spec_float) : spec_float :=
  let ppm := if SFltb (fl_cvt fmt_double ppm) LOWER_FREQ_LIMIT
             then fl_cvt fmt_float LOWER_FREQ_LIMIT else ppm in
  if SFltb UPPER_FREQ_LIMIT (fl_cvt fmt_double ppm)
  then fl_cvt fmt_float UPPER_FREQ_LIMIT else ppm.

(** [fabsl(phase_error) > PHASE_ERROR_THRESHOLD] *)
Definition beyond_threshold (phase_error : spec_float) : bool :=
  SFltb (fl_of_Z fmt_ldouble PHASE_ERROR_THRESHOLD) (SFabs phase_error).

(** The new violation count and the new frequency, before the clamp. *)
Definition servo_step (c : Clock) (log : Z) (phase_error ratio : spec_float) : Z * spec_float :=
  if beyond_threshold phase_error then (i32 (_phase_error_violation c + 1), _ppm c)
  else (0, fl_add fmt_float (_ppm c) (ppm_increment log phase_error ratio)).

(** The master's offset and rate, as they reach the servo. *)
Record Measure := mkMeasure {
  master_local_offset : Z;                   (* int64_t *)
  ms_local_time : Timestamp;
  master_local_freq_offset : spec_float;     (* FrequencyRatio *)
  local_system_offset : Z;                   (* int64_t *)
  local_system_freq_offset : spec_float;     (* FrequencyRatio *)
}.

Definition step_pending (c : Clock) : bool :=
  _new_syntonization_set_point c || (PHASE_ERROR_MAX_COUNT <? _phase_error_violation c).

Section Servo.
Context `{Env} `{MediaOps}.

(** The loops stop at the first port whose lock call returns false. *)
Definition getTxLockAll : D bool :=
  c ← get_clock;
  r ← for_ports (Z.to_nat (number_ports c)) 0 (fun p (_ : unit) =>
        ok ← m_getTxLock p; mret (if (ok : bool) then inl tt else inr tt)) tt;
  mret (match r with inl _ => true | inr _ => false end).
Definition putTxLockAll : D bool :=
  c ← get_clock;
  r ← for_ports (Z.to_nat (number_ports c)) 0 (fun p (_ : unit) =>
        ok ← m_putTxLock p; mret (if (ok : bool) then inl tt else inr tt)) tt;
  mret (match r with inl _ => true | inr _ => false end).
Definition restartPDelayAll : D unit :=
  c ← get_clock;
  _ ← for_ports (B := unit) (Z.to_nat (number_ports c)) 0 (fun p (_ : unit) =>
        restartPDelay p;; mret (inl tt)) tt;
  mret tt.

Definition ipc_update (p : pid) (ms : Measure) : D unit :=
  c ← get_clock;
  x ← get_port p;
  when (ipc c) (
    emit (EIpcUpdate (master_local_offset ms) (local_system_offset ms)
            (master_local_freq_offset ms) (local_system_freq_offset ms)
            (TIMESTAMP_TO_NS (ms_local_time ms)) (sync_count x) (pdelay_count x)
            (port_state x) (asCapable x));;
    emit (EIpcGrandmaster (grandmaster_clock_identity c) (domain_number c));;
    emit (EIpcInterface (clock_identity c) (priority1 c) (clock_quality c) (priority2 c)
            (domain_number c) (log_mean_sync_interval x) (log_mean_announce_interval x) 0
            (portNumber (port_identity x)))).

(** The step: the phase is adjusted by the opposite of the offset with every
    port's transmit lock held, and the offset counts as corrected. *)
Definition phase_step (p : pid) (offset : Z) : D unit :=
  mod_clock (fun c => c <| _new_syntonization_set_point := false |>
                        <| _phase_error_violation := 0 |>);;
  _ ← getTxLockAll;
  _ ← adjustClockPhase p (i64 (- offset));
  mod_clock (fun c => c <| _master_local_freq_offset_init := false |>);;
  restartPDelayAll;;
  _ ← putTxLockAll; mret tt.

Definition steer (p : pid) (offset : Z) (ratio : spec_float) : D unit :=
  c ← get_clock;
  x ← get_port p;
  let phase_error := fl_of_Z fmt_ldouble (i64 (- offset)) in
  let s := servo_step c (log_mean_sync_interval x) phase_error ratio in
  mod_clock (fun c => c <| _phase_error_violation := s.1 |> <| _ppm := clamp_ppm s.2 |>);;
  _ ← adjustClockRate p (fl_cvt fmt_ldouble (clamp_ppm s.2)); mret tt.

Definition setMasterOffset (p : pid) (ms : Measure) : D unit :=
  mod_clock (fun c => c <| _master_local_freq_offset := master_local_freq_offset ms |>
                        <| _local_system_freq_offset := local_system_freq_offset ms |>);;
  ipc_update p ms;;
  if (master_local_offset ms =? 0) && SFeqb (master_local_freq_offset ms) ratio_one then mret tt
  else
    c ← get_clock;
    when (_syntonize c) (
      (if step_pending c
       then phase_step p (master_local_offset ms);; steer p 0 (master_local_freq_offset ms)
       else steer p (master_local_offset ms) (master_local_freq_offset ms))).
End Servo.
