(* ===== verification/Transmit.v ===== *)
(** * Making and sending messages

    The constructors of the message classes and their [sendPort] methods
    (common/ptp_message.cpp), over the heap of the daemon: a frame is built
    from the message, handed to the port, counted, and, for an event message,
    its transmit timestamp is fetched with retries. *)

From Stdlib Require Import ZArith Lia.
From Stdlib.Floats Require Import SpecFloat.
From stdpp Require Import base gmap list.
From S2P Require Import Prelude Timestamp CFloat Identity Message Wire World Clock Port Media Ether.

Definition GPTP_EC_SUCCESS : Z := 0.
Definition TX_TIMEOUT_ITER : nat := 6.

(** [setClockIdentity] and friends act on the message through its pointer. *)
Definition setPortIdentity (q : ptr) (id : PortIdentity) : D unit :=
  mod_msg q (fun m => m <| sourcePortIdentity := id |>).
Definition setSequenceId (q : ptr) (n : Z) : D unit := mod_msg q (fun m => m <| sequenceId := n |>).
Definition setTimestamp (q : ptr) (t : Timestamp) : D unit := mod_msg q (fun m => m <| _timestamp := t |>).
Definition set_gc (q : ptr) (b : bool) : D unit := mod_msg q (fun m => m <| _gc := b |>).

Section Transmit.
Context `{Env}.

(** The base constructor. *)
Definition PTPMessageCommon_init (pl : Payload) : D Message :=
  c ← get_clock; mret (PTPMessageCommon_new (domain_number c) env_garbage pl).

(** ** Constructors *)

Definition PTPMessageSync_new (p : pid) : D ptr :=
  m ← PTPMessageCommon_init (Sync getSystemTime);
  seq ← getNextSyncSequenceId p;
  x ← get_port p;
  new_msg (m <| sequenceId := seq |> <| control := LegacyMessageType_code SYNC |>
             <| flags := set_flag PTP_ASSIST_BYTE PTP_ASSIST_BIT (flags m) |>
             <| logMeanMessageInterval := log_mean_sync_interval x |>).

Definition PTPMessageAnnounce_new (p : pid) : D ptr :=
  c ← get_clock;
  seq ← getNextAnnounceSequenceId p;
  x ← get_port p;
  m ← PTPMessageCommon_init (Announce {|
    grandmasterIdentity := grandmaster_clock_identity c;
    grandmasterClockQuality := clock_quality c;
    tlv := tlv_appendClockIdentity (clock_identity c) [];
    currentUtcOffset := u16 (current_utc_offset c);
    grandmasterPriority1 := priority1 c;
    grandmasterPriority2 := priority2 c;
    stepsRemoved := 0;
    timeSource := time_source c |});
  new_msg (m <| sequenceId := seq |> <| control := LegacyMessageType_code MESSAGE_OTHER |>
             <| logMeanMessageInterval := log_mean_announce_interval x |>).

Definition PTPMessageFollowUp_new (p : pid) : D ptr :=
  m ← PTPMessageCommon_init (FollowUp (timestamp 0 0 0) FollowUpTLV_new);
  x ← get_port p;
  new_msg (m <| control := LegacyMessageType_code FOLLOWUP |>
             <| logMeanMessageInterval := log_mean_sync_interval x |>).

Definition PTPMessagePathDelayReq_new (p : pid) : D ptr :=
  m ← PTPMessageCommon_init PathDelayReq;
  x ← get_port p;
  seq ← getNextPDelaySequenceId p;
  new_msg (m <| logMeanMessageInterval := log_min_mean_pdelay_req_interval x |>
             <| control := LegacyMessageType_code MESSAGE_OTHER |> <| sequenceId := seq |>).

Definition identity_new : PortIdentity := mkPortIdentity ClockIdentity_zero (u16 env_garbage).

Definition PTPMessagePathDelayResp_new : D ptr :=
  m ← PTPMessageCommon_init (PathDelayResp identity_new (timestamp 0 0 0));
  new_msg (m <| logMeanMessageInterval := 0x7F |>
             <| control := LegacyMessageType_code MESSAGE_OTHER |>
             <| versionPTP := GPTP_VERSION |>
             <| flags := set_flag PTP_ASSIST_BYTE PTP_ASSIST_BIT (flags m) |>).

Definition PTPMessagePathDelayRespFollowUp_new : D ptr :=
  m ← PTPMessageCommon_init (PathDelayRespFollowUp (timestamp 0 0 0) identity_new);
  new_msg (m <| logMeanMessageInterval := 0x7F |>
             <| control := LegacyMessageType_code MESSAGE_OTHER |>
             <| versionPTP := GPTP_VERSION |>).

Definition PTPMessageSignalling_new (p : pid) : D ptr :=
  m ← PTPMessageCommon_init (Signalling (i8 0xff) SignallingTLV_new);
  seq ← getNextSignalSequenceId p;
  new_msg (m <| sequenceId := seq |> <| control := LegacyMessageType_code MESSAGE_OTHER |>
             <| logMeanMessageInterval := 0x7F |>).

(** ** The frame

    The array and the length that [sendPort] passes on; the message keeps
    what [sendPort] stored in it. *)
Definition build_frame (q : ptr) : D (list Z * Z) :=
  m ← get_msg q;
  mod_msg q prepare;;
  buf ← from_option OutOfBounds (build env_payload_offset m);
  mret (buf, messageLength (prepare m)).

(** ** Transmit timestamps

    [while( ts_good != GPTP_EC_SUCCESS && iter-- != 0 )]: [iter] more calls,
    the last of them flagged. *)
Fixpoint tx_retry (iter : nat) (p : pid) (id : PortIdentity) (mid : PTPMessageId)
    (r : Z * Timestamp) : D (Z * Timestamp) :=
  if r.1 =? GPTP_EC_SUCCESS then mret r else
  match iter with
  | O => mret r
  | S iter' => r ← eth_getTxTimestamp p id mid (iter' =? 0)%nat; tx_retry iter' p id mid r
  end.

(** [PTPMessageCommon::getTxTimestamp] *)
Definition getTxTimestamp (q : ptr) (p : pid) (speed : Z) : D bool :=
  m ← get_msg q;
  r ← eth_getTxTimestamp p (sourcePortIdentity m) (getMessageId m) false;
  r ← tx_retry TX_TIMEOUT_ITER p (sourcePortIdentity m) (getMessageId m) r;
  if r.1 =? GPTP_EC_SUCCESS then
    x ← get_port p;
    let phy_compensation := getTxPhyDelay x speed <| _version := _version r.2 |> in
    setTimestamp q (ts_plus r.2 phy_compensation);; mret true
  else
    setTimestamp q INVALID_TIMESTAMP;; mret false.

(** ** sendPort *)

Definition sync_sendPort (q : ptr) (p : pid) (dest : option PortIdentity) : D bool :=
  mod_msg q (fun m => m <| payload := Sync getSystemTime |>);;
  f ← build_frame q;
  speed ← sendEventPort p PTP_ETHERTYPE f.1 f.2 MCAST_OTHER dest;
  inc_TxSyncCount p;;
  getTxTimestamp q p speed.

(** [buildMessage] into the caller's array. *)
Definition followup_sendPort (q : ptr) (p : pid) (dest : option PortIdentity) : D bool :=
  f ← build_frame q;
  inc_TxFollowUpCount p;;
  eth_sendGeneralPort p PTP_ETHERTYPE f.1 f.2 MCAST_OTHER dest;;
  mret true.

Definition pdelay_req_sendPort (q : ptr) (p : pid) (dest : option PortIdentity) : D bool :=
  e ← get_ether p;
  if pdelay_halted e then mret false else
  f ← build_frame q;
  speed ← sendEventPort p PTP_ETHERTYPE f.1 f.2 MCAST_PDELAY dest;
  inc_TxPdelayRequest p;;
  getTxTimestamp q p speed.

Definition pdelay_resp_sendPort (q : ptr) (p : pid) (dest : option PortIdentity) : D bool :=
  f ← build_frame q;
  speed ← sendEventPort p PTP_ETHERTYPE f.1 f.2 MCAST_PDELAY dest;
  inc_TxPdelayResponse p;;
  getTxTimestamp q p speed.

Definition pdelay_resp_followup_sendPort (q : ptr) (p : pid) (dest : option PortIdentity) : D bool :=
  f ← build_frame q;
  eth_sendGeneralPort p PTP_ETHERTYPE f.1 f.2 MCAST_PDELAY dest;;
  inc_TxPdelayResponseFollowUp p;;
  mret true.

Definition signalling_sendPort (q : ptr) (p : pid) (dest : option PortIdentity) : D bool :=
  f ← build_frame q;
  eth_sendGeneralPort p PTP_ETHERTYPE f.1 f.2 MCAST_OTHER dest;;
  mret true.

(** An announcement goes out on any medium. *)
Definition announce_sendPort `{MediaOps} (q : ptr) (p : pid) (dest : option PortIdentity) : D bool :=
  f ← build_frame q;
  m_sendGeneralPort p PTP_ETHERTYPE f.1 f.2 MCAST_OTHER dest;;
  inc_TxAnnounce p;;
  mret true.

(** A signalling message with the given intervals, made, sent and deleted. *)
Definition send_signalling (p : pid) (ld ts an : Z) : D unit :=
  q ← PTPMessageSignalling_new p;
  mod_msg q (fun m => match payload m with
    | Signalling t s => m <| payload := Signalling t (setintervals ld ts an s) |>
    | _ => m end);;
  _ ← signalling_sendPort q p None;
  delete_msg q.
End Transmit.
