(* ===== verification/PDelay.v ===== *)
(** * The peer delay mechanism

    [processMessage] of the three peer delay messages (common/ptp_message.cpp)
    on an Ethernet port: the response to a request, the check for a
    misbehaving peer, and the computation of the link delay and of the
    neighbour rate ratio from the four timestamps. *)

From Stdlib Require Import ZArith Lia.
From Stdlib.Floats Require Import SpecFloat.
From stdpp Require Import base gmap list.
From S2P Require Import Prelude Timestamp CFloat Identity Message Wire World Clock Port Media Ether Transmit.

(** ** The arithmetic *)

(** The difference [b - a] of two timestamps as the handler computes it: on
    64 bits, field by field. *)
Definition ts_diff (a b : Timestamp) : Z :=
  let d := i64 (i64 (Z.shiftl (seconds_ms b - seconds_ms a) 32) * 1000000000) in
  let d := i64 (d + (seconds_ls b - seconds_ls a) * 1000000000) in
  i64 (d + (nanoseconds b - nanoseconds a)).

Definition ratio_between (lo hi r : spec_float) : bool := SFltb lo r && SFltb r hi.

Definition ratio_998 : spec_float := fl_cvt fmt_ldouble (fl_lit fmt_double 998 1000).
Definition ratio_1002 : spec_float := fl_cvt fmt_ldouble (fl_lit fmt_double 1002 1000).

(** [PPM_OFFSET_TO_RATIO] *)
Definition ppm_ratio (ppm : Z) : spec_float :=
  fl_add fmt_ldouble (fl_div fmt_ldouble (fl_of_Z fmt_ldouble ppm) (fl_of_Z fmt_ldouble 1000000))
    (fl_of_Z fmt_ldouble 1).
Definition UPPER_LIMIT_PPM : Z := 250.
Definition LOWER_LIMIT_PPM : Z := -250.

(** The turn-around time at the peer, scaled by the rate ratio when that is
    plausible; [None] where the cast to [int64_t] is undefined. *)
Definition scaled_turn_around (rate : spec_float) (turn_around : Z) : option Z :=
  if ratio_between ratio_998 ratio_1002 rate then
    t ← cast_s 64 (fl_mul fmt_ldouble (fl_of_Z fmt_ldouble turn_around) rate);
    Some (u64 t)
  else Some turn_around.

(** [link_delay]: half of the round trip less the turn-around; the subtraction
    is unsigned and its result signed. *)
Definition compute_link_delay (rate : spec_float) (req_tx resp_rx req_rx resp_tx : Timestamp)
    : option Z :=
  t ← scaled_turn_around rate (u64 (ts_diff req_rx resp_tx));
  Some (Z.quot (i64 (ts_diff req_tx resp_rx - t)) 2).

(** The new neighbour rate ratio, when there is a previous exchange and the
    measure is within the limits. *)
Definition compute_peer_rate (x : Port) (req_tx req_rx : Timestamp) (link_delay : Z)
    : option spec_float :=
  if _peer_offset_init x then
    let mine_elapsed := u64 (TIMESTAMP_TO_NS req_tx - TIMESTAMP_TO_NS (_peer_offset_ts_mine x)) in
    let theirs_elapsed := u64 (TIMESTAMP_TO_NS req_rx - TIMESTAMP_TO_NS (_peer_offset_ts_theirs x)) in
    let theirs_elapsed := u64 (theirs_elapsed - getLinkDelay_u x) in
    let theirs_elapsed := u64 (theirs_elapsed + if link_delay <? 0 then 0 else link_delay) in
    let rate_offset := fl_div fmt_ldouble (fl_of_Z fmt_ldouble mine_elapsed)
                                          (fl_of_Z fmt_ldouble theirs_elapsed) in
    if ratio_between (ppm_ratio LOWER_LIMIT_PPM) (ppm_ratio UPPER_LIMIT_PPM) rate_offset
    then Some rate_offset else None
  else None.

(** ** The pairing of a follow-up with the request and the response

    The clock identities that the code compares were copied from two default
    identities before these were set, so that comparison always succeeds. *)
Record Exchange := mkExchange {
  ex_req : Message;
  ex_resp : Message;
  ex_resp_requesting : PortIdentity;
  ex_resp_receipt : Timestamp;
}.

Definition follow_up_matches (ex : Exchange) (fup : Message) (fup_requesting : PortIdentity) : bool :=
  let req_clkId := ClockIdentity_zero in
  let resp_clkId := ClockIdentity_zero in
  (sequenceId (ex_req ex) =? sequenceId fup)
  && (sequenceId (ex_resp ex) =? sequenceId fup)
  && negb (cid_ne req_clkId resp_clkId)
  && (portNumber (ex_resp_requesting ex) =? portNumber fup_requesting)
  && negb (pid_ne (sourcePortIdentity fup) (sourcePortIdentity (ex_resp ex))).

Section PDelay.
Context `{Env}.

(** The members of a message of a known class. *)
Definition resp_fields (q : ptr) : D (PortIdentity * Timestamp) :=
  m ← get_msg q;
  match payload m with PathDelayResp id t => mret (id, t) | _ => fail DanglingPointer end.
Definition fup_fields (q : ptr) : D (Timestamp * PortIdentity) :=
  m ← get_msg q;
  match payload m with PathDelayRespFollowUp t id => mret (t, id) | _ => fail DanglingPointer end.

(** ** Pdelay_Req: answer with a response and its follow-up *)

Definition pdelay_req_respond (p : pid) (this : ptr) : D unit :=
  inc_RxPdelayRequest p;;
  resp ← PTPMessagePathDelayResp_new;
  x ← get_port p;
  setPortIdentity resp (port_identity x);;
  req ← get_msg this;
  setSequenceId resp (sequenceId req);;
  mod_msg resp (fun m => m <| payload := PathDelayResp (sourcePortIdentity req) (_timestamp req) |>);;
  _ ← eth_getTxLock p;
  _ ← pdelay_resp_sendPort resp p (Some (sourcePortIdentity req));
  _ ← eth_putTxLock p;
  resp_fwup ← PTPMessagePathDelayRespFollowUp_new;
  x ← get_port p;
  setPortIdentity resp_fwup (port_identity x);;
  setSequenceId resp_fwup (sequenceId req);;
  sent ← get_msg resp;
  mod_msg resp_fwup (fun m => m <| payload :=
    PathDelayRespFollowUp (_timestamp sent) (sourcePortIdentity req) |>
    <| correctionField := 0 |>);;
  _ ← pdelay_resp_followup_sendPort resp_fwup p (Some (sourcePortIdentity req));
  delete_msg resp;;
  delete_msg resp_fwup.

Definition pdelay_req_process (p : pid) (this : ptr) : D unit :=
  e ← as_ether p;
  x ← get_port p;
  match e with
  | None => mret tt
  | Some _ =>
      match port_state x with
      | PTP_DISABLED | PTP_FAULTY => mret tt
      | _ => pdelay_req_respond p this
      end
  end;;
  set_gc this true.

(** ** Pdelay_Resp: store it; three responses in a row from different ports
    to one request halt the requests for five minutes *)

Definition check_duplicate_response (p : pid) (this old : Message) : D unit :=
  if sequenceId this =? sequenceId old then
    e ← get_ether p;
    (if negb (portNumber (sourcePortIdentity this) =? portNumber (sourcePortIdentity old))
        && ((last_invalid_seqid e + 1 =? sequenceId this) || (duplicate_resp_counter e =? 0)) then
       limit ← incrementDuplicateRespCounter p;
       when limit (
         stopPDelay p;;
         addEventTimerLocked p PDELAY_RESP_PEER_MISBEHAVING_TIMEOUT_EXPIRES 300000000000)
     else setDuplicateRespCounter p 0);;
    setLastInvalidSeqID p (sequenceId this)
  else setDuplicateRespCounter p 0.

Definition pdelay_resp_store (p : pid) (this : ptr) : D unit :=
  e ← get_ether p;
  (match last_pdelay_resp e with
   | None => mret tt
   | Some old => om ← get_msg old; m ← get_msg this; check_duplicate_response p m om
   end);;
  setLastPDelayResp p (Some this);;
  delete_opt (last_pdelay_resp e);;
  _ ← putPDelayRxLock p;
  set_gc this false.

Definition pdelay_resp_process (p : pid) (this : ptr) : D unit :=
  e ← as_ether p;
  match e with
  | None => set_gc this true
  | Some _ =>
      x ← get_port p;
      match port_state x with
      | PTP_DISABLED | PTP_FAULTY => mret tt
      | _ =>
          inc_RxPdelayResponse p;;
          ok ← tryPDelayRxLock p;
          if (ok : bool) then pdelay_resp_store p this else mret tt
      end
  end.

(** ** Pdelay_Resp_Follow_Up *)

(** The state after a measured exchange. *)
Definition update_link (p : pid) (link_delay : Z) (req_tx req_rx : Timestamp) : D unit :=
  x ← get_port p;
  (match compute_peer_rate x req_tx req_rx link_delay with
   | Some r => mod_port p (fun x => x <| _peer_rate_offset := r |>)
   | None => mret tt
   end);;
  ok ← setLinkDelay p link_delay;
  x ← get_port p;
  when (negb (automotive_profile x)) (setAsCapable p ok);;
  setPeerOffset p req_tx req_rx.

(** The [defer] label is reached with [true], [abort] with [false]. *)
Definition followup_measure (p : pid) (this : ptr) (ex : Exchange) : D bool :=
  deleteEventTimerLocked p PDELAY_RESP_RECEIPT_TIMEOUT_EXPIRES;;
  let request_tx := _timestamp (ex_req ex) in
  if nanoseconds request_tx =? nanoseconds INVALID_TIMESTAMP then mret false
  else if nanoseconds request_tx =? nanoseconds PDELAY_PENDING_TIMESTAMP then
    e ← get_ether p;
    (match last_pdelay_resp_fwup e with
     | Some old => if (old =? this)%nat then mret tt else delete_msg old
     | None => mret tt
     end);;
    setLastPDelayRespFollowUp p (Some this);;
    addEventTimerLocked p PDELAY_DEFERRED_PROCESSING 1000000;;
    mret true
  else
    f ← fup_fields this;
    let response_rx := _timestamp (ex_resp ex) in
    if negb (_version request_tx =? _version response_rx) then mret false
    else
      incPdelayCount p;;
      x ← get_port p;
      link_delay ← from_option CastOverflow
        (compute_link_delay (_peer_rate_offset x) request_tx response_rx (ex_resp_receipt ex) f.1);
      update_link p link_delay request_tx (ex_resp_receipt ex);;
      mret false.

Definition followup_pair (p : pid) (this : ptr) : D bool :=
  e ← get_ether p;
  match last_pdelay_req e, last_pdelay_resp e with
  | Some req, Some resp =>
      mreq ← get_msg req;
      m ← get_msg this;
      if negb (sequenceId mreq =? sequenceId m) then mret false else
      mresp ← get_msg resp;
      rf ← resp_fields resp;
      f ← fup_fields this;
      let ex := mkExchange mreq mresp rf.1 rf.2 in
      if follow_up_matches ex m f.2 then followup_measure p this ex else mret false
  | _, _ => mret false
  end.

Definition followup_locked (p : pid) (this : ptr) : D unit :=
  e ← get_ether p;
  deferred ← followup_pair p this;
  (if (deferred : bool) then mret tt
   else
     delete_opt (last_pdelay_resp e);;
     setLastPDelayResp p None;;
     set_gc this true);;
  _ ← putPDelayRxLock p; mret tt.

Definition pdelay_resp_followup_process (p : pid) (this : ptr) : D unit :=
  e ← as_ether p;
  match e with
  | None => set_gc this true
  | Some _ =>
      x ← get_port p;
      match port_state x with
      | PTP_DISABLED | PTP_FAULTY => mret tt
      | _ =>
          inc_RxPdelayResponseFollowUp p;;
          ok ← tryPDelayRxLock p;
          if (ok : bool) then followup_locked p this else mret tt
      end
  end.
End PDelay.
