(* ===== verification/Sync.v ===== *)
(** * Announce, Sync, Follow_Up and Signalling

    [processMessage] of the four messages (common/ptp_message.cpp): the
    qualification of an announcement, the pairing of a Follow_Up with its Sync
    and the offset and rates computed from the pair, and the interval requests
    of a signalling message. *)

From Stdlib Require Import ZArith Lia.
From Stdlib.Floats Require Import SpecFloat.
From stdpp Require Import base gmap list.
From S2P Require Import Prelude Timestamp CFloat Identity Message Wire World Clock Port Media Ether Servo Transmit.

(** ** The arithmetic of a Follow_Up *)

(** [tlv.getRateOffset() / 2^41 + 1, / peer rate]; the rate offset is the raw
    member of the TLV. *)
Definition master_local_ratio (rate_offset : Z) (peer_rate : spec_float) : spec_float :=
  fl_div fmt_ldouble
    (fl_add fmt_ldouble
       (fl_div fmt_ldouble (fl_of_Z fmt_ldouble rate_offset) (fl_of_Z fmt_ldouble (2 ^ 41)))
       (fl_of_Z fmt_ldouble 1))
    peer_rate.

(** [(int64_t)(delay * ratio + correctionField)] *)
Definition followup_correction (delay : Z) (ratio : spec_float) (correction_field : Z) : option Z :=
  cast_s 64 (fl_add fmt_ldouble (fl_mul fmt_ldouble (fl_of_Z fmt_ldouble delay) ratio)
               (fl_of_Z fmt_ldouble correction_field)).

(** The origin time moved by a signed correction. *)
Definition corrected_origin (t : Timestamp) (correction : Z) : Timestamp :=
  if 0 <? correction then TIMESTAMP_ADD_NS t correction else TIMESTAMP_SUB_NS t (u64 (- correction)).

(** [(int32_t)((1.0 / ratio - 1.0) * 2^41)] *)
Definition freq_change (ratio : spec_float) : option Z :=
  cast_s 32 (fl_mul fmt_ldouble
    (fl_sub fmt_ldouble (fl_div fmt_ldouble (fl_of_Z fmt_ldouble 1) ratio) (fl_of_Z fmt_ldouble 1))
    (fl_of_Z fmt_ldouble (2 ^ 41))).

(** [(uint64_t)(((FrequencyRatio)device_sync_time_offset) / local_system_freq_offset)] *)
Definition system_correction (device_sync_time_offset : Z) (ratio : spec_float) : option Z :=
  cast_u 64 (fl_div fmt_ldouble (fl_of_Z fmt_ldouble device_sync_time_offset) ratio).

(** The reasons to drop an announcement: too many steps, one's own, or one's
    own identity on its path. *)
Definition announce_dropped (c : Clock) (m : Message) (a : AnnounceFields) : bool :=
  (255 <=? stepsRemoved a)
  || cid_eq (clock_id (sourcePortIdentity m)) (clock_identity c)
  || tlv_has (clock_identity c) (tlv a).

(** What a port in the slave state does with a request of a signalling message
    for one of the intervals. *)
Inductive IntervalRequest := Initial | NoChange | Other (log : Z).
Definition interval_request (log : Z) : IntervalRequest :=
  if log =? sigMsgInterval_Initial then Initial
  else if log =? sigMsgInterval_NoSend then NoChange
  else if log =? sigMsgInterval_NoChange then NoChange
  else Other log.

Section Sync.
Context `{Env} `{MediaOps}.

Definition announce_fields (q : ptr) : D AnnounceFields :=
  m ← get_msg q; match payload m with Announce a => mret a | _ => fail DanglingPointer end.

(** ** Announce *)

Definition announce_process (p : pid) (this : ptr) : D unit :=
  inc_RxAnnounce p;;
  deleteEventTimerLocked p ANNOUNCE_RECEIPT_TIMEOUT_EXPIRES;;
  m ← get_msg this;
  a ← announce_fields this;
  c ← get_clock;
  (if announce_dropped c m a then mret tt
   else
     setQualifiedAnnounce p (Some this);;
     addEventTimerLocked p STATE_CHANGE_EVENT 16000000);;
  x ← get_port p;
  t ← interval3 (log_mean_announce_interval x);
  addEventTimerLocked p ANNOUNCE_RECEIPT_TIMEOUT_EXPIRES t.

(** ** Sync: kept until its Follow_Up *)

Definition sync_process (p : pid) (this : ptr) : D unit :=
  e ← as_ether p;
  x ← get_port p;
  match e with
  | None => set_gc this true
  | Some _ =>
      match port_state x with
      | PTP_DISABLED | PTP_FAULTY => mret tt
      | _ =>
          inc_RxSyncCount p;;
          e ← get_ether p;
          delete_opt (last_sync e);;
          setLastSync p (Some this);;
          set_gc this false
      end
  end.

(** ** Follow_Up *)

(** The part that only a slave runs: the servo. *)
Definition followup_slave (p : pid) (sync_arrival device_time system_time : Timestamp)
    (device_sync_time_offset scalar_offset : Z) (local_clock_adjustment : spec_float) : D unit :=
  incSyncCount p;;
  ratio ← calcLocalSystemClockRateDifference device_time system_time;
  back ← from_option CastOverflow (system_correction device_sync_time_offset ratio);
  let system_time := TIMESTAMP_SUB_NS system_time back in
  let local_system_offset := i64 (TIMESTAMP_TO_NS system_time - TIMESTAMP_TO_NS sync_arrival) in
  setMasterOffset p (mkMeasure scalar_offset sync_arrival local_clock_adjustment
                       local_system_offset ratio);;
  m_syncDone p;;
  x ← get_port p;
  t ← interval3 (log_mean_sync_interval x);
  startSyncReceiptTimer p t.

(** From the corrected origin time on. *)
Definition followup_apply (p : pid) (ftlv : FollowUpTLV) (origin sync_arrival : Timestamp) : D unit :=
  local_clock_adjustment ← calcMasterLocalClockRateDifference origin sync_arrival;
  if SFeqb local_clock_adjustment NEGATIVE_TIME_JUMP then mret tt
  else
    let scalar_offset := i64 (TIMESTAMP_TO_NS sync_arrival - TIMESTAMP_TO_NS origin) in
    times ← getDeviceTime p;
    let device_sync_time_offset := u32 (TIMESTAMP_TO_NS times.2 - TIMESTAMP_TO_NS sync_arrival) in
    change ← from_option CastOverflow (freq_change local_clock_adjustment);
    mod_clock (fun c => c <| fup_status :=
      fu_setScaledLastGmPhaseChange (mkScaledNs 0 (u64 (cumulativeScaledRateOffset ftlv)))
        (fu_setScaledLastGmFreqChange change (fup_status c)) |>);;
    x ← get_port p;
    when (bool_decide (port_state x = PTP_SLAVE))
      (followup_slave p sync_arrival times.2 times.1 device_sync_time_offset scalar_offset
         local_clock_adjustment);;
    mod_port p (fun x => x <| lastGmTimeBaseIndicator := gmTimeBaseIndicator ftlv |>).

(** [PTPMessageFollowUp::processMessage( port, sync_arrival )], with the
    message at [this]. *)
Definition followup_process_at (p : pid) (this : ptr) (sync_arrival : Timestamp) : D unit :=
  inc_RxFollowUpCount p;;
  x ← get_port p;
  m ← get_msg this;
  (match payload m with
   | FollowUp origin ftlv =>
       if negb (getLinkDelay_ok x) then mret tt
       else
         let ratio := master_local_ratio (cumulativeScaledRateOffset ftlv) (_peer_rate_offset x) in
         let corr := Z.quot (correctionField m) (2 ^ 16) in
         mod_msg this (fun m => m <| correctionField := corr |>);;
         if (corr <? 0) && negb (allow_negative_correction_field x) then mret tt
         else
           correction ← from_option CastOverflow (followup_correction (getLinkDelay_u x) ratio corr);
           let origin := corrected_origin origin correction in
           mod_msg this (fun m => m <| payload := FollowUp origin ftlv |>);;
           followup_apply p ftlv origin sync_arrival
   | _ => fail DanglingPointer
   end);;
  set_gc this true.

(** The Sync of the Follow_Up; a mismatch counts towards becoming master. *)
Definition followup_pair_sync (p : pid) (this sync : ptr) : D unit :=
  s ← get_msg sync;
  m ← get_msg this;
  if negb (sequenceId s =? sequenceId m) || pid_ne (sourcePortIdentity s) (sourcePortIdentity m) then
    ok ← incWrongSeqIDCounter p;
    if (ok : bool) then mret tt
    else m_becomeMaster p true;; setWrongSeqIDCounter p 0
  else
    v ← getTimestampVersion p;
    if _version (_timestamp s) =? v then followup_process_at p this (_timestamp s) else mret tt.

Definition followup_process (p : pid) (this : ptr) : D unit :=
  e ← as_ether p;
  match e with
  | None => mret tt
  | Some _ =>
      stopSyncReceiptTimer p;;
      x ← get_port p;
      match port_state x with
      | PTP_DISABLED | PTP_FAULTY => mret tt
      | _ =>
          e ← get_ether p;
          match last_sync e with
          | None => mret tt
          | Some sync =>
              followup_pair_sync p this sync;;
              setLastSync p None;;
              delete_msg sync
          end
      end
  end.

(** ** Signalling *)

(** [waitTime] of an interval, at least the timer granularity. *)
Definition wait_time (log : Z) : D Z :=
  t ← interval_s log; mret (at_least_granularity t).

Definition signalling_pdelay (p : pid) (log : Z) : D unit :=
  let restart :=
    x ← get_port p;
    t ← wait_time (log_min_mean_pdelay_req_interval x);
    m_startPDelayIntervalTimer p t in
  match interval_request log with
  | Initial =>
      mod_port p (fun x => x <| log_min_mean_pdelay_req_interval := initialLogPdelayReqInterval x |>);;
      restart
  | NoChange => mret tt
  | Other l => mod_port p (fun x => x <| log_min_mean_pdelay_req_interval := l |>);; restart
  end.

Definition signalling_sync (p : pid) (log : Z) : D unit :=
  let restart :=
    x ← get_port p;
    t ← wait_time (log_mean_sync_interval x);
    startSyncIntervalTimer p t in
  match interval_request log with
  | Initial =>
      mod_port p (fun x => x <| log_mean_sync_interval := initialLogSyncInterval x |>);; restart
  | NoChange => mret tt
  | Other l => mod_port p (fun x => x <| log_mean_sync_interval := l |>);; restart
  end.

(** The initial interval is not implemented for announcements. *)
Definition signalling_announce (p : pid) (log : Z) : D unit :=
  match interval_request log with
  | Initial | NoChange => mret tt
  | Other l =>
      mod_port p (fun x => x <| log_mean_announce_interval := l |>);;
      x ← get_port p;
      t ← wait_time (log_mean_announce_interval x);
      startAnnounceIntervalTimer p t
  end.

Definition signalling_process (p : pid) (this : ptr) : D unit :=
  m ← get_msg this;
  match payload m with
  | Signalling _ s =>
      signalling_pdelay p (linkDelayInterval s);;
      signalling_sync p (timeSyncInterval s);;
      x ← get_port p;
      when (negb (automotive_profile x)) (signalling_announce p (announceInterval s))
  | _ => fail DanglingPointer
  end.
End Sync.
