(* ===== verification/CommonPort.v ===== *)
(** * The port state machine

    The best-master decision and the event handler of [CommonPort]
    (common/common_port.cpp), against the media interface. *)

From Stdlib Require Import ZArith Lia.
From Stdlib.Floats Require Import SpecFloat.
From stdpp Require Import base gmap list.
From S2P Require Import Prelude Timestamp CFloat Identity Message Wire World Clock Port Media Ether Servo Transmit Sync.

(** A port that takes part in the decision. *)
Definition participates (x : Port) : bool :=
  match port_state x with PTP_DISABLED | PTP_FAULTY => false | _ => true end.

Section CommonPort.
Context `{Env} `{MediaOps}.

(** ** recommendState *)

Definition recommendState (p : pid) (state : PortState) (changed_external_master : bool) : D unit :=
  x ← get_port p;
  reset_sync ← match state with
    | PTP_MASTER =>
        if decide (port_state x = PTP_MASTER) then mret false
        else setPortState p PTP_MASTER;; m_becomeMaster p true;; mret true
    | PTP_SLAVE =>
        if decide (port_state x = PTP_SLAVE) then
          (if changed_external_master then
             newSyntonizationSetPoint;; updateFUPInfo;; mret true
           else mret false)
        else m_becomeSlave p true;; mret true
    | _ => mret false
    end;
  when reset_sync (setSyncCount p 0).

(** ** processStateChange *)

(** The better of the best announcement so far and a port's. *)
Definition better_announce (best cand : option ptr) : D (option ptr) :=
  match best, cand with
  | None, c => mret c
  | Some b, None => mret (Some b)
  | Some b, Some c =>
      ab ← announce_fields b; ac ← announce_fields c;
      mret (Some (if annc_isBetterThan ac ab then c else b))
  end.

Definition ebest_step (p : pid) (best : option ptr) : D (option ptr) :=
  x ← get_port p;
  if participates x then cand ← calculateERBest p; better_announce best cand else mret best.

(** The first loop: the best announcement over the ports. *)
Definition find_ebest : D (option ptr) :=
  c ← get_clock;
  r ← for_ports (B := Empty_set) (Z.to_nat (number_ports c)) 0
        (fun p best => best ← ebest_step p best; mret (inl best)) None;
  mret (match r with inl b => b | inr b => Empty_set_rect (fun _ => option ptr) b end).

Definition fields_of (best : option ptr) : D (option AnnounceFields) :=
  match best with None => mret None | Some q => a ← announce_fields q; mret (Some a) end.

(** The body of the second loop.  The best announcement becomes null once
    the clock has been found better. *)
Definition decide_port (changed : bool) (p : pid) (best : option ptr) : D (option ptr) :=
  x ← get_port p;
  if participates x then
    c ← get_clock;
    a ← fields_of best;
    if clock_isBetterThan c a then
      recommendState p PTP_MASTER changed;; mret None
    else
      mine ← calculateERBest p;
      (if decide (best = mine) then
         recommendState p PTP_SLAVE changed;;
         q ← from_option NullPointer best;
         a ← announce_fields q;
         set_grandmaster (grandmasterIdentity a) (grandmasterPriority1 a)
           (grandmasterPriority2 a) (grandmasterClockQuality a)
       else recommendState p PTP_MASTER changed);;
      mret best
  else mret best.

Definition decide_ports (changed : bool) (best : option ptr) : D unit :=
  c ← get_clock;
  _ ← for_ports (B := Empty_set) (Z.to_nat (number_ports c)) 0
        (fun p best => best ← decide_port changed p best; mret (inl best)) best;
  mret tt.

(** The clock is its own grandmaster. *)
Definition become_grandmaster : D unit :=
  c ← get_clock;
  set_grandmaster (clock_identity c) (priority1 c) (priority2 c) (clock_quality c).

Definition processStateChange (p : pid) : D bool :=
  c ← get_clock;
  if priority1 c =? 255 then mret true else
  best ← find_ebest;
  match best with
  | None => mret true
  | Some q =>
      a ← announce_fields q;
      c ← get_clock;
      let changed := negb (mem_eq (grandmasterIdentity a) (LastEBestIdentity c)) in
      when changed (mod_clock (fun c => c <| LastEBestIdentity := grandmasterIdentity a |>));;
      c ← get_clock;
      when (clock_isBetterThan c (Some a)) become_grandmaster;;
      decide_ports changed (Some q);;
      mret true
  end.

(** ** processSyncAnnounceTimeout *)

Definition processSyncAnnounceTimeout (p : pid) (e : Event) : D bool :=
  c ← get_clock;
  if priority1 c =? 255 then mret true else
  x ← get_port p;
  (if decide (e = ANNOUNCE_RECEIPT_TIMEOUT_EXPIRES) then
     t ← interval (log_mean_announce_interval x);
     addEventTimerLocked p ANNOUNCE_RECEIPT_TIMEOUT_EXPIRES
       (u64 (ANNOUNCE_RECEIPT_TIMEOUT_MULTIPLIER * t))
   else
     t ← interval3 (log_mean_sync_interval x);
     startSyncReceiptTimer p t);;
  if decide (port_state x = PTP_MASTER) then mret true else
  become_grandmaster;;
  setPortState p PTP_MASTER;;
  times ← getDeviceTime p;
  _ ← calcLocalSystemClockRateDifference times.2 times.1;
  setQualifiedAnnounce p None;;
  addEventTimerLocked p SYNC_INTERVAL_TIMEOUT_EXPIRES 16000000;;
  startAnnounce p;;
  mret true.

(** ** processEvent *)

Context `{MediaEvents}.

Definition on_initialize (p : pid) (e : Event) : D bool :=
  c ← get_clock;
  x ← get_port p;
  (if (priority1 c =? 255) || bool_decide (port_state x = PTP_SLAVE) then m_becomeSlave p true
   else if bool_decide (port_state x = PTP_MASTER) then m_becomeMaster p true
   else
     t ← interval3l (log_mean_announce_interval x);
     addEventTimerLocked p ANNOUNCE_RECEIPT_TIMEOUT_EXPIRES t);;
  m_processEvent p e.

Definition on_announce_interval (p : pid) : D bool :=
  x ← get_port p;
  when (asCapable x) (
    annc ← PTPMessageAnnounce_new p;
    x ← get_port p;
    setPortIdentity annc (port_identity x);;
    _ ← announce_sendPort annc p None;
    delete_msg annc);;
  x ← get_port p;
  t ← interval (log_mean_announce_interval x);
  startAnnounceIntervalTimer p t;;
  mret true.

Definition on_sync_interval (p : pid) (e : Event) : D bool :=
  x ← get_port p;
  ret ← (if asCapable x then m_processEvent p e else mret true);
  times ← getDeviceTime p;
  let local_system_offset := i64 (TIMESTAMP_TO_NS times.1 - TIMESTAMP_TO_NS times.2) in
  ratio ← calcLocalSystemClockRateDifference times.2 times.1;
  setMasterOffset p (mkMeasure 0 times.2 ratio_one local_system_offset ratio);;
  m_syncDone p;;
  x ← get_port p;
  t ← interval (log_mean_sync_interval x);
  startSyncIntervalTimer p t;;
  mret ret.

Definition processEvent (p : pid) (e : Event) : D bool :=
  match e with
  | POWERUP | INITIALIZE => on_initialize p e
  | STATE_CHANGE_EVENT =>
      ret ← m_processEvent p e;
      if (ret : bool) then mret true else processStateChange p
  | ANNOUNCE_RECEIPT_TIMEOUT_EXPIRES =>
      inc_AnnounceReceiptTimeouts p;;
      ret ← m_processEvent p e;
      if (ret : bool) then mret true else processSyncAnnounceTimeout p e
  | SYNC_RECEIPT_TIMEOUT_EXPIRES =>
      inc_RxSyncReceiptTimeouts p;;
      ret ← m_processEvent p e;
      if (ret : bool) then mret true else processSyncAnnounceTimeout p e
  | ANNOUNCE_INTERVAL_TIMEOUT_EXPIRES => on_announce_interval p
  | SYNC_INTERVAL_TIMEOUT_EXPIRES => on_sync_interval p e
  | _ => m_processEvent p e
  end.
End CommonPort.
