(* ===== verification/Receive.v ===== *)
(** * Receiving

    [buildPTPMessage] (common/ptp_message.cpp): the receive timestamp, with
    retries, the checks, the decoding of Wire.v, and the registration of the
    sender's address. *)

From Stdlib Require Import ZArith Lia.
From stdpp Require Import base gmap list.
From S2P Require Import Prelude Timestamp Identity Message Wire World Clock Port Media Ether Transmit.

Section Receive.
Context `{Env}.

(** [while( ts_good != GPTP_EC_SUCCESS && iter-- != 0 )] *)
Fixpoint rx_retry (iter : nat) (p : pid) (id : PortIdentity) (mid : PTPMessageId)
    (r : Z * Timestamp * Z) : D (Z * Timestamp * Z) :=
  if r.1.1 =? GPTP_EC_SUCCESS then mret r else
  match iter with
  | O => mret r
  | S iter' => r ← eth_getRxTimestamp p id mid r.2 (iter' =? 0)%nat; rx_retry iter' p id mid r
  end.
Definition RX_ITER : nat := 5.

(** The timestamp and counter value of an event message; none when the
    message is to be discarded. *)
Definition rx_timestamp (p : pid) (id : PortIdentity) (mid : PTPMessageId)
    : D (option (Timestamp * Z)) :=
  e ← as_ether p;
  match e with
  | None => mret None
  | Some _ =>
      r ← eth_getRxTimestamp p id mid 0 false;
      r ← rx_retry RX_ITER p id mid r;
      mret (if r.1.1 =? GPTP_EC_SUCCESS then Some (r.1.2, r.2) else None)
  end.

(** [size] octets were received in the array [buf]; null when the message is
    not accepted. *)
Definition buildPTPMessage (p : pid) (buf : list Z) (size : Z) (remote : LinkLayerAddress)
    : D (option ptr) :=
  pre ← from_option OutOfBounds (parse_prefix buf);
  let '(ty, transportSpecific, id, seq) := pre in
  let is_event := Z.shiftr ty 3 =? 0 in
  ts ← (if is_event then rx_timestamp p id (mkPTPMessageId ty seq)
        else mret (Some (timestamp 0 0 0, 0)));
  match ts with
  | None => mret None
  | Some (timestamp, counter_value) =>
      if negb (transportSpecific =? 1) then mret None else
      match parse_body ty buf size with
      | None => inc_RxPTPPacketDiscard p;; mret None
      | Some r =>
          body ← from_option OutOfBounds r;
          match body with
          | None => mret None
          | Some (pl, base) =>
              m ← from_option OutOfBounds
                    (parse_header base buf id seq timestamp counter_value pl);
              when is_event (addSockAddrMap p id remote);;
              q ← new_msg m; mret (Some q)
          end
      end
  end.
End Receive.
