(* ===== verification/Wireless.v ===== *)
(** * Wireless ports

    [WirelessPort] (common/wireless_port.hpp, common/wireless_port.cpp) and the
    part of its timestamper that is protocol code
    (common/wireless_tstamper.cpp): timing measurement dialogs take the place
    of Sync and of the peer delay mechanism. *)

From Stdlib Require Import ZArith Lia.
From Stdlib.Floats Require Import SpecFloat.
From stdpp Require Import base gmap list.
From S2P Require Import Prelude Timestamp CFloat Identity Message Wire World Clock Port Media Ether Servo Transmit Sync Receive.

Definition MAX_DIALOG_TOKEN : Z := 255.

(** [offsetof( TIMINGMSMT_REQUEST, PtpSpec.fwup_data )] *)
Definition FwUpOffset : nat := 28.
Definition FwUpLabel : list Z := [0x00; 0x80; 0xC2; 0].
Definition FWUP_VDEF_TAG : Z := 0xDD.

(** The default constructor leaves the clock values as they are. *)
Definition WirelessDialog_new (garbage : Z) : WirelessDialog :=
  mkDialog (timestamp 0 0 0) (u64 garbage) (timestamp 0 0 0) (u64 garbage) 0 (u16 garbage).

Definition WirelessPort_new (mem : Port) (garbage : Z) (i : PortInit) (peer : LinkLayerAddress) : Port :=
  let x := set_asCapable true (CommonPort_new mem i) in
  x <| initialLogSyncInterval := or_default (initialLogSyncInterval x) (-3) |>
    <| initialLogPdelayReqInterval := or_default (initialLogPdelayReqInterval x) 127 |>
    <| media := Wireless (mkWireless peer (WirelessDialog_new garbage)) |>.

Definition get_wireless (p : pid) : D WirelessPart :=
  x ← get_port p;
  match media x with Wireless w => mret w | Ether _ => fail NullPointer end.
Definition setPrevDialog (p : pid) (d : WirelessDialog) : D unit :=
  mod_port p (fun x => match media x with
    | Wireless w => x <| media := Wireless (w <| prev_dialog := d |>) |>
    | Ether _ => x end).

(** The members of the request that [requestTimingMeasurement] fills in. *)
Definition timing_request (dest : LinkLayerAddress) (token : Z) (prev : WirelessDialog)
    (followup_length : Z) : copies :=
  [ (8, [token]); (9, [dialog_token prev]); (6, [0%Z]); (7, [0%Z]);
    (22, [FWUP_VDEF_TAG]); (23, [0%Z]) ]%nat
  ++ (if negb (dialog_token prev =? 0) && negb (action_devclk prev =? 0)
      then [ (12, le_encode 4 (action_devclk prev)); (16, le_encode 4 (ack_devclk prev));
             (23, [u8 (followup_length + 4)]); (24, FwUpLabel) ]%nat
      else [])
  ++ [ (0%nat, dest) ].

(** The token of a sequence number. *)
Definition next_token (seq : Z) : Z := u8 (seq mod MAX_DIALOG_TOKEN + 1).

Section Wireless.
Context `{Env}.

Definition wl_sendGeneralPort (p : pid) (etherType : Z) (buf : list Z) (len : Z)
    (mcast : MulticastType) (dest : option PortIdentity) : D unit :=
  w ← get_wireless p;
  _ ← send p (peer_addr w) etherType buf len false; mret tt.

Definition wl_becomeSlave (p : pid) (restart_syntonization : bool) : D unit :=
  deleteEventTimerLocked p ANNOUNCE_INTERVAL_TIMEOUT_EXPIRES;;
  deleteEventTimerLocked p SYNC_INTERVAL_TIMEOUT_EXPIRES;;
  setPortState p PTP_SLAVE;;
  when restart_syntonization newSyntonizationSetPoint;;
  updateFUPInfo.

Definition wl_becomeMaster (p : pid) (annc : bool) : D unit :=
  setPortState p PTP_MASTER;;
  deleteEventTimerLocked p ANNOUNCE_RECEIPT_TIMEOUT_EXPIRES;;
  stopSyncReceiptTimer p;;
  when annc (startAnnounce p);;
  startSyncIntervalTimer p 16000000;;
  updateFUPInfo.

(** ** Timing measurement *)

Definition requestTimingMeasurement (p : pid) (dest : LinkLayerAddress) (seq : Z)
    (prev : WirelessDialog) (follow_up : list Z) (followup_length : Z) : D bool :=
  let next := WirelessDialog_new env_garbage
    <| dialog_token := next_token seq |> <| fwup_seq := seq |> <| action_devclk := 0 |> in
  req ← from_option OutOfBounds
          (puts 0 (timing_request dest (next_token seq) prev followup_length) follow_up);
  emit (ETimingMeasurement p dest seq prev req);;
  r ← ask env_timing_measurement;
  setPrevDialog p next;;
  mret r.

(** The follow-up of the previous dialog, in the request's array. *)
Definition dialog_followup (p : pid) (prev : WirelessDialog) (buffer : list Z) : D (list Z * Z) :=
  q ← PTPMessageFollowUp_new p;
  x ← get_port p;
  setPortIdentity q (port_identity x);;
  setSequenceId q (fwup_seq prev);;
  mod_msg q (fun m => match payload m with
    | FollowUp _ f => m <| payload := FollowUp (wd_action prev) f |> | _ => m end);;
  m ← get_msg q;
  buf ← from_option OutOfBounds (build_into buffer FwUpOffset m);
  inc_TxFollowUpCount p;;
  delete_msg q;;
  mret (buf, 34 + 10 + 32).

Definition wl_on_sync_interval (p : pid) : D bool :=
  x ← get_port p;
  w ← get_wireless p;
  let prev := prev_dialog w in
  let buffer := repeat 0 128 in
  f ← (if dialog_token prev =? 0 then mret (buffer, i32 env_garbage)
       else match _hw_timestamper x with
            | WirelessTs => dialog_followup p prev buffer
            | _ => fail NullPointer end);
  seq ← getNextSyncSequenceId p;
  match _hw_timestamper x with
  | WirelessTs => _ ← requestTimingMeasurement p (peer_addr w) seq prev f.1 f.2; mret true
  | _ => fail NullPointer
  end.

Definition wl_processEvent (p : pid) (e : Event) : D bool :=
  match e with
  | POWERUP | INITIALIZE =>
      ok ← ask env_thread_start;
      emit (EStartListeningThread p);; mret ok
  | SYNC_INTERVAL_TIMEOUT_EXPIRES => wl_on_sync_interval p
  | _ => mret false
  end.

(** The hardware confirms a dialog of ours. *)
Definition timingMeasurementConfirmCB (p : pid) (dialog : WirelessDialog) : D unit :=
  w ← get_wireless p;
  let prev := prev_dialog w in
  let dialog := dialog <| wd_action := set64 (wd_action dialog) (u64 (action_devclk dialog * 10)) |> in
  when (dialog_token dialog =? dialog_token prev)
    (setPrevDialog p (dialog <| fwup_seq := fwup_seq prev |>)).

(** The link delay of a dialog, on 32 bits. *)
Definition dialog_link_delay (previous prev_local : WirelessDialog) : Z :=
  let round_trip := u32 (ack_devclk previous - action_devclk previous) in
  let turn_around := u32 (ack_devclk prev_local - action_devclk prev_local) in
  u32 (round_trip - turn_around) / 2.

Context `{MediaOps}.

(** The peer's dialog, with the follow-up of the one before it. *)
Definition timeMeasurementIndicationCB (p : pid) (addr : LinkLayerAddress)
    (current previous : WirelessDialog) (buf : list Z) (buflen : Z) : D unit :=
  msg ← buildPTPMessage p buf buflen addr;
  let current := current <| action_devclk := u64 (action_devclk current * 10) |>
                         <| ack_devclk := u64 (ack_devclk current * 10) |> in
  let current := current <| wd_action := set64 (wd_action current) (action_devclk current) |> in
  w ← get_wireless p;
  let prev_local := prev_dialog w in
  (match msg with
   | Some q =>
       m ← get_msg q;
       if bool_decide (messageType m = FOLLOWUP_MESSAGE)
          && (dialog_token previous =? dialog_token prev_local)
          && negb (action_devclk previous =? 0) then
         let previous := previous <| action_devclk := u64 (action_devclk previous * 10) |>
                                  <| ack_devclk := u64 (ack_devclk previous * 10) |> in
         _ ← setLinkDelay p (dialog_link_delay previous prev_local);
         followup_process_at p q (wd_action prev_local)
       else mret tt
   | None => mret tt
   end);;
  setPrevDialog p current.
End Wireless.
