(* ===== verification/Dispatch.v ===== *)
(** * The daemon

    The instances of the media interface, the event handler and the receive
    path of Ethernet and wireless ports (common/ether_port.cpp,
    common/wireless_port.cpp), and the daemon's steps: a timer fires, a frame
    or a link event arrives. *)

From Stdlib Require Import ZArith Lia.
From Stdlib.Floats Require Import SpecFloat.
From stdpp Require Import base gmap list.
From S2P Require Import Prelude Timestamp CFloat Identity Message Wire World Clock Port Media Ether Servo Transmit PDelay Sync CommonPort Receive Wireless.

Section Virtual.
Context `{Env}.

(** The method of the port's class. *)
Definition by_media {A} (p : pid) (eth wl : D A) : D A :=
  x ← get_port p;
  match media x with Ether _ => eth | Wireless _ => wl end.

(** [CommonPort]'s own [getTxLock] returns true, its [putTxLock] false. *)
#[export] Instance media_dispatch : MediaOps := {|
  m_becomeMaster p annc := by_media p (eth_becomeMaster p annc) (wl_becomeMaster p annc);
  m_becomeSlave p restart := by_media p (eth_becomeSlave p restart) (wl_becomeSlave p restart);
  m_getTxLock p := by_media p (eth_getTxLock p) (mret true);
  m_putTxLock p := by_media p (eth_putTxLock p) (mret false);
  m_syncDone p := by_media p (eth_syncDone p) (mret tt);
  m_sendGeneralPort p ty buf len mc dest :=
    by_media p (eth_sendGeneralPort p ty buf len mc dest) (wl_sendGeneralPort p ty buf len mc dest);
  m_startPDelayIntervalTimer p t := by_media p (eth_startPDelayIntervalTimer p t) (mret tt);
|}.
End Virtual.

Section Events.
Context `{Env}.

(** ** EtherPort::_processEvent *)

(** The automotive profile announces itself when the link is ready. *)
Definition station_ready (p : pid) : D unit :=
  setStationState p STATION_STATE_ETHERNET_READY;;
  send_test_status p.

(** A slave of the automotive profile asks for its initial intervals. *)
Definition request_intervals (p : pid) : D unit :=
  x ← get_port p;
  when (negb (isGM x)) (
    send_signalling p sigMsgInterval_NoSend (log_mean_sync_interval x) sigMsgInterval_NoSend;;
    x ← get_port p;
    t ← interval3 (log_mean_sync_interval x);
    startSyncReceiptTimer p t).

Definition eth_on_initialize (p : pid) : D bool :=
  x ← get_port p;
  (if automotive_profile x then startPDelay p
   else match port_state x with
        | PTP_SLAVE | PTP_MASTER => mret tt
        | _ => startPDelay p
        end);;
  ok ← ask env_thread_start;
  emit (EStartLinkThread p);;
  if negb ok then mret false else
  ok ← ask env_thread_start;
  emit (EStartListeningThread p);;
  if negb ok then mret false else
  when (automotive_profile x) (station_ready p;; request_intervals p);;
  mret true.

Definition eth_on_linkup (p : pid) : D bool :=
  haltPdelay p false;;
  startPDelay p;;
  c ← get_clock;
  x ← get_port p;
  (if (priority1 c =? 255) || bool_decide (port_state x = PTP_SLAVE) then eth_becomeSlave p true
   else if bool_decide (port_state x = PTP_MASTER) then eth_becomeMaster p true
   else
     t ← interval3l (log_mean_announce_interval x);
     addEventTimerLocked p ANNOUNCE_RECEIPT_TIMEOUT_EXPIRES t);;
  when (automotive_profile x) (
    setAsCapable p true;;
    station_ready p;;
    mod_port p (fun x => x <| log_mean_sync_interval := initialLogSyncInterval x |>
                           <| log_mean_announce_interval := 0 |>
                           <| log_min_mean_pdelay_req_interval := initialLogPdelayReqInterval x |>);;
    request_intervals p;;
    setPdelayCount p 0;;
    setSyncCount p 0;;
    mod_ether p (fun e => e <| avbSyncState := if isGM x then 1 else 2 |>);;
    when (testMode x) (mod_ether p (fun e => e <| linkUpCount := u32 (linkUpCount e + 1) |>)));;
  timestamper_reset p;;
  mret true.

Definition eth_on_linkdown (p : pid) : D bool :=
  stopPDelay p;;
  x ← get_port p;
  when (negb (automotive_profile x)) (setAsCapable p false);;
  when (testMode x) (mod_ether p (fun e => e <| linkDownCount := u32 (linkDownCount e + 1) |>));;
  mret true.

Definition eth_on_receipt_timeout (p : pid) (e : Event) : D bool :=
  x ← get_port p;
  if negb (automotive_profile x) then mret false else
  (if decide (e = SYNC_RECEIPT_TIMEOUT_EXPIRES) then
     t ← interval3 (log_mean_sync_interval x); startSyncReceiptTimer p t
   else mret tt);;
  mret true.

(** The request is stored as pending before it is sent; sending replaces the
    pending timestamp. *)
Definition eth_on_pdelay_interval (p : pid) : D bool :=
  req ← PTPMessagePathDelayReq_new p;
  x ← get_port p;
  setPortIdentity req (port_identity x);;
  setTimestamp req PDELAY_PENDING_TIMESTAMP;;
  e ← get_ether p;
  delete_opt (last_pdelay_req e);;
  setLastPDelayReq p (Some req);;
  _ ← eth_getTxLock p;
  _ ← pdelay_req_sendPort req p None;
  _ ← eth_putTxLock p;
  x ← get_port p;
  t ← interval_s (log_min_mean_pdelay_req_interval x);
  addEventTimerLocked p PDELAY_RESP_RECEIPT_TIMEOUT_EXPIRES
    (at_least_granularity (i64 (PDELAY_RESP_RECEIPT_TIMEOUT_MULTIPLIER * t)));;
  eth_startPDelayIntervalTimer p (at_least_granularity t);;
  mret false.

Definition send_followup (p : pid) (sync : ptr) : D unit :=
  s ← get_msg sync;
  q ← PTPMessageFollowUp_new p;
  c ← get_clock;
  x ← get_port p;
  mod_msg q (fun m => match payload m with
    | FollowUp _ f => m <| payload := FollowUp (_timestamp s) (setClockSourceTime (fup_info c) f) |>
    | _ => m end);;
  setPortIdentity q (port_identity x);;
  setSequenceId q (sequenceId s);;
  _ ← followup_sendPort q p None;
  delete_msg q.

Definition eth_on_sync_interval (p : pid) : D bool :=
  sync ← PTPMessageSync_new p;
  x ← get_port p;
  setPortIdentity sync (port_identity x);;
  _ ← eth_getTxLock p;
  tx_succeed ← sync_sendPort sync p None;
  x ← get_port p;
  when (automotive_profile x && bool_decide (port_state x = PTP_MASTER)) (avb_sync_step p);;
  _ ← eth_putTxLock p;
  when tx_succeed (send_followup p sync);;
  delete_msg sync;;
  mret false.

(** [abort()] when there is nothing to process. *)
Definition eth_on_deferred (p : pid) : D bool :=
  _ ← lock (PDelayRxLock p);
  e ← get_ether p;
  match last_pdelay_resp_fwup e with
  | None => fail Aborted
  | Some q =>
      pdelay_resp_followup_process p q;;
      e ← get_ether p;
      q ← from_option NullPointer (last_pdelay_resp_fwup e);
      m ← get_msg q;
      when (_gc m) (delete_msg q;; setLastPDelayRespFollowUp p None);;
      _ ← unlock (PDelayRxLock p); mret false
  end.

Definition eth_on_sync_rate_timeout (p : pid) : D bool :=
  mod_ether p (fun e => e <| sync_rate_interval_timer_started := false |>);;
  x ← get_port p;
  e ← get_ether p;
  let sync_differs := negb (log_mean_sync_interval x =? operLogSyncInterval e) in
  let pdelay_differs := negb (log_min_mean_pdelay_req_interval x =? operLogPdelayReqInterval e) in
  when sync_differs (mod_port p (fun x => x <| log_mean_sync_interval := operLogSyncInterval e |>));;
  when pdelay_differs
    (mod_port p (fun x => x <| log_min_mean_pdelay_req_interval := operLogPdelayReqInterval e |>));;
  x ← get_port p;
  when ((sync_differs || pdelay_differs) && negb (isGM x)) (
    (if automotive_profile x then
       send_signalling p sigMsgInterval_NoChange (log_mean_sync_interval x) sigMsgInterval_NoChange
     else
       send_signalling p (log_min_mean_pdelay_req_interval x) (log_mean_sync_interval x)
         sigMsgInterval_NoChange);;
    t ← interval3 (log_mean_sync_interval x);
    startSyncReceiptTimer p t);;
  mret false.

Definition eth_processEvent (p : pid) (e : Event) : D bool :=
  match e with
  | POWERUP | INITIALIZE => eth_on_initialize p
  | STATE_CHANGE_EVENT => x ← get_port p; mret (automotive_profile x)
  | LINKUP => eth_on_linkup p
  | LINKDOWN => eth_on_linkdown p
  | ANNOUNCE_RECEIPT_TIMEOUT_EXPIRES | SYNC_RECEIPT_TIMEOUT_EXPIRES => eth_on_receipt_timeout p e
  | PDELAY_INTERVAL_TIMEOUT_EXPIRES => eth_on_pdelay_interval p
  | SYNC_INTERVAL_TIMEOUT_EXPIRES => eth_on_sync_interval p
  | FAULT_DETECTED =>
      x ← get_port p; when (negb (automotive_profile x)) (setAsCapable p false);; mret false
  | PDELAY_DEFERRED_PROCESSING => eth_on_deferred p
  | PDELAY_RESP_RECEIPT_TIMEOUT_EXPIRES =>
      x ← get_port p; when (negb (automotive_profile x)) (setAsCapable p false);;
      setPdelayCount p 0;; mret false
  | PDELAY_RESP_PEER_MISBEHAVING_TIMEOUT_EXPIRES =>
      haltPdelay p false;;
      x ← get_port p;
      (match port_state x with
       | PTP_SLAVE | PTP_MASTER => mret tt
       | _ => startPDelay p
       end);;
      mret false
  | SYNC_RATE_INTERVAL_TIMEOUT_EXPIRED => eth_on_sync_rate_timeout p
  | NULL_EVENT | QUALIFICATION_TIMEOUT_EXPIRES | ANNOUNCE_INTERVAL_TIMEOUT_EXPIRES => mret false
  end.

#[export] Instance media_events : MediaEvents := {|
  m_processEvent p e := by_media p (eth_processEvent p e) (wl_processEvent p e)
|}.

(** ** Receiving *)

(** The virtual [processMessage]. *)
Definition processMessage (p : pid) (q : ptr) : D unit :=
  m ← get_msg q;
  match payload m with
  | Sync _ => sync_process p q
  | FollowUp _ _ => followup_process p q
  | PathDelayReq => pdelay_req_process p q
  | PathDelayResp _ _ => pdelay_resp_process p q
  | PathDelayRespFollowUp _ _ => pdelay_resp_followup_process p q
  | Announce _ => announce_process p q
  | Signalling _ _ => signalling_process p q
  end.

Definition collect (q : ptr) : D unit := m ← get_msg q; when (_gc m) (delete_msg q).

(** [EtherPort::processMessage] *)
Definition eth_receive (p : pid) (buf : list Z) (length : Z) (remote : LinkLayerAddress)
    (speed : Z) : D unit :=
  msg ← buildPTPMessage p buf length remote;
  match msg with
  | None => mret tt
  | Some q =>
      m ← get_msg q;
      x ← get_port p;
      when (isEvent m) (
        let phy_compensation := getRxPhyDelay x speed <| _version := _version (_timestamp m) |> in
        setTimestamp q (ts_minus (_timestamp m) phy_compensation));;
      processMessage p q;;
      collect q
  end.

(** [WirelessPort::processMessage]: event messages are discarded. *)
Definition wl_receive (p : pid) (buf : list Z) (length : Z) (remote : LinkLayerAddress) : D unit :=
  msg ← buildPTPMessage p buf length remote;
  match msg with
  | None => mret tt
  | Some q =>
      m ← get_msg q;
      (if isEvent m then set_gc q true else processMessage p q);;
      collect q
  end.

(** What [recv] returns to the listening thread. *)
Inductive Received :=
  | NetSucceed (buf : list Z) (length : Z) (remote : LinkLayerAddress)
  | NetFail
  | NetFatal.

(** The loop of [EtherPort::openPort] over the results of [recv]. *)
Fixpoint open_loop (p : pid) (rs : list Received) : D unit :=
  match rs with
  | [] => mret tt
  | r :: rs' =>
      x ← get_port p;
      if negb (listening_thread_running x) then mret tt else
      match r with
      | NetSucceed buf length remote => eth_receive p buf length remote (link_speed x);; open_loop p rs'
      | NetFail => open_loop p rs'
      | NetFatal => _ ← processEvent p FAULT_DETECTED; mret tt
      end
  end.
Definition openPort (p : pid) (rs : list Received) : D unit :=
  mod_port p (fun x => x <| listening_thread_running := true |>);; open_loop p rs.

(** ** The daemon's steps *)

Inductive Input :=
  | Fire (i : nat)                  (* the [i]-th armed timer expires *)
  | Frame (p : pid) (buf : list Z) (length : Z) (remote : LinkLayerAddress)
  | LinkEvent (p : pid) (e : Event)
  | Confirm (p : pid) (d : WirelessDialog)     (* callbacks of a wireless driver *)
  | Indication (p : pid) (addr : LinkLayerAddress) (current previous : WirelessDialog)
      (buf : list Z) (buflen : Z).

(** The timer thread holds the queue's lock while it runs the handler. *)
Definition fire (i : nat) : D unit := fun w =>
  match timers w !! i with
  | None => Done tt w
  | Some t =>
      (ok ← lock TimerQLock;
       if (ok : bool) then
         modify (fun w => w <| timers := base.delete i (timers w) |>);;
         _ ← processEvent (tm_port t) (tm_event t);
         _ ← unlock TimerQLock; mret tt
       else mret tt) w
  end.

Definition daemon_step (i : Input) : D unit :=
  match i with
  | Fire i => fire i
  | Frame p buf length remote =>
      by_media p (x ← get_port p; eth_receive p buf length remote (link_speed x))
        (wl_receive p buf length remote)
  | LinkEvent p e => _ ← processEvent p e; mret tt
  | Confirm p d => by_media p (mret tt) (timingMeasurementConfirmCB p d)
  | Indication p addr current previous buf buflen =>
      by_media p (mret tt) (timeMeasurementIndicationCB p addr current previous buf buflen)
  end.

Fixpoint daemon_run (inputs : list Input) : D unit :=
  match inputs with
  | [] => mret tt
  | i :: inputs' => daemon_step i;; daemon_run inputs'
  end.
End Events.
