(* ===== verification/Fixture.v ===== *)
(** * A concrete daemon

    An environment that answers, and a daemon with one Ethernet port made by
    the constructors, for the theorems to be run on. *)

From Stdlib Require Import ZArith Lia.
From Stdlib.Floats Require Import SpecFloat.
From stdpp Require Import base gmap list.
From S2P Require Import Prelude Timestamp CFloat Identity Message Wire World Clock Port Media Ether Servo Transmit PDelay Sync CommonPort Receive Wireless Dispatch.

(** Locks are granted, the hardware answers, frames leave; a transmit
    timestamp is 100 seconds, a receive timestamp 100 seconds and 10 us. *)
Definition env_ok : Env := {|
  env_lock _ _ := true;
  env_trylock _ _ := true;
  env_gettime n := Some (timestamp 0 (50 + Z.of_nat n) 0, timestamp 0 (100 + Z.of_nat n) 0);
  env_version _ := 0;
  env_adjclockrate _ := true;
  env_adjclockphase _ := true;
  env_txtimestamp _ _ _ _ := (0, mkTimestamp 0 100 0 0, 0);
  env_rxtimestamp _ _ _ _ := (0, mkTimestamp 10000 100 0 0, 0);
  env_send _ := true;
  env_payload_offset := 14;
  env_thread_start _ := true;
  env_timing_measurement _ := true;
  env_garbage := 0;
|}.

(** The same, while another thread keeps the transmit timestamp: the hardware
    answers "try again". *)
Definition env_no_tx : Env := {|
  env_lock _ _ := true;
  env_trylock _ _ := true;
  env_gettime _ := None;
  env_version _ := 0;
  env_adjclockrate _ := true;
  env_adjclockphase _ := true;
  env_txtimestamp _ _ _ _ := (-72, timestamp 0 0 0, 0);
  env_rxtimestamp _ _ _ _ := (-72, timestamp 0 0 0, 0);
  env_send _ := true;
  env_payload_offset := 14;
  env_thread_start _ := true;
  env_timing_measurement _ := true;
  env_garbage := 0;
|}.

Definition clock_memory : Clock := {|
  clock_identity := ClockIdentity_zero; clock_quality := mkClockQuality 0 0 0;
  priority1 := 0; priority2 := 0; domain_number := 0; number_ports := 0; current_utc_offset := 0;
  grandmaster_clock_identity := ClockIdentity_zero;
  grandmaster_clock_quality := mkClockQuality 0 0 0;
  grandmaster_priority1 := 0; grandmaster_priority2 := 0; time_source := 0;
  LastEBestIdentity := ClockIdentity_zero; _syntonize := false;
  _new_syntonization_set_point := false; _ppm := S754_zero false; _phase_error_violation := 0;
  port_list := repeat None 32; _master_local_freq_offset_init := false;
  _prev_master_time := timestamp 0 0 0; _prev_sync_time := timestamp 0 0 0;
  _local_system_freq_offset_init := false; _prev_local_time := timestamp 0 0 0;
  _prev_system_time := timestamp 0 0 0; ipc := false; forceOrdinarySlave := false;
  _master_local_freq_offset := S754_zero false; _local_system_freq_offset := S754_zero false;
  fup_info := FollowUpTLV_new; fup_status := FollowUpTLV_new;
|}.

Definition ether_memory : EtherPart :=
  mkEther false 0 0 0 0 0 0 STATION_STATE_RESERVED 0 0 None None None ∅ None false false false.

Definition port_memory : Port := {|
  local_addr := repeat 0 6; port_identity := mkPortIdentity ClockIdentity_zero 0; ifindex := 0;
  link_speed := 0; one_way_delay := 0; neighbor_prop_delay_thresh := 0;
  port_state := PTP_INITIALIZING; testMode := false; automotive_profile := false;
  allow_negative_correction_field := false; log_mean_sync_interval := 0;
  log_mean_announce_interval := 0; initialLogSyncInterval := 0; sync_receipt_thresh := 0;
  wrongSeqIDCounter := 0; counters := PortCounters_zero; listening_thread_running := false;
  _peer_rate_offset := S754_zero false; _peer_offset_ts_theirs := timestamp 0 0 0;
  _peer_offset_ts_mine := timestamp 0 0 0; _peer_offset_init := false; asCapable := false;
  sync_count := 0; pdelay_count := 0; initialLogPdelayReqInterval := 0;
  log_min_mean_pdelay_req_interval := 0; qualified_announce := None; announce_sequence_id := 0;
  signal_sequence_id := 0; sync_sequence_id := 0; lastGmTimeBaseIndicator := 0;
  _hw_timestamper := NoTimestamper; isGM := false; phy_delay := ∅; media := Ether ether_memory;
|}.

Definition port_init : PortInit := {|
  pi_index := 1; pi_timestamper := EtherTs; pi_automotive_profile := false; pi_isGM := false;
  pi_testMode := false; pi_linkUp := true; pi_initialLogSyncInterval := LOG2_INTERVAL_INVALID;
  pi_initialLogPdelayReqInterval := LOG2_INTERVAL_INVALID;
  pi_operLogPdelayReqInterval := LOG2_INTERVAL_INVALID;
  pi_operLogSyncInterval := LOG2_INTERVAL_INVALID; pi_phy_delay := ∅;
  pi_syncReceiptThreshold := 5; pi_neighborPropDelayThreshold := 800;
  pi_allowNegativeCorrField := false;
|}.

Definition mac : LinkLayerAddress := [0x00; 0x1B; 0x21; 0x01; 0x02; 0x03].
Definition peer_mac : LinkLayerAddress := [0x00; 0x1B; 0x21; 0x0A; 0x0B; 0x0C].
Definition peer_identity : PortIdentity := mkPortIdentity (cid_set_addr peer_mac) 1.

Definition world_of (xs : list Port) (c : Clock) : World := {|
  clk := c; ports := xs; timers := []; heap := ∅; next_ptr := 1; held := []; ap_sequenceId := 0;
  trace := []; tick := 0;
|}.

(** The daemon's start: the clock, one port, its registration. *)
Definition start_daemon : res World unit :=
  (registerPort 0 1;; init_port 0 mac)
    (world_of [EtherPort_new port_memory ether_memory port_init]
       (IEEE1588Clock_new clock_memory false true 248 false)).

Definition run_result {A} (r : res World A) (w : World) : World :=
  match r with Done _ w' => w' | Fault _ => w end.

Definition world0 : World := run_result start_daemon (world_of [] clock_memory).

(** The frame of a message, in the receive array. *)
Definition frame_in (m : Message) : list Z :=
  let f := default [] (frame_of 0 m) in f ++ repeat 0 (128 - length f).
Definition frame_length (m : Message) : Z := Z.of_nat (length (default [] (frame_of 0 m))).
Definition arrives (m : Message) : Input := Frame 0 (frame_in m) (frame_length m) peer_mac.

(** Messages of the peer. *)
Definition peer_message (seq : Z) (p : Payload) : Message :=
  PTPMessageCommon_new 0 0 p <| sourcePortIdentity := peer_identity |> <| sequenceId := seq |>
    <| logMeanMessageInterval := 0 |>.
Definition peer_announce (p1 : Z) : Message :=
  peer_message 0 (Announce (mkAnnounce (cid_set_addr peer_mac) (mkClockQuality 248 0x22 0x436A)
    [cid_set_addr peer_mac] 0 p1 248 0 160)).

Definition is_done {A} (r : res World A) : bool := match r with Done _ _ => true | Fault _ => false end.

#[export] Instance env_ok_granted : @LocksGranted env_ok.
Proof. by constructor. Defined.

(** The daemon starts, sends its peer delay request, answers one of the peer
    and takes the peer for its master. *)
Definition session : list Input :=
  [LinkEvent 0 POWERUP; Fire 1; arrives (peer_message 0 PathDelayReq); arrives (peer_announce 100);
   Fire 2].
