(* ===== verification/Evolution.v ===== *)
(** * What a run of the daemon can do

    Every handler of the daemon leaves the configuration of every port and of
    the clock alone, moves a port's state only to master or slave, keeps the
    frequency adjustment within its limits and hands only such values to the
    hardware.  [evolves] states it of one port, [clock_evolves] of the clock,
    [world_evolves] of the world; the lemmas follow the files that define the
    handlers, and the theorems are about any sequence of timers, frames and
    link events. *)

From Stdlib Require Import ZArith Lia.
From Stdlib.Floats Require Import SpecFloat.
From stdpp Require Import base gmap list.
From S2P Require Import Prelude Timestamp CFloat Identity Message Wire World Clock Port Media Ether Servo Transmit PDelay Sync CommonPort Receive Wireless Dispatch Fixture.

(** What is fixed when a port is made and initialised, and the state of the link,
    which only the thread that watches the link sets. *)
Definition ether_config (e : EtherPart) := (operLogPdelayReqInterval e, operLogSyncInterval e, linkUp e).
Definition media_config (m : Media) : (Z * Z * bool) + LinkLayerAddress :=
  match m with
  | Ether e => inl (ether_config e)
  | Wireless w => inr (peer_addr w)
  end.
Definition config (x : Port) :=
  (local_addr x, port_identity x, ifindex x, neighbor_prop_delay_thresh x, testMode x,
   automotive_profile x, allow_negative_correction_field x, initialLogSyncInterval x,
   initialLogPdelayReqInterval x, sync_receipt_thresh x, _hw_timestamper x, isGM x, phy_delay x,
   media_config (media x)).

Definition evolves (x x' : Port) : Prop :=
  config x' = config x /\
  (port_state x' = port_state x \/ port_state x' = PTP_MASTER \/ port_state x' = PTP_SLAVE).

#[export] Instance evolves_refl : Reflexive evolves.
Proof. intros x. split; [done|by left]. Qed.
#[export] Instance evolves_trans : Transitive evolves.
Proof.
  intros x y z [H1 S1] [H2 S2]. split; [congruence|].
  destruct S2 as [->|S2]; [done|by right].
Qed.

Definition ports_evolve (w w' : World) : Prop :=
  length (ports w') = length (ports w) /\
  forall p x, ports w !! p = Some x -> exists x', ports w' !! p = Some x' /\ evolves x x'.

#[export] Instance ports_evolve_refl : Reflexive ports_evolve.
Proof. intros w. split; [done|]. intros p x Hp. by exists x. Qed.
#[export] Instance ports_evolve_trans : Transitive ports_evolve.
Proof.
  intros a b c [L1 H1] [L2 H2]. split; [congruence|]. intros p x Hp.
  destruct (H1 p x Hp) as (y & Hy & E1). destruct (H2 p y Hy) as (z & Hz & E2).
  exists z. split; [done|]. by etrans.
Qed.

Lemma keeps_weaken {S A} (R R' : S -> S -> Prop) (m : M S A) :
  (forall s s', R s s' -> R' s s') -> keeps R m -> keeps R' m.
Proof. intros HR Hm s a s' E. by apply HR, (Hm s a s'). Qed.

(** What of the clock no handler writes: its own data set, the registered
    ports and the options it was started with. *)
Definition clock_config (c : Clock) :=
  (clock_identity c, clock_quality c, priority1 c, priority2 c, domain_number c, number_ports c,
   port_list c, current_utc_offset c, time_source c, _syntonize c, ipc c, forceOrdinarySlave c).

(** The frequency adjustment is within the limits, by the comparison that the
    clamp makes. *)
Definition within_limits (ppm : spec_float) : Prop :=
  SFltb (fl_cvt fmt_double ppm) LOWER_FREQ_LIMIT = false /\
  SFltb UPPER_FREQ_LIMIT (fl_cvt fmt_double ppm) = false.

Lemma within_lower : within_limits (fl_cvt fmt_float LOWER_FREQ_LIMIT).
Proof. by vm_compute. Qed.
Lemma within_upper : within_limits (fl_cvt fmt_float UPPER_FREQ_LIMIT).
Proof. by vm_compute. Qed.
Lemma clamp_ppm_within x : within_limits (clamp_ppm x).
Proof.
  unfold clamp_ppm. destruct (SFltb (fl_cvt fmt_double x) LOWER_FREQ_LIMIT) eqn:E1.
  - exact within_lower.
  - destruct (SFltb UPPER_FREQ_LIMIT (fl_cvt fmt_double x)) eqn:E2; [exact within_upper|].
    exact (conj E1 E2).
Qed.

Definition clock_evolves (c c' : Clock) : Prop :=
  clock_config c' = clock_config c /\ (within_limits (_ppm c) -> within_limits (_ppm c')).

#[export] Instance clock_evolves_refl : Reflexive clock_evolves.
Proof. done. Qed.
#[export] Instance clock_evolves_trans : Transitive clock_evolves.
Proof. intros a b c [H1 F1] [H2 F2]. split; [congruence|auto]. Qed.

(** A frequency adjustment goes to the hardware as a value within the limits,
    widened to [FrequencyRatio] and narrowed to [float]. *)
Definition rate_ok (e : Effect) : Prop :=
  match e with
  | EAdjustClockRate _ f => exists x, within_limits x /\ f = fl_cvt fmt_float (fl_cvt fmt_ldouble x)
  | _ => True
  end.

Definition world_evolves (w w' : World) : Prop :=
  ports_evolve w w' /\ clock_evolves (clk w) (clk w') /\ adds_effects rate_ok w w'.
#[export] Instance world_evolves_refl : Reflexive world_evolves.
Proof. intros w. split; [reflexivity|split; reflexivity]. Qed.
#[export] Instance world_evolves_trans : Transitive world_evolves.
Proof. intros a b c (?&?&?) (?&?&?). split; [by etrans|]. split; by etrans. Qed.


(** Operations that touch neither the ports nor the clock. *)
Lemma same_ports_evolve w w' : ports w' = ports w -> ports_evolve w w'.
Proof. intros H. unfold ports_evolve. rewrite H. split; [done|]. intros p x Hp. by exists x. Qed.
Lemma same_evolve w w' :
  ports w' = ports w -> clk w' = clk w -> trace w' = trace w -> world_evolves w w'.
Proof.
  intros Hp Hc Ht. split; [by apply same_ports_evolve|]. rewrite Hc. split; [done|].
  by apply adds_effects_same.
Qed.
Lemma quiet_evolve {A} (m : D A) : keeps quiet m -> keeps world_evolves m.
Proof.
  apply keeps_weaken. intros w w' (Hc & Hp & _ & _ & _ & Ht).
  split; [by apply same_ports_evolve|]. rewrite Hc. split; [done|].
  revert Ht. apply adds_effects_mono. by intros [].
Qed.

(** [evolve_port] shows that a field update evolves a port. *)
Lemma evolves_upd_ether f x :
  (forall e, ether_config (f e) = ether_config e) ->
  evolves x (upd_ether f x).
Proof.
  intros H. unfold upd_ether. destruct (media x) as [e|w] eqn:E; [|reflexivity].
  unfold evolves, config. cbn. rewrite E. cbn. rewrite (H e).
  split; [done|by left].
Qed.

Ltac evolve_port :=
  first
    [ apply evolves_upd_ether; intros ?; reflexivity
    | split; [reflexivity|first [left; reflexivity | right; left; reflexivity | right; right; reflexivity]] ].

Section Evolve.
Context `{Env}.
Local Abbreviation ev := (keeps world_evolves).

Lemma ev_mod_port p f : (forall x, evolves x (f x)) -> ev (mod_port p f).
Proof.
  intros Hf w a w'. unfold mod_port. destruct (ports w !! p) as [x|] eqn:Hx; [|done].
  intros [= _ <-]. split; [|split; [done|by apply adds_effects_same]].
  split; cbn; [by rewrite length_insert|]. intros q y Hq.
  destruct (decide (p = q)) as [->|Hne].
  - exists (f x). rewrite list_lookup_insert_eq by (by eapply lookup_lt_Some).
    split; [done|]. replace y with x by congruence. apply Hf.
  - exists y. rewrite list_lookup_insert_ne by done. done.
Qed.
Lemma ev_mod_ether p f :
  (forall e, ether_config (f e) = ether_config e) -> ev (mod_ether p f).
Proof. intros Hf. apply ev_mod_port. intros x. by apply evolves_upd_ether. Qed.
Lemma ev_mod_clock f : (forall c, clock_evolves c (f c)) -> ev (mod_clock f).
Proof.
  intros Hf w a w' [= _ <-]. split; [by apply same_ports_evolve|]. split; [apply Hf|].
  by apply adds_effects_same.
Qed.
Lemma ev_modify f :
  (forall w, ports (f w) = ports w /\ clk (f w) = clk w /\ trace (f w) = trace w) -> ev (modify f).
Proof. intros Hf w a w' [= _ <-]. destruct (Hf w) as (?&?&?). by apply same_evolve. Qed.
Lemma ev_new_msg m : ev (new_msg m).
Proof. intros w a w' [= _ <-]. by apply same_evolve. Qed.
Lemma ev_mod_msg q f : ev (mod_msg q f).
Proof.
  intros w a w'. unfold mod_msg. destruct (heap w !! q); [|done]. intros [= _ <-].
  by apply same_evolve.
Qed.
Lemma ev_delete_msg q : ev (delete_msg q).
Proof.
  intros w a w'. unfold delete_msg. destruct (heap w !! q); [|done]. intros [= _ <-].
  by apply same_evolve.
Qed.
Lemma ev_delete_opt q : ev (delete_opt q).
Proof. destruct q; [apply ev_delete_msg|by apply keeps_ret, _]. Qed.
Lemma ev_get_ether p : ev (get_ether p).
Proof.
  apply quiet_evolve. unfold get_ether, as_ether. keeps_quiet.
Qed.
Lemma ev_as_ether p : ev (as_ether p).
Proof. apply quiet_evolve. unfold as_ether. keeps_quiet. Qed.
End Evolve.
#[export] Hint Resolve quiet_evolve ev_new_msg ev_mod_msg ev_delete_msg ev_delete_opt
  ev_get_ether ev_as_ether : gptp.
#[export] Hint Extern 2 (keeps world_evolves (modify _)) => apply ev_modify; intros ?; repeat split : gptp.
#[export] Hint Extern 2 (keeps world_evolves (mod_clock _)) =>
  apply ev_mod_clock; intros ?; split; [reflexivity|exact id] : gptp.
#[export] Hint Extern 2 (keeps world_evolves (mod_port _ _)) => apply ev_mod_port; intros ?; evolve_port : gptp.
#[export] Hint Extern 2 (keeps world_evolves (mod_ether _ _)) => apply ev_mod_ether; intros ?; reflexivity : gptp.

(** [evolve] walks a handler down to operations that are known to evolve,
    unfolding the ones that have no lemma. *)
Ltac unfold_handler :=
  match goal with
  | |- keeps _ ?m =>
      let rec head t := lazymatch t with ?f _ => head f | _ => t end in
      let h := head m in
      lazymatch h with
      | @mbind => fail | @mret => fail | @mod_port => fail | @mod_clock => fail | @modify => fail
      | _ => unfold h
      end
  end.
Ltac evolve :=
  repeat first
    [ apply keeps_ret; apply _
    | apply keeps_gets; apply _
    | apply keeps_fail
    | solve [eauto 3 with gptp]
    | apply keeps_from_option; apply _
    | apply keeps_when; [apply _|]
    | apply keeps_bind; [apply _| |intros ?]
    | apply keeps_if
    | match goal with |- keeps _ (match ?x with _ => _ end) => destruct x end
    | unfold_handler ].

Section Handlers.
Context `{Env}.
Local Abbreviation ev := (keeps world_evolves).

Lemma ev_setPortState p s : s = PTP_MASTER \/ s = PTP_SLAVE -> ev (setPortState p s).
Proof.
  intros Hs. apply ev_mod_port. intros x. split; [done|]. right. by destruct Hs as [->| ->]; [left|right].
Qed.
Lemma ev_setMaster p : ev (setPortState p PTP_MASTER).
Proof. apply ev_setPortState. by left. Qed.
Lemma ev_setSlave p : ev (setPortState p PTP_SLAVE).
Proof. apply ev_setPortState. by right. Qed.
Lemma ev_setAsCapable p b : ev (setAsCapable p b).
Proof. apply ev_mod_port. intros x. destruct b; evolve_port. Qed.
Lemma ev_setLinkDelay p d : ev (setLinkDelay p d).
Proof. unfold setLinkDelay. evolve. Qed.
Lemma ev_count f p : ev (count f p).
Proof. unfold count. evolve. Qed.
Lemma ev_incWrong p : ev (incWrongSeqIDCounter p).
Proof.
  unfold incWrongSeqIDCounter. apply keeps_bind; [apply _| |intros ?; evolve].
  apply ev_mod_port. intros x. unfold inc_wrongSeqID. destruct (asCapable x); evolve_port.
Qed.
Lemma ev_set_grandmaster i p1 p2 q : ev (set_grandmaster i p1 p2 q).
Proof. apply ev_mod_clock. intros c. destruct (cid_ne _ _); split; by try exact id. Qed.
Lemma evolve_clock_field (c : Clock) w :
  clock_evolves (clk w) c -> world_evolves w (w <| clk := c |>).
Proof. intros Hc. split; [by apply same_ports_evolve|]. split; [done|by apply adds_effects_same]. Qed.
Lemma ev_calcMasterLocal t1 t2 : ev (calcMasterLocalClockRateDifference t1 t2).
Proof.
  intros w r w' [= _ <-]. apply evolve_clock_field. unfold calcMasterLocal.
  destruct (negb _); [by split|]. by case_match.
Qed.
Lemma ev_calcLocalSystem t1 t2 : ev (calcLocalSystemClockRateDifference t1 t2).
Proof.
  intros w r w' [= _ <-]. apply evolve_clock_field. unfold calcLocalSystem. by destruct (negb _).
Qed.
Lemma ev_setQualified p a : ev (setQualifiedAnnounce p a).
Proof. unfold setQualifiedAnnounce. evolve. Qed.
End Handlers.
#[export] Hint Resolve ev_setMaster ev_setSlave ev_setAsCapable ev_setLinkDelay ev_count ev_incWrong
  ev_set_grandmaster ev_calcMasterLocal ev_calcLocalSystem ev_setQualified : gptp.

(** The operations of the other files, bottom up; an operation without a lemma
    of its own is unfolded where it is used. *)
Section EtherHandlers.
Context `{Env}.
Local Abbreviation ev := (keeps world_evolves).

Lemma ev_port_send p t b l mc d ts : ev (port_send p t b l mc d ts).
Proof. evolve. Qed.
Hint Resolve ev_port_send : gptp.
Lemma ev_send_test_status p : ev (send_test_status p).
Proof. evolve. Qed.
Lemma ev_startPDelay p : ev (startPDelay p).
Proof. evolve. Qed.
Hint Resolve ev_send_test_status ev_startPDelay : gptp.
Lemma ev_eth_becomeMaster p b : ev (eth_becomeMaster p b).
Proof. evolve. Qed.
Lemma ev_eth_becomeSlave p b : ev (eth_becomeSlave p b).
Proof. evolve. Qed.
Lemma ev_avb_sync_step p : ev (avb_sync_step p).
Proof. evolve. Qed.
Hint Resolve ev_avb_sync_step : gptp.
Lemma ev_eth_syncDone p : ev (eth_syncDone p).
Proof. evolve. Qed.
Lemma ev_tx_retry n p id mid r : ev (tx_retry n p id mid r).
Proof. revert r. induction n as [|n IH]; intros r; cbn [tx_retry]; evolve. Qed.
Hint Resolve ev_tx_retry : gptp.
Lemma ev_getTxTimestamp q p s : ev (getTxTimestamp q p s).
Proof. evolve. Qed.
Lemma ev_build_frame q : ev (build_frame q).
Proof. evolve. Qed.
End EtherHandlers.
#[export] Hint Resolve ev_port_send ev_send_test_status ev_startPDelay ev_eth_becomeMaster
  ev_eth_becomeSlave ev_avb_sync_step ev_eth_syncDone ev_getTxTimestamp ev_build_frame : gptp.

Section WirelessHandlers.
Context `{Env}.
Local Abbreviation ev := (keeps world_evolves).

Lemma ev_wl_becomeMaster p b : ev (wl_becomeMaster p b).
Proof. evolve. Qed.
Lemma ev_wl_becomeSlave p b : ev (wl_becomeSlave p b).
Proof. evolve. Qed.
Lemma ev_setPrevDialog p d : ev (setPrevDialog p d).
Proof.
  apply ev_mod_port. intros x. destruct (media x) as [e|w] eqn:E; [reflexivity|].
  unfold evolves, config. cbn. rewrite E. split; [done|by left].
Qed.
Hint Resolve ev_setPrevDialog : gptp.
Lemma ev_wl_processEvent p e : ev (wl_processEvent p e).
Proof. evolve. Qed.
End WirelessHandlers.
#[export] Hint Resolve ev_wl_becomeMaster ev_wl_becomeSlave ev_setPrevDialog ev_wl_processEvent : gptp.

Section Dispatched.
Context `{Env}.
Local Abbreviation ev := (keeps world_evolves).

Lemma ev_by_media {A} p (a b : D A) : ev a -> ev b -> ev (by_media p a b).
Proof. intros Ha Hb. unfold by_media. apply keeps_bind; [apply _|evolve|]. intros x. by destruct (media x). Qed.
Lemma ev_m_becomeMaster p b : ev (m_becomeMaster p b).
Proof. apply ev_by_media; evolve. Qed.
Lemma ev_m_becomeSlave p b : ev (m_becomeSlave p b).
Proof. apply ev_by_media; evolve. Qed.
Lemma ev_m_getTxLock p : ev (m_getTxLock p).
Proof. apply ev_by_media; evolve. Qed.
Lemma ev_m_putTxLock p : ev (m_putTxLock p).
Proof. apply ev_by_media; evolve. Qed.
Lemma ev_m_syncDone p : ev (m_syncDone p).
Proof. apply ev_by_media; evolve. Qed.
Lemma ev_m_sendGeneralPort p t b l mc d : ev (m_sendGeneralPort p t b l mc d).
Proof. apply ev_by_media; evolve. Qed.
Lemma ev_m_startPDelayIntervalTimer p t : ev (m_startPDelayIntervalTimer p t).
Proof. apply ev_by_media; evolve. Qed.

Lemma ev_for_ports {A B} n j (body : pid -> A -> D (A + B)) a :
  (forall p a, ev (body p a)) -> ev (for_ports n j body a).
Proof.
  intros Hb. revert j a. induction n as [|n IH]; intros j a; cbn [for_ports]; evolve; auto.
Qed.
End Dispatched.
#[export] Hint Resolve ev_m_becomeMaster ev_m_becomeSlave ev_m_getTxLock ev_m_putTxLock
  ev_m_syncDone ev_m_sendGeneralPort ev_m_startPDelayIntervalTimer : gptp.
#[export] Hint Extern 3 (keeps world_evolves (for_ports _ _ _ _)) =>
  apply ev_for_ports; intros ??; evolve : gptp.

Section ProtocolHandlers.
Context `{Env}.
Local Abbreviation ev := (keeps world_evolves).

Lemma ev_adjustClockRate p x :
  within_limits x -> ev (adjustClockRate p (fl_cvt fmt_ldouble x)).
Proof.
  intros Hx. unfold adjustClockRate. apply keeps_bind; [apply _|evolve|intros y].
  case_match; [evolve|..]; (apply keeps_bind; [apply _| |intros ?; evolve]);
    intros w a w' [= _ <-]; (split; [by apply same_ports_evolve|split; [reflexivity|]]);
    (eexists; split; [done|repeat constructor]); by exists x.
Qed.
Lemma ev_steer p o r : ev (steer p o r).
Proof.
  unfold steer. do 2 (apply keeps_bind; [apply _|evolve|intros ?]).
  apply keeps_bind; [apply _|apply ev_mod_clock; intros c'; split; [done|intros _; apply clamp_ppm_within]|].
  intros _. apply keeps_bind; [apply _|apply ev_adjustClockRate, clamp_ppm_within|intros ?; evolve].
Qed.
Hint Resolve ev_steer : gptp.
Lemma ev_setMasterOffset p ms : ev (setMasterOffset p ms).
Proof. evolve. Qed.
Hint Resolve ev_setMasterOffset : gptp.
Lemma ev_pdelay_req_respond p q : ev (pdelay_req_respond p q).
Proof. evolve. Qed.
Lemma ev_pdelay_resp_store p q : ev (pdelay_resp_store p q).
Proof. evolve. Qed.
Hint Resolve ev_pdelay_req_respond ev_pdelay_resp_store : gptp.
Lemma ev_pdelay_req_process p q : ev (pdelay_req_process p q).
Proof. evolve. Qed.
Lemma ev_pdelay_resp_process p q : ev (pdelay_resp_process p q).
Proof. evolve. Qed.
Lemma ev_update_link p d t1 t2 : ev (update_link p d t1 t2).
Proof. evolve. Qed.
Lemma ev_fup_fields q : ev (fup_fields q).
Proof. evolve. Qed.
Lemma ev_resp_fields q : ev (resp_fields q).
Proof. evolve. Qed.
Hint Resolve ev_update_link ev_fup_fields ev_resp_fields : gptp.
Lemma ev_followup_measure p q ex : ev (followup_measure p q ex).
Proof. evolve. Qed.
Hint Resolve ev_followup_measure : gptp.
Lemma ev_followup_pair p q : ev (followup_pair p q).
Proof. evolve. Qed.
Hint Resolve ev_followup_pair : gptp.
Lemma ev_pdelay_resp_followup_process p q : ev (pdelay_resp_followup_process p q).
Proof. evolve. Qed.
Lemma ev_announce_process p q : ev (announce_process p q).
Proof. evolve. Qed.
Lemma ev_sync_process p q : ev (sync_process p q).
Proof. evolve. Qed.
Lemma ev_followup_process_at p q t : ev (followup_process_at p q t).
Proof. evolve. Qed.
Hint Resolve ev_followup_process_at : gptp.
Lemma ev_followup_process p q : ev (followup_process p q).
Proof. evolve. Qed.
Lemma ev_signalling_process p q : ev (signalling_process p q).
Proof. evolve. Qed.
End ProtocolHandlers.
#[export] Hint Resolve ev_setMasterOffset ev_pdelay_req_process ev_pdelay_resp_process
  ev_pdelay_resp_followup_process ev_announce_process ev_sync_process ev_followup_process_at
  ev_followup_process ev_signalling_process : gptp.

Section EventHandlers.
Context `{Env}.
Local Abbreviation ev := (keeps world_evolves).

Lemma ev_recommendState p s b : ev (recommendState p s b).
Proof. evolve. Qed.
Hint Resolve ev_recommendState : gptp.
Lemma ev_announce_fields q : ev (announce_fields q).
Proof. evolve. Qed.
Hint Resolve ev_announce_fields : gptp.
Lemma ev_decide_port b p best : ev (decide_port b p best).
Proof. evolve. Qed.
Lemma ev_ebest_step p best : ev (ebest_step p best).
Proof. evolve. Qed.
Hint Resolve ev_decide_port ev_ebest_step : gptp.
Lemma ev_processStateChange p : ev (processStateChange p).
Proof. evolve. Qed.
Lemma ev_processSyncAnnounceTimeout p e : ev (processSyncAnnounceTimeout p e).
Proof. evolve. Qed.
Lemma ev_send_signalling p a b c : ev (send_signalling p a b c).
Proof. evolve. Qed.
Hint Resolve ev_send_signalling : gptp.
Lemma ev_station_ready p : ev (station_ready p).
Proof. evolve. Qed.
Lemma ev_request_intervals p : ev (request_intervals p).
Proof. evolve. Qed.
Lemma ev_send_followup p q : ev (send_followup p q).
Proof. evolve. Qed.
Lemma ev_sync_sendPort q p d : ev (sync_sendPort q p d).
Proof. evolve. Qed.
Hint Resolve ev_station_ready ev_request_intervals ev_send_followup ev_sync_sendPort : gptp.

Lemma ev_eth_on_initialize p : ev (eth_on_initialize p).
Proof. evolve. Qed.
Lemma ev_eth_on_linkup p : ev (eth_on_linkup p).
Proof. evolve. Qed.
Lemma ev_eth_on_pdelay_interval p : ev (eth_on_pdelay_interval p).
Proof. evolve. Qed.
Lemma ev_eth_on_sync_interval p : ev (eth_on_sync_interval p).
Proof. evolve. Qed.
Lemma ev_eth_on_deferred p : ev (eth_on_deferred p).
Proof. evolve. Qed.
Lemma ev_eth_on_sync_rate_timeout p : ev (eth_on_sync_rate_timeout p).
Proof. evolve. Qed.
End EventHandlers.
#[export] Hint Resolve ev_recommendState ev_processStateChange ev_processSyncAnnounceTimeout
  ev_eth_on_initialize ev_eth_on_linkup ev_eth_on_pdelay_interval ev_eth_on_sync_interval
  ev_eth_on_deferred ev_eth_on_sync_rate_timeout : gptp.

Section DaemonSteps.
Context `{Env}.
Local Abbreviation ev := (keeps world_evolves).

Lemma ev_eth_processEvent p e : ev (eth_processEvent p e).
Proof. destruct e; evolve. Qed.
Hint Resolve ev_eth_processEvent : gptp.
Lemma ev_m_processEvent p e : ev (m_processEvent p e).
Proof. apply ev_by_media; evolve. Qed.
Hint Resolve ev_m_processEvent : gptp.
Lemma ev_on_sync_interval p e : ev (on_sync_interval p e).
Proof. evolve. Qed.
Lemma ev_on_announce_interval p : ev (on_announce_interval p).
Proof. evolve. Qed.
Hint Resolve ev_on_sync_interval ev_on_announce_interval : gptp.
Lemma ev_processEvent p e : ev (processEvent p e).
Proof. destruct e; evolve. Qed.
Hint Resolve ev_processEvent : gptp.

Lemma ev_rx_retry n p id mid r : ev (rx_retry n p id mid r).
Proof. revert r. induction n as [|n IH]; intros r; cbn [rx_retry]; evolve. Qed.
Hint Resolve ev_rx_retry : gptp.
Lemma ev_rx_timestamp p id mid : ev (rx_timestamp p id mid).
Proof. evolve. Qed.
Hint Resolve ev_rx_timestamp : gptp.
Lemma ev_buildPTPMessage p b n r : ev (buildPTPMessage p b n r).
Proof. evolve. Qed.
Hint Resolve ev_buildPTPMessage : gptp.
Lemma ev_processMessage p q : ev (processMessage p q).
Proof. evolve. Qed.
Lemma ev_collect q : ev (collect q).
Proof. evolve. Qed.
Hint Resolve ev_processMessage ev_collect : gptp.
Lemma ev_eth_receive p b n r s : ev (eth_receive p b n r s).
Proof. evolve. Qed.
Lemma ev_wl_receive p b n r : ev (wl_receive p b n r).
Proof. evolve. Qed.
Hint Resolve ev_eth_receive ev_wl_receive : gptp.
Lemma ev_fire i : ev (fire i).
Proof.
  intros w a w'. unfold fire. destruct (timers w !! i) as [t|]; [|by intros [= _ <-]].
  match goal with |- ?m w = _ -> _ => assert (Hm : ev m) by evolve end.
  apply (Hm w a w').
Qed.
Hint Resolve ev_fire : gptp.
Lemma ev_confirm p d : ev (timingMeasurementConfirmCB p d).
Proof. evolve. Qed.
Lemma ev_indication p a c d b n : ev (timeMeasurementIndicationCB p a c d b n).
Proof. evolve. Qed.
Hint Resolve ev_confirm ev_indication : gptp.
Lemma ev_daemon_step i : ev (daemon_step i).
Proof. destruct i; cbn [daemon_step]; try apply ev_by_media; evolve. Qed.
Lemma ev_daemon_run inputs : ev (daemon_run inputs).
Proof.
  induction inputs as [|i inputs IH]; cbn [daemon_run]; [evolve|].
  apply keeps_bind; [apply _|apply ev_daemon_step|done].
Qed.
End DaemonSteps.

(** The states a port can be in once it has been made. *)
Definition live_state (s : PortState) : Prop :=
  s = PTP_INITIALIZING \/ s = PTP_MASTER \/ s = PTP_SLAVE.

Lemma evolves_live x x' : evolves x x' -> live_state (port_state x) -> live_state (port_state x').
Proof. intros [_ [->|H]] Hx; [done|]. right. done. Qed.

(** C33: the port state machine over any run.  Whatever timers fire, frames
    arrive and links change, in any order and with any answers of the
    operating system and the hardware, the daemon keeps its ports, their
    configuration and their class, and a port that starts in INITIALIZING,
    MASTER or SLAVE is in one of these three states ever after: no handler
    disables a port or marks it faulty, so the branches of the message handlers
    for DISABLED and FAULTY ports are never taken. *)
Theorem daemon_run_ports `{Env} inputs w a w' :
  daemon_run inputs w = Done a w' ->
  length (ports w') = length (ports w) /\
  forall p x, ports w !! p = Some x ->
    exists x', ports w' !! p = Some x' /\ config x' = config x /\
      (live_state (port_state x) -> live_state (port_state x')).
Proof.
  intros Hrun. destruct (ev_daemon_run inputs w a w' Hrun) as [[Hl Hp] _]. split; [done|].
  intros p x Hx. destruct (Hp p x Hx) as (x' & Hx' & He). exists x'.
  split; [done|]. split; [apply He|]. by apply evolves_live.
Qed.

Lemma daemon_run_ports_witness :
  exists x', ports (run_result (daemon_run (H := env_ok) session world0) world0) !! 0%nat = Some x' /\
    live_state (port_state x').
Proof.
  destruct (@daemon_run_ports env_ok session world0 tt
              (run_result (daemon_run (H := env_ok) session world0) world0)) as [_ Hp];
    [by vm_compute|].
  edestruct (Hp 0%nat) as (x' & Hx & _ & Hl); [by vm_compute|].
  exists x'. split; [exact Hx|]. apply Hl. by left.
Defined.


