(* ===== verification/Locks.v ===== *)
(** * Lock discipline

    [locks_to h h' m]: run with the locks [h] held, [m] ends with the locks
    [h'] held.  Every handler is balanced: it gives back the locks it takes, on
    every path, in the reverse order.  The locks are assumed granted when asked
    for ([LocksGranted]); a lock that is refused is the caller's own error
    path. *)

From Stdlib Require Import ZArith Lia.
From Stdlib.Floats Require Import SpecFloat.
From stdpp Require Import base gmap list.
From S2P Require Import Prelude Timestamp CFloat Identity Message Wire World Loops Clock Port Media Ether Servo Transmit PDelay Sync CommonPort Receive Wireless Dispatch Fixture Evolution.

Definition locks_to {A} (h h' : list LockId) (m : D A) : Prop :=
  forall w a w', held w = h -> m w = Done a w' -> held w' = h'.

Definition balanced {A} (m : D A) : Prop := forall h, locks_to h h m.

Section Rules.
Context `{Env}.

Lemma lk_keeps {A} (m : D A) : keeps same_locks m -> balanced m.
Proof. intros Hm h w a w' Hh E. rewrite <- Hh. apply (Hm w a w' E). Qed.
Lemma lk_ret {A} h (a : A) : locks_to h h (mret a).
Proof. intros w b w' Hh [= _ <-]. done. Qed.
Lemma lk_gets {A} (f : World -> A) : balanced (gets f).
Proof. intros h w b w' Hh [= _ <-]. done. Qed.
Lemma lk_fail {A} h h' f : locks_to h h' (fail f : D A).
Proof. intros w b w' Hh [=]. Qed.
Lemma lk_bind {A B} h h1 h2 (m : D A) (k : A -> D B) :
  locks_to h h1 m -> (forall a, locks_to h1 h2 (k a)) -> locks_to h h2 (m ≫= k).
Proof.
  intros Hm Hk w b w' Hh. unfold mbind, M_bind. destruct (m w) as [a s|f] eqn:E; [|done].
  intros E2. eapply Hk; [|exact E2]. by eapply Hm.
Qed.
Lemma lk_bind_balanced {A B} h h2 (m : D A) (k : A -> D B) :
  balanced m -> (forall a, locks_to h h2 (k a)) -> locks_to h h2 (m ≫= k).
Proof. intros Hm Hk. eapply lk_bind; [apply Hm|done]. Qed.
Lemma lk_from_option {A} f (o : option A) : balanced (from_option f o : D A).
Proof. intros h. destruct o; [apply lk_ret|apply lk_fail]. Qed.
Lemma lk_when b (m : D unit) : balanced m -> balanced (when b m).
Proof. intros Hm h. destruct b; [apply Hm|apply lk_ret]. Qed.
Lemma lk_modify f : (forall w, held (f w) = held w) -> balanced (modify f).
Proof. intros Hf h w a w' Hh [= _ <-]. by rewrite Hf. Qed.
Lemma lk_ask {A} (f : nat -> A) : balanced (ask f).
Proof. intros h w a w' Hh [= _ <-]. done. Qed.
Lemma lk_mod_port p f : balanced (mod_port p f).
Proof. intros h w a w' Hh. unfold mod_port. destruct (ports w !! p); [|done]. by intros [= _ <-]. Qed.
Lemma lk_get_port p : balanced (get_port p).
Proof. intros h w a w' Hh. unfold get_port. destruct (ports w !! p); [|done]. by intros [= _ <-]. Qed.
Lemma lk_new_msg m : balanced (new_msg m).
Proof. intros h w a w' Hh [= _ <-]. done. Qed.
Lemma lk_get_msg q : balanced (get_msg q).
Proof. intros h w a w' Hh. unfold get_msg. destruct (heap w !! q); [|done]. by intros [= _ <-]. Qed.
Lemma lk_mod_msg q f : balanced (mod_msg q f).
Proof. intros h w a w' Hh. unfold mod_msg. destruct (heap w !! q); [|done]. by intros [= _ <-]. Qed.
Lemma lk_delete_msg q : balanced (delete_msg q).
Proof. intros h w a w' Hh. unfold delete_msg. destruct (heap w !! q); [|done]. by intros [= _ <-]. Qed.

Lemma lk_unlock l h : locks_to (l :: h) h (unlock l).
Proof. intros w a w' Hh. unfold unlock. rewrite Hh, release_head. by intros [= _ <-]. Qed.

Context `{!LocksGranted}.

(** A granted lock answers true. *)
Lemma lk_lock_bind {B} l h h2 (k : bool -> D B) :
  locks_to (l :: h) h2 (k true) -> locks_to h h2 (lock l ≫= k).
Proof.
  intros Hk w b w' Hh. unfold lock, ask, mbind, M_bind. rewrite lock_granted.
  intros E. eapply Hk; [|exact E]. cbn. by rewrite Hh.
Qed.
(** A lock that is tried for may be refused. *)
Lemma lk_trylock_bind {B} l h h2 (k : bool -> D B) :
  locks_to (l :: h) h2 (k true) -> locks_to h h2 (k false) -> locks_to h h2 (trylock l ≫= k).
Proof.
  intros Hk Hk' w b w' Hh. unfold trylock, ask, mbind, M_bind.
  destruct (env_trylock (tick w) l); intros E; [eapply Hk|eapply Hk']; try exact E; cbn; [|done].
  by rewrite Hh.
Qed.
Lemma lk_unlock_bind {B} l h h2 (k : bool -> D B) :
  (forall b, locks_to h h2 (k b)) -> locks_to (l :: h) h2 (unlock l ≫= k).
Proof. intros Hk. eapply lk_bind; [apply lk_unlock|done]. Qed.
End Rules.

Create HintDb locks discriminated.
#[export] Hint Resolve lk_gets lk_from_option lk_ask lk_mod_port lk_get_port lk_new_msg lk_get_msg
  lk_mod_msg lk_delete_msg : locks.
#[export] Hint Extern 2 (balanced (modify _)) => apply lk_modify; intros ?; reflexivity : locks.
#[export] Hint Unfold get_clock mod_clock emit cancelEvent addEvent : locks.

(** [lk] walks a handler; an operation of the database is balanced, the others
    are unfolded. *)
Ltac lk_unfold m :=
  let rec head t := lazymatch t with ?f _ => head f | _ => t end in
  let h := head m in unfold h.
Ltac lk :=
  repeat lazymatch goal with
  | |- balanced ?m =>
      first [ solve [auto 2 with locks] | intros ? ]
  | |- locks_to _ _ (mret _) => apply lk_ret
  | |- locks_to _ _ (fail _) => apply lk_fail
  | |- locks_to _ _ (if ?b then _ else _) => destruct b
  | |- locks_to _ _ (match ?x with _ => _ end) => destruct x
  | |- locks_to _ _ (lock _ ≫= _) => apply lk_lock_bind; cbn beta iota
  | |- locks_to _ _ (trylock _ ≫= _) => apply lk_trylock_bind; cbn beta iota
  | |- locks_to _ _ (unlock _ ≫= _) => apply lk_unlock_bind; intros ?
  | |- locks_to _ _ (unlock _) => apply lk_unlock
  | |- locks_to ?h _ (_ ≫= _) =>
      first [ apply lk_bind_balanced; [solve [auto 2 with locks]|intros ?]
            | eapply (lk_bind h h); [|intros ?] ]
  | |- locks_to ?h _ (when _ _) => apply lk_when
  | |- locks_to ?h ?h' ?m =>
      first [ solve [apply lk_ret] | (let H := fresh in assert (H : balanced m) by (auto 2 with locks); apply H)
            | lk_unfold m ]
  end.

Section Basic.
Context `{Env} `{!LocksGranted}.
Lemma lk_addLocked p e t : balanced (addEventTimerLocked p e t).
Proof. lk. Qed.
Lemma lk_deleteLocked p e : balanced (deleteEventTimerLocked p e).
Proof. lk. Qed.
Hint Resolve lk_addLocked lk_deleteLocked : locks.
Lemma lk_startSyncReceiptTimer p t : balanced (startSyncReceiptTimer p t).
Proof. lk. Qed.
Lemma lk_stopSyncReceiptTimer p : balanced (stopSyncReceiptTimer p).
Proof. lk. Qed.
Lemma lk_startSyncIntervalTimer p t : balanced (startSyncIntervalTimer p t).
Proof. lk. Qed.
Lemma lk_startAnnounceIntervalTimer p t : balanced (startAnnounceIntervalTimer p t).
Proof. lk. Qed.
End Basic.
#[export] Hint Resolve lk_addLocked lk_deleteLocked lk_startSyncReceiptTimer lk_stopSyncReceiptTimer
  lk_startSyncIntervalTimer lk_startAnnounceIntervalTimer : locks.

Section Handlers.
Context `{Env} `{!LocksGranted}.
Lemma lk_port_send p t b l mc d ts : balanced (port_send p t b l mc d ts).
Proof. lk. Qed.
Hint Resolve lk_port_send : locks.
Lemma lk_sendEventPort p t b l mc d : balanced (sendEventPort p t b l mc d).
Proof. lk. Qed.
Lemma lk_sendGeneralPort p t b l mc d : balanced (eth_sendGeneralPort p t b l mc d).
Proof. lk. Qed.
Lemma lk_getDeviceTime p : balanced (getDeviceTime p).
Proof. lk. Qed.
Hint Resolve lk_sendEventPort lk_sendGeneralPort lk_getDeviceTime : locks.
Lemma lk_send_test_status p : balanced (send_test_status p).
Proof. lk. Qed.
Lemma lk_startPDelay p : balanced (startPDelay p).
Proof. lk. Qed.
Hint Resolve lk_send_test_status lk_startPDelay : locks.
Lemma lk_eth_becomeMaster p b : balanced (eth_becomeMaster p b).
Proof. lk. Qed.
Lemma lk_eth_becomeSlave p b : balanced (eth_becomeSlave p b).
Proof. lk. Qed.
Lemma lk_avb_sync_step p : balanced (avb_sync_step p).
Proof. lk. Qed.
Hint Resolve lk_avb_sync_step : locks.
Lemma lk_eth_syncDone p : balanced (eth_syncDone p).
Proof. lk. Qed.
Lemma lk_tx_retry n p id mid r : balanced (tx_retry n p id mid r).
Proof. revert r. induction n as [|n IH]; intros r h; cbn [tx_retry]; lk. Qed.
Hint Resolve lk_tx_retry : locks.
Lemma lk_getTxTimestamp q p s : balanced (getTxTimestamp q p s).
Proof. lk. Qed.
Lemma lk_build_frame q : balanced (build_frame q).
Proof. lk. Qed.
Lemma lk_wl_becomeMaster p b : balanced (wl_becomeMaster p b).
Proof. lk. Qed.
Lemma lk_wl_becomeSlave p b : balanced (wl_becomeSlave p b).
Proof. lk. Qed.
Lemma lk_wl_processEvent p e : balanced (wl_processEvent p e).
Proof. lk. Qed.
End Handlers.
#[export] Hint Resolve lk_port_send lk_sendEventPort lk_sendGeneralPort lk_getDeviceTime
  lk_send_test_status lk_startPDelay lk_eth_becomeMaster lk_eth_becomeSlave lk_avb_sync_step
  lk_eth_syncDone lk_getTxTimestamp lk_build_frame lk_wl_becomeMaster lk_wl_becomeSlave
  lk_wl_processEvent : locks.

Definition is_ether (x : Port) : bool := match media x with Ether _ => true | Wireless _ => false end.
Lemma evolves_is_ether x x' : evolves x x' -> is_ether x' = is_ether x.
Proof.
  intros [Hc _]. unfold is_ether. unfold config in Hc.
  destruct (media x), (media x'); try done; congruence.
Qed.

Section TxLocks.
Context `{Env} `{!LocksGranted}.

Definition tx_locks (n : nat) (p : pid) (x : Port) : list LockId :=
  if is_ether x then replicate n (PortTxLock p) else [].

(** Nothing but the locks held and the answers consumed is different. *)
Definition only_locks (h : list LockId) (w w' : World) : Prop :=
  held w' = h /\ ports w' = ports w /\ clk w' = clk w /\ trace w' = trace w.

(** What taking and releasing the transmit lock of one port does. *)
Lemma m_getTxLock_run p x w : ports w !! p = Some x ->
  exists w', m_getTxLock p w = Done true w' /\ only_locks (tx_locks 1 p x ++ held w) w w'.
Proof.
  intros Hx. unfold m_getTxLock, media_dispatch, by_media, mbind, M_bind, get_port, tx_locks, is_ether.
  rewrite Hx. destruct (media x) as [e|wl]; [|by exists w].
  unfold eth_getTxLock, lock, ask, mbind, M_bind. rewrite lock_granted. by eexists.
Qed.
Lemma m_putTxLock_run p x w h : ports w !! p = Some x -> held w = tx_locks 1 p x ++ h ->
  exists w', m_putTxLock p w = Done (is_ether x) w' /\ only_locks h w w'.
Proof.
  intros Hx Hh. unfold m_putTxLock, media_dispatch, by_media, mbind, M_bind, get_port.
  rewrite Hx. unfold tx_locks, is_ether in *. destruct (media x) as [e|wl]; [|by exists w].
  unfold eth_putTxLock, unlock. rewrite Hh. cbn [replicate app]. rewrite release_head. by eexists.
Qed.

Definition get_body (p : pid) (_ : unit) : D (unit + unit) :=
  ok ← m_getTxLock p; mret (if (ok : bool) then inl tt else inr tt).
Definition put_body (p : pid) (_ : unit) : D (unit + unit) :=
  ok ← m_putTxLock p; mret (if (ok : bool) then inl tt else inr tt).

Lemma repeat_getTxLock n p x : forall w, ports w !! p = Some x ->
  exists a w', repeat_port n p get_body tt w = Done a w' /\
    only_locks (tx_locks n p x ++ held w) w w'.
Proof.
  induction n as [|n IH]; intros w Hx; cbn [repeat_port].
  - exists (inl tt), w. split; [done|]. unfold tx_locks. by destruct (is_ether x).
  - destruct (m_getTxLock_run p x w Hx) as (w1 & E & Hh & Hp & Hc & Ht).
    destruct (IH w1) as (a & w2 & E2 & Hh2 & Hp2 & Hc2 & Ht2); [by rewrite Hp|].
    assert (Eb : get_body p tt w = Done (inl tt) w1).
    { unfold get_body. by rewrite (bind_Done _ _ _ _ _ E). }
    exists a, w2. rewrite (bind_Done _ _ _ _ _ Eb). split; [done|]. unfold only_locks.
    rewrite Hh2, Hh, Hp2, Hp, Hc2, Hc, Ht2, Ht. split; [|done]. rewrite app_assoc. f_equal.
    unfold tx_locks. destruct (is_ether x); [|done]. rewrite <- replicate_add. f_equal. lia.
Qed.

Lemma repeat_putTxLock n p x : forall w h, ports w !! p = Some x ->
  held w = tx_locks n p x ++ h ->
  exists a w', repeat_port n p put_body tt w = Done a w' /\ only_locks h w w'.
Proof.
  induction n as [|n IH]; intros w h Hx Hh; cbn [repeat_port].
  - exists (inl tt), w. split; [done|]. unfold only_locks. rewrite Hh. unfold tx_locks.
    by destruct (is_ether x).
  - assert (Hh1 : held w = tx_locks 1 p x ++ (tx_locks n p x ++ h)).
    { rewrite Hh. unfold tx_locks. by destruct (is_ether x). }
    destruct (m_putTxLock_run p x w _ Hx Hh1) as (w1 & E & Hh2 & Hp & Hc & Ht).
    assert (Eb : put_body p tt w = Done (if is_ether x then inl tt else inr tt) w1).
    { unfold put_body. by rewrite (bind_Done _ _ _ _ _ E). }
    rewrite (bind_Done _ _ _ _ _ Eb). destruct (is_ether x) eqn:Ei.
    + destruct (IH w1 h) as (a & w2 & E2 & ? & Hp2 & Hc2 & Ht2); [by rewrite Hp|done|].
      exists a, w2. split; [done|]. unfold only_locks. by rewrite Hp2, Hp, Hc2, Hc, Ht2, Ht.
    + exists (inr tt), w1. split; [done|]. unfold only_locks, tx_locks in *.
      rewrite Ei in *. done.
Qed.
End TxLocks.

Lemma same_list_quiet {A} (m : D A) : keeps quiet m -> keeps same_list m.
Proof. apply keeps_weaken. intros w w' (Hc & _). unfold same_list. by rewrite Hc. Qed.

Section PhaseStep.
Context `{Env} `{!LocksGranted}.

Lemma same_list_getTxLock p : keeps same_list (m_getTxLock p).
Proof.
  apply same_list_quiet. unfold m_getTxLock, media_dispatch, by_media, eth_getTxLock. keeps_quiet.
Qed.
Lemma same_list_putTxLock p : keeps same_list (m_putTxLock p).
Proof.
  apply same_list_quiet. unfold m_putTxLock, media_dispatch, by_media, eth_putTxLock. keeps_quiet.
Qed.

Lemma lk_for_ports {A B} n j (body : pid -> A -> D (A + B)) a :
  (forall p a, balanced (body p a)) -> balanced (for_ports n j body a).
Proof. intros Hb. revert j a. induction n as [|n IH]; intros j a h; cbn [for_ports]; lk; auto. Qed.
Lemma lk_restartPDelayAll : balanced restartPDelayAll.
Proof. intros h. unfold restartPDelayAll. lk. apply lk_for_ports. intros q u. lk. Qed.
Lemma lk_adjustClockPhase p z : balanced (adjustClockPhase p z).
Proof. lk. Qed.
Hint Resolve lk_restartPDelayAll lk_adjustClockPhase : locks.

(** Between the two loops the registered ports and their classes stay. *)
Definition phase_middle (p : pid) (offset : Z) : D unit :=
  _ ← adjustClockPhase p (i64 (- offset));
  mod_clock (fun c => c <| _master_local_freq_offset_init := false |>);;
  restartPDelayAll.
Definition loop_state (c : Clock) := (number_ports c, port_list c).
Lemma loop_state_middle p offset w a w' :
  phase_middle p offset w = Done a w' -> loop_state (clk w') = loop_state (clk w).
Proof.
  intros E. assert (Hk : keeps world_evolves (phase_middle p offset)) by evolve.
  destruct (Hk _ _ _ E) as (_ & [Hc _] & _). unfold clock_config, loop_state in *. congruence.
Qed.

Definition first_port (c : Clock) : option (nat * pid) := skip_null 0 (port_list c).

Lemma get_body_same_list p u : keeps same_list (get_body p u).
Proof. apply keeps_bind; [apply _|apply same_list_getTxLock|intros; by apply keeps_ret, _]. Qed.
Lemma put_body_same_list p u : keeps same_list (put_body p u).
Proof. apply keeps_bind; [apply _|apply same_list_putTxLock|intros; by apply keeps_ret, _]. Qed.

(** The transmit locks of all ports: the first registered port's, as many
    times as ports are registered. *)
Lemma getTxLockAll_run w j q x :
  first_port (clk w) = Some (j, q) -> ports w !! q = Some x ->
  exists b w', getTxLockAll w = Done b w' /\
    only_locks (tx_locks (Z.to_nat (number_ports (clk w))) q x ++ held w) w w'.
Proof.
  intros Hs Hx.
  destruct (repeat_getTxLock (Z.to_nat (number_ports (clk w))) q x w Hx) as (a & w' & E & Ho).
  exists (match a with inl _ => true | inr _ => false end), w'. split; [|done].
  unfold getTxLockAll, mbind, M_bind, get_clock, gets.
  rewrite (for_ports_repeat get_body _ _ j q tt w get_body_same_list) by (by rewrite drop_0).
  by rewrite E.
Qed.

Lemma putTxLockAll_run w j q x h :
  first_port (clk w) = Some (j, q) -> ports w !! q = Some x ->
  held w = tx_locks (Z.to_nat (number_ports (clk w))) q x ++ h ->
  exists b w', putTxLockAll w = Done b w' /\ only_locks h w w'.
Proof.
  intros Hs Hx Hh. destruct (repeat_putTxLock _ q x w h Hx Hh) as (a & w' & E & Ho).
  exists (match a with inl _ => true | inr _ => false end), w'. split; [|done].
  unfold putTxLockAll, mbind, M_bind, get_clock, gets.
  rewrite (for_ports_repeat put_body _ _ j q tt w put_body_same_list) by (by rewrite drop_0).
  by rewrite E.
Qed.

(** The loop runs only when there is a first port, and it exists. *)
Lemma getTxLockAll_ports w b w' :
  getTxLockAll w = Done b w' -> (0 < Z.to_nat (number_ports (clk w)))%nat ->
  exists j q x, first_port (clk w) = Some (j, q) /\ ports w !! q = Some x.
Proof.
  unfold getTxLockAll, mbind, M_bind, get_clock, gets. intros E Hn.
  destruct (Z.to_nat (number_ports (clk w))) as [|n] eqn:En; [lia|]. unfold first_port.
  destruct (skip_null 0 (port_list (clk w))) as [[j q]|] eqn:Es; [|by rewrite for_ports_none in E].
  exists j, q. destruct (ports w !! q) as [x|] eqn:Ex; [by exists x|].
  rewrite (for_ports_repeat get_body _ _ j q tt w get_body_same_list) in E by (by rewrite drop_0).
  cbn [repeat_port] in E. unfold get_body, m_getTxLock, media_dispatch, by_media, get_port in E.
  unfold mbind, M_bind in E. by rewrite Ex in E.
Qed.

Lemma lk_locked_middle p offset w b w' :
  (_ ← getTxLockAll; phase_middle p offset;; _ ← putTxLockAll; mret tt) w = Done b w' ->
  held w' = held w.
Proof.
  unfold mbind, M_bind. destruct (getTxLockAll w) as [b2 w2|f] eqn:E1; [|done].
  destruct (phase_middle p offset w2) as [[] w3|f] eqn:E3; [|done].
  destruct (putTxLockAll w3) as [b4 w4|f] eqn:E4; [|done]. intros [= _ <-].
  assert (Hmid : balanced (phase_middle p offset)) by (intros ?; unfold phase_middle; lk).
  pose proof (Hmid (held w2) w2 tt w3 eq_refl E3) as Hheld.
  pose proof (loop_state_middle _ _ _ _ _ E3) as Hls. injection Hls as Hnp Hpl.
  destruct (Z.to_nat (number_ports (clk w))) as [|n] eqn:En.
  - unfold getTxLockAll, mbind, M_bind, get_clock, gets in E1. rewrite En in E1. injection E1 as _ <-.
    unfold putTxLockAll, mbind, M_bind, get_clock, gets in E4. rewrite Hnp, En in E4.
    injection E4 as _ <-. done.
  - destruct (getTxLockAll_ports _ _ _ E1) as (j & q & x & Hs & Hx); [lia|].
    destruct (getTxLockAll_run w j q x Hs Hx) as (b' & w2' & E1' & Hh & Hp & Hc & _).
    rewrite E1 in E1'. injection E1' as <- <-.
    assert (Hev : keeps world_evolves (phase_middle p offset)) by evolve.
    destruct (Hev _ _ _ E3) as [[_ Hx3] _]. rewrite <- Hp in Hx.
    destruct (Hx3 q x Hx) as (x' & Hx' & He%evolves_is_ether).
    destruct (putTxLockAll_run w3 j q x' (held w)) as (b5 & w5 & E5 & Ho); [|done| |].
    + unfold first_port in *. by rewrite Hpl, Hc.
    + rewrite Hheld, Hh, Hnp, Hc. unfold tx_locks. by rewrite He.
    + rewrite E4 in E5. injection E5 as <- <-. apply Ho.
Qed.

Lemma lk_phase_step p offset : balanced (phase_step p offset).
Proof.
  intros h w a w' Hh E. rewrite <- Hh.
  change (held w) with (held (w <| clk := clk w <| _new_syntonization_set_point := false |>
                                                 <| _phase_error_violation := 0 |> |>)).
  apply (lk_locked_middle p offset _ tt). destruct a. rewrite <- E.
  unfold phase_step, phase_middle, mod_clock, modify, mbind, M_bind.
  destruct (getTxLockAll _) as [b2 w2|f]; [|done].
  destruct (adjustClockPhase _ _ w2) as [b3 w3|f]; [|done].
  by destruct (restartPDelayAll _) as [[] w4|f].
Qed.
Hint Resolve lk_phase_step : locks.
Lemma lk_setMasterOffset p ms : balanced (setMasterOffset p ms).
Proof. lk. Qed.
End PhaseStep.
#[export] Hint Resolve lk_setMasterOffset : locks.

(** ** The message and event handlers *)

#[export] Hint Unfold eth_getTxLock eth_putTxLock tryPDelayRxLock putPDelayRxLock : locks.

Section MessageLocks.
Context `{Env} `{!LocksGranted}.

Lemma lk_by_media {A} p (m1 m2 : D A) : balanced m1 -> balanced m2 -> balanced (by_media p m1 m2).
Proof. intros H1 H2 h. unfold by_media. lk. Qed.

Lemma lk_m_becomeMaster p b : balanced (m_becomeMaster p b).
Proof. apply lk_by_media; auto with locks. Qed.
Lemma lk_m_becomeSlave p b : balanced (m_becomeSlave p b).
Proof. apply lk_by_media; auto with locks. Qed.
Lemma lk_m_syncDone p : balanced (m_syncDone p).
Proof. apply lk_by_media; auto with locks. intros h. apply lk_ret. Qed.
Lemma lk_eth_startPDelayIntervalTimer p t : balanced (eth_startPDelayIntervalTimer p t).
Proof. lk. Qed.
Hint Resolve lk_eth_startPDelayIntervalTimer : locks.
Lemma lk_m_startPDelayIntervalTimer p t : balanced (m_startPDelayIntervalTimer p t).
Proof. apply lk_by_media; auto with locks. intros h. apply lk_ret. Qed.
Lemma lk_wl_sendGeneralPort p t b l mc d : balanced (wl_sendGeneralPort p t b l mc d).
Proof. lk. Qed.
Lemma lk_m_sendGeneralPort p t b l mc d : balanced (m_sendGeneralPort p t b l mc d).
Proof. apply lk_by_media; auto with locks. apply lk_wl_sendGeneralPort. Qed.
Hint Resolve lk_m_becomeMaster lk_m_becomeSlave lk_m_syncDone lk_m_startPDelayIntervalTimer
  lk_m_sendGeneralPort : locks.

Lemma lk_pdelay_resp_sendPort q p d : balanced (pdelay_resp_sendPort q p d).
Proof. lk. Qed.
Lemma lk_pdelay_resp_followup_sendPort q p d : balanced (pdelay_resp_followup_sendPort q p d).
Proof. lk. Qed.
Hint Resolve lk_pdelay_resp_sendPort lk_pdelay_resp_followup_sendPort : locks.
Lemma lk_pdelay_req_respond p q : balanced (pdelay_req_respond p q).
Proof. intros h. unfold pdelay_req_respond, eth_getTxLock, eth_putTxLock. lk. Qed.
Hint Resolve lk_pdelay_req_respond : locks.
Lemma lk_pdelay_req_process p q : balanced (pdelay_req_process p q).
Proof. lk. Qed.
Lemma lk_pdelay_resp_process p q : balanced (pdelay_resp_process p q).
Proof.
  intros h. unfold pdelay_resp_process, pdelay_resp_store, tryPDelayRxLock, putPDelayRxLock. lk.
Qed.
Lemma lk_followup_pair p q : balanced (followup_pair p q).
Proof. lk. Qed.
Hint Resolve lk_followup_pair : locks.
Lemma lk_pdelay_resp_followup_process p q : balanced (pdelay_resp_followup_process p q).
Proof.
  intros h. unfold pdelay_resp_followup_process, followup_locked, tryPDelayRxLock, putPDelayRxLock. lk.
Qed.
Lemma lk_announce_process p q : balanced (announce_process p q).
Proof. lk. Qed.
Lemma lk_sync_process p q : balanced (sync_process p q).
Proof. lk. Qed.
Lemma lk_followup_process_at p q t : balanced (followup_process_at p q t).
Proof. lk. Qed.
Hint Resolve lk_followup_process_at : locks.
Lemma lk_followup_process p q : balanced (followup_process p q).
Proof. lk. Qed.
Lemma lk_signalling_process p q : balanced (signalling_process p q).
Proof. lk. Qed.
End MessageLocks.
#[export] Hint Resolve lk_m_becomeMaster lk_m_becomeSlave lk_m_syncDone lk_m_startPDelayIntervalTimer
  lk_m_sendGeneralPort lk_pdelay_req_process lk_pdelay_resp_process lk_pdelay_resp_followup_process
  lk_announce_process lk_sync_process lk_followup_process lk_signalling_process lk_followup_process_at
  lk_eth_startPDelayIntervalTimer : locks.

Section EventLocks.
Context `{Env} `{!LocksGranted}.

Lemma lk_send_signalling p a b c : balanced (send_signalling p a b c).
Proof. lk. Qed.
Hint Resolve lk_send_signalling : locks.
Lemma lk_request_intervals p : balanced (request_intervals p).
Proof. lk. Qed.
Hint Resolve lk_request_intervals : locks.
Lemma lk_eth_on_initialize p : balanced (eth_on_initialize p).
Proof. lk. Qed.
Lemma lk_eth_on_linkup p : balanced (eth_on_linkup p).
Proof. lk. Qed.
Lemma lk_eth_on_linkdown p : balanced (eth_on_linkdown p).
Proof. lk. Qed.
Lemma lk_eth_on_receipt_timeout p e : balanced (eth_on_receipt_timeout p e).
Proof. lk. Qed.
Lemma lk_pdelay_req_sendPort q p d : balanced (pdelay_req_sendPort q p d).
Proof. lk. Qed.
Lemma lk_sync_sendPort q p d : balanced (sync_sendPort q p d).
Proof. lk. Qed.
Lemma lk_send_followup p q : balanced (send_followup p q).
Proof. lk. Qed.
Lemma lk_PTPMessagePathDelayReq_new p : balanced (PTPMessagePathDelayReq_new p).
Proof. lk. Qed.
Lemma lk_PTPMessageSync_new p : balanced (PTPMessageSync_new p).
Proof. lk. Qed.
Hint Resolve lk_pdelay_req_sendPort lk_sync_sendPort lk_send_followup
  lk_PTPMessagePathDelayReq_new lk_PTPMessageSync_new : locks.
Lemma lk_eth_on_pdelay_interval p : balanced (eth_on_pdelay_interval p).
Proof. intros h. unfold eth_on_pdelay_interval, eth_getTxLock, eth_putTxLock. lk. Qed.
Lemma lk_eth_on_sync_interval p : balanced (eth_on_sync_interval p).
Proof. intros h. unfold eth_on_sync_interval, eth_getTxLock, eth_putTxLock. lk. Qed.
Lemma lk_eth_on_deferred p : balanced (eth_on_deferred p).
Proof.
  intros h. unfold eth_on_deferred. apply lk_lock_bind. lk.
Qed.
Lemma lk_eth_on_sync_rate_timeout p : balanced (eth_on_sync_rate_timeout p).
Proof. lk. Qed.
Hint Resolve lk_eth_on_initialize lk_eth_on_linkup lk_eth_on_linkdown lk_eth_on_receipt_timeout
  lk_eth_on_pdelay_interval lk_eth_on_sync_interval lk_eth_on_deferred
  lk_eth_on_sync_rate_timeout : locks.
Lemma lk_eth_processEvent p e : balanced (eth_processEvent p e).
Proof. destruct e; lk. Qed.
Hint Resolve lk_eth_processEvent : locks.
Lemma lk_m_processEvent p e : balanced (m_processEvent p e).
Proof. apply lk_by_media; auto with locks. Qed.
Hint Resolve lk_m_processEvent : locks.

Lemma lk_ebest_step p b : balanced (ebest_step p b).
Proof. lk. Qed.
Lemma lk_recommendState p s b : balanced (recommendState p s b).
Proof. lk. Qed.
Hint Resolve lk_ebest_step lk_recommendState : locks.
Lemma lk_decide_port c p b : balanced (decide_port c p b).
Proof. lk. Qed.
Hint Resolve lk_decide_port : locks.
Lemma lk_find_ebest : balanced find_ebest.
Proof. intros h. unfold find_ebest. lk. apply lk_for_ports. intros q u. lk. Qed.
Lemma lk_decide_ports c b : balanced (decide_ports c b).
Proof. intros h. unfold decide_ports. lk. apply lk_for_ports. intros q u. lk. Qed.
Hint Resolve lk_find_ebest lk_decide_ports : locks.
Lemma lk_processStateChange p : balanced (processStateChange p).
Proof. lk. Qed.
Lemma lk_processSyncAnnounceTimeout p e : balanced (processSyncAnnounceTimeout p e).
Proof. lk. Qed.
Lemma lk_on_initialize p e : balanced (on_initialize p e).
Proof. lk. Qed.
Lemma lk_on_announce_interval p : balanced (on_announce_interval p).
Proof. lk. Qed.
Lemma lk_on_sync_interval p e : balanced (on_sync_interval p e).
Proof. lk. Qed.
Hint Resolve lk_processStateChange lk_processSyncAnnounceTimeout lk_on_initialize
  lk_on_announce_interval lk_on_sync_interval : locks.
Lemma lk_processEvent p e : balanced (processEvent p e).
Proof. destruct e; lk. Qed.
Hint Resolve lk_processEvent : locks.

Lemma lk_rx_retry n p id mid r : balanced (rx_retry n p id mid r).
Proof. revert r. induction n as [|n IH]; intros r h; cbn [rx_retry]; lk. Qed.
Hint Resolve lk_rx_retry : locks.
Lemma lk_rx_timestamp p id mid : balanced (rx_timestamp p id mid).
Proof. lk. Qed.
Hint Resolve lk_rx_timestamp : locks.
Lemma lk_buildPTPMessage p b n r : balanced (buildPTPMessage p b n r).
Proof. lk. Qed.
Lemma lk_processMessage p q : balanced (processMessage p q).
Proof. lk. Qed.
Hint Resolve lk_buildPTPMessage lk_processMessage : locks.
Lemma lk_eth_receive p b n r s : balanced (eth_receive p b n r s).
Proof. lk. Qed.
Lemma lk_wl_receive p b n r : balanced (wl_receive p b n r).
Proof. lk. Qed.
Hint Resolve lk_eth_receive lk_wl_receive : locks.
Lemma lk_fire i : balanced (fire i).
Proof.
  intros h w a w' Hh. unfold fire. destruct (timers w !! i) as [t|]; [|by intros [= _ <-]].
  match goal with |- ?m w = _ -> _ => assert (Hm : locks_to h h m) by lk end.
  by apply (Hm w a w').
Qed.
Hint Resolve lk_fire : locks.
Lemma lk_confirm p d : balanced (timingMeasurementConfirmCB p d).
Proof. lk. Qed.
Lemma lk_indication p a c d b n : balanced (timeMeasurementIndicationCB p a c d b n).
Proof. lk. Qed.
Hint Resolve lk_confirm lk_indication : locks.
Lemma lk_daemon_step i : balanced (daemon_step i).
Proof. destruct i; cbn [daemon_step]; try apply lk_by_media; intros ?; lk. Qed.
Lemma lk_daemon_run inputs : balanced (daemon_run inputs).
Proof.
  induction inputs as [|i inputs IH]; intros h; cbn [daemon_run]; [apply lk_ret|].
  apply lk_bind_balanced; [apply lk_daemon_step|intros _; apply IH].
Qed.
End EventLocks.


