(* ===== verification/ServoTheory.v ===== *)
(** * What the servo does

    [setMasterOffset] on every branch (Servo.v), and the two rate estimators
    (Clock.v). *)

From Stdlib Require Import ZArith Lia.
From Stdlib.Floats Require Import SpecFloat.
From stdpp Require Import base gmap list.
From S2P Require Import Prelude Timestamp CFloat Identity Message Wire World Loops Clock Port Media Runs Ether Servo Transmit PDelay Sync CommonPort Receive Wireless Dispatch Fixture Evolution Locks.

(** ** The clock after a measure *)

Definition published (ms : Measure) (c : Clock) : Clock :=
  c <| _master_local_freq_offset := master_local_freq_offset ms |>
    <| _local_system_freq_offset := local_system_freq_offset ms |>.
Definition stepped (c : Clock) : Clock :=
  c <| _new_syntonization_set_point := false |> <| _phase_error_violation := 0 |>
    <| _master_local_freq_offset_init := false |>.
Definition steered (log offset : Z) (ratio : spec_float) (c : Clock) : Clock :=
  let s := servo_step c log (fl_of_Z fmt_ldouble (i64 (- offset))) ratio in
  c <| _phase_error_violation := s.1 |> <| _ppm := clamp_ppm s.2 |>.

(** The measure of a clock that is its own master. *)
Definition neutral (ms : Measure) : bool :=
  (master_local_offset ms =? 0) && SFeqb (master_local_freq_offset ms) ratio_one.

Definition measured (c : Clock) (log : Z) (ms : Measure) : Clock :=
  if neutral ms || negb (_syntonize c) then published ms c
  else if step_pending c then
    steered log 0 (master_local_freq_offset ms) (stepped (published ms c))
  else steered log (master_local_offset ms) (master_local_freq_offset ms) (published ms c).

(** ** What it tells the environment *)

Definition ipc_effects (c : Clock) (x : Port) (ms : Measure) : list Effect :=
  if ipc c then
    [ EIpcUpdate (master_local_offset ms) (local_system_offset ms)
        (master_local_freq_offset ms) (local_system_freq_offset ms)
        (TIMESTAMP_TO_NS (ms_local_time ms)) (sync_count x) (pdelay_count x)
        (port_state x) (asCapable x);
      EIpcGrandmaster (grandmaster_clock_identity c) (domain_number c);
      EIpcInterface (clock_identity c) (priority1 c) (clock_quality c) (priority2 c)
        (domain_number c) (log_mean_sync_interval x) (log_mean_announce_interval x) 0
        (portNumber (port_identity x)) ]
  else [].

Definition servo_effects (p : pid) (c c' : Clock) (ms : Measure) : list Effect :=
  if neutral ms || negb (_syntonize c) then []
  else (if step_pending c then [EAdjustClockPhase p (i64 (- master_local_offset ms))] else [])
       ++ [EAdjustClockRate p (fl_cvt fmt_float (fl_cvt fmt_ldouble (_ppm c')))].

Section Servo.
Context `{Env} `{!LocksGranted}.

Lemma ipc_update_run p ms x w : ports w !! p = Some x ->
  ipc_update p ms w = Done tt (w <| trace := trace w ++ ipc_effects (clk w) x ms |>).
Proof.
  intros Hx. unfold ipc_update, mbind, M_bind, get_clock, gets, ipc_effects.
  rewrite (run_get_port _ _ _ Hx). destruct (ipc (clk w)); cbn.
  - unfold emit, modify. cbn. by rewrite <- !app_assoc.
  - rewrite app_nil_r. by destruct w.
Qed.

Lemma adjust_phase_run p v x w : ports w !! p = Some x -> _hw_timestamper x <> NoTimestamper ->
  exists b, adjustClockPhase p v w =
    Done b (w <| tick := S (tick w) |> <| trace := trace w ++ [EAdjustClockPhase p v] |>).
Proof.
  intros Hx Hh. unfold adjustClockPhase, mbind, M_bind. rewrite (run_get_port _ _ _ Hx).
  destruct (_hw_timestamper x); [done|..]; by eexists.
Qed.
Lemma adjust_rate_run p v x w : ports w !! p = Some x -> _hw_timestamper x <> NoTimestamper ->
  exists b, adjustClockRate p v w =
    Done b (w <| tick := S (tick w) |>
              <| trace := trace w ++ [EAdjustClockRate p (fl_cvt fmt_float v)] |>).
Proof.
  intros Hx Hh. unfold adjustClockRate, mbind, M_bind. rewrite (run_get_port _ _ _ Hx).
  destruct (_hw_timestamper x); [done|..]; by eexists.
Qed.

Lemma steer_run p offset ratio x w :
  ports w !! p = Some x -> _hw_timestamper x <> NoTimestamper ->
  let c' := steered (log_mean_sync_interval x) offset ratio (clk w) in
  steer p offset ratio w =
  Done tt (w <| clk := c' |> <| tick := S (tick w) |>
             <| trace := trace w ++
                  [EAdjustClockRate p (fl_cvt fmt_float (fl_cvt fmt_ldouble (_ppm c')))] |>).
Proof.
  intros Hx Hh c'. unfold steer. rewrite (bind_Done _ _ _ _ _ (run_get_clock w)).
  rewrite (bind_Done _ _ _ _ _ (run_get_port _ _ _ Hx)). cbv zeta.
  rewrite (bind_Done _ _ _ _ _ (run_mod_clock _ _)).
  lazymatch goal with |- (adjustClockRate p ?v ≫= _) ?ww = _ =>
    destruct (adjust_rate_run p v x ww Hx Hh) as [b E] end.
  rewrite (bind_Done _ _ _ _ _ E). reflexivity.
Qed.

(** The loop that restarts the peer rate estimation. *)
Lemma repeat_restart n q : forall y w, ports w !! q = Some y ->
  repeat_port n q (fun p (_ : unit) => restartPDelay p;; mret (inl tt : unit + unit)) tt w =
  Done (inl tt) (match n with
                 | O => w
                 | _ => w <| ports := <[q := y <| _peer_offset_init := false |>]> (ports w) |>
                 end).
Proof.
  induction n as [|n IH]; intros y w Hy; [done|]. cbn [repeat_port]. unfold mbind, M_bind, restartPDelay.
  rewrite (run_mod_port _ _ _ _ Hy). unfold mret, M_ret.
  erewrite IH by (cbn; by eapply lookup_insert_port). destruct n; [done|].
  destruct w. cbn. by rewrite list_insert_insert_eq.
Qed.

Lemma restartPDelayAll_run w j q y : first_port (clk w) = Some (j, q) -> ports w !! q = Some y ->
  restartPDelayAll w =
  Done tt (if (0 <? Z.to_nat (number_ports (clk w)))%nat
           then w <| ports := <[q := y <| _peer_offset_init := false |>]> (ports w) |> else w).
Proof.
  intros Hs Hy. unfold restartPDelayAll, mbind at 1 2, M_bind at 1 2, get_clock, gets.
  rewrite (for_ports_repeat _ _ _ j q tt w); [|intros r u|by rewrite drop_0].
  - rewrite (repeat_restart _ _ y w Hy). by destruct (Z.to_nat _).
  - intros s b s'. unfold restartPDelay, mbind, M_bind, mod_port.
    destruct (ports s !! r); [|done]. by intros [= _ <-].
Qed.
End Servo.

(** ** setMasterOffset *)

Section Measure.
Context `{Env} `{!LocksGranted}.

(** The step on a port [q] that is the first registered one. *)
Lemma phase_step_run p offset w x j q y :
  ports w !! p = Some x -> _hw_timestamper x <> NoTimestamper ->
  first_port (clk w) = Some (j, q) -> ports w !! q = Some y -> 0 < number_ports (clk w) ->
  exists w', phase_step p offset w = Done tt w' /\
    clk w' = stepped (clk w) /\ held w' = held w /\
    ports w' = <[q := y <| _peer_offset_init := false |>]> (ports w) /\
    trace w' = trace w ++ [EAdjustClockPhase p (i64 (- offset))].
Proof.
  intros Hx Hh Hs Hy Hn. unfold phase_step.
  rewrite (bind_Done _ _ _ _ _ (run_mod_clock _ _)).
  set (w0 := w <| clk := _ |>).
  destruct (getTxLockAll_run w0 j q y Hs Hy) as (b1 & w1 & E1 & Hh1 & Hp1 & Hc1 & Ht1).
  rewrite (bind_Done _ _ _ _ _ E1).
  destruct (adjust_phase_run p (i64 (- offset)) x w1) as [b2 E2]; [by rewrite Hp1|done|].
  rewrite (bind_Done _ _ _ _ _ E2), (bind_Done _ _ _ _ _ (run_mod_clock _ _)).
  set (w3 := _ <| clk := _ |>).
  assert (Hs3 : first_port (clk w3) = Some (j, q)) by (cbn; rewrite Hc1; done).
  assert (Hy3 : ports w3 !! q = Some y) by (cbn; rewrite Hp1; done).
  rewrite (bind_Done _ _ _ _ _ (restartPDelayAll_run w3 j q y Hs3 Hy3)).
  assert (Hn3 : number_ports (clk w3) = number_ports (clk w)) by (cbn; by rewrite Hc1).
  rewrite Hn3, (proj2 (Nat.ltb_lt _ _)) by lia.
  set (w4 := w3 <| ports := _ |>).
  destruct (putTxLockAll_run w4 j q (y <| _peer_offset_init := false |>) (held w))
    as (b5 & w5 & E5 & Hh5 & Hp5 & Hc5 & Ht5); [done|cbn; by eapply lookup_insert_port| |].
  { change (held w4) with (held w1). rewrite Hh1. change (clk w4) with (clk w3). by rewrite Hn3. }
  exists w5. rewrite (bind_Done _ _ _ _ _ E5). split; [done|].
  rewrite Hh5, Hp5, Hc5, Ht5. cbn. by rewrite Hc1, Hp1, Ht1.
Qed.

(** One run of the servo. *)
Lemma setMasterOffset_run p ms w x j q y :
  ports w !! p = Some x -> _hw_timestamper x <> NoTimestamper ->
  first_port (clk w) = Some (j, q) -> ports w !! q = Some y -> 0 < number_ports (clk w) ->
  returns (setMasterOffset p ms) w (fun _ w' =>
    clk w' = measured (clk w) (log_mean_sync_interval x) ms /\
    trace w' = trace w ++ ipc_effects (clk w) x ms ++ servo_effects p (clk w) (clk w') ms /\
    ports w' = (if negb (neutral ms) && _syntonize (clk w) && step_pending (clk w)
                then <[q := y <| _peer_offset_init := false |>]> (ports w) else ports w) /\
    held w' = held w).
Proof.
  intros Hx Hh Hs Hy Hn. unfold setMasterOffset, measured, servo_effects.
  eapply returns_step; [apply run_mod_clock|].
  set (w0 := w <| clk := _ |>).
  eapply returns_step; [by apply (ipc_update_run p ms x w0)|].
  set (w1 := w0 <| trace := _ |>). change (clk w0) with (published ms (clk w)) in w1.
  fold (neutral ms). destruct (neutral ms); cbn [orb negb andb].
  { unfold returns, mret, M_ret. cbn. by rewrite app_nil_r. }
  eapply returns_step; [apply run_get_clock|]. change (_syntonize (clk w1)) with (_syntonize (clk w)).
  change (step_pending (clk w1)) with (step_pending (clk w)).
  destruct (_syntonize (clk w)); cbn [when orb negb andb].
  2:{ unfold returns, mret, M_ret. cbn. by rewrite app_nil_r. }
  destruct (step_pending (clk w)).
  - destruct (phase_step_run p (master_local_offset ms) w1 x j q y Hx Hh Hs Hy Hn)
      as (w2 & E2 & Hc2 & Hh2 & Hp2 & Ht2).
    eapply returns_step; [exact E2|].
    assert (Hx2 : exists x2, ports w2 !! p = Some x2 /\ _hw_timestamper x2 <> NoTimestamper /\
              log_mean_sync_interval x2 = log_mean_sync_interval x).
    { rewrite Hp2. cbn. destruct (decide (p = q)) as [->|Hne].
      - eexists. split; [by eapply lookup_insert_port|]. replace y with x by congruence. done.
      - exists x. by rewrite list_lookup_insert_ne. }
    destruct Hx2 as (x2 & Hx2 & Hhw2 & Hl2). unfold returns.
    rewrite (steer_run p 0 _ x2 w2 Hx2 Hhw2), Hl2. cbn.
    rewrite Hc2, Ht2, Hp2, Hh2. cbn. by rewrite <- !app_assoc.
  - unfold returns. rewrite (steer_run p _ _ x w1 Hx Hh). cbn. by rewrite <- !app_assoc.
Qed.

End Measure.

(** A clock at a new set point measures 5 us. *)
Definition step_world : World :=
  world0 <| clk := clk world0 <| _new_syntonization_set_point := true |> |>.
Definition step_measure : Measure :=
  mkMeasure 5000 (timestamp 0 100 0) ratio_one 0 ratio_one.


(** ** The rate estimators *)

(** What the estimators take for granted of a time: its nanoseconds fit. *)
Definition time_ok (t : Timestamp) : Prop := ts_wf t /\ ts_val t < 2 ^ 64.

Lemma elapsed a b : time_ok a -> time_ok b -> ts_val a <= ts_val b ->
  u64 (TIMESTAMP_TO_NS b - TIMESTAMP_TO_NS a) = ts_val b - ts_val a /\ 0 <= ts_val b - ts_val a < 2 ^ 64.
Proof.
  intros [Ha Ba] [Hb Bb] Hle. rewrite !TIMESTAMP_TO_NS_val by done.
  assert (0 <= ts_val a) by (destruct Ha; ts_lia).
  split; [|lia]. apply uwrap_small. unfold fits. lia.
Qed.

(** C37: the master's rate.  The first measure after a start or a jump yields 1
    and is remembered; a later one yields the master's elapsed nanoseconds over
    the local ones, computed without wrap-around, which is exactly 1 when the
    two clocks advance alike, and 1 when the local clock did not advance; a
    master that goes backwards yields the negative-jump value and makes the
    next measure, whatever it is, a first one. *)
Theorem calcMasterLocal_spec c m s :
  time_ok m -> time_ok s -> time_ok (_prev_master_time c) -> time_ok (_prev_sync_time c) ->
  ts_val (_prev_sync_time c) <= ts_val s ->
  let rebased := c <| _prev_sync_time := s |> <| _prev_master_time := m |> in
  let dm := ts_val m - ts_val (_prev_master_time c) in
  let ds := ts_val s - ts_val (_prev_sync_time c) in
  (_master_local_freq_offset_init c = false ->
   calcMasterLocal c m s = (ratio_one, rebased <| _master_local_freq_offset_init := true |>)) /\
  (_master_local_freq_offset_init c = true -> 0 <= dm ->
   calcMasterLocal c m s =
     (if ds =? 0 then ratio_one
      else if dm =? ds then ratio_one
      else fl_div fmt_ldouble (fl_of_Z fmt_ldouble dm) (fl_of_Z fmt_ldouble ds), rebased)) /\
  (_master_local_freq_offset_init c = true -> dm < 0 ->
   exists c', calcMasterLocal c m s = (NEGATIVE_TIME_JUMP, c') /\
     forall m' s', (calcMasterLocal c' m' s').1 = ratio_one).
Proof.
  intros Hm Hs Hpm Hps Hle rebased dm ds. unfold calcMasterLocal.
  destruct (elapsed _ _ Hps Hs Hle) as [-> Hds]. fold ds.
  split; [|split].
  - intros ->. done.
  - intros -> Hdm. cbn [negb]. destruct (elapsed (_prev_master_time c) m) as [-> Hd]; [done..|lia|].
    fold dm in Hd |- *. rewrite !TIMESTAMP_TO_NS_val by (apply Hm || apply Hpm).
    destruct (Z.ltb_spec (ts_val m) (ts_val (_prev_master_time c))); [lia|]. f_equal.
    unfold rate_ratio. destruct (Z.eqb_spec ds 0); [done|].
    destruct (Z.eqb_spec dm ds) as [->|]; [|done]. apply fl_div_self. lia.
  - intros -> Hdm. cbn [negb]. rewrite !TIMESTAMP_TO_NS_val by (apply Hm || apply Hpm).
    destruct (Z.ltb_spec (ts_val m) (ts_val (_prev_master_time c))); [|lia].
    eexists. split; [done|]. done.
Qed.

Definition rate_clock : Clock :=
  clk world0 <| _prev_master_time := timestamp 0 100 0 |> <| _prev_sync_time := timestamp 0 50 0 |>
    <| _master_local_freq_offset_init := true |>.

Lemma calcMasterLocal_spec_witness :
  (calcMasterLocal rate_clock (timestamp 7 101 0) (timestamp 7 51 0)).1 = ratio_one.
Proof.
  assert (W : forall n s, fits 32 n -> 0 <= s < 1000 -> time_ok (timestamp n s 0)).
  { intros n s Hn Hs. split; [constructor|]; unfold ts_val, ts_secs, NS_PER_SECOND, fits in *; cbn in *; lia. }
  assert (F : fits 32 0 /\ fits 32 7) by (unfold fits; lia).
  destruct (calcMasterLocal_spec rate_clock (timestamp 7 101 0) (timestamp 7 51 0)) as (_ & Hr & _).
  1-4: (apply W; [apply F|lia]).
  - by vm_compute.
  - rewrite (Hr eq_refl); [by vm_compute|by vm_compute].
Defined.
