(* ===== verification/BestMaster.v ===== *)
(** * The best master decision

    The comparison of the clock with an announcement, and what a state change
    and a receipt timeout do to the ports and to the grandmaster's data set
    (CommonPort.v, Clock.v). *)

From Stdlib Require Import ZArith Lia.
From Stdlib.Floats Require Import SpecFloat.
From stdpp Require Import base gmap list.
From S2P Require Import Prelude Timestamp CFloat Identity Message Wire World Loops Clock Port Media Runs Ether Servo Transmit PDelay Sync CommonPort Receive Wireless Dispatch Fixture Evolution Locks.

(** ** The comparison *)

Definition clock_wf (c : Clock) : Prop :=
  octet (priority1 c) /\ octet (priority2 c) /\ quality_wf (clock_quality c) /\
  cid_wf (clock_identity c).

(** The clock is better than an announcement exactly when its own (priority
    1, class, accuracy, variance, priority 2, identity) precedes the
    announced grandmaster's in lexicographic order, and better than no
    announcement; it is never both better and worse, and neither only when the
    announced data set is its own. *)
Theorem clock_isBetterThan_spec c a :
  clock_wf c -> annc_wf a ->
  clock_isBetterThan c None = true /\
  (clock_isBetterThan c (Some a) = true <->
   lex_lt (bmca_tuple (priority1 c) (clock_quality c) (priority2 c) (clock_identity c))
          (bmca_tuple (grandmasterPriority1 a) (grandmasterClockQuality a)
             (grandmasterPriority2 a) (grandmasterIdentity a))) /\
  (clock_isBetterThan c (Some a) = false <->
   clock_key c = annc_key a \/
   lex_lt (bmca_tuple (grandmasterPriority1 a) (grandmasterClockQuality a)
             (grandmasterPriority2 a) (grandmasterIdentity a))
          (bmca_tuple (priority1 c) (clock_quality c) (priority2 c) (clock_identity c))).
Proof.
  intros (C1 & C2 & C3 & C4) (A1 & A2 & A3 & A4). split; [done|].
  pose proof (bmca_key_wf _ _ _ _ C1 C2 C3 C4) as Hc.
  pose proof (bmca_key_wf _ _ _ _ A1 A2 A3 A4) as Ha.
  cbn [clock_isBetterThan]. unfold clock_key, annc_key.
  split; [by apply bmca_key_lt|]. rewrite <- bmca_key_lt by done. split.
  - intros Hn. destruct (oo_total (eqb := mem_eq) (gtb := mem_gt) _ _ Hc Ha) as [H|[H|H]]; [|by left|by right].
    congruence.
  - intros [->|Hl].
    + by apply (oo_irrefl (eqb := mem_eq) (gtb := mem_gt) _ Ha).
    + destruct (mem_lt (bmca_key (priority1 c) _ _ _) _) eqn:E; [|done]. exfalso.
      pose proof (oo_trans (eqb := mem_eq) (gtb := mem_gt) _ _ _ Hc Ha Hc E Hl) as Hx.
      by rewrite (oo_irrefl (eqb := mem_eq) (gtb := mem_gt) _ Hc) in Hx.
Qed.

Lemma clock_isBetterThan_spec_witness :
  clock_isBetterThan (clk world0) (Some (annc_example 100 2)) = false /\
  clock_isBetterThan (clk world0) (Some (annc_example 249 2)) = true.
Proof.
  assert (Wc : clock_wf (clk world0)) by closed_tac.
  assert (Wa : annc_wf (annc_example 100 2)) by closed_tac.
  assert (Wb : annc_wf (annc_example 249 2)) by closed_tac.
  split.
  - apply (clock_isBetterThan_spec _ _ Wc Wa). right. left. reflexivity.
  - apply (clock_isBetterThan_spec _ _ Wc Wb). left. reflexivity.
Defined.

(** ** Becoming master or slave *)

(** Only timers, the answers consumed and the trace are different. *)
Definition smooth (w w' : World) : Prop :=
  clk w' = clk w /\ ports w' = ports w /\ heap w' = heap w /\ held w' = held w.

Lemma smooth_run {A} (m : D A) w :
  total m -> keeps quiet m -> balanced m -> exists a w', m w = Done a w' /\ smooth w w'.
Proof.
  intros Ht Hq Hb. destruct (Ht w) as (a & w' & E). exists a, w'. split; [done|].
  destruct (Hq _ _ _ E) as (Hc & Hp & Hh & _). split; [done|]. split; [done|]. split; [done|].
  by eapply Hb.
Qed.

(** The TLV that follow-ups carry is renewed with the grandmaster. *)
Definition fup_renewed (c : Clock) : Clock :=
  c <| fup_info := fup_update (fup_status c) (fup_info c) |>.

Definition moved (p : pid) (x : Port) (s : PortState) (c : Clock) (w w' : World) : Prop :=
  clk w' = c /\ ports w' = <[p := x <| port_state := s |>]> (ports w) /\ heap w' = heap w /\
  held w' = held w.

(** The announcement interval of a port is one that the code can compute with. *)
Definition announce_interval_ok (x : Port) : Prop := is_Some (interval_ns (log_mean_announce_interval x)).

Section Moves.
Context `{Env} `{!LocksGranted}.

Lemma lk_startAnnounce p : balanced (startAnnounce p).
Proof. apply lk_startAnnounceIntervalTimer. Qed.
Hint Resolve lk_startAnnounce : locks.

(** A smooth operation in front. *)
Lemma smooth_bind {A B} (m : D A) (k : A -> D B) w Q :
  total m -> keeps quiet m -> balanced m ->
  (forall a w', smooth w w' -> returns (k a) w' Q) -> returns (m ≫= k) w Q.
Proof.
  intros Ht Hq Hb Hk. destruct (smooth_run m w Ht Hq Hb) as (a & w' & E & Hs).
  eapply returns_step; [exact E|]. by apply Hk.
Qed.

Hint Resolve total_addLocked total_deleteLocked total_startSyncReceiptTimer
  total_stopSyncReceiptTimer total_startSyncIntervalTimer total_startAnnounce total_when : locks.

Ltac smooth_next :=
  apply smooth_bind;
    [solve [auto with locks]|solve [keeps_quiet]|solve [auto with locks|apply lk_when; auto with locks]|].

Lemma master_tail p x b w w0 Q :
  smooth (w0 <| ports := <[p := x <| port_state := PTP_MASTER |>]> (ports w0) |>) w ->
  (forall w', moved p x PTP_MASTER (fup_renewed (clk w0)) w0 w' -> Q tt w') ->
  returns (when b (startAnnounce p);; startSyncIntervalTimer p 16000000;; updateFUPInfo) w Q.
Proof.
  intros (Hc & Hp & Hh & Hl) HQ.
  smooth_next.
  intros _ w1 (Hc1 & Hp1 & Hh1 & Hl1).
  smooth_next.
  intros _ w2 (Hc2 & Hp2 & Hh2 & Hl2).
  unfold returns, updateFUPInfo. rewrite run_mod_clock. apply HQ. unfold moved. cbn.
  rewrite Hc2, Hc1, Hc, Hp2, Hp1, Hp, Hh2, Hh1, Hh, Hl2, Hl1, Hl. done.
Qed.

Lemma becomeMaster_returns p b x w Q :
  ports w !! p = Some x ->
  (forall w', moved p x PTP_MASTER (fup_renewed (clk w)) w w' -> Q tt w') ->
  returns (m_becomeMaster p b) w Q.
Proof.
  intros Hx HQ. unfold m_becomeMaster, media_dispatch, by_media.
  eapply returns_step; [by apply run_get_port|].
  destruct (media x) as [e|wl]; unfold eth_becomeMaster, wl_becomeMaster, setPortState;
    (eapply returns_step; [by apply run_mod_port|]);
    (smooth_next);
    intros _ w1 (Hc1 & Hp1 & Hh1 & Hl1);
    (smooth_next);
    intros _ w2 (Hc2 & Hp2 & Hh2 & Hl2).
  - eapply returns_step; [apply run_get_port; rewrite Hp2, Hp1; by eapply lookup_insert_port|].
    apply (master_tail p x _ w2 w); [|done]. repeat split; congruence.
  - apply (master_tail p x _ w2 w); [|done]. repeat split; congruence.
Qed.

(** A slave starts its syntonization over. *)
Definition slave_clock (restart : bool) (c : Clock) : Clock :=
  fup_renewed (if restart then c <| _new_syntonization_set_point := true |> else c).

Lemma slave_tail p x restart w w0 Q :
  smooth (w0 <| ports := <[p := x <| port_state := PTP_SLAVE |>]> (ports w0) |>) w ->
  (forall w', moved p x PTP_SLAVE (slave_clock restart (clk w0)) w0 w' -> Q tt w') ->
  returns (when restart newSyntonizationSetPoint;; updateFUPInfo) w Q.
Proof.
  intros (Hc & Hp & Hh & Hl) HQ. unfold returns, updateFUPInfo, newSyntonizationSetPoint.
  destruct restart; cbn [when]; unfold mbind, M_bind; rewrite ?run_ret, !run_mod_clock;
    apply HQ; unfold moved; cbn in *; by rewrite Hc, Hp, Hh, Hl.
Qed.

Lemma becomeSlave_returns p restart x w Q :
  ports w !! p = Some x -> announce_interval_ok x ->
  (forall w', moved p x PTP_SLAVE (slave_clock restart (clk w)) w w' -> Q tt w') ->
  returns (m_becomeSlave p restart) w Q.
Proof.
  intros Hx [t Ht] HQ. unfold m_becomeSlave, media_dispatch, by_media.
  eapply returns_step; [by apply run_get_port|].
  destruct (media x) as [e|wl]; unfold eth_becomeSlave, wl_becomeSlave, setPortState;
    (smooth_next);
    intros _ w1 (Hc1 & Hp1 & Hh1 & Hl1);
    (smooth_next);
    intros _ w2 (Hc2 & Hp2 & Hh2 & Hl2);
    (eapply returns_step; [apply run_mod_port; by rewrite Hp2, Hp1|]).
  - eapply returns_step; [apply run_get_port; cbn; eapply lookup_insert_port; by rewrite Hp2, Hp1|].
    apply (smooth_bind (if automotive_profile _ then _ else _)).
    + cbn. destruct (automotive_profile x); [apply total_ret|]. unfold interval. rewrite Ht.
      total_tac.
    + cbn. destruct (automotive_profile x); keeps_quiet.
    + intros h. cbn. destruct (automotive_profile x); lk.
    + intros _ w3 (Hc3 & Hp3 & Hh3 & Hl3). apply (slave_tail p x _ w3 w); [|done].
      cbn in *. repeat split; cbn; congruence.
  - apply (slave_tail p x _ _ w); [|done]. cbn in *. repeat split; cbn; congruence.
Qed.
End Moves.

(** ** recommendState *)

(** The grandmaster's data set. *)
Definition grandmaster (c : Clock) : ClockIdentity * Z * Z * ClockQuality :=
  (grandmaster_clock_identity c, grandmaster_priority1 c, grandmaster_priority2 c,
   grandmaster_clock_quality c).

(** Port [p], which was [x], is in state [s]; its sync count may be reset, the
    clock may have a new set point and a renewed TLV. *)
Record settled (p : pid) (s : PortState) (x : Port) (w w' : World) : Prop := {
  settled_port : exists n, ports w' = <[p := x <| port_state := s |> <| sync_count := n |>]> (ports w);
  settled_heap : heap w' = heap w;
  settled_held : held w' = held w;
  settled_config : clock_config (clk w') = clock_config (clk w);
  settled_gm : grandmaster (clk w') = grandmaster (clk w);
}.

Section Recommend.
Context `{Env} `{!LocksGranted}.

Lemma insert_same (l : list Port) p x : l !! p = Some x -> <[p := x]> l = l.
Proof. apply list_insert_id. Qed.

Lemma settled_refl p x w : ports w !! p = Some x -> settled p (port_state x) x w w.
Proof.
  intros Hx. constructor; try done. exists (sync_count x).
  rewrite insert_same; [done|]. rewrite Hx. by destruct x.
Qed.

(** The sync count after a move. *)
Lemma settled_reset p s x c w w1 Q :
  ports w !! p = Some x -> moved p x s c w w1 ->
  clock_config c = clock_config (clk w) -> grandmaster c = grandmaster (clk w) ->
  (forall w', settled p s x w w' -> Q tt w') ->
  returns (setSyncCount p 0) w1 Q.
Proof.
  intros Hx (Hc & Hp & Hh & Hl) Hcc Hg HQ. unfold returns, setSyncCount.
  erewrite run_mod_port by (rewrite Hp; by eapply lookup_insert_port). apply HQ.
  constructor; cbn; try congruence. exists 0. rewrite Hp. by rewrite list_insert_insert_eq.
Qed.

Lemma recommendState_returns p s ch x w Q :
  ports w !! p = Some x -> announce_interval_ok x -> s = PTP_MASTER \/ s = PTP_SLAVE ->
  (forall w', settled p s x w w' -> Q tt w') ->
  returns (recommendState p s ch) w Q.
Proof.
  intros Hx Hi Hs HQ. unfold recommendState. eapply returns_step; [by apply run_get_port|].
  apply returns_bind. destruct Hs as [->| ->].
  - destruct (decide (port_state x = PTP_MASTER)) as [Hm|Hm].
    + unfold returns, when, mret, M_ret. apply HQ. rewrite <- Hm. by apply settled_refl.
    + unfold setPortState. eapply returns_step; [by apply run_mod_port|]. apply returns_bind.
      eapply becomeMaster_returns; [cbn; by eapply lookup_insert_port|].
      intros w1 (Hc & Hp & Hh & Hl). cbn in *. unfold returns at 1, mret, M_ret. cbn [when].
      eapply (settled_reset p PTP_MASTER x (fup_renewed (clk w)) w w1); [done| |done|done|done].
      rewrite list_insert_insert_eq in Hp. split; [exact Hc|]. split; [exact Hp|].
      split; [exact Hh|exact Hl].
  - destruct (decide (port_state x = PTP_SLAVE)) as [Hm|Hm].
    + destruct ch; [|unfold returns, when, mret, M_ret; apply HQ; rewrite <- Hm; by apply settled_refl].
      unfold newSyntonizationSetPoint, updateFUPInfo.
      do 2 (eapply returns_step; [apply run_mod_clock|]). unfold returns at 1, mret, M_ret. cbn [when].
      eapply (settled_reset p PTP_SLAVE x (slave_clock true (clk w)) w); [done| |done|done|done].
      repeat split; cbn; try done. symmetry. apply insert_same. rewrite Hx. destruct x. cbn in *. by subst.
    + apply returns_bind. eapply becomeSlave_returns; [done|done|].
      intros w1 Hmv. unfold returns at 1, mret, M_ret. cbn [when].
      by eapply (settled_reset p PTP_SLAVE x (slave_clock true (clk w)) w w1).
Qed.
End Recommend.

(** ** The decision *)

Lemma evolves_same_list {A} (m : D A) : keeps world_evolves m -> keeps same_list m.
Proof.
  apply keeps_weaken. intros w w' (_ & [Hc _] & _). unfold clock_config, same_list in *. congruence.
Qed.

Lemma clock_key_config c c' : clock_config c' = clock_config c -> clock_key c' = clock_key c.
Proof. unfold clock_config, clock_key. congruence. Qed.

Lemma clock_config_ports c c' : clock_config c' = clock_config c ->
  port_list c' = port_list c /\ number_ports c' = number_ports c.
Proof. unfold clock_config. intros E. split; congruence. Qed.

(** The grandmaster's data set that an announcement carries, and one's own. *)
Definition announced (a : AnnounceFields) : ClockIdentity * Z * Z * ClockQuality :=
  (grandmasterIdentity a, grandmasterPriority1 a, grandmasterPriority2 a, grandmasterClockQuality a).
Definition own (c : Clock) : ClockIdentity * Z * Z * ClockQuality :=
  (clock_identity c, priority1 c, priority2 c, clock_quality c).

Lemma own_config c c' : clock_config c' = clock_config c -> own c' = own c.
Proof. unfold clock_config, own. congruence. Qed.
Lemma grandmaster_wf c c' :
  grandmaster c' = grandmaster c -> cid_wf (grandmaster_clock_identity c) ->
  cid_wf (grandmaster_clock_identity c').
Proof. unfold grandmaster. intros [= -> _ _ _]. done. Qed.

Lemma set_grandmaster_run id p1 p2 q w : cid_wf id -> cid_wf (grandmaster_clock_identity (clk w)) ->
  exists c', set_grandmaster id p1 p2 q w = Done tt (w <| clk := c' |>) /\
    grandmaster c' = (id, p1, p2, q) /\ clock_config c' = clock_config (clk w).
Proof.
  intros Hi Hg. eexists. split; [done|]. cbn. unfold cid_ne.
  destruct (mem_eq id (grandmaster_clock_identity (clk w))) eqn:E; [|by split].
  apply (oo_eqb (eqb := mem_eq) (ltb := mem_lt) (gtb := mem_gt) (wf := cid_wf)) in E; [|done..].
  cbn. split; [unfold grandmaster; cbn; by rewrite E|done].
Qed.

(** The world after a decision for port [r], which was [x]. *)
Record after (r : pid) (s : PortState) (g : ClockIdentity * Z * Z * ClockQuality) (x : Port)
    (w w' : World) : Prop := {
  after_port : exists n, ports w' = <[r := x <| port_state := s |> <| sync_count := n |>]> (ports w);
  after_heap : heap w' = heap w;
  after_held : held w' = held w;
  after_config : clock_config (clk w') = clock_config (clk w);
  after_gm : grandmaster (clk w') = g;
}.

Section Decision.
Context `{Env} `{!LocksGranted}.
Context (r : pid) (an : ptr) (m : Message) (a : AnnounceFields).
Context (Hm : payload m = Announce a) (Ha : annc_wf a).

(** What the decision reads. *)
Record ready (x : Port) (w : World) : Prop := {
  ready_port : ports w !! r = Some x;
  ready_participates : participates x = true;
  ready_announce : qualified_announce x = Some an;
  ready_msg : heap w !! an = Some m;
  ready_interval : announce_interval_ok x;
  ready_gm : cid_wf (grandmaster_clock_identity (clk w));
}.

Lemma announce_fields_run w : heap w !! an = Some m -> announce_fields an w = Done a w.
Proof. intros Hh. unfold announce_fields, mbind, M_bind. rewrite (run_get_msg _ _ _ Hh). by rewrite Hm. Qed.

Lemma calculateERBest_run x w : ready x w -> calculateERBest r w = Done (Some an) w.
Proof.
  intros [Hx _ Hq _ _]. unfold calculateERBest, mbind, M_bind. rewrite (run_get_port _ _ _ Hx).
  by rewrite Hq.
Qed.

(** The first loop finds the port's announcement, whatever it compares to. *)
Lemma ebest_step_run x w best : ready x w -> best = None \/ best = Some an ->
  ebest_step r best w = Done (Some an) w.
Proof.
  intros Hr Hb. unfold ebest_step, mbind at 1, M_bind at 1.
  rewrite (run_get_port _ _ _ (ready_port _ _ Hr)), (ready_participates _ _ Hr).
  rewrite (bind_Done _ _ _ _ _ (calculateERBest_run x w Hr)).
  destruct Hb as [->| ->]; [done|]. unfold better_announce.
  do 2 rewrite (bind_Done _ _ _ _ _ (announce_fields_run w (ready_msg _ _ Hr))).
  by destruct (annc_isBetterThan a a).
Qed.

Definition ebest_body (p : pid) (best : option ptr) : D (option ptr + Empty_set) :=
  best ← ebest_step p best; mret (inl best).

Lemma repeat_ebest n x w best : ready x w -> best = None \/ best = Some an ->
  repeat_port (S n) r ebest_body best w = Done (inl (Some an)) w.
Proof.
  intros Hr. revert best. induction n as [|n IH]; intros best Hb; cbn [repeat_port].
  - unfold ebest_body, mbind, M_bind. by rewrite (ebest_step_run x w best Hr Hb).
  - assert (E : ebest_body r best w = Done (inl (Some an)) w).
    { unfold ebest_body, mbind, M_bind. by rewrite (ebest_step_run x w best Hr Hb). }
    rewrite (bind_Done _ _ _ _ _ E). apply IH. by right.
Qed.

Lemma find_ebest_run j x w : ready x w -> skip_null 0 (port_list (clk w)) = Some (j, r) ->
  0 < number_ports (clk w) -> find_ebest w = Done (Some an) w.
Proof.
  intros Hr Hs Hn. unfold find_ebest. rewrite (bind_Done _ _ _ _ _ (run_get_clock w)).
  destruct (Z.to_nat (number_ports (clk w))) as [|n] eqn:En; [lia|].
  assert (E : for_ports (S n) 0 ebest_body None w = Done (inl (Some an)) w).
  { rewrite (for_ports_repeat _ _ 0 j r); [|intros p b|by rewrite drop_0].
    - apply (repeat_ebest n x); [done|by left].
    - apply evolves_same_list. unfold ebest_body. apply keeps_bind; [apply _|apply ev_ebest_step|].
      intros; by apply keeps_ret, _. }
  by rewrite (bind_Done _ _ _ _ _ E).
Qed.

(** What the decision makes of the port, and of the grandmaster. *)
Definition verdict (c : Clock) : PortState :=
  if clock_isBetterThan c (Some a) then PTP_MASTER else PTP_SLAVE.
Definition verdict_gm (c : Clock) : ClockIdentity * Z * Z * ClockQuality :=
  if clock_isBetterThan c (Some a) then grandmaster c else announced a.

Lemma verdict_config c c' : clock_config c' = clock_config c -> verdict c' = verdict c.
Proof. intros Hc. unfold verdict, clock_isBetterThan. by rewrite (clock_key_config _ _ Hc). Qed.

(** The best announcement the second loop passes on. *)
Definition passes_on (c : Clock) (best : option ptr) : Prop :=
  best = Some an \/ (best = None /\ clock_isBetterThan c (Some a) = true).

Lemma fields_of_run w best : heap w !! an = Some m -> best = None \/ best = Some an ->
  fields_of best w = Done (match best with None => None | Some _ => Some a end) w.
Proof.
  intros Hh [->| ->]; [done|]. cbn. by rewrite (bind_Done _ _ _ _ _ (announce_fields_run w Hh)).
Qed.

Lemma decide_port_returns ch x w best Q :
  ready x w -> passes_on (clk w) best ->
  (forall best' w', passes_on (clk w) best' ->
     after r (verdict (clk w)) (verdict_gm (clk w)) x w w' -> Q best' w') ->
  returns (decide_port ch r best) w Q.
Proof.
  intros Hr Hb HQ. destruct Hr as [Hx Hp Hqa Hh Hi Hg] eqn:Er. clear Er.
  unfold decide_port. eapply returns_step; [by apply run_get_port|]. rewrite Hp.
  eapply returns_step; [apply run_get_clock|].
  eapply returns_step; [apply fields_of_run; [done|destruct Hb as [->|[-> _]]; auto]|].
  unfold verdict, verdict_gm in HQ.
  assert (Hv : clock_isBetterThan (clk w) (match best with None => None | Some _ => Some a end) =
               clock_isBetterThan (clk w) (Some a)).
  { destruct Hb as [->|[-> ->]]; done. }
  rewrite Hv. destruct (clock_isBetterThan (clk w) (Some a)) eqn:Ec.
  - apply returns_bind. eapply recommendState_returns; [done|done|by left|].
    intros w' [Hp' Hh' Hl' Hc' Hg']. unfold returns, mret, M_ret. apply HQ; [by right|].
    by constructor.
  - destruct Hb as [->|[_ Hb]]; [|congruence].
    eapply returns_step; [by apply (calculateERBest_run x w Hr)|].
    rewrite decide_True by done. apply returns_bind.
    apply returns_bind. eapply recommendState_returns; [done|done|by right|].
    intros w' [Hp' Hh' Hl' Hc' Hg']. eapply returns_step; [by apply run_from_option|].
    eapply returns_step; [apply announce_fields_run; by rewrite Hh'|].
    destruct Ha as (_ & _ & _ & Hid).
    destruct (set_grandmaster_run (grandmasterIdentity a) (grandmasterPriority1 a)
      (grandmasterPriority2 a) (grandmasterClockQuality a) w' Hid) as (c' & E & Hgm & Hcc).
    { unfold grandmaster in Hg'. by injection Hg' as ->. }
    unfold returns at 1. rewrite E. unfold returns, mret, M_ret.
    apply HQ; [by left|]. constructor; cbn; try done. by rewrite Hcc.
Qed.

Lemma after_ready x w w' s g :
  ready x w -> s = PTP_MASTER \/ s = PTP_SLAVE -> cid_wf g.1.1.1 -> after r s g x w w' ->
  exists n, ready (x <| port_state := s |> <| sync_count := n |>) w'.
Proof.
  intros [Hx Hp Hqa Hh Hi Hg] Hs Hw [[n Hp'] Hh' _ _ Hg']. exists n. constructor.
  - rewrite Hp'. by eapply lookup_insert_port.
  - by destruct Hs as [->| ->].
  - done.
  - by rewrite Hh'.
  - done.
  - unfold grandmaster in Hg'. subst g. done.
Qed.

Lemma verdict_gm_wf c : cid_wf (grandmaster_clock_identity c) -> cid_wf (verdict_gm c).1.1.1.
Proof. intros Hg. unfold verdict_gm. destruct (clock_isBetterThan c _); [done|apply Ha]. Qed.

Definition decide_body (ch : bool) (p : pid) (best : option ptr) : D (option ptr + Empty_set) :=
  best ← decide_port ch p best; mret (inl best).

(** Deciding over and over for the same port is deciding once. *)
Lemma repeat_decide ch n : forall x w best Q,
  ready x w -> passes_on (clk w) best ->
  (forall b w', after r (verdict (clk w)) (verdict_gm (clk w)) x w w' -> Q b w') ->
  returns (repeat_port (S n) r (decide_body ch) best) w Q.
Proof.
  induction n as [|n IH]; intros x w best Q Hr Hb HQ; cbn [repeat_port]; apply returns_bind;
    unfold decide_body; apply returns_bind; (eapply decide_port_returns; [done|done|]);
    intros best' w' Hb' Haf; unfold returns at 1, mret, M_ret.
  - cbn [repeat_port]. unfold returns, mret, M_ret. by apply HQ.
  - pose proof (after_config _ _ _ _ _ _ Haf) as Hc.
    pose proof (after_gm _ _ _ _ _ _ Haf) as Hgm.
    destruct (after_ready x w w' (verdict (clk w)) (verdict_gm (clk w)) Hr) as [k Hr']; [..|exact Haf|].
    { unfold verdict. destruct (clock_isBetterThan _ _); auto. }
    { apply verdict_gm_wf, (ready_gm _ _ Hr). }
    assert (Hbt : clock_isBetterThan (clk w') (Some a) = clock_isBetterThan (clk w) (Some a)).
    { unfold clock_isBetterThan. by rewrite (clock_key_config _ _ Hc). }
    refine (IH _ w' best' Q Hr' _ _).
    { unfold passes_on in *. by rewrite Hbt. }
    intros b w2 [[k2 Hp2] Hh2 Hl2 Hc2 Hg2]. apply HQ. destruct Haf as [[k1 Hp1] Hh1 Hl1 _ _].
    rewrite (verdict_config _ _ Hc) in Hp2. constructor; [|congruence..|].
    + exists k2. rewrite Hp2, Hp1. by rewrite list_insert_insert_eq.
    + rewrite Hg2. unfold verdict_gm in *. rewrite Hbt. by destruct (clock_isBetterThan _ _).
Qed.
End Decision.

Lemma clock_better_config c c' a : clock_config c' = clock_config c ->
  clock_isBetterThan c' (Some a) = clock_isBetterThan c (Some a).
Proof. intros Hc. unfold clock_isBetterThan. by rewrite (clock_key_config _ _ Hc). Qed.

Section StateChange.
Context `{Env} `{!LocksGranted}.

Lemma decide_ports_returns r an m a ch j x w Q :
  payload m = Announce a -> annc_wf a -> ready r an m x w ->
  skip_null 0 (port_list (clk w)) = Some (j, r) -> 0 < number_ports (clk w) ->
  (forall w', after r (verdict a (clk w)) (verdict_gm a (clk w)) x w w' -> Q tt w') ->
  returns (decide_ports ch (Some an)) w Q.
Proof.
  intros Hm Ha Hr Hs Hn HQ. unfold decide_ports. eapply returns_step; [apply run_get_clock|].
  destruct (Z.to_nat (number_ports (clk w))) as [|n] eqn:En; [lia|].
  apply returns_bind. unfold returns.
  change (fun p best => _) with (decide_body ch).
  rewrite (for_ports_repeat (decide_body ch) _ 0 j r); [|intros p b|by rewrite drop_0].
  - apply (repeat_decide r an m a Hm Ha ch n x w (Some an)); [done|by left|].
    intros b w' Haf. unfold returns, mret, M_ret. by apply HQ.
  - apply evolves_same_list. unfold decide_body. apply keeps_bind; [apply _|apply ev_decide_port|].
    intros; by apply keeps_ret, _.
Qed.

(** The grandmaster is one's own from now on. *)
Lemma become_grandmaster_run w :
  cid_wf (clock_identity (clk w)) -> cid_wf (grandmaster_clock_identity (clk w)) ->
  exists c', become_grandmaster w = Done tt (w <| clk := c' |>) /\
    grandmaster c' = own (clk w) /\ clock_config c' = clock_config (clk w).
Proof.
  intros Hi Hg. unfold become_grandmaster. rewrite (bind_Done _ _ _ _ _ (run_get_clock w)).
  by apply set_grandmaster_run.
Qed.

Lemma own_grandmaster_run a w :
  cid_wf (clock_identity (clk w)) -> cid_wf (grandmaster_clock_identity (clk w)) ->
  exists w', when (clock_isBetterThan (clk w) (Some a)) become_grandmaster w = Done tt w' /\
    w' = w <| clk := clk w' |> /\ clock_config (clk w') = clock_config (clk w) /\
    grandmaster (clk w') =
      (if clock_isBetterThan (clk w) (Some a) then own (clk w) else grandmaster (clk w)).
Proof.
  intros Hi Hg. destruct (clock_isBetterThan (clk w) (Some a)).
  - destruct (become_grandmaster_run w Hi Hg) as (c' & E & Hgm & Hcc). eexists. by split; [exact E|].
  - exists w. split; [done|]. by destruct w.
Qed.

End StateChange.

(** A port with a qualified announcement that beats the clock's priority. *)
Definition annc_world (p1 : Z) : World :=
  world0 <| heap := {[ 7%nat := peer_announce p1 ]} |>
         <| ports := (fun x => x <| qualified_announce := Some 7%nat |>) <$> ports world0 |>.
Definition annc_port : Port := default port_memory (ports (annc_world 100) !! 0%nat).


(** ** The loss of the master *)

Section Timeout.
Context `{Env} `{!LocksGranted}.

Lemma startAnnounce_run p w : exists w', startAnnounce p w = Done tt w' /\ smooth w w' /\
  timers w' = without ANNOUNCE_INTERVAL_TIMEOUT_EXPIRES (timers w) ++
              [mkTimer 16000 ANNOUNCE_INTERVAL_TIMEOUT_EXPIRES p].
Proof.
  unfold startAnnounce, startAnnounceIntervalTimer.
  eexists. rewrite (bind_Done _ _ _ _ _ (run_lock _ w)).
  rewrite (bind_Done _ _ _ _ _ (run_deleteLocked _ _ _)).
  rewrite (bind_Done _ _ _ _ _ (run_addLocked _ _ _ _)).
  erewrite (bind_Done _ _ _ _ _) by (eapply run_unlock; cbn; reflexivity).
  split; [done|]. by repeat split.
Qed.

Lemma setQualifiedAnnounce_run p x w : ports w !! p = Some x ->
  (forall q, qualified_announce x = Some q -> is_Some (heap w !! q)) ->
  setQualifiedAnnounce p None w =
  Done tt (w <| heap := match qualified_announce x with
                        | Some q => base.delete q (heap w) | None => heap w end |>
             <| ports := <[p := x <| qualified_announce := None |>]> (ports w) |>).
Proof.
  intros Hx Hq. unfold setQualifiedAnnounce. rewrite (bind_Done _ _ _ _ _ (run_get_port _ _ _ Hx)).
  destruct (qualified_announce x) as [q|]; cbn [delete_opt].
  - destruct (Hq q eq_refl) as [m Hm]. rewrite (bind_Done _ _ _ _ _ (run_delete_msg _ _ _ Hm)).
    by rewrite (run_mod_port _ _ x).
  - rewrite (bind_Done _ _ _ _ _ (run_ret _ _)). rewrite (run_mod_port _ _ x) by done. by destruct w.
Qed.

(** The receipt timer that was missed is armed again. *)
Definition rearm (p : pid) (x : Port) (e : Event) : D unit :=
  if decide (e = ANNOUNCE_RECEIPT_TIMEOUT_EXPIRES) then
    t ← interval (log_mean_announce_interval x);
    addEventTimerLocked p ANNOUNCE_RECEIPT_TIMEOUT_EXPIRES
      (u64 (ANNOUNCE_RECEIPT_TIMEOUT_MULTIPLIER * t))
  else
    t ← interval3 (log_mean_sync_interval x);
    startSyncReceiptTimer p t.
Definition sync_interval_ok (x : Port) : Prop := is_Some (interval3_ns (log_mean_sync_interval x)).

Lemma rearm_smooth p x e w : announce_interval_ok x -> sync_interval_ok x ->
  exists w', rearm p x e w = Done tt w' /\ smooth w w'.
Proof.
  intros [ta Ha] [ts Hs]. unfold rearm, interval, interval3. rewrite Ha, Hs.
  destruct (decide _); cbn [from_option]; rewrite (bind_Done _ _ _ _ _ (run_ret _ _)).
  - destruct (smooth_run (addEventTimerLocked p ANNOUNCE_RECEIPT_TIMEOUT_EXPIRES
      (u64 (ANNOUNCE_RECEIPT_TIMEOUT_MULTIPLIER * ta))) w) as ([] & w' & E & Hs');
      [apply total_addLocked|auto with gptp|auto with locks|]. by exists w'.
  - destruct (smooth_run (startSyncReceiptTimer p ts) w) as ([] & w' & E & Hs');
      [apply total_startSyncReceiptTimer|auto with gptp|auto with locks|]. by exists w'.
Qed.

Lemma getDeviceTime_run p x w : ports w !! p = Some x ->
  exists t w', getDeviceTime p w = Done t w' /\ smooth w w' /\ timers w' = timers w.
Proof.
  intros Hx. unfold getDeviceTime. rewrite (bind_Done _ _ _ _ _ (run_get_port _ _ _ Hx)).
  destruct (_hw_timestamper x); [by do 2 eexists|..];
    (do 2 eexists; rewrite (bind_Done _ _ _ _ _ (run_ask _ _)); by repeat split).
Qed.

Lemma calcLocalSystem_run t1 t2 w : exists r c,
  calcLocalSystemClockRateDifference t1 t2 w = Done r (w <| clk := c |>) /\
  grandmaster c = grandmaster (clk w) /\ clock_config c = clock_config (clk w).
Proof.
  exists (calcLocalSystem (clk w) t1 t2).1, (calcLocalSystem (clk w) t1 t2).2. split; [done|].
  unfold calcLocalSystem. destruct (negb _); by split.
Qed.

End Timeout.

Definition slave_world : World :=
  annc_world 100 <| ports := (fun x => x <| port_state := PTP_SLAVE |>) <$> ports (annc_world 100) |>.

