(* ===== verification/PDelayTheory.v ===== *)
(** * The peer delay mechanism at work

    The arithmetic of the link delay, the processing of a complete exchange,
    the answer to a request, and the two defences of the code: against a peer
    that answers more than once, and against a follow-up that comes before the
    transmit timestamp (PDelay.v). *)

From Stdlib Require Import ZArith Lia.
From Stdlib.Floats Require Import SpecFloat.
From stdpp Require Import base gmap list.
From S2P Require Import Prelude Timestamp CFloat Identity Message Wire World Loops Clock Port Media Runs Ether Servo Transmit PDelay Sync CommonPort Receive Wireless Dispatch Fixture Evolution Locks.

(** ** The arithmetic *)

(** Field by field and on 64 bits, the difference of two times is the
    difference of their values. *)
Lemma ts_diff_value a b : - 2 ^ 63 <= ts_val b - ts_val a < 2 ^ 63 ->
  ts_diff a b = ts_val b - ts_val a.
Proof.
  intros Hd. unfold ts_diff, i64, ts_val, ts_secs, NS_PER_SECOND in *.
  rewrite Z.shiftl_mul_pow2 by lia.
  destruct (swrap_repr 64 ((seconds_ms b - seconds_ms a) * 2 ^ 32) ltac:(lia)) as [k1 ->].
  set (u1 := _ + k1 * _) at 1.
  destruct (swrap_repr 64 (u1 * 1000000000) ltac:(lia)) as [k2 ->].
  set (u2 := _ + _) at 2.
  destruct (swrap_repr 64 u2 ltac:(lia)) as [k3 ->].
  apply (swrap_eq 64 _ _ (k1 * 1000000000 + k2 + k3)); [exact Hd|].
  subst u1 u2. lia.
Qed.

(** The rate ratio is plausible: it scales the turn-around time. *)
Definition plausible (rate : spec_float) : bool := ratio_between ratio_998 ratio_1002 rate.

(** A ratio of one is plausible, and scales nothing while the turn-around
    time has 63 bits. *)
Lemma scaled_one turn : - 2 ^ 62 <= turn < 2 ^ 62 ->
  scaled_turn_around ratio_one (u64 turn) = if decide (0 <= turn) then Some turn else None.
Proof.
  intros Hturn. unfold scaled_turn_around. assert (Hone : plausible ratio_one = true) by (by vm_compute).
  unfold plausible in Hone. rewrite Hone.
  assert (Hf : fits 64 (u64 turn)) by (apply (uwrap_fits 64); lia).
  rewrite fl_mul_one by done. unfold cast_s. rewrite fl_trunc_of_Z by done.
  destruct (decide (0 <= turn)).
  - assert (Hu : u64 turn = turn) by (apply uwrap_small; unfold fits; lia). rewrite !Hu.
    destruct (decide _) as [_|Hn]; [|exfalso; apply Hn; lia]. cbn [mbind option_bind]. by rewrite Hu.
  - assert (Hu : u64 turn = turn + 2 ^ 64) by (apply (uwrap_eq 64 _ _ (-1)); [unfold fits; lia|lia]).
    rewrite Hu. destruct (decide _) as [Hc|_]; [exfalso; lia|done].
Qed.

Lemma link_delay_mean rate t1 t2 t3 t4 :
  let trip := ts_val t4 - ts_val t1 in
  let turn := ts_val t3 - ts_val t2 in
  - 2 ^ 62 <= trip < 2 ^ 62 -> - 2 ^ 62 <= turn < 2 ^ 62 ->
  plausible rate = false \/ (rate = ratio_one /\ 0 <= turn) ->
  compute_link_delay rate t1 t4 t2 t3 = Some (Z.quot (trip - turn) 2).
Proof.
  intros trip turn Htrip Hturn Hr. unfold compute_link_delay.
  rewrite !ts_diff_value by lia. fold trip turn.
  assert (Hlast : forall t, t = turn \/ t = turn + 2 ^ 64 ->
    Some (Z.quot (i64 (trip - t)) 2) = Some (Z.quot (trip - turn) 2)).
  { intros t Ht. do 2 f_equal. destruct Ht as [->| ->].
    - apply (swrap_eq 64 _ _ 0); [unfold sfits; lia|lia].
    - apply (swrap_eq 64 _ _ (-1)); [unfold sfits; lia|lia]. }
  destruct Hr as [Hp|[-> H0]].
  - unfold scaled_turn_around. unfold plausible in Hp. rewrite Hp. cbn [mbind option_bind].
    apply Hlast. destruct (Z.le_gt_cases 0 turn).
    + left. apply uwrap_small. unfold fits. lia.
    + right. apply (uwrap_eq 64 _ _ (-1)); [unfold fits; lia|lia].
  - rewrite scaled_one by done. rewrite decide_True by done. apply Hlast. by left.
Qed.



(** ** A complete exchange *)

Section Exchange.
Context `{Env} `{!LocksGranted}.
Context (Htry : forall n l, env_trylock n l = true).

Lemma run_trylock l w :
  trylock l w = Done true (w <| tick := S (tick w) |> <| held := l :: held w |>).
Proof. unfold trylock, ask, mbind, M_bind. by rewrite Htry. Qed.
Hint Resolve run_trylock : runs.

Lemma update_link_run p x e d t1 t2 w :
  ports w !! p = Some x -> media x = Ether e ->
  exists x', update_link p d t1 t2 w = Done tt (w <| ports := <[p := x']> (ports w) |>) /\
    x' = (let ok := i64 (if d <? 0 then - d else d) <=? neighbor_prop_delay_thresh x in
          let y := x <| _peer_rate_offset := default (_peer_rate_offset x)
                          (compute_peer_rate x t1 t2 d) |> <| one_way_delay := d |> in
          let y := if automotive_profile x then y else set_asCapable ok y in
          y <| _peer_offset_ts_mine := t1 |> <| _peer_offset_ts_theirs := t2 |>
            <| _peer_offset_init := true |>).
Proof.
  intros Hx He. eexists. split; [|reflexivity].
  unfold update_link, setLinkDelay, setAsCapable, setPeerOffset.
  rewrite (bind_Done _ _ _ _ _ (run_get_port _ _ _ Hx)).
  assert (E1 : (match compute_peer_rate x t1 t2 d with
                | Some r => mod_port p (fun x => x <| _peer_rate_offset := r |>)
                | None => mret tt end) w =
    Done tt (w <| ports := <[p := x <| _peer_rate_offset := default (_peer_rate_offset x)
                          (compute_peer_rate x t1 t2 d) |>]> (ports w) |>)).
  { destruct (compute_peer_rate x t1 t2 d); [by rewrite (run_mod_port _ _ x)|].
    cbn [default]. rewrite list_insert_id; [by destruct w|]. rewrite Hx. by destruct x. }
  rewrite (bind_Done _ _ _ _ _ E1). set (y := x <| _peer_rate_offset := _ |>).
  assert (Hy : forall z, ports (w <| ports := <[p := z]> (ports w) |>) !! p = Some z)
    by (intros; cbn; by eapply lookup_insert_port).
  assert (Hyy : forall z z', w <| ports := <[p := z]> (ports w) |>
      <| ports := <[p := z']> (ports (w <| ports := <[p := z]> (ports w) |>)) |> =
      w <| ports := <[p := z']> (ports w) |>).
  { intros. cbn. by rewrite list_insert_insert_eq. }
  assert (E2 : forall k : bool -> D unit,
    ((mod_port p (fun x => x <| one_way_delay := d |>);;
      x ← get_port p;
      mret (i64 (if one_way_delay x <? 0 then - one_way_delay x else one_way_delay x)
              <=? neighbor_prop_delay_thresh x)) ≫= k)
      (w <| ports := <[p := y]> (ports w) |>) =
    k (i64 (if d <? 0 then - d else d) <=? neighbor_prop_delay_thresh x)
      (w <| ports := <[p := y <| one_way_delay := d |>]> (ports w) |>)).
  { intros k. unfold mbind, M_bind. rewrite (run_mod_port _ _ y (_ <| ports := _ |>) (Hy y)), Hyy.
    by rewrite (run_get_port _ _ _ (Hy _)). }
  rewrite E2. rewrite (bind_Done _ _ _ _ _ (run_get_port _ _ _ (Hy _))).
  change (automotive_profile (y <| one_way_delay := d |>)) with (automotive_profile x).
  destruct (automotive_profile x); cbn [negb when].
  - rewrite (bind_Done _ _ _ _ _ (run_ret _ _)), (run_mod_port _ _ _ _ (Hy _)), Hyy. done.
  - rewrite (bind_Done _ _ _ _ _ (run_mod_port _ _ _ _ (Hy _))), Hyy.
    by rewrite (run_mod_port _ _ _ _ (Hy _)), Hyy.
Qed.

(** The peer's messages of an exchange: the response, and the follow-up that
    is being processed. *)
Context (p : pid) (rq rs this : ptr) (mq mr mf : Message).
Context (idr idf : PortIdentity) (t2 t3 : Timestamp).
Context (Hpr : payload mr = PathDelayResp idr t2) (Hpf : payload mf = PathDelayRespFollowUp t3 idf).

Record exchange (x : Port) (e : EtherPart) (w : World) : Prop := {
  ex_port : ports w !! p = Some x;
  ex_media : media x = Ether e;
  ex_live : participates x = true;
  ex_last_req : last_pdelay_req e = Some rq;
  ex_last_resp : last_pdelay_resp e = Some rs;
  ex_req_msg : heap w !! rq = Some mq;
  ex_resp_msg : heap w !! rs = Some mr;
  ex_this_msg : heap w !! this = Some mf;
  ex_distinct : rs <> this;
}.

(** The follow-up belongs to the stored request and response. *)
Definition pairs : bool := follow_up_matches (mkExchange mq mr idr t2) mf idf.

Lemma fup_fields_run w : heap w !! this = Some mf -> fup_fields this w = Done (t3, idf) w.
Proof. intros Hm. unfold fup_fields. rewrite (bind_Done _ _ _ _ _ (run_get_msg _ _ _ Hm)). by rewrite Hpf. Qed.
Lemma resp_fields_run w : heap w !! rs = Some mr -> resp_fields rs w = Done (idr, t2) w.
Proof. intros Hm. unfold resp_fields. rewrite (bind_Done _ _ _ _ _ (run_get_msg _ _ _ Hm)). by rewrite Hpr. Qed.

Lemma followup_pair_run x e w : exchange x e w ->
  followup_pair p this w =
  (if pairs then followup_measure p this (mkExchange mq mr idr t2) else mret false) w.
Proof.
  intros []. unfold followup_pair. rewrite (bind_Done _ _ _ _ _ (run_get_ether _ _ _ _ ex_port0 ex_media0)).
  rewrite ex_last_req0, ex_last_resp0.
  rewrite (bind_Done _ _ _ _ _ (run_get_msg _ _ _ ex_req_msg0)).
  rewrite (bind_Done _ _ _ _ _ (run_get_msg _ _ _ ex_this_msg0)). unfold pairs, follow_up_matches. cbn [ex_req].
  destruct (sequenceId mq =? sequenceId mf); cbn [negb andb]; [|done].
  rewrite (bind_Done _ _ _ _ _ (run_get_msg _ _ _ ex_resp_msg0)).
  rewrite (bind_Done _ _ _ _ _ (resp_fields_run _ ex_resp_msg0)).
  by rewrite (bind_Done _ _ _ _ _ (fup_fields_run _ ex_this_msg0)).
Qed.

(** The transmit timestamp is there, and comparable to the receive one. *)
Definition timestamped : Prop :=
  nanoseconds (_timestamp mq) <> nanoseconds INVALID_TIMESTAMP /\
  nanoseconds (_timestamp mq) <> nanoseconds PDELAY_PENDING_TIMESTAMP /\
  _version (_timestamp mq) = _version (_timestamp mr).

Definition counted (x : Port) : Port := x <| pdelay_count := u32 (pdelay_count x + 1) |>.
Definition linked (x : Port) (d : Z) : Port :=
  let ok := i64 (if d <? 0 then - d else d) <=? neighbor_prop_delay_thresh x in
  let y := x <| _peer_rate_offset := default (_peer_rate_offset x)
                  (compute_peer_rate x (_timestamp mq) t2 d) |> <| one_way_delay := d |> in
  let y := if automotive_profile x then y else set_asCapable ok y in
  y <| _peer_offset_ts_mine := _timestamp mq |> <| _peer_offset_ts_theirs := t2 |>
    <| _peer_offset_init := true |>.

Lemma followup_measure_run x e w d : exchange x e w -> timestamped ->
  compute_link_delay (_peer_rate_offset x) (_timestamp mq) (_timestamp mr) t2 t3 = Some d ->
  followup_measure p this (mkExchange mq mr idr t2) w =
  Done false (w <| tick := S (tick w) |>
                <| timers := without PDELAY_RESP_RECEIPT_TIMEOUT_EXPIRES (timers w) |>
                <| ports := <[p := linked (counted x) d]> (ports w) |>).
Proof.
  intros [] (Hn1 & Hn2 & Hv) Hd. unfold followup_measure. rewrite (bind_Done _ _ _ _ _ (run_deleteLocked _ _ _)).
  cbn [ex_req ex_resp ex_resp_receipt].
  destruct (Z.eqb_spec (nanoseconds (_timestamp mq)) (nanoseconds INVALID_TIMESTAMP)); [done|].
  destruct (Z.eqb_spec (nanoseconds (_timestamp mq)) (nanoseconds PDELAY_PENDING_TIMESTAMP)); [done|].
  set (w1 := _ <| timers := _ |>).
  rewrite (bind_Done _ _ _ _ _ (fup_fields_run w1 ex_this_msg0)).
  rewrite (proj2 (Z.eqb_eq _ _) Hv). cbn [negb].
  unfold incPdelayCount. rewrite (bind_Done _ _ _ _ _ (run_mod_port _ _ x w1 ex_port0)).
  set (w2 := w1 <| ports := _ |>).
  assert (Hx2 : ports w2 !! p = Some (counted x)) by (cbn; by eapply lookup_insert_port).
  rewrite (bind_Done _ _ _ _ _ (run_get_port _ _ _ Hx2)).
  change (_peer_rate_offset (counted x)) with (_peer_rate_offset x). cbn [fst].
  rewrite (bind_Done _ _ _ _ _ (run_from_option CastOverflow _ _ _ Hd)).
  destruct (update_link_run p (counted x) e d (_timestamp mq) t2 w2 Hx2 ex_media0) as (x' & E & ->).
  rewrite (bind_Done _ _ _ _ _ E). cbn. by rewrite list_insert_insert_eq.
Qed.

Definition rx_followup (x : Port) : Port :=
  x <| counters := (counters x) <| RxPdelayResponseFollowUp :=
         u32 (RxPdelayResponseFollowUp (counters x) + 1) |> |>.

Lemma live_match {A} (s : PortState) (a b : A) :
  match s with PTP_DISABLED | PTP_FAULTY => false | _ => true end = true ->
  match s with PTP_DISABLED | PTP_FAULTY => a | _ => b end = b.
Proof. by destruct s. Qed.

(** The port after a follow-up: measured when it belongs to the exchange. *)
Definition followed (x : Port) (e : EtherPart) (d : Z) : Port :=
  (if pairs then linked (counted (rx_followup x)) d else rx_followup x)
    <| media := Ether (e <| last_pdelay_resp := None |>) |>.

Lemma pdelay_followup_run x e w d : exchange x e w -> timestamped ->
  compute_link_delay (_peer_rate_offset x) (_timestamp mq) (_timestamp mr) t2 t3 = Some d ->
  returns (pdelay_resp_followup_process p this) w (fun _ w' =>
    held w' = held w /\ heap w' = <[this := mf <| _gc := true |>]> (base.delete rs (heap w)) /\
    timers w' = (if pairs then without PDELAY_RESP_RECEIPT_TIMEOUT_EXPIRES (timers w) else timers w) /\
    ports w' = <[p := followed x e d]> (ports w) /\
    trace w' = trace w /\ clk w' = clk w /\ next_ptr w' = next_ptr w).
Proof.
  intros Hex Hts Hd. pose proof Hex as []. unfold pdelay_resp_followup_process.
  eapply returns_step; [by apply (run_as_ether p x)|].
  eapply returns_step; [by apply (run_get_port p x)|]. unfold participates in *.
  rewrite (live_match _ _ _ ex_live0).
  unfold inc_RxPdelayResponseFollowUp, count. eapply returns_step; [by apply (run_mod_port p _ x)|].
  set (w1 := w <| ports := _ |>).
  eapply returns_step; [apply run_trylock|]. set (w2 := w1 <| tick := _ |> <| held := _ |>).
  assert (Hx2 : ports w2 !! p = Some (rx_followup x)) by (cbn; by eapply lookup_insert_port).
  assert (Hex2 : exchange (rx_followup x) e w2) by by constructor.
  unfold followup_locked. eapply returns_step; [by apply (run_get_ether p (rx_followup x) e)|].
  assert (E3 : exists w3, followup_pair p this w2 = Done false w3 /\ heap w3 = heap w /\
    trace w3 = trace w /\ clk w3 = clk w /\ next_ptr w3 = next_ptr w /\
    held w3 = PDelayRxLock p :: held w /\
    ports w3 = <[p := if pairs then linked (counted (rx_followup x)) d else rx_followup x]> (ports w) /\
    timers w3 = (if pairs then without PDELAY_RESP_RECEIPT_TIMEOUT_EXPIRES (timers w) else timers w)).
  { rewrite (followup_pair_run _ _ _ Hex2). destruct pairs; [|by exists w2].
    rewrite (followup_measure_run _ _ _ _ Hex2 Hts Hd). eexists. split; [done|]. repeat split.
    cbn. by rewrite list_insert_insert_eq. }
  destruct E3 as (w3 & E3 & Hh3 & Htr3 & Hc3 & Hn3 & Hl3 & Hp3 & Ht3).
  eapply returns_step; [exact E3|]. rewrite ex_last_resp0. cbn [delete_opt].
  apply returns_bind. eapply returns_step; [apply (run_delete_msg rs mr); by rewrite Hh3|].
  set (y := if pairs then _ else _) in Hp3.
  assert (Hy : media y = Ether e) by (subst y; destruct pairs; unfold linked, set_asCapable; by repeat case_match).
  unfold setLastPDelayResp. eapply returns_step; [apply (run_mod_ether p _ y e); [|done]|].
  { cbn. rewrite Hp3. by eapply lookup_insert_port. }
  unfold set_gc, returns at 1.
  rewrite (run_mod_msg this _ mf) by (cbn; rewrite Hh3; by rewrite lookup_delete_ne).
  unfold putPDelayRxLock. eapply returns_step; [apply run_unlock; cbn; exact Hl3|].
  unfold returns, mret, M_ret. cbn. by rewrite Hh3, Hp3, Ht3, list_insert_insert_eq.
Qed.

(** C7: a complete exchange.  The follow-up of a response, when it arrives on
    a live port after the transmit timestamp of the request: if sequence ids,
    port number and source agree, the link delay [d] of the four times is
    stored, the port is asCapable exactly when the delay's magnitude is
    within the threshold (the automotive profile keeps its flag), the
    exchange is the base of the next rate ratio, which is replaced when the
    measure is plausible, and the response timeout is cancelled; if they do
    not agree, nothing is measured.  In both cases the response is freed, the
    follow-up is marked for collection, and no lock stays held. *)
Theorem pdelay_followup_spec x e w d : exchange x e w -> timestamped ->
  compute_link_delay (_peer_rate_offset x) (_timestamp mq) (_timestamp mr) t2 t3 = Some d ->
  returns (pdelay_resp_followup_process p this) w (fun _ w' =>
    held w' = held w /\ heap w' = <[this := mf <| _gc := true |>]> (base.delete rs (heap w)) /\
    timers w' = (if pairs then without PDELAY_RESP_RECEIPT_TIMEOUT_EXPIRES (timers w) else timers w) /\
    exists x', ports w' = <[p := x']> (ports w) /\
      media x' = Ether (e <| last_pdelay_resp := None |>) /\ port_state x' = port_state x /\
      one_way_delay x' = (if pairs then d else one_way_delay x) /\
      asCapable x' = (if pairs && negb (automotive_profile x)
                      then i64 (if d <? 0 then - d else d) <=? neighbor_prop_delay_thresh x
                      else asCapable x) /\
      _peer_rate_offset x' = (if pairs then default (_peer_rate_offset x)
                                (compute_peer_rate x (_timestamp mq) t2 d) else _peer_rate_offset x) /\
      (pairs = true -> _peer_offset_init x' = true /\ _peer_offset_ts_mine x' = _timestamp mq /\
                       _peer_offset_ts_theirs x' = t2)).
Proof.
  intros Hex Hts Hd. eapply returns_mono; [by apply (pdelay_followup_run x e w d)|].
  intros _ w' (Hl & Hh & Ht & Hp & _). do 3 (split; [done|]). eexists. split; [exact Hp|].
  unfold followed. destruct pairs; [|done]. unfold linked, set_asCapable, compute_peer_rate. cbn.
  destruct (automotive_profile x); [done|]. by destruct (_ <=? _).
Qed.
End Exchange.

(** An exchange with a delay of 500 ns. *)
Definition own_id : PortIdentity := port_identity (default port_memory (ports world0 !! 0%nat)).
Definition the_req : Message :=
  PTPMessageCommon_new 0 0 PathDelayReq <| sourcePortIdentity := own_id |> <| sequenceId := 5 |>
    <| _timestamp := timestamp 0 100 0 |>.
Definition the_resp : Message :=
  peer_message 5 (PathDelayResp own_id (timestamp 700 50 0)) <| _timestamp := timestamp 2000 100 0 |>.
Definition the_fup : Message := peer_message 5 (PathDelayRespFollowUp (timestamp 1700 50 0) own_id).
Definition exchange_world (req : Message) : World :=
  world0 <| heap := {[ 1%nat := req; 2%nat := the_resp; 3%nat := the_fup ]} |>
         <| ports := upd_ether (fun e => e <| last_pdelay_req := Some 1%nat |>
                                           <| last_pdelay_resp := Some 2%nat |>) <$> ports world0 |>.
Definition exchange_port : Port := default port_memory (ports (exchange_world the_req) !! 0%nat).
Definition exchange_part : EtherPart :=
  match media exchange_port with Ether e => e | Wireless _ => ether_memory end.

Lemma pdelay_followup_spec_witness :
  returns (@pdelay_resp_followup_process env_ok 0 3) (exchange_world the_req) (fun _ w' =>
    exists x', ports w' !! 0%nat = Some x' /\ one_way_delay x' = 500 /\ asCapable x' = true).
Proof.
  eapply returns_mono.
  - apply (@pdelay_followup_spec env_ok env_ok_granted ltac:(done) 0 1 2 3 the_req the_resp the_fup
      own_id own_id (timestamp 700 50 0) (timestamp 1700 50 0) eq_refl eq_refl
      exchange_port exchange_part (exchange_world the_req) 500).
    + by constructor; vm_compute.
    + by repeat split.
    + by vm_compute.
  - intros a w' (_ & _ & _ & x' & Hp & _ & _ & Hd & Ha & _). exists x'.
    replace (pairs _ _ _ _ _ _) with true in * by (by vm_compute).
    split; [rewrite Hp; by vm_compute|]. split; [exact Hd|]. rewrite Ha. by vm_compute.
Defined.

(** ** A peer that answers twice *)

(** The response is to the same request as the stored one, from another port,
    and continues a series. *)
Definition suspicious (e : EtherPart) (m old : Message) : bool :=
  negb (portNumber (sourcePortIdentity m) =? portNumber (sourcePortIdentity old))
  && ((last_invalid_seqid e + 1 =? sequenceId m) || (duplicate_resp_counter e =? 0)).

(** The members of the port after a response, and whether the peer has now
    misbehaved for the third time. *)
Definition third_time (e : EtherPart) (m old : Message) : bool :=
  (sequenceId m =? sequenceId old) && suspicious e m old
  && (u32 (duplicate_resp_counter e + 1) =? DUPLICATE_RESP_THRESH).
Definition judged (e : EtherPart) (m old : Message) : EtherPart :=
  if sequenceId m =? sequenceId old then
    let e' := if suspicious e m old
              then e <| duplicate_resp_counter := u32 (duplicate_resp_counter e + 1) |>
              else e <| duplicate_resp_counter := 0 |> in
    let e' := if third_time e m old then e' <| pdelay_halted := true |> <| pdelay_started := false |>
              else e' in
    e' <| last_invalid_seqid := sequenceId m |>
  else e <| duplicate_resp_counter := 0 |>.

Section Misbehaving.
Context `{Env} `{!LocksGranted}.

(** One member update after another. *)
Lemma mod_ether_twice p f x e' w w' :
  ports w !! p = Some x -> ports w' = <[p := x <| media := Ether e' |>]> (ports w) ->
  mod_ether p f w' =
  Done tt (w' <| ports := <[p := x <| media := Ether (f e') |>]> (ports w) |>).
Proof.
  intros Hx Hp. rewrite (run_mod_ether p f (x <| media := Ether e' |>) e').
  - rewrite Hp. by rewrite list_insert_insert_eq.
  - rewrite Hp. by eapply lookup_insert_port.
  - done.
Qed.

Lemma stopPDelay_run p x e w0 w :
  ports w0 !! p = Some x -> ports w = <[p := x <| media := Ether e |>]> (ports w0) ->
  exists w', stopPDelay p w = Done tt w' /\ held w' = held w /\ heap w' = heap w /\ clk w' = clk w /\
    ports w' = <[p := x <| media := Ether (e <| pdelay_halted := true |>
                                            <| pdelay_started := false |>) |>]> (ports w0) /\
    timers w' = without PDELAY_INTERVAL_TIMEOUT_EXPIRES (timers w).
Proof.
  intros Hx Hp. unfold stopPDelay, haltPdelay.
  rewrite (bind_Done _ _ _ _ _ (mod_ether_twice p _ x e w0 w Hx Hp)).
  erewrite (bind_Done _ _ _ _ _) by (by eapply (mod_ether_twice p _ x _ w0)).
  rewrite run_deleteLocked. eexists. split; [done|]. by repeat split.
Qed.

End Misbehaving.

(** The third duplicate, from port 2 of the peer. *)
Definition dup_part : EtherPart :=
  exchange_part <| duplicate_resp_counter := 2 |> <| last_invalid_seqid := 4 |>.
Definition dup_world : World :=
  exchange_world the_req <| ports := [exchange_port <| media := Ether dup_part |>] |>.
Definition dup_resp : Message :=
  the_resp <| sourcePortIdentity := mkPortIdentity (cid_set_addr peer_mac) 2 |>.

