(* ===== verification/PDelayExchange.v ===== *)
(** * Two daemons measure their link

    The peer delay exchange end to end: the initiator's timer fires and its
    request goes out, the responder answers it with a response and a follow-up,
    and the initiator computes the delay of the link from them.  The two daemons
    have environments of their own; what one sends (its [ESend] effects) is what
    the other receives, octet by octet. *)

From Stdlib Require Import ZArith Lia.
From Stdlib.Floats Require Import SpecFloat.
From stdpp Require Import base gmap list.
From S2P Require Import Prelude Timestamp CFloat Identity Message Wire World Loops Clock Port Media Runs Ether Servo Transmit PDelay Sync CommonPort Receive Wireless Dispatch Fixture Evolution Locks PDelayTheory.

(** The next operation of a handler runs. *)
#[local] Tactic Notation "goes" tactic3(t) := erewrite bind_Done by t; cbv beta match.

Lemma delay_of_wire rate t1 t2 t3 t4 :
  compute_link_delay rate t1 t4 (wire_time t2) (wire_time t3) = compute_link_delay rate t1 t4 t2 t3.
Proof.
  assert (H : ts_diff (wire_time t2) (wire_time t3) = ts_diff t2 t3) by (destruct t2, t3; unfold wire_time, timestamp, ts_diff; exact eq_refl).
  unfold compute_link_delay. rewrite H. exact eq_refl.
Qed.

(** A time of a clock is none of the two special values. *)
Lemma not_special t : nanoseconds t < MAX_NANOSECONDS ->
  nanoseconds t <> nanoseconds INVALID_TIMESTAMP /\ nanoseconds t <> nanoseconds PDELAY_PENDING_TIMESTAMP.
Proof.
  unfold MAX_NANOSECONDS. change (nanoseconds INVALID_TIMESTAMP) with 3221225472.
  change (nanoseconds PDELAY_PENDING_TIMESTAMP) with 3221225473. lia.
Qed.

(** ** A platform that answers

    What the exchange relies on, of the environment of one daemon: locks are
    granted, frames leave, and the hardware has the timestamp of a message when
    it is asked the first time, [tx_time] of one that was sent and [rx_time] of
    one that was received. *)
Class Answers (E : Env) (tx_time rx_time : PTPMessageId -> Timestamp) := {
  an_locks : LocksGranted;
  an_try n l : env_trylock n l = true;
  an_send n : env_send n = true;
  an_offset : (env_payload_offset <= 132)%nat;
  an_tx n id mid last : (env_txtimestamp n id mid last).1 = (GPTP_EC_SUCCESS, tx_time mid);
  an_rx n id mid last : (env_rxtimestamp n id mid last).1 = (GPTP_EC_SUCCESS, rx_time mid);
}.

(** The octets of a frame that leaves: those after the room for the header. *)
Definition on_wire (offset : nat) (e : Effect) : option (list Z) :=
  match e with
  | ESend _ _ _ buf size _ => slice offset (Z.to_nat size) buf
  | _ => None
  end.
(** Its arrival at a port, in the receive array with [rest] behind it. *)
Definition arrival (f rest : list Z) (p : pid) (remote : LinkLayerAddress) : Input :=
  Frame p (f ++ rest) (Z.of_nat (length f)) remote.

(** Equal but for the counters of the management interface. *)
Definition with_counters (x : Port) (c : PortCounters) : Port := x <| counters := c |>.

Section Side.
Context {E : Env} {tx_time rx_time : PTPMessageId -> Timestamp} {HA : Answers E tx_time rx_time}.
#[local] Existing Instance an_locks.

(** ** Sending *)

Lemma build_frame_run q m w : heap w !! q = Some m -> msg_wf m -> exists buf f,
  slice env_payload_offset (Z.to_nat (messageLength (prepare m))) buf = Some f /\
  frame_of env_payload_offset m = Some f /\
  build_frame q w = Done (buf, messageLength (prepare m)) (w <| heap := <[q := prepare m]> (heap w) |>).
Proof.
  intros Hq Hm. destruct (frame_defined env_payload_offset m Hm an_offset) as (f & Hf & _).
  pose proof Hf as Hf'. unfold frame_of in Hf'. destruct (build env_payload_offset m) as [buf|] eqn:Eb; [|done].
  exists buf, f. split; [exact Hf'|]. split; [done|]. unfold build_frame.
  rewrite (bind_Done _ _ _ _ _ (run_get_msg _ _ _ Hq)), (bind_Done _ _ _ _ _ (run_mod_msg _ _ _ _ Hq)).
  by rewrite (bind_Done _ _ _ _ _ (run_from_option OutOfBounds _ _ _ Eb)).
Qed.

Lemma port_send_run p ty buf size dest ts w :
  port_send p ty buf size MCAST_PDELAY dest ts w =
  Done true (w <| trace := trace w ++ [ESend p (LinkLayerAddress_of_scalar PDELAY_MULTICAST) ty buf size ts] |>
               <| tick := S (tick w) |>).
Proof. unfold port_send, send, ask, mbind, M_bind. cbn. by rewrite an_send. Qed.

Lemma getTxTimestamp_run q m p x speed w :
  heap w !! q = Some m -> ports w !! p = Some x -> _hw_timestamper x = EtherTs ->
  getTxTimestamp q p speed w =
  Done true (w <| tick := S (tick w) |>
    <| heap := <[q := m <| _timestamp := ts_plus (tx_time (getMessageId m))
                   (getTxPhyDelay x speed <| _version := _version (tx_time (getMessageId m)) |>) |>]> (heap w) |>).
Proof.
  intros Hq Hx Ht. unfold getTxTimestamp. rewrite (bind_Done _ _ _ _ _ (run_get_msg _ _ _ Hq)).
  assert (E1 : eth_getTxTimestamp p (sourcePortIdentity m) (getMessageId m) false w =
    Done (GPTP_EC_SUCCESS, tx_time (getMessageId m)) (w <| tick := S (tick w) |>)).
  { unfold eth_getTxTimestamp. rewrite (bind_Done _ _ _ _ _ (run_get_port _ _ _ Hx)), Ht.
    unfold ask, mbind, M_bind, mret, M_ret. by rewrite an_tx. }
  rewrite (bind_Done _ _ _ _ _ E1). unfold TX_TIMEOUT_ITER. cbn [tx_retry fst].
  rewrite Z.eqb_refl, (bind_Done _ _ _ _ _ (run_ret _ _)). cbn [fst snd]. rewrite Z.eqb_refl.
  goes (apply run_get_port; exact Hx).
  unfold setTimestamp. goes (apply run_mod_msg; exact Hq). done.
Qed.

Lemma inc_run p (f : PortCounters -> PortCounters) x w : ports w !! p = Some x ->
  count f p w = Done tt (w <| ports := <[p := with_counters x (f (counters x))]> (ports w) |>).
Proof. intros Hx. unfold count. by rewrite (run_mod_port _ _ _ _ Hx). Qed.

(** The timestamp of a sent message, with the delay of the port's own hardware. *)
Definition sent_at (x : Port) (id : PTPMessageId) : Timestamp :=
  ts_plus (tx_time id) (getTxPhyDelay x (link_speed x) <| _version := _version (tx_time id) |>).

Lemma prepare_id m : getMessageId (prepare m) = getMessageId m.
Proof. destruct (prepare_fields m) as (Ht & _ & _ & Hs & _). unfold getMessageId. by rewrite Ht, Hs. Qed.

(** What the two [sendPort]s of event messages do. *)
Definition send_event (q : ptr) (p : pid) (f : PortCounters -> PortCounters) (k : option PortIdentity) : D bool :=
  b ← build_frame q;
  speed ← sendEventPort p PTP_ETHERTYPE b.1 b.2 MCAST_PDELAY k;
  count f p;;
  getTxTimestamp q p speed.

(** Sending an event message of the peer delay mechanism: the frame, and the
    timestamp of the message. *)
Lemma event_sent q p f m x w k :
  heap w !! q = Some m -> msg_wf m -> ports w !! p = Some x -> _hw_timestamper x = EtherTs ->
  exists buf fr c, frame_of env_payload_offset m = Some fr /\
    on_wire env_payload_offset (ESend p (LinkLayerAddress_of_scalar PDELAY_MULTICAST) PTP_ETHERTYPE buf
      (messageLength (prepare m)) true) = Some fr /\
    send_event q p f k w =
    Done true (w <| tick := S (S (tick w)) |>
      <| trace := trace w ++ [ESend p (LinkLayerAddress_of_scalar PDELAY_MULTICAST) PTP_ETHERTYPE buf
                               (messageLength (prepare m)) true] |>
      <| ports := <[p := with_counters x c]> (ports w) |>
      <| heap := <[q := prepare m <| _timestamp := sent_at x (getMessageId m) |>]> (heap w) |>).
Proof.
  intros Hq Hm Hx Ht. destruct (build_frame_run q m w Hq Hm) as (buf & fr & Hs & Hf & Eb).
  exists buf, fr, (f (counters x)). split; [done|]. split; [done|]. unfold send_event.
  rewrite (bind_Done _ _ _ _ _ Eb). cbn [fst snd]. unfold sendEventPort, mbind, M_bind.
  rewrite port_send_run. unfold get_port. cbn -[getTxTimestamp count]. rewrite Hx. cbn -[getTxTimestamp count].
  rewrite (inc_run p f x) by done.
  rewrite (getTxTimestamp_run q (prepare m) p (with_counters x (f (counters x)))).
  - cbn. rewrite insert_insert_eq, prepare_id. reflexivity.
  - cbn. apply lookup_insert_eq.
  - cbn. by eapply lookup_insert_port.
  - done.
Qed.

Lemma followup_sent q p m x w k :
  heap w !! q = Some m -> msg_wf m -> ports w !! p = Some x ->
  exists buf fr c, frame_of env_payload_offset m = Some fr /\
    on_wire env_payload_offset (ESend p (LinkLayerAddress_of_scalar PDELAY_MULTICAST) PTP_ETHERTYPE buf
      (messageLength (prepare m)) false) = Some fr /\
    pdelay_resp_followup_sendPort q p k w =
    Done true (w <| tick := S (tick w) |>
      <| trace := trace w ++ [ESend p (LinkLayerAddress_of_scalar PDELAY_MULTICAST) PTP_ETHERTYPE buf
                               (messageLength (prepare m)) false] |>
      <| ports := <[p := with_counters x c]> (ports w) |> <| heap := <[q := prepare m]> (heap w) |>).
Proof.
  intros Hq Hm Hx. destruct (build_frame_run q m w Hq Hm) as (buf & fr & Hs & Hf & Eb).
  exists buf, fr. eexists. split; [done|]. split; [done|]. unfold pdelay_resp_followup_sendPort, eth_sendGeneralPort.
  rewrite (bind_Done _ _ _ _ _ Eb). cbn [fst snd]. unfold mbind, M_bind. rewrite port_send_run.
  cbn -[count]. unfold inc_TxPdelayResponseFollowUp. rewrite (inc_run p _ x) by done. reflexivity.
Qed.

(** ** Receiving *)

(** What arrives of a message: who sent it, its number and its payload, at the
    time [t]. *)
Record copy_of (m : Message) (t : Timestamp) (r : Message) : Prop := {
  cp_source : sourcePortIdentity r = sourcePortIdentity m;
  cp_seq : sequenceId r = sequenceId m;
  cp_payload : payload r = received (payload m);
  cp_time : _timestamp r = t;
  cp_gc : _gc r = false;
}.

Lemma copy_type m t r : copy_of m t r -> messageType r = messageType m /\ isEvent r = isEvent m /\ getMessageId r = getMessageId m.
Proof.
  intros []. unfold isEvent, getMessageId, messageType. rewrite cp_payload0, cp_seq0.
  by destruct (payload m).
Qed.

Lemma event_type m : (Z.shiftr (MessageType_code (messageType m)) 3 =? 0) = isEvent m.
Proof. unfold isEvent, messageType. by destruct (payload m). Qed.

Lemma rx_timestamp_run p id mid x e w :
  ports w !! p = Some x -> media x = Ether e -> _hw_timestamper x = EtherTs -> exists cv,
  rx_timestamp p id mid w = Done (Some (rx_time mid, cv)) (w <| tick := S (tick w) |>).
Proof.
  intros Hx He Ht. eexists. unfold rx_timestamp. goes (by eapply run_as_ether).
  assert (E1 : eth_getRxTimestamp p id mid 0 false w =
    Done (GPTP_EC_SUCCESS, rx_time mid, (env_rxtimestamp (tick w) id mid false).2) (w <| tick := S (tick w) |>)).
  { unfold eth_getRxTimestamp. goes (apply run_get_port; exact Hx). rewrite Ht.
    unfold ask. by rewrite (surjective_pairing (env_rxtimestamp _ _ _ _)), an_rx. }
  goes (exact E1). unfold RX_ITER. cbn [rx_retry fst]. rewrite Z.eqb_refl.
  goes (apply run_ret). cbn [fst snd]. rewrite Z.eqb_refl. reflexivity.
Qed.

(** The octets of a frame become a new message of the receiver. *)
Lemma build_received p x e off m f rest remote w :
  ports w !! p = Some x -> media x = Ether e -> _hw_timestamper x = EtherTs ->
  msg_wf m -> (off <= 132)%nat -> frame_of off m = Some f -> length (f ++ rest) = 128%nat ->
  messageType m <> ANNOUNCE_MESSAGE ->
  exists r, copy_of m (if isEvent m then rx_time (getMessageId m) else timestamp 0 0 0) r /\
  buildPTPMessage p (f ++ rest) (Z.of_nat (length f)) remote w =
  Done (Some (next_ptr w))
    ((if isEvent m
      then w <| tick := S (tick w) |> <| ports := <[p := x <| media := Ether (e <| identity_map :=
             <[sourcePortIdentity m := remote]> (identity_map e) |>) |>]> (ports w) |>
      else w) <| heap := <[next_ptr w := r]> (heap w) |> <| next_ptr := S (next_ptr w) |>).
Proof.
  intros Hx He Ht Hm Ho Hf Hr Ha. pose proof (frame_of_length _ _ _ Hf) as Hl.
  destruct (prepare_length m ltac:(apply Hm)) as [_ Hb].
  assert (Hp : parse_prefix (f ++ rest) =
    Some (MessageType_code (messageType m), 1, sourcePortIdentity m, sequenceId m))
    by (eapply parse_prefix_frame; [done..|lia]).
  destruct (parse_body_frame off m f rest Hm Hf) as (base & Hbody & Hbase). rewrite (Hbase Ha) in Hbody.
  unfold buildPTPMessage. rewrite Hp. goes (by apply run_from_option).
  rewrite event_type. change (mkPTPMessageId _ _) with (getMessageId m). destruct (isEvent m).
  - destruct (rx_timestamp_run p (sourcePortIdentity m) (getMessageId m) x e w Hx He Ht) as [cv E1].
    destruct (parse_header_frame off m f rest (rx_time (getMessageId m)) cv (received (payload m))
      Hm Hf ltac:(lia) ltac:(lia)) as [ctl Hh].
    eexists. split; [|goes (exact E1); cbn [negb Z.eqb Pos.eqb]; rewrite Hbody;
      goes (by apply run_from_option); rewrite Hh;
      goes (by apply run_from_option); cbn [when];
      unfold addSockAddrMap; goes (by eapply run_mod_ether); reflexivity].
    by constructor.
  - destruct (parse_header_frame off m f rest (timestamp 0 0 0) 0 (received (payload m))
      Hm Hf ltac:(lia) ltac:(lia)) as [ctl Hh].
    eexists. split; [|goes (apply run_ret); cbn [negb Z.eqb Pos.eqb]; rewrite Hbody;
      goes (by apply run_from_option); rewrite Hh;
      goes (by apply run_from_option); cbn [when];
      goes (apply run_ret); reflexivity].
    by constructor.
Qed.

(** The time a message arrives, less the delay of the port's own hardware. *)
Definition heard_at (x : Port) (id : PTPMessageId) : Timestamp :=
  ts_minus (rx_time id) (getRxPhyDelay x (link_speed x) <| _version := _version (rx_time id) |>).

(** The world when the handler of the message starts. *)
Definition at_handler (w : World) (p : pid) (x : Port) (e : EtherPart) (m r : Message) (remote : LinkLayerAddress) : World :=
  (if isEvent m
   then w <| tick := S (tick w) |> <| ports := <[p := x <| media := Ether (e <| identity_map :=
          <[sourcePortIdentity m := remote]> (identity_map e) |>) |>]> (ports w) |>
   else w) <| heap := <[next_ptr w := r]> (heap w) |> <| next_ptr := S (next_ptr w) |>.

Lemma frame_received p x e off m f rest remote w :
  ports w !! p = Some x -> media x = Ether e -> _hw_timestamper x = EtherTs ->
  msg_wf m -> (off <= 132)%nat -> frame_of off m = Some f -> length (f ++ rest) = 128%nat ->
  messageType m <> ANNOUNCE_MESSAGE ->
  exists r, copy_of m (if isEvent m then heard_at x (getMessageId m) else timestamp 0 0 0) r /\
  daemon_step (arrival f rest p remote) w =
  (processMessage p (next_ptr w);; collect (next_ptr w)) (at_handler w p x e m r remote).
Proof.
  intros Hx He Ht Hm Ho Hf Hr Ha.
  destruct (build_received p x e off m f rest remote w Hx He Ht Hm Ho Hf Hr Ha) as (r & Hc & E1).
  pose proof (copy_type _ _ _ Hc) as (_ & Hev & _).
  exists (if isEvent m then r <| _timestamp := heard_at x (getMessageId m) |> else r).
  split; [destruct (isEvent m), Hc; by constructor|].
  unfold daemon_step, arrival, by_media. goes (apply run_get_port; exact Hx). rewrite He.
  goes (apply run_get_port; exact Hx). unfold eth_receive.
  goes (exact E1). goes (apply run_get_msg; apply lookup_insert_eq).
  rewrite Hev. unfold at_handler. destruct (isEvent m) eqn:Em.
  - goes (apply run_get_port; cbn; by eapply lookup_insert_port). cbn [when].
    unfold setTimestamp. goes (apply run_mod_msg; apply lookup_insert_eq).
    destruct Hc. cbn. rewrite cp_time0, insert_insert_eq. reflexivity.
  - goes (apply run_get_port; exact Hx). cbn [when].
    goes (apply run_ret). reflexivity.
Qed.

(** ** Answering *)

Lemma ts_plus_fits a b : ts_fits (ts_plus a b).
Proof. split; [|split]; (apply (uwrap_fits 16) || apply (uwrap_fits 32)); lia. Qed.
Lemma ts_minus_fits a b : ts_fits (ts_minus a b).
Proof.
  unfold ts_minus. split; [|split]; cbn -[Z.sub Z.add]; repeat case_match;
    (apply (uwrap_fits 16) || apply (uwrap_fits 32)); lia.
Qed.

(** No message lies where the next one will. *)
Definition below (n : nat) (h : gmap nat Message) : Prop := forall q, is_Some (h !! q) -> (q < n)%nat.
Definition fresh (w : World) : Prop := below (next_ptr w) (heap w).
Lemma fresh_none w q : fresh w -> (next_ptr w <= q)%nat -> heap w !! q = None.
Proof. intros Hf Hq. destruct (heap w !! q) eqn:Eq; [|done]. pose proof (Hf q ltac:(by rewrite Eq)). lia. Qed.
Lemma below_mono n n' h : (n <= n')%nat -> below n h -> below n' h.
Proof. intros Hn H q Hq. specialize (H q Hq). lia. Qed.
Lemma below_insert n h q m : (q < n)%nat -> below n h -> below n (<[q := m]> h).
Proof. intros Hq H k Hk. destruct (decide (k = q)) as [->|]; [done|]. apply H. by rewrite lookup_insert_ne in Hk. Qed.
Lemma below_delete n h q : below n h -> below n (base.delete q h).
Proof.
  intros H k Hk. destruct (decide (k = q)) as [->|]; [|apply H; by rewrite lookup_delete_ne in Hk].
  rewrite lookup_delete_eq in Hk. by destruct Hk.
Qed.

(** A frame that is sent. *)
Definition frame_effect (p : pid) (ts : bool) (m : Message) (f : list Z) (ef : Effect) : Prop :=
  on_wire env_payload_offset ef = Some f /\ frame_of env_payload_offset m = Some f /\
  exists buf, ef = ESend p (LinkLayerAddress_of_scalar PDELAY_MULTICAST) PTP_ETHERTYPE buf
                     (messageLength (prepare m)) ts.

Lemma new_resp_run w : PTPMessagePathDelayResp_new w =
  let m := PTPMessageCommon_new (domain_number (clk w)) env_garbage (PathDelayResp identity_new (timestamp 0 0 0)) in
  Done (next_ptr w) (w <| heap := <[next_ptr w := m <| logMeanMessageInterval := 0x7F |>
             <| control := LegacyMessageType_code MESSAGE_OTHER |> <| versionPTP := GPTP_VERSION |>
             <| flags := set_flag PTP_ASSIST_BYTE PTP_ASSIST_BIT (flags m) |>]> (heap w) |>
    <| next_ptr := S (next_ptr w) |>).
Proof. reflexivity. Qed.
Lemma new_fup_run w : PTPMessagePathDelayRespFollowUp_new w =
  let m := PTPMessageCommon_new (domain_number (clk w)) env_garbage (PathDelayRespFollowUp (timestamp 0 0 0) identity_new) in
  Done (next_ptr w) (w <| heap := <[next_ptr w := m <| logMeanMessageInterval := 0x7F |>
             <| control := LegacyMessageType_code MESSAGE_OTHER |> <| versionPTP := GPTP_VERSION |>]> (heap w) |>
    <| next_ptr := S (next_ptr w) |>).
Proof. reflexivity. Qed.

Lemma two_freed (h : gmap nat Message) a b m m' : h !! a = None -> h !! b = None -> a <> b ->
  base.delete b (base.delete a (<[b := m']> (<[a := m]> h))) = h.
Proof.
  intros Ha Hb Hab. apply map_eq. intros k.
  destruct (decide (k = a)) as [->|]; [|destruct (decide (k = b)) as [->|]]; by simplify_map_eq.
Qed.

(** The response of the port [x] to a request, and its follow-up. *)
Definition response_to (d : Z) (x : Port) (req : Message) : Message :=
  let m := PTPMessageCommon_new d env_garbage (PathDelayResp identity_new (timestamp 0 0 0)) in
  m <| logMeanMessageInterval := 0x7F |> <| control := LegacyMessageType_code MESSAGE_OTHER |>
    <| versionPTP := GPTP_VERSION |> <| flags := set_flag PTP_ASSIST_BYTE PTP_ASSIST_BIT (flags m) |>
    <| sourcePortIdentity := port_identity x |> <| sequenceId := sequenceId req |>
    <| payload := PathDelayResp (sourcePortIdentity req) (_timestamp req) |>.
Definition followup_to (d : Z) (x : Port) (req : Message) : Message :=
  PTPMessageCommon_new d env_garbage (PathDelayRespFollowUp (timestamp 0 0 0) identity_new)
    <| logMeanMessageInterval := 0x7F |> <| control := LegacyMessageType_code MESSAGE_OTHER |>
    <| versionPTP := GPTP_VERSION |>
    <| sourcePortIdentity := port_identity x |> <| sequenceId := sequenceId req |>
    <| payload := PathDelayRespFollowUp (sent_at x (getMessageId (response_to d x req)))
                    (sourcePortIdentity req) |> <| correctionField := 0 |>.

(** A request as it is received. *)
Record request_wf (r : Message) : Prop := {
  rq_source : pid_wf (sourcePortIdentity r);
  rq_seq : fits 16 (sequenceId r);
  rq_time : ts_fits (_timestamp r);
}.
Lemma response_wf d x r : octet d -> pid_wf (port_identity x) -> request_wf r -> msg_wf (response_to d x r).
Proof.
  intros Hd Hx [Hs Hq Ht]. split; [closed_tac|]. split; [exact Hx|]. split; [exact Hq|].
  do 3 (split; [closed_tac|]). split; [exact Hd|]. by split.
Qed.
Lemma followup_wf d x r : octet d -> pid_wf (port_identity x) -> request_wf r -> msg_wf (followup_to d x r).
Proof.
  intros Hd Hx [Hs Hq Ht]. split; [closed_tac|]. split; [exact Hx|]. split; [exact Hq|].
  do 3 (split; [closed_tac|]). split; [exact Hd|]. split; [exact Hs|apply ts_plus_fits].
Qed.

(** What a step leaves: what it sent, its port, its messages and its timers. *)
Record moved (w : World) (p : pid) (sent : list Effect) (x : Port) (h : gmap nat Message) (ts : list Timer)
    (w' : World) : Prop := {
  mv_trace : trace w' = trace w ++ sent;
  mv_ports : ports w' = <[p := x]> (ports w);
  mv_heap : heap w' = h;
  mv_timers : timers w' = ts;
  mv_held : held w' = held w;
  mv_clk : clk w' = clk w;
  mv_next : (next_ptr w <= next_ptr w')%nat;
  mv_fresh : fresh w -> below (next_ptr w') h;
}.

Lemma respond_run p x w q r : ports w !! p = Some x -> _hw_timestamper x = EtherTs ->
  heap w !! q = Some r -> fresh w -> octet (domain_number (clk w)) -> pid_wf (port_identity x) -> request_wf r ->
  exists fr ff er ef w' c,
    frame_effect p true (response_to (domain_number (clk w)) x r) fr er /\
    frame_effect p false (followup_to (domain_number (clk w)) x r) ff ef /\
    pdelay_req_respond p q w = Done tt w' /\
    moved w p [er; ef] (with_counters x c) (heap w) (timers w) w'.
Proof.
  intros Hx Ht Hq Hfr Hdom Hid Hr. set (mr := response_to _ x r). set (mf := followup_to _ x r).
  pose proof (response_wf _ x r Hdom Hid Hr) as Hmr. pose proof (followup_wf _ x r Hdom Hid Hr) as Hmf.
  fold mr in Hmr. fold mf in Hmf. pose proof (Hfr q ltac:(by rewrite Hq)) as Hlt. set (q1 := next_ptr w) in *.
  set (x1 := with_counters x (counters x <| RxPdelayRequest := u32 (RxPdelayRequest (counters x) + 1) |>)).
  set (w1 := w <| ports := <[p := x1]> (ports w) |>).
  assert (Hx1 : ports w1 !! p = Some x1) by (cbn; by eapply lookup_insert_port).
  set (w2 := w1 <| heap := <[q1 := mr]> (heap w) |> <| next_ptr := S q1 |>).
  set (w3 := w2 <| tick := S (tick w2) |> <| held := PortTxLock p :: held w2 |>).
  destruct (event_sent q1 p (fun c => c <| TxPdelayResponse := u32 (TxPdelayResponse c + 1) |>) mr x1 w3
    (Some (sourcePortIdentity r))) as (b1 & f1 & c1 & Hf1 & Ho1 & E1);
    [apply lookup_insert_eq|exact Hmr|exact Hx1|exact Ht|].
  set (w4 := _ <| heap := _ |>) in E1. set (w5 := w4 <| held := held w |>).
  set (w6 := w5 <| heap := <[S q1 := mf]> (heap w5) |> <| next_ptr := S (S q1) |>).
  destruct (followup_sent (S q1) p mf (with_counters x1 c1) w6 (Some (sourcePortIdentity r)))
    as (b2 & f2 & c2 & Hf2 & Ho2 & E2); [apply lookup_insert_eq|exact Hmf|cbn; by eapply lookup_insert_port|].
  exists f1, f2. do 3 eexists. exists c2. split; [by repeat split; [..|eexists]|].
  split; [by repeat split; [..|eexists]|]. unfold pdelay_req_respond, inc_RxPdelayRequest. split.
  - goes (by apply (inc_run p _ x)). fold x1. fold w1.
    goes (apply new_resp_run). goes (apply run_get_port; exact Hx1).
    unfold setPortIdentity. goes (apply run_mod_msg; apply lookup_insert_eq).
    goes (apply run_get_msg; cbn; rewrite !lookup_insert_ne by (subst q1; lia); exact Hq).
    unfold setSequenceId. do 2 goes (apply run_mod_msg; apply lookup_insert_eq).
    match goal with |- (_ ≫= _) ?W = _ => replace W with w2 end.
    2:{ cbn -[PTPMessageCommon_new u32]. by rewrite !insert_insert_eq. }
    unfold eth_getTxLock. goes (apply run_lock). fold w3.
    goes (exact E1). unfold eth_putTxLock. goes (apply (run_unlock _ (held w)); reflexivity). fold w5.
    goes (apply new_fup_run). goes (apply run_get_port; cbn; by eapply lookup_insert_port).
    do 2 goes (apply run_mod_msg; apply lookup_insert_eq).
    goes (apply run_get_msg; cbn; rewrite !lookup_insert_ne by lia; apply lookup_insert_eq).
    goes (apply run_mod_msg; apply lookup_insert_eq).
    match goal with |- (_ ≫= _) ?W = _ => replace W with w6 end.
    2:{ clear. subst w6 w5 w4 w3 w2 w1. cbn -[PTPMessageCommon_new u32]. by rewrite !insert_insert_eq. }
    goes (exact E2). goes (eapply run_delete_msg; cbn; rewrite !lookup_insert_ne by lia; apply lookup_insert_eq).
    erewrite run_delete_msg by (cbn; rewrite lookup_delete_ne by lia; apply lookup_insert_eq).
    reflexivity.
  - constructor; cbn -[PTPMessageCommon_new u32 prepare mr mf]; try done; try lia.
    + by rewrite <- app_assoc.
    + by rewrite !list_insert_insert_eq.
    + rewrite !insert_insert_eq. apply two_freed; [apply fresh_none..|]; auto with lia.
    + apply below_mono. lia.
Qed.

Lemma request_answered p x e w q r : ports w !! p = Some x -> media x = Ether e -> participates x = true ->
  _hw_timestamper x = EtherTs -> heap w !! q = Some r -> fresh w -> octet (domain_number (clk w)) ->
  pid_wf (port_identity x) -> request_wf r ->
  exists fr ff er ef w' c,
    frame_effect p true (response_to (domain_number (clk w)) x r) fr er /\
    frame_effect p false (followup_to (domain_number (clk w)) x r) ff ef /\
    pdelay_req_process p q w = Done tt w' /\
    moved w p [er; ef] (with_counters x c) (<[q := r <| _gc := true |>]> (heap w)) (timers w) w'.
Proof.
  intros Hx He Hpart Ht Hq Hfr Hdom Hid Hr.
  destruct (respond_run p x w q r Hx Ht Hq Hfr Hdom Hid Hr) as (fr & ff & er & ef & w' & c & Her & Hef & E1 & Hm).
  exists fr, ff, er, ef, (w' <| heap := <[q := r <| _gc := true |>]> (heap w') |>), c.
  do 2 (split; [done|]). destruct Hm. split; [|constructor; cbn; try (congruence || done)].
  2:{ intros Hf. apply below_insert; [|by apply mv_fresh0]. specialize (Hfr q ltac:(by rewrite Hq)). lia. }
  unfold pdelay_req_process. goes (apply (run_as_ether p x e); done). goes (apply run_get_port; exact Hx).
  unfold participates in Hpart. rewrite (live_match _ _ _ Hpart).
  goes (exact E1). unfold set_gc. apply run_mod_msg. by rewrite mv_heap0.
Qed.
(** ** The responder's step *)

(** A live Ethernet port with a hardware clock, in a world without loose ends. *)
Record ready (w : World) (p : pid) (x : Port) (e : EtherPart) : Prop := {
  rd_port : ports w !! p = Some x;
  rd_media : media x = Ether e;
  rd_live : participates x = true;
  rd_hw : _hw_timestamper x = EtherTs;
  rd_fresh : fresh w;
  rd_domain : octet (domain_number (clk w));
  rd_id : pid_wf (port_identity x);
}.

(** The port, but for its counters and its Ethernet part. *)
Definition port_with (x : Port) (c : PortCounters) (e : EtherPart) : Port :=
  x <| counters := c |> <| media := Ether e |>.

(** The request as the responder has it. *)
Lemma received_request m t r : msg_wf m -> ts_fits t -> copy_of m t r -> request_wf r.
Proof. intros (_ & Hs & Hq & _) Ht []. constructor; congruence. Qed.

Lemma delete_new (h : gmap nat Message) w m : fresh w -> h = <[next_ptr w := m]> (heap w) ->
  base.delete (next_ptr w) h = heap w.
Proof. intros Hf ->. apply delete_insert_id, fresh_none; auto with lia. Qed.

Lemma responder_step p x e w off m f rest remote : ready w p x e ->
  msg_wf m -> payload m = PathDelayReq -> (off <= 132)%nat -> frame_of off m = Some f ->
  length (f ++ rest) = 128%nat ->
  exists r fr ff er ef w' c, copy_of m (heard_at x (getMessageId m)) r /\
    frame_effect p true (response_to (domain_number (clk w)) x r) fr er /\
    frame_effect p false (followup_to (domain_number (clk w)) x r) ff ef /\
    daemon_step (arrival f rest p remote) w = Done tt w' /\
    moved w p [er; ef] (port_with x c (e <| identity_map := <[sourcePortIdentity m := remote]> (identity_map e) |>))
      (heap w) (timers w) w'.
Proof.
  intros [] Hm Hpl Ho Hf Hl.
  assert (Hev : isEvent m = true) by (unfold isEvent, messageType; by rewrite Hpl).
  destruct (frame_received p x e off m f rest remote w rd_port0 rd_media0 rd_hw0 Hm Ho Hf Hl)
    as (r & Hc & E1); [unfold messageType; by rewrite Hpl|].
  rewrite Hev in Hc. set (w1 := at_handler w p x e m r remote) in *.
  set (x1 := x <| media := Ether (e <| identity_map := <[sourcePortIdentity m := remote]> (identity_map e) |>) |>).
  pose proof (received_request m _ r Hm (ts_minus_fits _ _) Hc) as Hr.
  assert (Hw1 : ports w1 = <[p := x1]> (ports w) /\ heap w1 = <[next_ptr w := r]> (heap w) /\
    next_ptr w1 = S (next_ptr w) /\ clk w1 = clk w /\ timers w1 = timers w /\ held w1 = held w /\ trace w1 = trace w).
  { subst w1. unfold at_handler. by rewrite Hev. }
  destruct Hw1 as (Hp1 & Hh1 & Hn1 & Hc1 & Ht1 & Hl1 & Htr1).
  assert (Hq1 : heap w1 !! next_ptr w = Some r) by (rewrite Hh1; apply lookup_insert_eq).
  destruct (request_answered p x1 (e <| identity_map := <[sourcePortIdentity m := remote]> (identity_map e) |>)
    w1 (next_ptr w) r) as (fr & ff & er & ef & w' & c & Her & Hef & E2 & Hmv); try done.
  - rewrite Hp1. by eapply lookup_insert_port.
  - intros q Hq. rewrite Hh1 in Hq. rewrite Hn1. destruct (decide (q = next_ptr w)) as [->|]; [lia|].
    rewrite lookup_insert_ne in Hq by done. specialize (rd_fresh0 q Hq). lia.
  - by rewrite Hc1.
  - rewrite Hc1 in Her, Hef. destruct Hmv.
    exists r, fr, ff, er, ef, (w' <| heap := heap w |>), c. do 3 (split; [done|]). split.
    + rewrite E1. goes (unfold processMessage; goes (apply run_get_msg; exact Hq1);
        rewrite (cp_payload _ _ _ Hc), Hpl; exact E2).
      unfold collect. goes (apply run_get_msg; rewrite mv_heap0; apply lookup_insert_eq).
      change (when _ ?k) with k. erewrite run_delete_msg by (rewrite mv_heap0; apply lookup_insert_eq).
      rewrite mv_heap0, Hh1, insert_insert_eq. by rewrite (delete_new _ w (r <| _gc := true |>)).
    + constructor; cbn; rewrite ?Hp1, ?Htr1, ?Hn1, ?Hc1, ?Ht1, ?Hl1 in *; try done; try lia.
      { rewrite mv_ports0. by rewrite list_insert_insert_eq. }
      apply below_mono. lia.
Qed.
(** ** The initiator's request *)

Definition request_of (d : Z) (x : Port) (e : EtherPart) : Message :=
  PTPMessageCommon_new d env_garbage PathDelayReq
    <| logMeanMessageInterval := log_min_mean_pdelay_req_interval x |>
    <| control := LegacyMessageType_code MESSAGE_OTHER |> <| sequenceId := pdelay_sequence_id e |>
    <| sourcePortIdentity := port_identity x |> <| _timestamp := PDELAY_PENDING_TIMESTAMP |>.

Record asks (w : World) (p : pid) (x : Port) (e : EtherPart) (t : Z) : Prop := {
  as_ready : ready w p x e;
  as_seq : fits 16 (pdelay_sequence_id e);
  as_log : sfits 8 (log_min_mean_pdelay_req_interval x);
  as_interval : cast_s 64 (interval_f (log_min_mean_pdelay_req_interval x)) = Some t;
  as_running : pdelay_halted e = false;
  as_req : forall q, last_pdelay_req e = Some q -> is_Some (heap w !! q);
}.

Lemma request_wf_of w p x e t : asks w p x e t -> msg_wf (request_of (domain_number (clk w)) x e).
Proof.
  intros [[] Hs Hl _ _ _]. split; [closed_tac|]. split; [done|]. split; [exact Hs|].
  split; [closed_tac|]. split; [exact Hl|]. split; [closed_tac|]. by split.
Qed.

(** The messages without the one that is replaced. *)
Definition without_opt (q : option ptr) (h : gmap nat Message) : gmap nat Message :=
  match q with Some q => base.delete q h | None => h end.
Lemma delete_opt_run q w : (forall a, q = Some a -> is_Some (heap w !! a)) ->
  delete_opt q w = Done tt (w <| heap := without_opt q (heap w) |>).
Proof.
  destruct q as [a|]; intros H; [|by destruct w].
  destruct (H a eq_refl) as [m Hm]. cbn [delete_opt]. by apply (run_delete_msg a m).
Qed.

(** The two timers that a request arms. *)
Definition request_timers (p : pid) (t : Z) (ts : list Timer) : list Timer :=
  without PDELAY_INTERVAL_TIMEOUT_EXPIRES
    (ts ++ [mkTimer (u32 (at_least_granularity (i64 (PDELAY_RESP_RECEIPT_TIMEOUT_MULTIPLIER * t)) / 1000))
              PDELAY_RESP_RECEIPT_TIMEOUT_EXPIRES p])
  ++ [mkTimer (u32 (at_least_granularity t / 1000)) PDELAY_INTERVAL_TIMEOUT_EXPIRES p].

Definition asking (e : EtherPart) (q : ptr) : EtherPart :=
  e <| pdelay_sequence_id := u16 (pdelay_sequence_id e + 1) |> <| last_pdelay_req := Some q |>.

Lemma eth_startPDelayIntervalTimer_run p t w : exists n,
  eth_startPDelayIntervalTimer p t w =
  Done tt (w <| tick := n |> <| timers := without PDELAY_INTERVAL_TIMEOUT_EXPIRES (timers w)
                   ++ [mkTimer (u32 (t / 1000)) PDELAY_INTERVAL_TIMEOUT_EXPIRES p] |>).
Proof.
  eexists. unfold eth_startPDelayIntervalTimer. goes (apply run_lock). goes (apply run_deleteLocked).
  goes (apply run_addLocked). goes (apply (run_unlock _ (held w)); reflexivity). reflexivity.
Qed.

Lemma new_req_run p x e w : ports w !! p = Some x -> media x = Ether e ->
  PTPMessagePathDelayReq_new p w =
  Done (next_ptr w)
    (w <| ports := <[p := x <| media := Ether (e <| pdelay_sequence_id := u16 (pdelay_sequence_id e + 1) |>) |>]> (ports w) |>
       <| heap := <[next_ptr w := PTPMessageCommon_new (domain_number (clk w)) env_garbage PathDelayReq
             <| logMeanMessageInterval := log_min_mean_pdelay_req_interval x |>
             <| control := LegacyMessageType_code MESSAGE_OTHER |> <| sequenceId := pdelay_sequence_id e |>]> (heap w) |>
       <| next_ptr := S (next_ptr w) |>).
Proof.
  intros Hx He. unfold PTPMessagePathDelayReq_new, getNextPDelaySequenceId, PTPMessageCommon_init.
  goes (goes (apply run_get_clock); apply run_ret). goes (apply run_get_port; exact Hx).
  goes (goes (by apply (run_get_ether p x e)); goes (by apply (run_mod_ether p _ x e)); apply run_ret).
  reflexivity.
Qed.

Lemma request_sent p x e w t : asks w p x e t ->
  let m := request_of (domain_number (clk w)) x e in let q := next_ptr w in
  exists f ef w' c, frame_effect p true m f ef /\
    eth_on_pdelay_interval p w = Done false w' /\
    moved w p [ef] (port_with x c (asking e q))
      (<[q := prepare m <| _timestamp := sent_at x (getMessageId m) |>]> (without_opt (last_pdelay_req e) (heap w)))
      (request_timers p t (timers w)) w'.
Proof.
  intros Ha m q. pose proof (request_wf_of w p x e t Ha) as Hm. fold m in Hm. destruct Ha as [[] _ _ Hint Hrun Hreq].
  set (q0 := last_pdelay_req e) in *.
  set (w2 := w <| ports := <[p := x <| media := Ether (asking e q) |>]> (ports w) |>
               <| heap := without_opt q0 (<[q := m]> (heap w)) |> <| next_ptr := S q |>).
  set (w3 := w2 <| tick := S (tick w2) |> <| held := PortTxLock p :: held w2 |>).
  assert (Hx2 : ports w2 !! p = Some (x <| media := Ether (asking e q) |>)) by (cbn; by eapply lookup_insert_port).
  assert (Hold : forall a, q0 = Some a -> a <> q).
  { intros a Ea ->. specialize (rd_fresh0 q (Hreq q Ea)). subst q. lia. }
  assert (Hq2 : heap w2 !! q = Some m).
  { cbn. destruct q0 as [a|]; cbn; [rewrite lookup_delete_ne by auto|]; apply lookup_insert_eq. }
  destruct (event_sent q p (fun c => c <| TxPdelayRequest := u32 (TxPdelayRequest c + 1) |>) m
    (x <| media := Ether (asking e q) |>) w3 None) as (b1 & f1 & c1 & Hf1 & Ho1 & E1); [done..|].
  set (w4 := _ <| heap := _ |>) in E1. set (w5 := w4 <| held := held w |>).
  destruct (eth_startPDelayIntervalTimer_run p (at_least_granularity t) (w5 <| tick := S (tick w5) |>
    <| timers := timers w5 ++ [mkTimer (u32 (at_least_granularity (i64 (PDELAY_RESP_RECEIPT_TIMEOUT_MULTIPLIER * t)) / 1000))
              PDELAY_RESP_RECEIPT_TIMEOUT_EXPIRES p] |>)) as [n E2].
  exists f1. do 2 eexists. exists c1. split; [by repeat split; [..|eexists]|]. unfold eth_on_pdelay_interval. split.
  - goes (by apply (new_req_run p x e)). goes (apply run_get_port; cbn; by eapply lookup_insert_port).
    unfold setPortIdentity, setTimestamp. do 2 goes (apply run_mod_msg; apply lookup_insert_eq).
    goes (eapply run_get_ether; [cbn; by eapply lookup_insert_port|reflexivity]). cbn [last_pdelay_req set].
    goes (apply delete_opt_run; intros a Ea; cbn; rewrite !lookup_insert_ne by (apply not_eq_sym; by apply Hold); by apply Hreq).
    unfold setLastPDelayReq. goes (eapply run_mod_ether; [cbn; by eapply lookup_insert_port|reflexivity]).
    match goal with |- (_ ≫= _) ?W = _ => replace W with w2 end.
    2:{ clear. subst w2. cbn -[PTPMessageCommon_new u16]. by rewrite !insert_insert_eq, list_insert_insert_eq. }
    unfold eth_getTxLock. goes (apply run_lock). fold w3. unfold pdelay_req_sendPort.
    goes (goes (eapply run_get_ether; [exact Hx2|reflexivity]); change (pdelay_halted _) with (pdelay_halted e); rewrite Hrun; exact E1).
    unfold eth_putTxLock. goes (apply (run_unlock _ (held w)); reflexivity). fold w5.
    goes (apply run_get_port; cbn; eapply lookup_insert_port; exact Hx2).
    goes (by apply run_from_option). goes (apply run_addLocked). goes (exact E2). reflexivity.
  - constructor; try done.
    + cbn. by rewrite list_insert_insert_eq.
    + cbn -[prepare]. destruct q0 as [a|]; cbn -[prepare]; [rewrite delete_insert_ne by auto|]; by rewrite insert_insert_eq.
    + cbn. lia.
    + intros Hf. apply below_insert; [cbn; lia|]. eapply below_mono; [|destruct q0; [apply below_delete|]; exact Hf].
      cbn. lia.
Qed.
(** The timer of the requests fires. *)
Lemma request_fired i us p x e w t : asks w p x e t ->
  timers w !! i = Some (mkTimer us PDELAY_INTERVAL_TIMEOUT_EXPIRES p) ->
  let m := request_of (domain_number (clk w)) x e in let q := next_ptr w in
  exists f ef w' c, frame_effect p true m f ef /\
    daemon_step (Fire i) w = Done tt w' /\
    moved w p [ef] (port_with x c (asking e q))
      (<[q := prepare m <| _timestamp := sent_at x (getMessageId m) |>]> (without_opt (last_pdelay_req e) (heap w)))
      (request_timers p t (base.delete i (timers w))) w'.
Proof.
  intros Ha Hi m q.
  set (w1 := w <| tick := S (tick w) |> <| held := TimerQLock :: held w |> <| timers := base.delete i (timers w) |>).
  assert (Ha1 : asks w1 p x e t) by (destruct Ha as [[] ? ? ? ? ?]; constructor; [by constructor|done..]).
  destruct (request_sent p x e w1 t Ha1) as (f & ef & w' & c & Hef & E1 & Hmv).
  exists f, ef, (w' <| held := held w |>), c. split; [done|]. split.
  - unfold daemon_step, fire. rewrite Hi. goes (apply run_lock). cbn [tm_port tm_event].
    goes (unfold modify; reflexivity).
    match goal with |- (_ ≫= _) ?W = _ => change W with w1 end.
    assert (E2 : processEvent p PDELAY_INTERVAL_TIMEOUT_EXPIRES w1 = Done false w').
    { change (by_media p (eth_on_pdelay_interval p) (wl_processEvent p PDELAY_INTERVAL_TIMEOUT_EXPIRES) w1 = Done false w').
      unfold by_media. destruct Ha1 as [[] _ _ _ _ _].
      goes (apply run_get_port; exact rd_port0). rewrite rd_media0. exact E1. }
    goes (exact E2). goes (apply (run_unlock _ (held w)); by rewrite (mv_held _ _ _ _ _ _ _ Hmv)). done.
  - destruct Hmv. by constructor.
Qed.
(** ** The initiator receives the answer *)

Lemma response_stored p x e w q m : ports w !! p = Some x -> media x = Ether e -> participates x = true ->
  last_pdelay_resp e = None -> heap w !! q = Some m -> exists w' c,
  pdelay_resp_process p q w = Done tt w' /\
  moved w p [] (port_with x c (e <| last_pdelay_resp := Some q |>)) (<[q := m <| _gc := false |>]> (heap w)) (timers w) w' /\
  next_ptr w' = next_ptr w.
Proof.
  intros Hx He Hlive Hnone Hq. do 2 eexists. unfold pdelay_resp_process, inc_RxPdelayResponse. split; [|split].
  - goes (by eapply run_as_ether). goes (apply run_get_port; exact Hx).
    unfold participates in Hlive. rewrite (live_match _ _ _ Hlive). goes (by apply (inc_run p _ x)).
    unfold tryPDelayRxLock. goes (apply (run_trylock an_try)). unfold pdelay_resp_store.
    goes (eapply run_get_ether; [cbn; by eapply lookup_insert_port|exact He]). rewrite Hnone. goes (apply run_ret).
    unfold setLastPDelayResp. goes (eapply run_mod_ether; [cbn; by eapply lookup_insert_port|exact He]).
    cbn [delete_opt]. goes (apply run_ret). unfold putPDelayRxLock.
    goes (apply (run_unlock _ (held w)); reflexivity). unfold set_gc. by apply (run_mod_msg _ _ m).
  - constructor; try done; cbn; [by rewrite app_nil_r|by rewrite list_insert_insert_eq|].
    intros Hf. apply below_insert; [apply Hf; by rewrite Hq|exact Hf].
  - done.
Qed.

Lemma response_received p x e off m f rest remote w idr t : ready w p x e -> last_pdelay_resp e = None ->
  msg_wf m -> payload m = PathDelayResp idr t -> (off <= 132)%nat -> frame_of off m = Some f ->
  length (f ++ rest) = 128%nat ->
  exists r w' c, copy_of m (heard_at x (getMessageId m)) r /\
    daemon_step (arrival f rest p remote) w = Done tt w' /\
    moved w p [] (port_with x c (e <| identity_map := <[sourcePortIdentity m := remote]> (identity_map e) |>
                                  <| last_pdelay_resp := Some (next_ptr w) |>))
      (<[next_ptr w := r]> (heap w)) (timers w) w' /\ next_ptr w' = S (next_ptr w).
Proof.
  intros [] Hnone Hm Hpl Ho Hf Hl.
  assert (Hev : isEvent m = true) by (unfold isEvent, messageType; by rewrite Hpl).
  destruct (frame_received p x e off m f rest remote w rd_port0 rd_media0 rd_hw0 Hm Ho Hf Hl)
    as (r & Hc & E1); [unfold messageType; by rewrite Hpl|].
  rewrite Hev in Hc. rewrite E1. unfold at_handler. rewrite Hev.
  set (e1 := e <| identity_map := <[sourcePortIdentity m := remote]> (identity_map e) |>).
  set (w1 := _ <| next_ptr := S (next_ptr w) |>).
  assert (Hx1 : ports w1 !! p = Some (x <| media := Ether e1 |>)) by (cbn; by eapply lookup_insert_port).
  assert (Hq1 : heap w1 !! next_ptr w = Some r) by apply lookup_insert_eq.
  destruct (response_stored p _ e1 w1 (next_ptr w) r Hx1 eq_refl rd_live0 Hnone Hq1) as (w' & c & E2 & Hmv & Hn).
  exists (r <| _gc := false |>), w', c. destruct Hmv. split; [by destruct Hc|]. split; [|split; [|exact Hn]].
  - goes (unfold processMessage; goes (apply run_get_msg; exact Hq1); rewrite (cp_payload _ _ _ Hc), Hpl; exact E2).
    unfold collect. goes (apply run_get_msg; rewrite mv_heap0; apply lookup_insert_eq). done.
  - constructor; try done; [rewrite mv_ports0|rewrite mv_heap0|rewrite Hn|rewrite Hn]; cbn.
    + by rewrite list_insert_insert_eq.
    + by rewrite insert_insert_eq.
    + lia.
    + intros Hw. apply below_insert; [|eapply below_mono; [|exact Hw]]; cbn; lia.
Qed.

Lemma after_followup (h : gmap nat Message) rs n m m' : h !! n = None -> rs <> n ->
  base.delete n (<[n := m']> (base.delete rs (<[n := m]> h))) = base.delete rs h.
Proof.
  intros Hn Hr. apply map_eq. intros k. destruct (decide (k = n)) as [->|]; [by simplify_map_eq|].
  destruct (decide (k = rs)) as [->|]; by simplify_map_eq.
Qed.

Lemma mem_eq_refl a : mem_eq a a = true.
Proof. induction a as [|z a IH]; [done|]. unfold mem_eq in *. cbn. by rewrite Z.compare_refl. Qed.

Lemma followup_received p x e off m f rest remote w rq rs mq mr idr idf t2 t3 d : ready w p x e ->
  last_pdelay_req e = Some rq -> last_pdelay_resp e = Some rs -> heap w !! rq = Some mq -> heap w !! rs = Some mr ->
  payload mr = PathDelayResp idr t2 -> msg_wf m -> payload m = PathDelayRespFollowUp t3 idf ->
  sequenceId mq = sequenceId m -> sequenceId mr = sequenceId m -> portNumber idr = portNumber idf ->
  sourcePortIdentity mr = sourcePortIdentity m -> timestamped mq mr ->
  compute_link_delay (_peer_rate_offset x) (_timestamp mq) (_timestamp mr) t2 (wire_time t3) = Some d ->
  (off <= 132)%nat -> frame_of off m = Some f -> length (f ++ rest) = 128%nat ->
  exists w', daemon_step (arrival f rest p remote) w = Done tt w' /\
    moved w p [] (linked mq t2 (counted (rx_followup x)) d <| media := Ether (e <| last_pdelay_resp := None |>) |>)
      (base.delete rs (heap w)) (without PDELAY_RESP_RECEIPT_TIMEOUT_EXPIRES (timers w)) w'.
Proof.
  intros [] Hrq Hrs Hmq Hmr Hpr Hm Hpl Hsq Hsr Hid Hsrc Hts Hd Ho Hf Hl.
  assert (Hev : isEvent m = false) by (unfold isEvent, messageType; by rewrite Hpl).
  destruct (frame_received p x e off m f rest remote w rd_port0 rd_media0 rd_hw0 Hm Ho Hf Hl)
    as (r & Hc & E1); [unfold messageType; by rewrite Hpl|].
  rewrite E1. unfold at_handler. rewrite Hev. set (w1 := _ <| next_ptr := S (next_ptr w) |>).
  pose proof (rd_fresh0 rs ltac:(by rewrite Hmr)) as Hlt. pose proof (rd_fresh0 rq ltac:(by rewrite Hmq)) as Hlt'.
  assert (Hpf : payload r = PathDelayRespFollowUp (wire_time t3) idf) by (by rewrite (cp_payload _ _ _ Hc), Hpl).
  assert (Hex : exchange p rq rs (next_ptr w) mq mr r x e w1).
  { constructor; try done; cbn; [by rewrite lookup_insert_ne by lia..|apply lookup_insert_eq|lia]. }
  pose proof (pdelay_followup_run an_try p rq rs (next_ptr w) mq mr r idr idf t2 (wire_time t3) Hpr Hpf x e w1 d Hex Hts Hd) as Hrun.
  assert (Hpairs : pairs mq mr r idr idf t2 = true).
  { unfold pairs, follow_up_matches. cbn [ex_req ex_resp ex_resp_requesting].
    rewrite (cp_seq _ _ _ Hc), (cp_source _ _ _ Hc), Hsq, Hsr, Hid, Hsrc, !Z.eqb_refl.
    unfold pid_ne, cid_eq. rewrite mem_eq_refl, Z.eqb_refl. reflexivity. }
  unfold followed in Hrun. rewrite Hpairs in Hrun. apply returns_run in Hrun as ([] & w' & E2 & Hl' & Hh' & Ht' & Hp' & Htr' & Hc' & Hn').
  exists (w' <| heap := base.delete rs (heap w) |>). split.
  - goes (unfold processMessage; goes (apply run_get_msg; apply lookup_insert_eq); rewrite Hpf; exact E2).
    unfold collect. goes (apply run_get_msg; rewrite Hh'; apply lookup_insert_eq). change (when _ ?k) with k.
    erewrite run_delete_msg by (rewrite Hh'; apply lookup_insert_eq). rewrite Hh'. change (heap w1) with (<[next_ptr w := r]> (heap w)).
    rewrite (after_followup (heap w)); [done|apply fresh_none; auto with lia|lia].
  - constructor; cbn; rewrite ?Htr', ?Hn', ?app_nil_r; cbn; try (done || lia).
    intros Hw. apply below_delete. eapply below_mono; [|exact Hw]. lia.
Qed.
(** A port that has moved is ready again. *)
Lemma ready_again w p x e sent c e' h ts w' : ready w p x e ->
  moved w p sent (port_with x c e') h ts w' -> ready w' p (port_with x c e') e'.
Proof.
  intros [] []. constructor; try done.
  - rewrite mv_ports0. by eapply lookup_insert_port.
  - unfold fresh. rewrite mv_heap0. by apply mv_fresh0.
  - by rewrite mv_clk0.
Qed.
(** The two messages of an answer, one after the other. *)
Lemma answer_measured p x e off mr mf fr ff rest_r rest_f mac w q mq idr idf t2 t3 d : ready w p x e ->
  last_pdelay_req e = Some q -> heap w !! q = Some mq -> last_pdelay_resp e = None ->
  msg_wf mr -> payload mr = PathDelayResp idr t2 -> msg_wf mf -> payload mf = PathDelayRespFollowUp t3 idf ->
  sequenceId mq = sequenceId mf -> sequenceId mr = sequenceId mf -> portNumber idr = portNumber idf ->
  sourcePortIdentity mr = sourcePortIdentity mf -> nanoseconds (_timestamp mq) < MAX_NANOSECONDS ->
  _version (_timestamp mq) = _version (heard_at x (getMessageId mr)) ->
  compute_link_delay (_peer_rate_offset x) (_timestamp mq) (heard_at x (getMessageId mr)) t2 t3 = Some d ->
  (off <= 132)%nat -> frame_of off mr = Some fr -> frame_of off mf = Some ff ->
  length (fr ++ rest_r) = 128%nat -> length (ff ++ rest_f) = 128%nat ->
  exists w' c im e2, daemon_run [arrival fr rest_r p mac; arrival ff rest_f p mac] w = Done tt w' /\
    moved w p [] (linked mq (wire_time t2) (counted (port_with x c e2)) d
        <| media := Ether (e <| identity_map := im |> <| last_pdelay_resp := None |>) |>)
      (heap w) (without PDELAY_RESP_RECEIPT_TIMEOUT_EXPIRES (timers w)) w'.
Proof.
  intros Hw Hq Hmq Hnone Hmr Hpr Hmf Hpf Hs1 Hs2 Hid Hsrc Hns Hver Hd Ho Hfr Hff Hlr Hlf.
  destruct (response_received p x e off mr fr rest_r mac w idr t2 Hw Hnone Hmr Hpr Ho Hfr Hlr)
    as (r & w1 & c & Hc & E1 & M1 & Hn1).
  pose proof (ready_again _ _ _ _ _ _ _ _ _ _ Hw M1) as Hw1. destruct Hc.
  pose proof (rd_fresh _ _ _ _ Hw) as Hfresh. pose proof (Hfresh q ltac:(by rewrite Hmq)) as Hlt.
  destruct (followup_received p _ _ off mf ff rest_f mac w1 q (next_ptr w) mq r idr idf (wire_time t2) t3 d Hw1)
    as (w' & E2 & M2);
    [exact Hq|exact eq_refl| | | |exact Hmf|exact Hpf|exact Hs1| |exact Hid| | | |exact Ho|exact Hff|exact Hlf|..].
  - rewrite (mv_heap _ _ _ _ _ _ _ M1). by rewrite lookup_insert_ne by lia.
  - rewrite (mv_heap _ _ _ _ _ _ _ M1). apply lookup_insert_eq.
  - by rewrite cp_payload0, Hpr.
  - by rewrite cp_seq0.
  - by rewrite cp_source0.
  - rewrite <- cp_time0 in Hver. destruct (not_special _ Hns) as [Hn2 Hn3].
    exact (conj Hn2 (conj Hn3 Hver)).
  - rewrite cp_time0, delay_of_wire. exact Hd.
  - exists w', (counters (rx_followup (port_with x c e))). do 2 eexists. split.
    + cbn [daemon_run]. goes (exact E1). goes (exact E2). done.
    + destruct M1, M2. constructor; try congruence; try lia.
      * rewrite mv_trace1, mv_trace0. by rewrite !app_nil_r.
      * rewrite mv_ports1, mv_ports0, list_insert_insert_eq. reflexivity.
      * rewrite mv_heap1, mv_heap0. apply delete_insert_id, fresh_none; auto with lia.
      * intros _. eapply below_mono; [|exact Hfresh]. lia.
Qed.
End Side.

(** The two event messages of the exchange number [s]. *)
Definition request_id (s : Z) : PTPMessageId := mkPTPMessageId (MessageType_code PATH_DELAY_REQ_MESSAGE) s.
Definition response_id (s : Z) : PTPMessageId := mkPTPMessageId (MessageType_code PATH_DELAY_RESP_MESSAGE) s.

(** What the measure leaves of the port. *)
Lemma linked_fields mq t x d md : let y := linked mq t x d <| media := md |> in
  (port_state y = port_state x /\ _hw_timestamper y = _hw_timestamper x /\ port_identity y = port_identity x /\
   log_min_mean_pdelay_req_interval y = log_min_mean_pdelay_req_interval x) /\
  one_way_delay y = d /\
  asCapable y = (if automotive_profile x then asCapable x
                 else i64 (if d <? 0 then - d else d) <=? neighbor_prop_delay_thresh x).
Proof.
  unfold linked, set_asCapable. generalize (default (_peer_rate_offset x) (compute_peer_rate x (_timestamp mq) t d)).
  intros o. destruct (automotive_profile x); [done|]. by destruct (_ <=? _).
Qed.

(** The next request can be sent when the port is what it was. *)
Lemma asks_again w p x e t w' y e' : asks w p x e t -> ports w' = <[p := y]> (ports w) ->
  port_state y = port_state x -> _hw_timestamper y = _hw_timestamper x -> port_identity y = port_identity x ->
  log_min_mean_pdelay_req_interval y = log_min_mean_pdelay_req_interval x -> media y = Ether e' ->
  clk w' = clk w -> fresh w' -> fits 16 (pdelay_sequence_id e') -> pdelay_halted e' = false ->
  (forall q, last_pdelay_req e' = Some q -> is_Some (heap w' !! q)) -> asks w' p y e' t.
Proof.
  intros [[] _ Hlog Hint _ _] Hp Hst Hhw Hid Hl He Hc Hf Hs Hh Hq. constructor; try done; [constructor; try done|..].
  - rewrite Hp. by eapply lookup_insert_port.
  - unfold participates in *. by rewrite Hst.
  - by rewrite Hhw.
  - by rewrite Hc.
  - by rewrite Hid.
  - by rewrite Hl.
  - by rewrite Hl.
Qed.

(** The initiator at the end of an exchange: what it measured; its request
    stays stored until the next one, and nothing else does. *)
Record measured (w w' : World) (p : pid) (x : Port) (e : EtherPart) (i : nat) (t d : Z) : Prop := {
  me_port : exists x' e', ports w' = <[p := x']> (ports w) /\
    one_way_delay x' = d /\
    asCapable x' = (if automotive_profile x then asCapable x
                    else i64 (if d <? 0 then - d else d) <=? neighbor_prop_delay_thresh x) /\
    last_pdelay_resp e' = None /\ pdelay_sequence_id e' = u16 (pdelay_sequence_id e + 1) /\
    asks w' p x' e' t;
  me_timers : timers w' = without PDELAY_RESP_RECEIPT_TIMEOUT_EXPIRES (request_timers p t (base.delete i (timers w)));
  me_next : exists j us, timers w' !! j = Some (mkTimer us PDELAY_INTERVAL_TIMEOUT_EXPIRES p);
  me_heap : exists m, heap w' = <[next_ptr w := m]> (without_opt (last_pdelay_req e) (heap w));
  me_held : held w' = held w;
}.

(** The responder: its port is ready for the next request, and only that port
    has changed, in its counters and the addresses it knows. *)
Record answered (w w' : World) (p : pid) (x : Port) (e : EtherPart) (sent : list Effect) : Prop := {
  aw_trace : trace w' = trace w ++ sent;
  aw_port : exists c im, let e' := e <| identity_map := im |> in
    ports w' = <[p := port_with x c e']> (ports w) /\ ready w' p (port_with x c e') e';
  aw_heap : heap w' = heap w;
  aw_timers : timers w' = timers w;
  aw_held : held w' = held w;
}.

(** The next request is armed. *)
Lemma next_request p t ts : exists j us,
  without PDELAY_RESP_RECEIPT_TIMEOUT_EXPIRES (request_timers p t ts) !! j =
  Some (mkTimer us PDELAY_INTERVAL_TIMEOUT_EXPIRES p).
Proof.
  unfold request_timers. eexists _, _. unfold without at 1. rewrite List.filter_app. cbn [List.filter tm_event].
  by apply list_lookup_middle.
Qed.

Lemma end_measured w w1 w' p x e i t d q c1 m t2 c im e2 : asks w p x e t ->
  moved w p [q] (port_with x c1 (asking e (next_ptr w)))
    (<[next_ptr w := m]> (without_opt (last_pdelay_req e) (heap w))) (request_timers p t (base.delete i (timers w))) w1 ->
  moved w1 p [] (linked m t2 (counted (port_with (port_with x c1 (asking e (next_ptr w))) c e2)) d
      <| media := Ether (asking e (next_ptr w) <| identity_map := im |> <| last_pdelay_resp := None |>) |>)
    (heap w1) (without PDELAY_RESP_RECEIPT_TIMEOUT_EXPIRES (timers w1)) w' ->
  measured w w' p x e i t d.
Proof.
  intros Ha M1 M3. pose proof (ready_again _ _ _ _ _ _ _ _ _ _ (as_ready _ _ _ _ _ Ha) M1) as Hw1.
  set (y0 := counted _) in M3. set (e' := _ <| last_pdelay_resp := None |>) in M3.
  assert (Hp' : ports w' = <[p := linked m t2 y0 d <| media := Ether e' |>]> (ports w))
    by (rewrite (mv_ports _ _ _ _ _ _ _ M3), (mv_ports _ _ _ _ _ _ _ M1); apply list_insert_insert_eq).
  destruct (linked_fields m t2 y0 d (Ether e')) as ((Hst & Hhw & Hpi & Hlog) & Hdel & Hcap). constructor.
  - eexists _, e'. split; [exact Hp'|]. split; [exact Hdel|]. split; [exact Hcap|]. do 2 (split; [exact eq_refl|]).
    eapply (asks_again w); [exact Ha|exact Hp'|exact Hst|exact Hhw|exact Hpi|exact Hlog|..]; try exact eq_refl.
    + rewrite (mv_clk _ _ _ _ _ _ _ M3). exact (mv_clk _ _ _ _ _ _ _ M1).
    + unfold fresh. rewrite (mv_heap _ _ _ _ _ _ _ M3). exact (mv_fresh _ _ _ _ _ _ _ M3 (rd_fresh _ _ _ _ Hw1)).
    + apply (uwrap_fits 16). lia.
    + exact (as_running _ _ _ _ _ Ha).
    + intros k [= <-]. rewrite (mv_heap _ _ _ _ _ _ _ M3), (mv_heap _ _ _ _ _ _ _ M1), lookup_insert_eq. by eexists.
  - by rewrite (mv_timers _ _ _ _ _ _ _ M3), (mv_timers _ _ _ _ _ _ _ M1).
  - rewrite (mv_timers _ _ _ _ _ _ _ M3), (mv_timers _ _ _ _ _ _ _ M1). apply next_request.
  - eexists. rewrite (mv_heap _ _ _ _ _ _ _ M3). exact (mv_heap _ _ _ _ _ _ _ M1).
  - rewrite (mv_held _ _ _ _ _ _ _ M3). exact (mv_held _ _ _ _ _ _ _ M1).
Qed.

(** The offset of the two clocks cancels out. *)
Lemma mean_of_directions rate T1 T2 T3 T4 d off d1 d2 :
  compute_link_delay rate T1 T4 T2 T3 = Some d ->
  plausible rate = false \/ (rate = ratio_one /\ ts_val T2 <= ts_val T3) ->
  - 2 ^ 62 <= ts_val T4 - ts_val T1 < 2 ^ 62 -> - 2 ^ 62 <= ts_val T3 - ts_val T2 < 2 ^ 62 ->
  ts_val T2 = ts_val T1 + d1 + off -> ts_val T4 = ts_val T3 + d2 - off -> d = Z.quot (d1 + d2) 2.
Proof.
  intros Hd Hr Hb1 Hb2 H2 H4.
  assert (Hr' : plausible rate = false \/ (rate = ratio_one /\ 0 <= ts_val T3 - ts_val T2))
    by (destruct Hr as [?|[? ?]]; [by left|right; split; [assumption|lia]]).
  pose proof (link_delay_mean _ T1 T2 T3 T4 Hb1 Hb2 Hr') as Hmean. rewrite Hmean in Hd. injection Hd as <-.
  f_equal. lia.
Qed.

Section Link.
Context (EA EB : Env) (txA rxA txB rxB : PTPMessageId -> Timestamp).
Context {HA : @Answers EA txA rxA} {HB : @Answers EB txB rxB}.

(** The whole exchange, from the timer of the one daemon to the measure.  What
    the receive arrays hold behind the frames, and the addresses that the
    network reports, do not matter. *)
Definition exchange_runs (i : nat) (wA wB : World) (pA pB : pid) (xA xB : Port) (eA eB : EtherPart) (t d : Z) : Prop :=
  exists q fq w1, @daemon_step EA (Fire i) wA = Done tt w1 /\ trace w1 = trace wA ++ [q] /\
    on_wire (@env_payload_offset EA) q = Some fq /\
  forall rest macA, length (fq ++ rest) = 128%nat ->
  exists r f fr ff wB', @daemon_step EB (arrival fq rest pB macA) wB = Done tt wB' /\
    answered wB wB' pB xB eB [r; f] /\
    on_wire (@env_payload_offset EB) r = Some fr /\ on_wire (@env_payload_offset EB) f = Some ff /\
  forall rest_r rest_f macB, length (fr ++ rest_r) = 128%nat -> length (ff ++ rest_f) = 128%nat ->
  exists w', @daemon_run EA [arrival fr rest_r pA macB; arrival ff rest_f pA macB] w1 = Done tt w' /\
    trace w' = trace w1 /\ measured wA w' pA xA eA i t d.

(** C6: two daemons measure their link.  When the timer of the peer delay
    requests fires at one port, its request goes out; the daemon at the other
    end, which receives these octets, answers with a response and a follow-up;
    and when their octets are received the first daemon has measured the delay
    [d] that the code computes from the four times, the port is asCapable
    exactly when its magnitude is within the threshold, the timer of the next
    request is armed, no timeout is pending, and both daemons are as ready for
    the next exchange as they were, with no message or lock left over.  The
    times are those of the two hardware clocks, less the delays of the ports'
    own hardware; whatever the offset of these clocks is, the result is the
    mean of the delays of the two directions (while the rate ratio is one, or
    not plausible). *)
Theorem peer_delay_exchange i us t wA wB pA pB xA xB eA eB d :
  let s := pdelay_sequence_id eA in
  let T1 := sent_at (tx_time := txA) xA (request_id s) in
  let T2 := heard_at (rx_time := rxB) xB (request_id s) in
  let T3 := sent_at (tx_time := txB) xB (response_id s) in
  let T4 := heard_at (rx_time := rxA) xA (response_id s) in
  asks wA pA xA eA t -> timers wA !! i = Some (mkTimer us PDELAY_INTERVAL_TIMEOUT_EXPIRES pA) ->
  last_pdelay_resp eA = None -> ready wB pB xB eB ->
  nanoseconds T1 < MAX_NANOSECONDS -> _version T1 = _version T4 ->
  compute_link_delay (_peer_rate_offset xA) T1 T4 T2 T3 = Some d ->
  exchange_runs i wA wB pA pB xA xB eA eB t d /\
  (forall off d1 d2, plausible (_peer_rate_offset xA) = false \/
     (_peer_rate_offset xA = ratio_one /\ ts_val T2 <= ts_val T3) ->
   - 2 ^ 62 <= ts_val T4 - ts_val T1 < 2 ^ 62 -> - 2 ^ 62 <= ts_val T3 - ts_val T2 < 2 ^ 62 ->
   ts_val T2 = ts_val T1 + d1 + off -> ts_val T4 = ts_val T3 + d2 - off -> d = Z.quot (d1 + d2) 2).
Proof.
  intros s T1 T2 T3 T4 Ha Hi Hnone HB0 Hns Hver Hd. split.
  2:{ intros off d1 d2. exact (mean_of_directions _ T1 T2 T3 T4 d off d1 d2 Hd). }
  set (mq := @request_of EA (domain_number (clk wA)) xA eA). pose proof (request_wf_of (E := EA) wA pA xA eA t Ha) as Hmq.
  destruct (request_fired (HA := HA) i us pA xA eA wA t Ha Hi) as (fq & q & w1 & c1 & (Hq1 & Hq2 & _) & E1 & M1).
  exists q, fq, w1. split; [exact E1|]. split; [exact (mv_trace _ _ _ _ _ _ _ M1)|]. split; [exact Hq1|]. intros rest macA Hrest.
  destruct (responder_step (HA := HB) pB xB eB wB (@env_payload_offset EA) mq fq rest macA HB0 Hmq eq_refl
    (an_offset (Answers := HA)) Hq2 Hrest)
    as (rq & fr & ff & r & f & wB' & cB & Hc & (Hr1 & Hr2 & _) & (Hf1 & Hf2 & _) & E2 & MB).
  set (dB := domain_number (clk wB)) in *.
  exists r, f, fr, ff, wB'. split; [exact E2|]. split.
  { destruct MB as [Htr Hp Hh Ht Hl Hc' Hn Hf] eqn:EMB. constructor; try assumption. do 2 eexists. split; [exact Hp|].
    by eapply ready_again. }
  split; [exact Hr1|]. split; [exact Hf1|].
  intros rest_r rest_f macB Hlr Hlf. pose proof (ready_again _ _ _ _ _ _ _ _ _ _ (as_ready _ _ _ _ _ Ha) M1) as Hw1.
  assert (Hseq : sequenceId rq = s) by exact (cp_seq _ _ _ Hc).
  assert (Hidr : getMessageId (@response_to EB dB xB rq) = response_id s)
    by (rewrite <- Hseq; exact eq_refl).
  pose proof (received_request mq _ rq Hmq (ts_minus_fits _ _) Hc) as Hrq.
  set (mqs := prepare mq <| _timestamp := T1 |>).
  destruct (answer_measured (HA := HA) pA _ _ (@env_payload_offset EB) (@response_to EB dB xB rq)
    (followup_to (E := EB) (tx_time := txB) dB xB rq) fr ff rest_r rest_f macB w1
    (next_ptr wA) mqs (sourcePortIdentity rq) (sourcePortIdentity rq) (_timestamp rq) T3 d Hw1)
    as (w' & c & im & e2 & E3 & M3).
  - exact eq_refl.
  - rewrite (mv_heap _ _ _ _ _ _ _ M1). apply lookup_insert_eq.
  - exact Hnone.
  - exact (response_wf (E := EB) dB xB rq (rd_domain _ _ _ _ HB0) (rd_id _ _ _ _ HB0) Hrq).
  - exact eq_refl.
  - exact (followup_wf (E := EB) dB xB rq (rd_domain _ _ _ _ HB0) (rd_id _ _ _ _ HB0) Hrq).
  - cbn. rewrite Hidr. exact eq_refl.
  - symmetry. exact Hseq.
  - exact eq_refl.
  - exact eq_refl.
  - exact eq_refl.
  - exact Hns.
  - rewrite Hidr. exact Hver.
  - rewrite Hidr, (cp_time _ _ _ Hc). exact Hd.
  - exact (an_offset (Answers := HB)).
  - exact Hr2.
  - exact Hf2.
  - exact Hlr.
  - exact Hlf.
  - exists w'. split; [exact E3|]. split; [by rewrite (mv_trace _ _ _ _ _ _ _ M3), app_nil_r|].
    exact (end_measured _ _ _ _ _ _ _ _ _ _ _ _ _ _ _ _ Ha M1 M3).
Qed.
End Link.

(** The daemon of Fixture.v, and a peer whose clock is 50 seconds behind: it
    hears the request after 700 ns of its second 50 and answers 9 us later. *)
Definition env_peer : Env := {|
  env_lock _ _ := true;
  env_trylock _ _ := true;
  env_gettime _ := None;
  env_version _ := 0;
  env_adjclockrate _ := true;
  env_adjclockphase _ := true;
  env_txtimestamp _ _ _ _ := (0, mkTimestamp 9700 50 0 0, 0);
  env_rxtimestamp _ _ _ _ := (0, mkTimestamp 700 50 0 0, 0);
  env_send _ := true;
  env_payload_offset := 18;
  env_thread_start _ := true;
  env_timing_measurement _ := true;
  env_garbage := 7;
|}.
Lemma env_ok_answers : @Answers env_ok (fun _ => mkTimestamp 0 100 0 0) (fun _ => mkTimestamp 10000 100 0 0).
Proof. constructor; try done. cbn. lia. Qed.
Lemma env_peer_answers : @Answers env_peer (fun _ => mkTimestamp 9700 50 0 0) (fun _ => mkTimestamp 700 50 0 0).
Proof. constructor; try done. cbn. lia. Qed.

Definition peer_world : World :=
  run_result ((registerPort 0 1;; init_port 0 peer_mac)
    (world_of [EtherPort_new port_memory ether_memory port_init]
       (IEEE1588Clock_new clock_memory false true 248 false))) (world_of [] clock_memory).
Definition powered : World := run_result (@daemon_step env_ok (LinkEvent 0 POWERUP) world0) world0.
Definition first_port (w : World) : Port := default port_memory (ports w !! 0%nat).
Definition first_part (w : World) : EtherPart :=
  match media (first_port w) with Ether e => e | Wireless _ => ether_memory end.

Lemma no_messages w : heap w = ∅ -> fresh w.
Proof. intros Hh q Hq. rewrite Hh, lookup_empty in Hq. by destruct Hq. Qed.
Lemma powered_ready : ready powered 0 (first_port powered) (first_part powered).
Proof. constructor; [by vm_compute..|apply no_messages; by vm_compute|closed_tac|closed_tac]. Qed.
Lemma powered_asks : asks powered 0 (first_port powered) (first_part powered) 1000000000.
Proof.
  constructor; [exact powered_ready|closed_tac|closed_tac|by vm_compute|by vm_compute|].
  intros q Hq. by vm_compute in Hq.
Qed.
Lemma peer_ready : ready peer_world 0 (first_port peer_world) (first_part peer_world).
Proof. constructor; [by vm_compute..|apply no_messages; by vm_compute|closed_tac|closed_tac]. Qed.

Lemma peer_delay_exchange_witness :
  exchange_runs env_ok env_peer 1 powered peer_world 0 0 (first_port powered) (first_port peer_world)
    (first_part powered) (first_part peer_world) 1000000000 500 /\
  500 = Z.quot (700 + 300) 2.
Proof.
  destruct (peer_delay_exchange env_ok env_peer (fun _ => mkTimestamp 0 100 0 0) (fun _ => mkTimestamp 10000 100 0 0)
    (fun _ => mkTimestamp 9700 50 0 0) (fun _ => mkTimestamp 700 50 0 0) (HA := env_ok_answers) (HB := env_peer_answers)
    1 32000 1000000000 powered peer_world 0 0 (first_port powered) (first_port peer_world)
    (first_part powered) (first_part peer_world) 500) as [Hrun Hmean];
    [exact powered_asks|by vm_compute|by vm_compute|exact peer_ready|by vm_compute..|].
  split; [exact Hrun|]. apply (Hmean (- 50000000000) 700 300); [right; split; [by vm_compute|]|..]; by vm_compute.
Defined.
