(* ===== verification/SyncTheory.v ===== *)
(** * What a Follow_Up does

    The pairing of a Follow_Up with its Sync and the measure that a slave takes
    from the pair (Sync.v), on every branch: the pair reaches the servo
    (ServoTheory.v), or is dropped. *)

From Stdlib Require Import ZArith Lia.
From Stdlib.Floats Require Import SpecFloat.
From stdpp Require Import base gmap list.
From S2P Require Import Prelude Timestamp CFloat Identity Message Wire World Loops Clock Port Media Runs Ether Servo Transmit PDelay Sync CommonPort Receive Wireless Dispatch Fixture Evolution Locks ServoTheory BestMaster PDelayTheory.

Section Timers.
Context `{Env} `{!LocksGranted}.

Lemma stopSyncReceiptTimer_run p w :
  stopSyncReceiptTimer p w =
  Done tt (w <| tick := S (S (tick w)) |> <| timers := without SYNC_RECEIPT_TIMEOUT_EXPIRES (timers w) |>).
Proof.
  unfold stopSyncReceiptTimer. rewrite (bind_Done _ _ _ _ _ (run_lock _ _)).
  set (w1 := w <| tick := _ |> <| held := _ |>). rewrite (bind_Done _ _ _ _ _ (run_lock _ w1)).
  unfold deleteEventTimer, cancelEvent, modify, mbind, M_bind.
  rewrite (run_unlock _ (TimerQLock :: held w)) by done. rewrite (run_unlock _ (held w)) by done.
  by destruct w.
Qed.
Lemma startSyncReceiptTimer_run p t w :
  startSyncReceiptTimer p t w =
  Done tt (w <| tick := S (S (tick w)) |>
             <| timers := without SYNC_RECEIPT_TIMEOUT_EXPIRES (timers w) ++
                  [mkTimer (u32 (t / 1000)) SYNC_RECEIPT_TIMEOUT_EXPIRES p] |>).
Proof.
  unfold startSyncReceiptTimer. rewrite (bind_Done _ _ _ _ _ (run_lock _ _)).
  set (w1 := w <| tick := _ |> <| held := _ |>). rewrite (bind_Done _ _ _ _ _ (run_lock _ w1)).
  unfold deleteEventTimer, cancelEvent, addEventTimer, addEvent, modify, mbind, M_bind.
  rewrite (run_unlock _ (TimerQLock :: held w)) by done. rewrite (run_unlock _ (held w)) by done.
  by destruct w.
Qed.
End Timers.

(** ** The servo leaves messages and timers alone *)

Definition still (w w' : World) : Prop := heap w' = heap w /\ timers w' = timers w.
#[export] Instance still_refl : Reflexive still.
Proof. done. Qed.
#[export] Instance still_trans : Transitive still.
Proof. intros a b c [? ?] [? ?]. split; congruence. Qed.

Section Still.
Context `{Env}.

Lemma still_modify f : (forall w, heap (f w) = heap w /\ timers (f w) = timers w) -> keeps still (modify f).
Proof. intros Hf. by apply keeps_modify. Qed.
Lemma still_mod_port p f : keeps still (mod_port p f).
Proof. intros w a w'. unfold mod_port. destruct (ports w !! p); [|done]. by intros [= _ <-]. Qed.
Lemma still_get_port p : keeps still (get_port p).
Proof. intros w a w'. unfold get_port. destruct (ports w !! p); [|done]. by intros [= _ <-]. Qed.
Lemma still_ask {A} (f : nat -> A) : keeps still (ask f).
Proof. by intros w a w' [= _ <-]. Qed.
Lemma still_unlock l : keeps still (unlock l).
Proof. intros w a w'. unfold unlock. by destruct (release l (held w)); intros [= _ <-]. Qed.
Hint Resolve still_mod_port still_get_port still_ask still_unlock : gptp.
Hint Extern 1 (keeps still (emit _)) => by apply still_modify : gptp.
Hint Extern 1 (keeps still (mod_clock _)) => by apply still_modify : gptp.
Hint Extern 1 (keeps still (modify _)) => by apply still_modify : gptp.

Lemma still_lock l : keeps still (lock l).
Proof. unfold lock. keeps_tac. Qed.
Lemma still_trylock l : keeps still (trylock l).
Proof. unfold trylock. keeps_tac. Qed.
Hint Resolve still_lock still_trylock : gptp.
Lemma still_for_ports {A B} n j (body : pid -> A -> D (A + B)) a :
  (forall p a, keeps still (body p a)) -> keeps still (for_ports n j body a).
Proof.
  intros Hb. revert j a. induction n as [|n IH]; intros j a; cbn [for_ports]; keeps_tac; auto; done.
Qed.

Lemma still_setMasterOffset p ms : keeps still (setMasterOffset p ms).
Proof.
  unfold setMasterOffset, ipc_update, phase_step, getTxLockAll, putTxLockAll, restartPDelayAll, steer,
    adjustClockPhase, adjustClockRate, get_clock.
  keeps_tac; try (apply still_for_ports; intros ??; keeps_tac);
    unfold m_getTxLock, m_putTxLock, media_dispatch, by_media, eth_getTxLock, eth_putTxLock, restartPDelay;
    keeps_tac.
Qed.
End Still.

(** ** The pair *)

Section FollowUp.
Context `{Env} `{!LocksGranted}.
Context (p : pid) (sync this : ptr) (ms mf : Message) (origin : Timestamp) (ftlv : FollowUpTLV).
Context (Hpf : payload mf = FollowUp origin ftlv).

(** A Follow_Up that arrives at a live port with a stored Sync. *)
Record paired (x : Port) (e : EtherPart) (w : World) : Prop := {
  pa_port : ports w !! p = Some x;
  pa_media : media x = Ether e;
  pa_live : participates x = true;
  pa_hw : _hw_timestamper x <> NoTimestamper;
  pa_sync : last_sync e = Some sync;
  pa_sync_msg : heap w !! sync = Some ms;
  pa_this_msg : heap w !! this = Some mf;
  pa_distinct : sync <> this;
}.

(** It is the Sync's. *)
Definition same_exchange : bool :=
  (sequenceId ms =? sequenceId mf) && negb (pid_ne (sourcePortIdentity ms) (sourcePortIdentity mf)).
Definition whole_correction : Z := Z.quot (correctionField mf) (2 ^ 16).
(** The version of the clock when it is asked for. *)
Definition current (w : World) : bool := _version (_timestamp ms) =? env_version (S (S (tick w))).
Definition admissible (x : Port) : bool :=
  getLinkDelay_ok x && negb ((whole_correction <? 0) && negb (allow_negative_correction_field x)).

Definition mismatches (x : Port) : bool :=
  negb (wrongSeqIDCounter (inc_wrongSeqID x) <? sync_receipt_thresh x).

Definition rx_sync_followup (x : Port) : Port :=
  x <| counters := (counters x) <| RxFollowUpCount := u32 (RxFollowUpCount (counters x) + 1) |> |>.
Definition unpaired (e : EtherPart) (x : Port) : Port := x <| media := Ether (e <| last_sync := None |>) |>.

(** What follows the processing of the pair: the Sync is forgotten and freed. *)
Lemma followup_end m y e w w1 Q : ports w1 !! p = Some y -> media y = Ether e -> heap w1 !! sync = Some m ->
  Q tt (w1 <| ports := <[p := unpaired e y]> (ports w1) |> <| heap := base.delete sync (heap w1) |>) ->
  followup_pair_sync p this sync w = Done tt w1 ->
  returns (followup_pair_sync p this sync;; setLastSync p None;; delete_msg sync) w Q.
Proof.
  intros Hy He Hm HQ E. eapply returns_step; [exact E|].
  unfold setLastSync. eapply returns_step; [by apply (run_mod_ether p _ y e)|].
  unfold returns. by rewrite (run_delete_msg sync m).
Qed.

(** What precedes it. *)
Lemma followup_start x e w Q : paired x e w ->
  returns (followup_pair_sync p this sync;; setLastSync p None;; delete_msg sync)
    (w <| tick := S (S (tick w)) |> <| timers := without SYNC_RECEIPT_TIMEOUT_EXPIRES (timers w) |>) Q ->
  returns (followup_process p this) w Q.
Proof.
  intros [] HQ. unfold followup_process.
  eapply returns_step; [by apply (run_as_ether p x e)|].
  eapply returns_step; [apply stopSyncReceiptTimer_run|].
  set (w1 := w <| tick := _ |> <| timers := _ |>) in *.
  eapply returns_step; [exact (run_get_port p x w1 pa_port0)|]. unfold participates in *.
  rewrite (live_match _ _ _ pa_live0).
  eapply returns_step; [exact (run_get_ether p x e w1 pa_port0 pa_media0)|]. by rewrite pa_sync0.
Qed.

Lemma inc_wrongSeq_run x w : ports w !! p = Some x ->
  incWrongSeqIDCounter p w =
  Done (negb (mismatches x)) (w <| ports := <[p := inc_wrongSeqID x]> (ports w) |>).
Proof.
  intros Hx. unfold incWrongSeqIDCounter. rewrite (bind_Done _ _ _ _ _ (run_mod_port _ _ _ _ Hx)).
  set (w1 := w <| ports := _ |>).
  assert (Hx1 : ports w1 !! p = Some (inc_wrongSeqID x)) by (cbn; by eapply lookup_insert_port).
  rewrite (bind_Done _ _ _ _ _ (run_get_port _ _ _ Hx1)). unfold mismatches. rewrite negb_involutive.
  unfold inc_wrongSeqID. by destruct (asCapable x).
Qed.

(** The pair is dropped: the link delay is not valid or the correction is
    negative ([admissible] is false). *)
Lemma followup_at_dropped x w arrival : ports w !! p = Some x -> heap w !! this = Some mf ->
  admissible x = false ->
  exists m, followup_process_at p this arrival w =
    Done tt (w <| ports := <[p := rx_sync_followup x]> (ports w) |> <| heap := <[this := m]> (heap w) |>) /\
    _gc m = true.
Proof.
  intros Hx Hm Ha. unfold followup_process_at, inc_RxFollowUpCount, count.
  rewrite (bind_Done _ _ _ _ _ (run_mod_port _ _ x w Hx)). set (w1 := w <| ports := _ |>).
  assert (Hx1 : ports w1 !! p = Some (rx_sync_followup x)) by (cbn; by eapply lookup_insert_port).
  rewrite (bind_Done _ _ _ _ _ (run_get_port p _ w1 Hx1)), (bind_Done _ _ _ _ _ (run_get_msg this mf w1 Hm)), Hpf.
  unfold admissible in Ha. change (getLinkDelay_ok (rx_sync_followup x)) with (getLinkDelay_ok x).
  change (allow_negative_correction_field (rx_sync_followup x)) with (allow_negative_correction_field x).
  fold whole_correction. unfold set_gc. destruct (getLinkDelay_ok x); cbn [negb andb] in *.
  - apply negb_false_iff in Ha. rewrite Ha.
    erewrite bind_Done by (erewrite bind_Done by (exact (run_mod_msg this _ mf w1 Hm)); reflexivity).
    rewrite (run_mod_msg this _ (mf <| correctionField := whole_correction |>))
      by (cbn; apply lookup_insert_eq).
    eexists. split; [|shelve]. cbn. rewrite insert_insert_eq. reflexivity.
    Unshelve. done.
  - rewrite (bind_Done _ _ _ _ _ (run_ret tt w1)), (run_mod_msg this _ mf w1 Hm). by eexists.
Qed.

(** The port is to become the master: one mismatch too many. *)
Definition gives_up (x : Port) : bool := negb same_exchange && mismatches x.
Definition after_drop (x : Port) : Port :=
  if same_exchange then x
  else if mismatches x then inc_wrongSeqID x <| port_state := PTP_MASTER |> <| wrongSeqIDCounter := 0 |>
  else inc_wrongSeqID x.

Lemma media_after_drop x : media (after_drop x) = media x.
Proof. unfold after_drop, inc_wrongSeqID. by repeat case_match. Qed.

(** The world in which the pair is looked at. *)
Abbreviation stopped w :=
  (w <| tick := S (S (tick w)) |> <| timers := without SYNC_RECEIPT_TIMEOUT_EXPIRES (timers w) |>).

Lemma pair_sync_run x e w : paired x e w ->
  followup_pair_sync p this sync (stopped w) =
  (if same_exchange then
     if current w then followup_process_at p this (_timestamp ms) (stopped w <| tick := S (S (S (tick w))) |>)
     else Done tt (stopped w <| tick := S (S (S (tick w))) |>)
   else if mismatches x then
     (m_becomeMaster p true;; setWrongSeqIDCounter p 0) (stopped w <| ports := <[p := inc_wrongSeqID x]> (ports w) |>)
   else Done tt (stopped w <| ports := <[p := inc_wrongSeqID x]> (ports w) |>)).
Proof.
  intros []. unfold followup_pair_sync. set (w1 := _ <| timers := _ |>).
  rewrite (bind_Done _ _ _ _ _ (run_get_msg sync ms w1 pa_sync_msg0)).
  rewrite (bind_Done _ _ _ _ _ (run_get_msg this mf w1 pa_this_msg0)).
  unfold same_exchange.
  destruct (sequenceId ms =? sequenceId mf), (pid_ne _ _); cbn [negb orb andb];
    try (rewrite (bind_Done _ _ _ _ _ (inc_wrongSeq_run x w1 pa_port0)); by destruct (mismatches x)).
  unfold getTimestampVersion.
  erewrite (bind_Done (_ ≫= _)) by
    (rewrite (bind_Done _ _ _ _ _ (run_get_port p x w1 pa_port0)); destruct (_hw_timestamper x); [done|..]; apply run_ask).
  unfold current. by destruct (_ =? _).
Qed.

(** What every end of the processing leaves of the messages. *)
Definition sync_freed (w w' : World) : Prop :=
  heap w' !! sync = None /\ forall q, q <> sync -> q <> this -> heap w' !! q = heap w !! q.

Lemma freed w w' h : heap w' = base.delete sync h ->
  (h = heap w \/ exists m, h = <[this := m]> (heap w)) -> sync_freed w w'.
Proof.
  intros E Hh. unfold sync_freed. rewrite E. split; [apply lookup_delete_eq|]. intros q Hq Hq'.
  rewrite lookup_delete_ne by done. destruct Hh as [->|[m ->]]; [done|]. by rewrite lookup_insert_ne.
Qed.

(** C5: a pair that is not used.  When the Follow_Up is not of the stored Sync, or the clock was stepped in between, or the link delay is not valid, or the correction is negative and that is not allowed, then the clock and the hardware are left alone; the Sync is forgotten and freed, no lock stays held, and the sync receipt timer is disarmed and not armed again, so that it cannot expire until another pair is used.  A mismatch is counted on a port that is asCapable, and the port becomes the master when the count has reached its threshold, which sets it to zero. *)
Theorem followup_dropped x e w : paired x e w ->
  same_exchange && current w && admissible x = false ->
  returns (followup_process p this) w (fun _ w' =>
    held w' = held w /\ sync_freed w w' /\
    (exists x', ports w' = <[p := x']> (ports w) /\ media x' = Ether (e <| last_sync := None |>) /\
       port_state x' = port_state (after_drop x) /\ wrongSeqIDCounter x' = wrongSeqIDCounter (after_drop x) /\
       sync_count x' = sync_count x) /\
    clk w' = (if gives_up x then fup_renewed (clk w) else clk w) /\
    (gives_up x = false -> trace w' = trace w /\
       timers w' = without SYNC_RECEIPT_TIMEOUT_EXPIRES (timers w))).
Proof.
  intros Hp Hu. apply (followup_start x e w); [done|].
  pose proof (pair_sync_run x e w Hp) as E. unfold gives_up, after_drop in *.
  pose proof Hp as []. destruct same_exchange; cbn [negb andb] in *.
  - destruct (current w); cbn [andb] in *.
    + set (w1 := stopped w <| tick := S (S (S (tick w))) |>) in E.
      destruct (followup_at_dropped x w1 (_timestamp ms) pa_port0 pa_this_msg0 Hu) as (m & E1 & Hg).
      rewrite E1 in E. eapply (followup_end ms (rx_sync_followup x) e); [| | | |exact E].
      * cbn. by eapply lookup_insert_port.
      * done.
      * cbn. by rewrite lookup_insert_ne.
      * split; [done|]. split; [eapply freed; [done|by right; eexists]|].
        split; [|done]. cbn. rewrite list_insert_insert_eq. by eexists.
    + eapply (followup_end ms x e); [| | | |exact E]; [done..|].
      split; [done|]. split; [eapply freed; [done|by left]|]. split; [by eexists|done].
  - set (w1 := stopped w <| ports := <[p := inc_wrongSeqID x]> (ports w) |>) in E.
    assert (Hx1 : ports w1 !! p = Some (inc_wrongSeqID x)) by (cbn; by eapply lookup_insert_port).
    assert (Hmedia : media (inc_wrongSeqID x) = Ether e) by (unfold inc_wrongSeqID; by destruct (asCapable x)).
    assert (Hcount : sync_count (inc_wrongSeqID x) = sync_count x) by (unfold inc_wrongSeqID; by destruct (asCapable x)).
    destruct (mismatches x).
    + assert (Hm : returns (m_becomeMaster p true;; setWrongSeqIDCounter p 0) w1 (fun _ w2 =>
        clk w2 = fup_renewed (clk w) /\ heap w2 = heap w /\ held w2 = held w /\
        ports w2 = <[p := inc_wrongSeqID x <| port_state := PTP_MASTER |> <| wrongSeqIDCounter := 0 |>]> (ports w))).
      { apply returns_bind. eapply becomeMaster_returns; [exact Hx1|]. intros w2 (Hc & Hpo & Hh & Hl).
        unfold returns, setWrongSeqIDCounter. erewrite run_mod_port by (rewrite Hpo; by eapply lookup_insert_port).
        cbn. rewrite Hc, Hh, Hl, Hpo. cbn. by rewrite !list_insert_insert_eq. }
      unfold returns in Hm. destruct ((m_becomeMaster p true;; setWrongSeqIDCounter p 0) w1) as [[] w2|]; [|done].
      destruct Hm as (Hc & Hh & Hl & Hpo).
      eapply (followup_end ms _ e); [rewrite Hpo; by eapply lookup_insert_port|exact Hmedia| | |exact E].
      * by rewrite Hh.
      * cbn. split; [done|]. split; [eapply freed; [cbn; by rewrite Hh|by left]|]. split; [|done].
        rewrite Hpo, list_insert_insert_eq. by eexists.
    + eapply (followup_end ms (inc_wrongSeqID x) e); [| | | |exact E]; [done..|].
      split; [done|]. split; [eapply freed; [done|by left]|]. split; [|done].
      cbn. rewrite list_insert_insert_eq. by eexists.
Qed.

(** ** The measure *)

(** The origin time that the pair stands for: the time at which the Sync arrived,
    by the master's clock. *)
Definition master_time (x : Port) : option Timestamp :=
  c ← followup_correction (getLinkDelay_u x)
        (master_local_ratio (cumulativeScaledRateOffset ftlv) (_peer_rate_offset x)) whole_correction;
  Some (corrected_origin origin c).
Definition with_status (change : Z) (c : Clock) : Clock :=
  c <| fup_status := fu_setScaledLastGmPhaseChange (mkScaledNs 0 (u64 (cumulativeScaledRateOffset ftlv)))
         (fu_setScaledLastGmFreqChange change (fup_status c)) |>.
(** What a slave hands to the servo, and the clock with the rate of the system
    clock: [times] are the system's and the device's time now. *)
Definition slave_measure (c : Clock) (o arrival : Timestamp) (times : Timestamp * Timestamp) (adj : spec_float)
    : option (Measure * Clock) :=
  let r := calcLocalSystem c times.2 times.1 in
  back ← system_correction (u32 (TIMESTAMP_TO_NS times.2 - TIMESTAMP_TO_NS arrival)) r.1;
  Some (mkMeasure (i64 (TIMESTAMP_TO_NS arrival - TIMESTAMP_TO_NS o)) arrival adj
          (i64 (TIMESTAMP_TO_NS (TIMESTAMP_SUB_NS times.1 back) - TIMESTAMP_TO_NS arrival)) r.1, r.2).

Definition sync_counted (x : Port) : Port := x <| sync_count := u32 (sync_count x + 1) |>.

(** The clock, the effects and the timers that a pair leads to. *)
Definition outcome_at (x : Port) (o arrival : Timestamp) (times : Timestamp * Timestamp) (c : Clock)
    : option (Clock * list Effect * list Timer) :=
  let r := calcMasterLocal c o arrival in
  if SFeqb r.1 NEGATIVE_TIME_JUMP then Some (r.2, [], [])
  else
    change ← freq_change r.1;
    let c := with_status change r.2 in
    if decide (port_state x = PTP_SLAVE) then
      m ← slave_measure c o arrival times r.1;
      t ← interval3_ns (log_mean_sync_interval x);
      let c' := measured m.2 (log_mean_sync_interval x) m.1 in
      Some (c', ipc_effects m.2 (sync_counted x) m.1 ++ servo_effects p m.2 c' m.1,
            [mkTimer (u32 (t / 1000)) SYNC_RECEIPT_TIMEOUT_EXPIRES p])
    else Some (c, [], []).
Definition measure_outcome (x : Port) (times : Timestamp * Timestamp) (c : Clock)
    : option (Clock * list Effect * list Timer) :=
  o ← master_time x; outcome_at x o (_timestamp ms) times c.

(** A port of the standard profile that measures its peer delay, and whose clock
    has registered ports. *)
Record steady (x : Port) (e : EtherPart) (w : World) : Prop := {
  st_profile : automotive_profile x = false;
  st_pdelay : pdelay_started e = true;
  st_first : exists j q y, first_port (clk w) = Some (j, q) /\ ports w !! q = Some y;
  st_number : 0 < number_ports (clk w);
}.

Lemma syncDone_idle x e w : ports w !! p = Some x -> media x = Ether e -> automotive_profile x = false ->
  pdelay_started e = true -> m_syncDone p w = Done tt w.
Proof.
  intros Hx He Ha Hd. unfold m_syncDone, media_dispatch, by_media, eth_syncDone.
  rewrite (bind_Done _ _ _ _ _ (run_get_port p x w Hx)), He, (bind_Done _ _ _ _ _ (run_get_port p x w Hx)), Ha.
  cbn [andb when]. rewrite (bind_Done _ _ _ _ _ (run_ret tt w)).
  rewrite (bind_Done _ _ _ _ _ (run_get_ether p x e w Hx He)), (bind_Done _ _ _ _ _ (run_get_port p x w Hx)), Ha.
  cbn [andb when]. rewrite (bind_Done _ _ _ _ _ (run_ret tt w)).
  rewrite (bind_Done _ _ _ _ _ (run_get_ether p x e w Hx He)), Hd. done.
Qed.

(** The estimators keep the registered ports. *)
Lemma calcLocal_ports c a b :
  first_port (calcLocalSystem c a b).2 = first_port c /\ number_ports (calcLocalSystem c a b).2 = number_ports c.
Proof. unfold calcLocalSystem. by destruct (negb _). Qed.
Lemma calcMaster_ports c a b :
  first_port (calcMasterLocal c a b).2 = first_port c /\ number_ports (calcMasterLocal c a b).2 = number_ports c.
Proof. unfold calcMasterLocal. destruct (negb _); [done|]. by destruct (_ <? _). Qed.

Lemma calcLocal_run a b w : calcLocalSystemClockRateDifference a b w =
  Done (calcLocalSystem (clk w) a b).1 (w <| clk := (calcLocalSystem (clk w) a b).2 |>).
Proof. reflexivity. Qed.
Lemma calcMaster_run a b w : calcMasterLocalClockRateDifference a b w =
  Done (calcMasterLocal (clk w) a b).1 (w <| clk := (calcMasterLocal (clk w) a b).2 |>).
Proof. reflexivity. Qed.

Lemma followup_slave_run x e w o arrival times adj m t :
  ports w !! p = Some x -> media x = Ether e -> _hw_timestamper x <> NoTimestamper -> steady x e w ->
  slave_measure (clk w) o arrival times adj = Some m -> interval3_ns (log_mean_sync_interval x) = Some t ->
  let c' := measured m.2 (log_mean_sync_interval x) m.1 in
  returns (followup_slave p arrival times.2 times.1
             (u32 (TIMESTAMP_TO_NS times.2 - TIMESTAMP_TO_NS arrival))
             (i64 (TIMESTAMP_TO_NS arrival - TIMESTAMP_TO_NS o)) adj) w (fun _ w' =>
    clk w' = c' /\ trace w' = trace w ++ ipc_effects m.2 (sync_counted x) m.1 ++ servo_effects p m.2 c' m.1 /\
    timers w' = without SYNC_RECEIPT_TIMEOUT_EXPIRES (timers w) ++
                  [mkTimer (u32 (t / 1000)) SYNC_RECEIPT_TIMEOUT_EXPIRES p] /\
    heap w' = heap w /\ held w' = held w /\
    exists x', ports w' !! p = Some x' /\ media x' = Ether e /\ port_state x' = port_state x /\
      sync_count x' = sync_count (sync_counted x)).
Proof.
  intros Hx He Hh [Ha Hd (j & q & y & Hf & Hy) Hn] Hm Ht c'. unfold slave_measure in Hm.
  destruct (system_correction _ _) as [back|] eqn:Hb; [|done]. cbn [mbind option_bind] in Hm.
  injection Hm as <-. cbn [fst snd] in c'. unfold followup_slave, incSyncCount.
  eapply returns_step; [exact (run_mod_port p _ x w Hx)|]. fold (sync_counted x).
  set (w1 := w <| ports := _ |>). eapply returns_step; [exact (calcLocal_run times.2 times.1 w1)|].
  eapply returns_step; [exact (run_from_option CastOverflow _ _ _ Hb)|].
  change (clk w1) with (clk w). set (r := calcLocalSystem _ _ _) in *. set (w2 := w1 <| clk := r.2 |>).
  set (mm := mkMeasure _ _ _ _ _) in *.
  assert (Hx2 : ports w2 !! p = Some (sync_counted x)) by (cbn; by eapply lookup_insert_port).
  assert (Hy2 : exists y2, ports w2 !! q = Some y2).
  { cbn. destruct (decide (p = q)) as [->|Hne]; [eexists; by eapply lookup_insert_port|].
    exists y. by rewrite list_lookup_insert_ne. }
  destruct Hy2 as [y2 Hy2]. destruct (calcLocal_ports (clk w) times.2 times.1) as [Hf2 Hn2].
  fold r in Hf2, Hn2.
  assert (Hrun : returns (setMasterOffset p mm) w2 (fun _ w3 => clk w3 = c' /\
    trace w3 = trace w ++ ipc_effects r.2 (sync_counted x) mm ++ servo_effects p r.2 c' mm /\
    held w3 = held w /\ timers w3 = timers w /\ heap w3 = heap w /\
    exists x', ports w3 !! p = Some x' /\ media x' = Ether e /\ port_state x' = port_state x /\
      sync_count x' = sync_count (sync_counted x) /\ log_mean_sync_interval x' = log_mean_sync_interval x /\
      automotive_profile x' = false)).
  { pose proof (setMasterOffset_run p mm w2 (sync_counted x) j q y2 Hx2 Hh) as Hs.
    change (clk w2) with r.2 in Hs. rewrite Hf2, Hn2 in Hs. specialize (Hs Hf Hy2 Hn).
    pose proof (still_setMasterOffset p mm w2) as Hst. unfold returns in *.
    destruct (setMasterOffset p mm w2) as [[] w3|]; [|done]. destruct Hs as (Hc & Htr & Hp & Hl).
    destruct (Hst _ _ eq_refl) as [Hhe Hti]. split; [done|]. rewrite Htr, Hc. do 4 (split; [done|]).
    rewrite Hp. destruct (_ && _); [|by exists (sync_counted x)].
    destruct (decide (p = q)) as [->|Hne].
    - eexists. split; [by eapply lookup_insert_port|]. replace y2 with (sync_counted x) by congruence. done.
    - exists (sync_counted x). by rewrite list_lookup_insert_ne. }
  unfold returns in Hrun. destruct (setMasterOffset p mm w2) as [[] w3|] eqn:E3; [|done].
  destruct Hrun as (Hc & Htr & Hl & Hti & Hhe & x' & Hx' & He' & Hst' & Hct' & Hlo' & Hau').
  eapply returns_step; [exact E3|].
  eapply returns_step; [exact (syncDone_idle x' e w3 Hx' He' Hau' Hd)|].
  eapply returns_step; [exact (run_get_port p x' w3 Hx')|].
  unfold interval3. eapply returns_step; [apply run_from_option; by rewrite Hlo'|].
  unfold returns. rewrite startSyncReceiptTimer_run. cbn. rewrite Hti. do 5 (split; [done|]). by exists x'.
Qed.

(** The times that are read of the system and of the device. *)
Definition times_at (n : nat) : Timestamp * Timestamp := default (timestamp 0 0 0, timestamp 0 0 0) (env_gettime n).
Lemma deviceTimes_run x w : ports w !! p = Some x -> _hw_timestamper x <> NoTimestamper ->
  getDeviceTime p w = Done (times_at (tick w)) (w <| tick := S (tick w) |>).
Proof.
  intros Hx Hh. unfold getDeviceTime. rewrite (bind_Done _ _ _ _ _ (run_get_port p x w Hx)).
  by destruct (_hw_timestamper x).
Qed.

Lemma followup_apply_run x e w o arrival c es ts :
  ports w !! p = Some x -> media x = Ether e -> _hw_timestamper x <> NoTimestamper -> steady x e w ->
  without SYNC_RECEIPT_TIMEOUT_EXPIRES (timers w) = timers w ->
  outcome_at x o arrival (times_at (tick w)) (clk w) = Some (c, es, ts) ->
  returns (followup_apply p ftlv o arrival) w (fun _ w' =>
    clk w' = c /\ trace w' = trace w ++ es /\ timers w' = timers w ++ ts /\
    heap w' = heap w /\ held w' = held w /\
    exists x', ports w' !! p = Some x' /\ media x' = Ether e /\ port_state x' = port_state x).
Proof.
  intros Hx He Hh Hst Hti Ho. unfold followup_apply, outcome_at in *.
  eapply returns_step; [exact (calcMaster_run o arrival w)|].
  destruct (calcMaster_ports (clk w) o arrival) as [Hf1 Hn1].
  set (r := calcMasterLocal (clk w) o arrival) in *. set (w1 := w <| clk := r.2 |>).
  destruct (SFeqb r.1 NEGATIVE_TIME_JUMP).
  { injection Ho as <- <- <-. unfold returns, mret, M_ret. rewrite !app_nil_r. repeat split. by exists x. }
  eapply returns_step; [exact (deviceTimes_run x w1 Hx Hh)|]. change (tick w1) with (tick w).
  destruct (freq_change r.1) as [change|] eqn:Ech; [|done]. cbn [mbind option_bind] in Ho.
  eapply returns_step; [exact (run_from_option CastOverflow _ _ _ eq_refl)|].
  eapply returns_step; [apply run_mod_clock|]. fold (with_status change).
  set (w2 := _ <| clk := _ |>). change (clk w2) with (with_status change r.2) in *.
  eapply returns_step; [exact (run_get_port p x w2 Hx)|].
  assert (Hend : forall w3 y, ports w3 !! p = Some y ->
    mod_port p (fun x => x <| lastGmTimeBaseIndicator := gmTimeBaseIndicator ftlv |>) w3 =
    Done tt (w3 <| ports := <[p := y <| lastGmTimeBaseIndicator := gmTimeBaseIndicator ftlv |>]> (ports w3) |>))
    by (intros w3 y Hy; exact (run_mod_port p _ y w3 Hy)).
  destruct (decide (port_state x = PTP_SLAVE)) as [Hs|Hs].
  - rewrite bool_decide_true by done. cbn [when].
    destruct (slave_measure _ _ _ _ _) as [m|] eqn:Em; [|done]. cbn [mbind option_bind] in Ho.
    destruct (interval3_ns _) as [t|] eqn:Et; [|done]. injection Ho as <- <- <-.
    assert (Hst2 : steady x e w2).
    { destruct Hst as [? ? (j & q & y & Hf & Hy) Hn]. split; try done.
      - exists j, q, y. split; [|done]. by rewrite <- Hf, <- Hf1.
      - change (number_ports (clk w2)) with (number_ports r.2). by rewrite Hn1. }
    pose proof (followup_slave_run x e w2 o arrival _ _ m t Hx He Hh Hst2 Em Et) as Hr. unfold returns in Hr.
    destruct (followup_slave _ _ _ _ _ _ _ w2) as [[] w3|] eqn:E3; [|done].
    destruct Hr as (Hc & Htr & Htm & Hhe & Hl & x' & Hx' & He' & Hs' & _).
    change (timers w2) with (timers w) in Htm. rewrite Hti in Htm. eapply returns_step; [exact E3|]. unfold returns. rewrite (Hend _ _ Hx').
    split; [exact Hc|]. split; [exact Htr|]. split; [exact Htm|]. split; [exact Hhe|].
    split; [exact Hl|]. eexists. split; [cbn; by eapply lookup_insert_port|]. done.
  - rewrite bool_decide_false by done. cbn [when]. injection Ho as <- <- <-.
    eapply returns_step; [apply run_ret|]. unfold returns. rewrite (Hend w2 x Hx), !app_nil_r.
    repeat split. eexists. split; [cbn; by eapply lookup_insert_port|]. done.
Qed.

Lemma without_idem e (l : list Timer) : without e (without e l) = without e l.
Proof.
  unfold without. induction l as [|t l IH]; [done|]. cbn.
  destruct (bool_decide (tm_event t = e)) eqn:E; cbn; [done|]. by rewrite E, IH.
Qed.
Lemma steady_insert x y z e w w' : steady x e w -> automotive_profile y = false ->
  clk w' = clk w -> ports w' = <[p := z]> (ports w) -> ports w !! p = Some x -> steady y e w'.
Proof.
  intros [Ha Hd (j & q & u & Hf & Hu) Hn] Ha' Hc Hp Hx. split; [done..| |by rewrite Hc].
  exists j, q. rewrite Hc, Hp. destruct (decide (p = q)) as [->|Hne].
  - exists z. split; [done|]. by eapply lookup_insert_port.
  - exists u. by rewrite list_lookup_insert_ne.
Qed.

Lemma followup_at_measured x e w c es ts :
  ports w !! p = Some x -> media x = Ether e -> _hw_timestamper x <> NoTimestamper -> steady x e w ->
  heap w !! this = Some mf -> without SYNC_RECEIPT_TIMEOUT_EXPIRES (timers w) = timers w ->
  admissible x = true -> measure_outcome x (times_at (tick w)) (clk w) = Some (c, es, ts) ->
  returns (followup_process_at p this (_timestamp ms)) w (fun _ w' =>
    clk w' = c /\ trace w' = trace w ++ es /\ timers w' = timers w ++ ts /\
    held w' = held w /\ (exists m, heap w' = <[this := m]> (heap w) /\ _gc m = true) /\
    exists x', ports w' !! p = Some x' /\ media x' = Ether e /\ port_state x' = port_state x).
Proof.
  intros Hx He Hh Hst Hm Hti Ha Ho. unfold followup_process_at, inc_RxFollowUpCount, count.
  eapply returns_step; [exact (run_mod_port p _ x w Hx)|]. fold (rx_sync_followup x).
  set (w1 := w <| ports := _ |>).
  assert (Hx1 : ports w1 !! p = Some (rx_sync_followup x)) by (cbn; by eapply lookup_insert_port).
  eapply returns_step; [exact (run_get_port p _ w1 Hx1)|].
  eapply returns_step; [exact (run_get_msg this mf w1 Hm)|]. rewrite Hpf. unfold admissible in Ha.
  apply andb_prop in Ha as [Ha1 Ha2]. apply negb_true_iff in Ha2.
  change (getLinkDelay_ok (rx_sync_followup x)) with (getLinkDelay_ok x). rewrite Ha1. cbn [negb].
  change (allow_negative_correction_field (rx_sync_followup x)) with (allow_negative_correction_field x).
  fold whole_correction. rewrite Ha2.
  unfold measure_outcome in Ho. destruct (master_time x) as [o|] eqn:Eo; [|done]. cbn [mbind option_bind] in Ho.
  unfold master_time in Eo. destruct (followup_correction _ _ _) as [corr|] eqn:Ecorr; [|done].
  injection Eo as Eo. change (outcome_at x) with (outcome_at (rx_sync_followup x)) in Ho.
  assert (Hbody : returns (mod_msg this (fun m => m <| correctionField := whole_correction |>);;
      correction ← from_option CastOverflow (Some corr);
      mod_msg this (fun m => m <| payload := FollowUp (corrected_origin origin correction) ftlv |>);;
      followup_apply p ftlv (corrected_origin origin correction) (_timestamp ms)) w1 (fun _ w2 =>
        clk w2 = c /\ trace w2 = trace w ++ es /\ timers w2 = timers w ++ ts /\ held w2 = held w /\
        (exists m, heap w2 = <[this := m]> (heap w)) /\
        exists x', ports w2 !! p = Some x' /\ media x' = Ether e /\ port_state x' = port_state x)).
  { eapply returns_step; [exact (run_mod_msg this _ mf w1 Hm)|]. set (m1 := mf <| correctionField := whole_correction |>).
    eapply returns_step; [exact (run_from_option CastOverflow _ _ _ eq_refl)|].
    set (w2 := w1 <| heap := _ |>).
    assert (Hm2 : heap w2 !! this = Some m1) by apply lookup_insert_eq.
    eapply returns_step; [exact (run_mod_msg this _ m1 w2 Hm2)|]. rewrite Eo.
    set (w3 := w2 <| heap := _ |>).
    assert (Hst3 : steady (rx_sync_followup x) e w3)
      by (apply (steady_insert x _ (rx_sync_followup x) e w); [done|apply Hst|done..]).
    pose proof (followup_apply_run (rx_sync_followup x) e w3 o (_timestamp ms) c es ts Hx1 He Hh Hst3 Hti Ho) as Hr.
    eapply returns_mono; [exact Hr|]. intros [] w4 (H1 & H2 & H3 & H4 & H5 & H6).
    split; [done|]. split; [done|]. split; [done|]. split; [done|]. split; [|done].
    rewrite H4. cbn. rewrite insert_insert_eq. by eexists. }
  unfold returns in Hbody.
  lazymatch type of Hbody with match ?t with _ => _ end => destruct t as [[] w2|] eqn:E2; [|done] end.
  destruct Hbody as (H1 & H2 & H3 & H4 & (m & H5) & H6). eapply returns_step; [exact E2|].
  unfold returns, set_gc. rewrite (run_mod_msg this _ m) by (rewrite H5; apply lookup_insert_eq). cbn.
  do 4 (split; [done|]). split; [|done]. eexists. rewrite H5, insert_insert_eq. done.
Qed.

End FollowUp.

(** ** A slave and its master *)

Definition the_sync : Message := peer_message 5 (Sync (timestamp 0 0 0)) <| _timestamp := mkTimestamp 5000 100 0 0 |>.
Definition the_follow_up (seq correction : Z) : Message :=
  peer_message seq (FollowUp (timestamp 300 100 0) FollowUpTLV_new) <| correctionField := correction |>.
Definition slave_port (x : Port) : Port :=
  upd_ether (fun e => e <| last_sync := Some 2%nat |> <| pdelay_started := true |>) x
    <| port_state := PTP_SLAVE |> <| one_way_delay := 500 |> <| asCapable := true |>
    <| _peer_rate_offset := ratio_one |>.
Definition slave_world (m : Message) : World :=
  world0 <| heap := {[ 2%nat := the_sync; 3%nat := m ]} |> <| ports := slave_port <$> ports world0 |>.
Definition the_slave : Port := default port_memory (ports (slave_world the_sync) !! 0%nat).
Definition the_slave_part : EtherPart :=
  match media the_slave with Ether e => e | Wireless _ => ether_memory end.
(** What the pair leads to. *)
Abbreviation slave_outcome :=
  (@measure_outcome 0 the_sync (the_follow_up 5 (200 * 2 ^ 16)) (timestamp 300 100 0) FollowUpTLV_new the_slave
    (@times_at env_ok (S (S (S (tick (slave_world (the_follow_up 5 (200 * 2 ^ 16))))))))
    (clk (slave_world (the_follow_up 5 (200 * 2 ^ 16))))).

(** It slows the clock down, and waits 375 ms for the next Sync. *)
Definition slows (o : Clock * list Effect * list Timer) : bool :=
  match o with
  | (_, [EAdjustClockRate O f], [t]) => SFltb f (S754_zero false) && (tm_micros t =? 375000)
  | _ => false
  end.
Lemma slave_outcome_slows : option.from_option slows false slave_outcome = true.
Proof. vm_compute. reflexivity. Qed.


(** The same Follow_Up of another Sync. *)
Lemma followup_dropped_witness :
  returns (@followup_process env_ok (@media_dispatch env_ok) 0 3) (slave_world (the_follow_up 6 0))
    (fun _ w' => clk w' = clk (slave_world (the_follow_up 6 0)) /\ trace w' = trace (slave_world (the_follow_up 6 0)) /\ heap w' !! 2%nat = None /\
       Forall (fun t => tm_event t <> SYNC_RECEIPT_TIMEOUT_EXPIRES) (timers w')).
Proof.
  eapply returns_mono.
  - apply (@followup_dropped env_ok env_ok_granted 0 2 3 the_sync (the_follow_up 6 0) (timestamp 300 100 0)
             FollowUpTLV_new eq_refl the_slave the_slave_part (slave_world (the_follow_up 6 0))).
    + constructor; vm_compute; first [reflexivity|discriminate].
    + vm_compute; reflexivity.
  - intros a w' (_ & [Hf _] & _ & Hc & Ht).
    assert (Hg : gives_up the_sync (the_follow_up 6 0) the_slave = false) by (vm_compute; reflexivity).
    rewrite Hg in Hc. destruct (Ht Hg) as [Htr Htm]. split; [exact Hc|]. split; [exact Htr|]. split; [exact Hf|].
    rewrite Htm. vm_compute. repeat constructor; discriminate.
Defined.
