(* ===== verification/TimerQueue.v ===== *)
(** * The timer queue

    [LinuxTimerQueue] (linux/src/linux_hal_common.cpp), the implementation of
    the timers of World.v: a map from keys to armed POSIX timers, each with the
    event descriptor that its expiry hands to the daemon.  The theorems relate
    it to the list of timers that the rest of the development uses. *)

From Stdlib Require Import ZArith Lia.
From stdpp Require Import base gmap list sorting.
From S2P Require Import Prelude Timestamp Identity Message World Clock Fixture.

(** ** Data *)

(** [(int)e] of an [Event]. *)
Definition Event_code (e : Event) : Z :=
  match e with
  | NULL_EVENT => 0 | POWERUP => 5 | INITIALIZE => 6 | LINKUP => 7 | LINKDOWN => 8
  | STATE_CHANGE_EVENT => 9 | SYNC_INTERVAL_TIMEOUT_EXPIRES => 10
  | PDELAY_INTERVAL_TIMEOUT_EXPIRES => 11 | SYNC_RECEIPT_TIMEOUT_EXPIRES => 12
  | QUALIFICATION_TIMEOUT_EXPIRES => 13 | ANNOUNCE_RECEIPT_TIMEOUT_EXPIRES => 14
  | ANNOUNCE_INTERVAL_TIMEOUT_EXPIRES => 15 | FAULT_DETECTED => 16
  | PDELAY_DEFERRED_PROCESSING => 17 | PDELAY_RESP_RECEIPT_TIMEOUT_EXPIRES => 18
  | PDELAY_RESP_PEER_MISBEHAVING_TIMEOUT_EXPIRES => 19
  | SYNC_RATE_INTERVAL_TIMEOUT_EXPIRED => 20
  end.

(** [LinuxTimerQueueActionArg]; the function is always [timerq_handler]. *)
Record ActionArg := mkActionArg {
  timer_handle : nat;    (* timer_t *)
  inner_arg : nat;       (* event_descriptor_t * *)
  action_type : Z;       (* int *)
  rm : bool;
}.

(** A POSIX timer: the value its signal carries, and the seconds and
    nanoseconds it is armed with. *)
Record OSTimer := mkOSTimer { sival_int : Z; it_value : option (Z * Z) }.

(** The queue, with the event descriptors on the heap and the timers of the
    operating system. *)
Record Queue := mkQueue {
  timerQueueMap : gmap Z ActionArg;
  q_key : Z;                                (* int *)
  descriptors : gmap nat (Event * nat);
  next_descriptor : nat;
  os_timers : gmap nat OSTimer;
  next_timer : nat;
}.
#[export] Instance eta_Queue : Settable Queue := fun q =>
  mkQueue (timerQueueMap q) (q_key q) (descriptors q) (next_descriptor q) (os_timers q)
    (next_timer q).

Abbreviation Q := (M Queue).

Definition INT_MAX : Z := 2147483647.

(** ** Objects *)

Definition new_descriptor (d : Event * nat) : Q nat := fun q =>
  Done (next_descriptor q)
    (q <| descriptors := <[next_descriptor q := d]> (descriptors q) |>
       <| next_descriptor := S (next_descriptor q) |>).
Definition read_descriptor (x : nat) : Q (Event * nat) := fun q =>
  match descriptors q !! x with Some d => Done d q | None => Fault DanglingPointer end.
Definition delete_descriptor (x : nat) : Q unit := fun q =>
  match descriptors q !! x with
  | Some _ => Done tt (q <| descriptors := base.delete x (descriptors q) |>)
  | None => Fault DanglingPointer
  end.
Definition timer_create (key : Z) : Q nat := fun q =>
  Done (next_timer q)
    (q <| os_timers := <[next_timer q := mkOSTimer key None]> (os_timers q) |>
       <| next_timer := S (next_timer q) |>).
Definition timer_settime (t : nat) (its : Z * Z) : Q unit := fun q =>
  match os_timers q !! t with
  | Some o => Done tt (q <| os_timers := <[t := mkOSTimer (sival_int o) (Some its)]> (os_timers q) |>)
  | None => Fault DanglingPointer
  end.
Definition timer_delete (t : nat) : Q unit := fun q =>
  match os_timers q !! t with
  | Some _ => Done tt (q <| os_timers := base.delete t (os_timers q) |>)
  | None => Fault DanglingPointer
  end.

(** ** Operations *)

(** [while( timerQueueMap.find( key ) != timerQueueMap.end() ) ++key;]: at most
    as many steps as the map has entries; [None] past the largest [int]. *)
Fixpoint find_key (fuel : nat) (m : gmap Z ActionArg) (key : Z) : option Z :=
  match m !! key with
  | None => Some key
  | Some _ =>
      match fuel with
      | O => None
      | S fuel' => if key =? INT_MAX then None else find_key fuel' m (key + 1)
      end
  end.

(** [addEvent]; [created] and [armed] are the outcomes of [timer_create] and
    [timer_settime]. *)
Definition addEvent (created armed : bool) (micros type : Z) (arg : nat) (rm : bool) : Q bool :=
  m ← gets timerQueueMap;
  k0 ← gets q_key;
  key ← from_option CastOverflow (find_key (size m) m k0);
  modify (fun q => q <| q_key := key |>);;
  if negb created then mret false else
  t ← timer_create key;
  modify (fun q => q <| timerQueueMap := <[key := mkActionArg t arg type rm]> (timerQueueMap q) |>);;
  if negb armed then mret false else
  timer_settime t (micros / 1000000, micros mod 1000000 * 1000);;
  mret true.

Definition erase (key : Z) : Q unit :=
  modify (fun q => q <| timerQueueMap := base.delete key (timerQueueMap q) |>).

Definition cancel_entry (type : Z) (key : Z) : Q unit :=
  m ← gets timerQueueMap;
  a ← from_option OutOfBounds (m !! key);
  if action_type a =? type then
    when (rm a) (delete_descriptor (inner_arg a));;
    timer_delete (timer_handle a);;
    erase key
  else mret tt.

Fixpoint cancel_loop (type : Z) (keys : list Z) : Q unit :=
  match keys with
  | [] => mret tt
  | key :: keys' => cancel_entry type key;; cancel_loop type keys'
  end.

(** [cancelEvent] walks the map in the order of its keys. *)
Definition cancelEvent (type : Z) : Q bool :=
  m ← gets timerQueueMap;
  cancel_loop type (merge_sort Z.le (map_to_list m).*1);;
  mret true.

(** The body of [LinuxTimerQueueHandler] for a signal that carries [key]; the
    handler may use the queue. *)
Definition on_signal (handler : Event -> nat -> Q unit) (key : Z) : Q unit :=
  m ← gets timerQueueMap;
  match m !! key with
  | None => mret tt
  | Some a =>
      erase key;;
      d ← read_descriptor (inner_arg a);
      handler d.1 d.2;;
      when (rm a) (delete_descriptor (inner_arg a));;
      timer_delete (timer_handle a)
  end.

(** [IEEE1588Clock::addEventTimer] and [deleteEventTimer] on this queue. *)
Definition q_addEventTimer (created armed : bool) (target : nat) (e : Event) (time_ns : Z) : Q unit :=
  d ← new_descriptor (e, target);
  _ ← addEvent created armed (u32 (time_ns / 1000)) (Event_code e) d true; mret tt.
Definition q_deleteEventTimer (target : nat) (e : Event) : Q unit :=
  _ ← cancelEvent (Event_code e); mret tt.

(** [createOSTimerQueue] *)
Definition Queue_new : Queue := mkQueue ∅ 0 ∅ 0 ∅ 0.

(** ** The key search *)

Lemma find_key_delete fuel m key j : j < key ->
  find_key fuel m key = find_key fuel (base.delete j m) key.
Proof.
  revert key. induction fuel as [|n IH]; intros key Hj; cbn; rewrite lookup_delete_ne by lia;
    [done|]. destruct (m !! key); [|done]. by rewrite IH by lia.
Qed.

(** The search ends within the size of the map, in a key that is not in use,
    unless it passes the largest [int]. *)
Lemma find_key_spec m key : key + Z.of_nat (size m) <= INT_MAX ->
  exists k, find_key (size m) m key = Some k /\ m !! k = None /\
            key <= k <= key + Z.of_nat (size m).
Proof.
  remember (size m) as n eqn:En. revert m key En.
  induction n as [|n IH]; intros m key En Hroom; cbn;
    destruct (m !! key) as [a|] eqn:Ea; try (exists key; split; [done|split; [done|lia]]).
  - symmetry in En. apply map_size_empty_inv in En. subst m. done.
  - rewrite (proj2 (Z.eqb_neq _ _)) by lia.
    rewrite (find_key_delete _ _ _ key) by lia.
    destruct (IH (base.delete key m) (key + 1)) as (k & Hk & Hf & Hb); [|lia|].
    { rewrite map_size_delete_Some by eauto. lia. }
    exists k. split; [done|]. split; [|lia].
    by rewrite lookup_delete_ne in Hf by lia.
Qed.

Lemma find_key_top m key :
  (forall k, is_Some (m !! k) -> k <= key) -> key < INT_MAX ->
  find_key (size m) m key = Some (match m !! key with Some _ => key + 1 | None => key end).
Proof.
  intros Htop Hk. destruct (size m) as [|n] eqn:En.
  - apply map_size_empty_inv in En. subst m. done.
  - cbn. destruct (m !! key) as [a|] eqn:Ea; [|done].
    rewrite (proj2 (Z.eqb_neq _ _)) by lia.
    assert (Hn : m !! (key + 1) = None).
    { destruct (m !! (key + 1)) eqn:E; [|done]. exfalso.
      specialize (Htop (key + 1) ltac:(by rewrite E)). lia. }
    destruct n; cbn; by rewrite Hn.
Qed.

(** ** What the queue represents

    [repr_at xd xt q T]: the queue holds the timers [T], by key; every
    descriptor and every timer of the operating system belongs to exactly one
    entry, or to the operation that is running ([xd], [xt]). *)
Definition armed_with (micros : Z) : option (Z * Z) :=
  Some (micros / 1000000, micros mod 1000000 * 1000).

Definition entry_for (q : Queue) (k : Z) (a : ActionArg) (t : Timer) : Prop :=
  rm a = true /\ action_type a = Event_code (tm_event t) /\
  descriptors q !! inner_arg a = Some (tm_event t, tm_port t) /\
  os_timers q !! timer_handle a = Some (mkOSTimer k (armed_with (tm_micros t))).

Record repr_at (xd xt : gset nat) (q : Queue) (T : gmap Z Timer) : Prop := {
  ra_dom k : is_Some (timerQueueMap q !! k) <-> is_Some (T !! k);
  ra_entry k a t : timerQueueMap q !! k = Some a -> T !! k = Some t -> entry_for q k a t;
  ra_inj k k' a a' : timerQueueMap q !! k = Some a -> timerQueueMap q !! k' = Some a' ->
    inner_arg a = inner_arg a' \/ timer_handle a = timer_handle a' -> k = k';
  ra_descriptors d : is_Some (descriptors q !! d) <->
    d ∈ xd \/ exists k a, timerQueueMap q !! k = Some a /\ inner_arg a = d;
  ra_timers d : is_Some (os_timers q !! d) <->
    d ∈ xt \/ exists k a, timerQueueMap q !! k = Some a /\ timer_handle a = d;
  ra_extra k a : timerQueueMap q !! k = Some a -> (inner_arg a ∉ xd) /\ (timer_handle a ∉ xt);
  ra_next_d d : is_Some (descriptors q !! d) -> (d < next_descriptor q)%nat;
  ra_next_t d : is_Some (os_timers q !! d) -> (d < next_timer q)%nat;
  ra_key k : is_Some (timerQueueMap q !! k) -> k <= q_key q;
}.

Lemma Event_code_inj e e' : Event_code e = Event_code e' -> e = e'.
Proof. destruct e, e'; (done || discriminate). Qed.

Section Repr.
Implicit Types (q : Queue) (T : gmap Z Timer) (xd xt : gset nat).

Lemma ra_lookup xd xt q T k t : repr_at xd xt q T -> T !! k = Some t ->
  exists a, timerQueueMap q !! k = Some a.
Proof. intros R E. apply (ra_dom _ _ _ _ R). by rewrite E. Qed.

Lemma ra_lookup' xd xt q T k a : repr_at xd xt q T -> timerQueueMap q !! k = Some a ->
  exists t, T !! k = Some t.
Proof. intros R E. apply (ra_dom _ _ _ _ R). by rewrite E. Qed.

Lemma ra_fresh_d xd xt q T : repr_at xd xt q T -> descriptors q !! next_descriptor q = None.
Proof.
  intros R. destruct (descriptors q !! next_descriptor q) eqn:E; [|done].
  pose proof (ra_next_d _ _ _ _ R (next_descriptor q) ltac:(by rewrite E)). lia.
Qed.
Lemma ra_fresh_t xd xt q T : repr_at xd xt q T -> os_timers q !! next_timer q = None.
Proof.
  intros R. destruct (os_timers q !! next_timer q) eqn:E; [|done].
  pose proof (ra_next_t _ _ _ _ R (next_timer q) ltac:(by rewrite E)). lia.
Qed.

(** A new descriptor and a new timer are the running operation's. *)
Lemma repr_new_descriptor xd xt q T v : repr_at xd xt q T ->
  repr_at ({[next_descriptor q]} ∪ xd) xt
    (q <| descriptors := <[next_descriptor q := v]> (descriptors q) |>
       <| next_descriptor := S (next_descriptor q) |>) T.
Proof.
  intros R. pose proof (ra_fresh_d _ _ _ _ R) as Hn.
  assert (Hin : forall k a, timerQueueMap q !! k = Some a -> next_descriptor q <> inner_arg a).
  { intros k a E H. destruct (proj2 (ra_descriptors _ _ _ _ R (inner_arg a))); [eauto|congruence]. }
  destruct R as [R1 R2 R3 R4 R5 R6 R7 R8 R9]; constructor; cbn; try done.
  - intros k a t E Et. destruct (R2 k a t E Et) as (?&?&?&?). split; [done|]. split; [done|].
    cbn. by rewrite lookup_insert_ne by eauto.
  - intros d. rewrite lookup_insert_is_Some', R4, elem_of_union, elem_of_singleton, (eq_comm d). clear. tauto.
  - intros k a E. destruct (R6 k a E). split; [|done]. specialize (Hin k a E). set_solver.
  - intros d. rewrite lookup_insert_is_Some. intros [<-|[_ H%R7]]; lia.
Qed.

Lemma repr_new_timer xd xt q T o : repr_at xd xt q T ->
  repr_at xd ({[next_timer q]} ∪ xt)
    (q <| os_timers := <[next_timer q := o]> (os_timers q) |>
       <| next_timer := S (next_timer q) |>) T.
Proof.
  intros R. pose proof (ra_fresh_t _ _ _ _ R) as Hn.
  assert (Hin : forall k a, timerQueueMap q !! k = Some a -> next_timer q <> timer_handle a).
  { intros k a E H. destruct (proj2 (ra_timers _ _ _ _ R (timer_handle a))); [eauto|congruence]. }
  destruct R as [R1 R2 R3 R4 R5 R6 R7 R8 R9]; constructor; cbn; try done.
  - intros k a t E Et. destruct (R2 k a t E Et) as (?&?&?&?). split; [done|]. split; [done|].
    split; [done|]. cbn. by rewrite lookup_insert_ne by eauto.
  - intros d. rewrite lookup_insert_is_Some', R5, elem_of_union, elem_of_singleton, (eq_comm d). clear. tauto.
  - intros k a E. destruct (R6 k a E). split; [done|]. specialize (Hin k a E). set_solver.
  - intros d. rewrite lookup_insert_is_Some. intros [<-|[_ H%R8]]; lia.
Qed.

(** An entry takes over objects of the running operation, and gives them back. *)
Lemma repr_adopt xd xt q T k a t : repr_at xd xt q T ->
  timerQueueMap q !! k = None -> k <= q_key q ->
  inner_arg a ∈ xd -> timer_handle a ∈ xt -> entry_for q k a t ->
  repr_at (xd ∖ {[inner_arg a]}) (xt ∖ {[timer_handle a]})
    (q <| timerQueueMap := <[k := a]> (timerQueueMap q) |>) (<[k := t]> T).
Proof.
  intros [R1 R2 R3 R4 R5 R6 R7 R8 R9] Hk Hle Hd Ht He. constructor; cbn; try done.
  - intros k'. rewrite !lookup_insert_is_Some, R1. done.
  - intros k' a' t'. rewrite !lookup_insert_Some. intros [[<- <-]|[? E]] [[? <-]|[? Et]];
      [exact He|congruence..|]. exact (R2 _ _ _ E Et).
  - intros k1 k2 a1 a2. rewrite !lookup_insert_Some.
    intros [[<- <-]|[Hn E]] [[<- <-]|[Hn' E']] Hs; [done|..|by eapply R3].
    + apply R6 in E' as [X Y]. destruct Hs as [Hs|Hs]; rewrite Hs in *; contradiction.
    + apply R6 in E as [X Y]. destruct Hs as [Hs|Hs]; rewrite Hs in *; contradiction.
  - intros d. rewrite R4, elem_of_difference, elem_of_singleton. split.
    + intros [Hx|(k' & a' & E & <-)].
      * destruct (decide (d = inner_arg a)) as [->|]; [right|by left].
        exists k, a. by rewrite lookup_insert_eq.
      * right. exists k', a'. by rewrite lookup_insert_ne by congruence.
    + intros [[Hx _]|(k' & a' & [[<- <-]|[? E]]%lookup_insert_Some & <-)]; eauto.
  - intros d. rewrite R5, elem_of_difference, elem_of_singleton. split.
    + intros [Hx|(k' & a' & E & <-)].
      * destruct (decide (d = timer_handle a)) as [->|]; [right|by left].
        exists k, a. by rewrite lookup_insert_eq.
      * right. exists k', a'. by rewrite lookup_insert_ne by congruence.
    + intros [[Hx _]|(k' & a' & [[<- <-]|[? E]]%lookup_insert_Some & <-)]; eauto.
  - intros k' a' [[<- <-]|[? E]]%lookup_insert_Some; [set_solver|].
    apply R6 in E. set_solver.
  - intros k' [<-|[_ H]]%lookup_insert_is_Some; auto.
Qed.

Lemma repr_erase xd xt q T k a t : repr_at xd xt q T ->
  timerQueueMap q !! k = Some a -> T !! k = Some t ->
  repr_at ({[inner_arg a]} ∪ xd) ({[timer_handle a]} ∪ xt)
    (q <| timerQueueMap := base.delete k (timerQueueMap q) |>) (base.delete k T).
Proof.
  intros [R1 R2 R3 R4 R5 R6 R7 R8 R9] Ea Et. constructor; cbn; try done.
  - intros k'. rewrite !lookup_delete_is_Some, R1. done.
  - intros k' a' t' [_ E]%lookup_delete_Some [_ E']%lookup_delete_Some. exact (R2 _ _ _ E E').
  - intros k1 k2 a1 a2 [_ E]%lookup_delete_Some [_ E']%lookup_delete_Some. by eapply R3.
  - intros d. rewrite R4, elem_of_union, elem_of_singleton. split.
    + intros [Hx|(k' & a' & E & <-)]; [by left; right|].
      destruct (decide (k = k')) as [<-|]; [left; left; congruence|].
      right. exists k', a'. by rewrite lookup_delete_ne.
    + intros [[->|Hx]|(k' & a' & [_ E]%lookup_delete_Some & <-)]; eauto.
  - intros d. rewrite R5, elem_of_union, elem_of_singleton. split.
    + intros [Hx|(k' & a' & E & <-)]; [by left; right|].
      destruct (decide (k = k')) as [<-|]; [left; left; congruence|].
      right. exists k', a'. by rewrite lookup_delete_ne.
    + intros [[->|Hx]|(k' & a' & [_ E]%lookup_delete_Some & <-)]; eauto.
  - intros k' a' [Hne E]%lookup_delete_Some. pose proof (R6 _ _ E) as [? ?].
    assert (inner_arg a' <> inner_arg a) by (intros Hs; apply Hne; symmetry; eapply R3; eauto).
    assert (timer_handle a' <> timer_handle a) by (intros Hs; apply Hne; symmetry; eapply R3; eauto).
    set_solver.
  - intros k' [_ H]%lookup_delete_is_Some. auto.
Qed.

(** The running operation frees what is its own. *)
Lemma repr_free xd xt q T d t : repr_at xd xt q T -> d ∈ xd -> t ∈ xt ->
  repr_at (xd ∖ {[d]}) (xt ∖ {[t]})
    (q <| descriptors := base.delete d (descriptors q) |>
       <| os_timers := base.delete t (os_timers q) |>) T.
Proof.
  intros [R1 R2 R3 R4 R5 R6 R7 R8 R9] Hd Ht. constructor; cbn; try done.
  - intros k a tm E Et. destruct (R2 _ _ _ E Et) as (?&?&?&?). destruct (R6 _ _ E).
    split; [done|]. split; [done|]. cbn. rewrite !lookup_delete_ne by set_solver. done.
  - intros d'. rewrite lookup_delete_is_Some, R4, elem_of_difference, elem_of_singleton.
    split; [intuition congruence|]. intros [?|(k & a & E & <-)]; [intuition congruence|].
    destruct (R6 _ _ E). split; [intros ->; contradiction|eauto].
  - intros d'. rewrite lookup_delete_is_Some, R5, elem_of_difference, elem_of_singleton.
    split; [intuition congruence|]. intros [?|(k & a & E & <-)]; [intuition congruence|].
    destruct (R6 _ _ E). split; [intros ->; contradiction|eauto].
  - intros k a E. destruct (R6 _ _ E). set_solver.
  - intros d' [_ H]%lookup_delete_is_Some. auto.
  - intros d' [_ H]%lookup_delete_is_Some. auto.
Qed.

Lemma repr_key xd xt q T key : repr_at xd xt q T -> q_key q <= key ->
  repr_at xd xt (q <| q_key := key |>) T.
Proof.
  intros [R1 R2 R3 R4 R5 R6 R7 R8 R9] H. constructor; try done. cbn. intros k Hk%R9. lia.
Qed.
End Repr.

(** ** The operations *)

Section Operations.
Implicit Types (q : Queue) (T : gmap Z Timer) (xd xt : gset nat).

Ltac step := unfold gets, modify, mbind, M_bind, mret, M_ret; cbn.

Lemma add_ok xd xt q T p e ns : repr_at xd xt q T -> q_key q < INT_MAX ->
  exists q' k, q_addEventTimer true true p e ns q = Done tt q' /\
    (q_key q' = k /\ k <= q_key q + 1 /\ (timerQueueMap q !! q_key q = None -> k = q_key q)) /\
    T !! k = None /\ repr_at xd xt q' (<[k := mkTimer (u32 (ns / 1000)) e p]> T).
Proof.
  intros R Hmax. pose proof (find_key_top _ _ (ra_key _ _ _ _ R) Hmax) as Hf.
  set (k := match timerQueueMap q !! q_key q with Some _ => q_key q + 1 | None => q_key q end) in Hf.
  assert (Hk : q_key q <= k <= q_key q + 1) by (unfold k; destruct (timerQueueMap q !! _); lia).
  assert (Hfree : timerQueueMap q !! k = None).
  { unfold k. destruct (timerQueueMap q !! q_key q) eqn:E; [|done].
    apply eq_None_not_Some. intros H%(ra_key _ _ _ _ R). lia. }
  assert (Hxd : next_descriptor q ∉ xd).
  { intros H. pose proof (ra_fresh_d _ _ _ _ R).
    destruct (proj2 (ra_descriptors _ _ _ _ R (next_descriptor q))); [auto|congruence]. }
  assert (Hxt : next_timer q ∉ xt).
  { intros H. pose proof (ra_fresh_t _ _ _ _ R).
    destruct (proj2 (ra_timers _ _ _ _ R (next_timer q))); [auto|congruence]. }
  eexists _, k. split.
  { unfold q_addEventTimer, addEvent, new_descriptor, timer_create, timer_settime. step.
    rewrite Hf. step. rewrite lookup_insert_eq. step. reflexivity. }
  split; [split; [done|]; split; [lia|]; intros H0; unfold k; by rewrite H0|]. split.
  { apply eq_None_not_Some. rewrite <- (ra_dom _ _ _ _ R), Hfree. by intros []. }
  cbn. rewrite insert_insert_eq.
  apply (repr_new_descriptor _ _ _ _ (e, p)) in R.
  apply (repr_new_timer _ _ _ _ (mkOSTimer k (armed_with (u32 (ns / 1000))))) in R.
  apply (repr_key _ _ _ _ k) in R; [|cbn; lia].
  apply (repr_adopt _ _ _ _ k (mkActionArg (next_timer q) (next_descriptor q) (Event_code e) true)
           (mkTimer (u32 (ns / 1000)) e p)) in R; cbn in *; [|done|lia|set_solver..|].
  - replace (_ ∖ _) with xd in R by set_solver. replace (_ ∖ _) with xt in R by set_solver. exact R.
  - unfold entry_for. cbn. by rewrite !lookup_insert_eq.
Qed.

(** One entry of [cancelEvent]. *)
Definition cancel_view (e : Event) (T : gmap Z Timer) (k : Z) : gmap Z Timer :=
  match T !! k with
  | Some t => if decide (tm_event t = e) then base.delete k T else T
  | None => T
  end.

Lemma repr_drop xd xt q T k a t : repr_at xd xt q T ->
  timerQueueMap q !! k = Some a -> T !! k = Some t ->
  repr_at xd xt
    (q <| timerQueueMap := base.delete k (timerQueueMap q) |>
       <| descriptors := base.delete (inner_arg a) (descriptors q) |>
       <| os_timers := base.delete (timer_handle a) (os_timers q) |>) (base.delete k T).
Proof.
  intros R Ea Et. pose proof (ra_extra _ _ _ _ R _ _ Ea) as [Hd Ht].
  apply (repr_erase _ _ _ _ _ _ _ R Ea) in Et.
  apply (repr_free _ _ _ _ (inner_arg a) (timer_handle a)) in Et; [|set_solver..].
  replace (_ ∖ _) with xd in Et by set_solver. replace (_ ∖ _) with xt in Et by set_solver. exact Et.
Qed.

Lemma cancel_entry_ok xd xt q T e k : repr_at xd xt q T -> is_Some (timerQueueMap q !! k) ->
  exists q', cancel_entry (Event_code e) k q = Done tt q' /\ q_key q' = q_key q /\
    (forall k', k' <> k -> timerQueueMap q' !! k' = timerQueueMap q !! k') /\
    repr_at xd xt q' (cancel_view e T k).
Proof.
  intros R [a Ea]. destruct (ra_lookup' _ _ _ _ _ _ R Ea) as [t Et].
  destruct (ra_entry _ _ _ _ R _ _ _ Ea Et) as (Hrm & Hty & Hd & Ht).
  unfold cancel_view. rewrite Et. unfold cancel_entry. step. rewrite Ea. step. rewrite Hty.
  destruct (decide (tm_event t = e)) as [<-|Hne].
  - rewrite Z.eqb_refl, Hrm. unfold when, delete_descriptor, timer_delete, erase. step.
    rewrite Hd. step. rewrite Ht. step. eexists. split; [reflexivity|]. split; [done|]. split.
    + intros k' Hk. cbn. by rewrite lookup_delete_ne.
    + exact (repr_drop _ _ _ _ _ _ _ R Ea Et).
  - rewrite (proj2 (Z.eqb_neq _ _)) by (by intros H%Event_code_inj).
    exists q. done.
Qed.

Lemma cancel_loop_ok xd xt e ks : forall q T, repr_at xd xt q T -> NoDup ks ->
  Forall (fun k => is_Some (timerQueueMap q !! k)) ks ->
  exists q', cancel_loop (Event_code e) ks q = Done tt q' /\ q_key q' = q_key q /\
    repr_at xd xt q' (foldl (cancel_view e) T ks).
Proof.
  induction ks as [|k ks IH]; intros q T R Hnd Hin; cbn; [by exists q|].
  apply NoDup_cons in Hnd as [Hk Hnd]. apply Forall_cons in Hin as [Ha Hin].
  destruct (cancel_entry_ok _ _ _ _ e k R Ha) as (q1 & E1 & K1 & Hsame & R1).
  destruct (IH q1 _ R1 Hnd) as (q' & E' & K' & R').
  { eapply Forall_impl; [apply Forall_and; split; [exact Hin|apply Forall_forall; intros k' H; exact H]|].
    intros k' [Hs Hm]. rewrite Hsame by (intros ->; done). done. }
  exists q'. step. rewrite E1. split; [done|]. split; [congruence|done].
Qed.

(** All entries of the event go, and only they. *)
Lemma foldl_cancel_view e ks : forall T k,
  foldl (cancel_view e) T ks !! k =
    match T !! k with
    | Some t => if decide (k ∈ ks /\ tm_event t = e) then None else Some t
    | None => None
    end.
Proof.
  induction ks as [|k0 ks IH]; intros T k; cbn.
  - destruct (T !! k); [|done]. rewrite decide_False; [done|]. intros [H _]. by apply elem_of_nil in H.
  - rewrite IH. unfold cancel_view. destruct (T !! k0) as [t0|] eqn:E0.
    + destruct (decide (tm_event t0 = e)) as [He|He].
      * destruct (decide (k = k0)) as [->|Hne].
        -- rewrite lookup_delete_eq, E0, decide_True; [done|]. split; [left|done].
        -- rewrite lookup_delete_ne by done. destruct (T !! k) as [t|]; [|done].
           apply decide_ext. rewrite elem_of_cons. intuition.
      * destruct (T !! k) as [t|] eqn:E; [|done]. apply decide_ext. rewrite elem_of_cons.
        split; [intuition|]. intros [[->|] He']; [congruence|done].
    + destruct (T !! k) as [t|] eqn:E; [|done]. apply decide_ext. rewrite elem_of_cons.
      split; [intuition|]. intros [[->|] He']; [congruence|done].
Qed.

Lemma cancel_ok xd xt q T p e : repr_at xd xt q T ->
  exists q', q_deleteEventTimer p e q = Done tt q' /\ q_key q' = q_key q /\
    repr_at xd xt q' (filter (fun kt => tm_event kt.2 <> e) T).
Proof.
  intros R. unfold q_deleteEventTimer, cancelEvent. step.
  set (ks := merge_sort Z.le (map_to_list (timerQueueMap q)).*1).
  assert (Hp : ks ≡ₚ (map_to_list (timerQueueMap q)).*1) by apply merge_sort_Permutation.
  assert (Hks : forall k, k ∈ ks <-> is_Some (timerQueueMap q !! k)).
  { intros k. rewrite Hp, list_elem_of_fmap. split.
    - intros ([k' a] & -> & H%elem_of_map_to_list). by exists a.
    - intros [a E]. exists (k, a). split; [done|]. by apply elem_of_map_to_list. }
  destruct (cancel_loop_ok xd xt e ks q T R) as (q' & E & K & R').
  { rewrite Hp. apply NoDup_fst_map_to_list. }
  { apply Forall_forall. intros k. apply Hks. }
  exists q'. rewrite E. split; [done|]. split; [done|].
  replace (filter _ T) with (foldl (cancel_view e) T ks); [done|].
  apply map_eq. intros k. rewrite foldl_cancel_view, map_lookup_filter.
  destruct (T !! k) as [t|] eqn:Et; [|done]. cbn.
  assert (k ∈ ks) by (apply Hks, (ra_dom _ _ _ _ R); by rewrite Et).
  destruct (decide (tm_event t = e)).
  - rewrite decide_True by done. by rewrite option_guard_False by congruence.
  - rewrite decide_False by tauto. by rewrite option_guard_True by done.
Qed.
End Operations.

(** ** Refinement

    What the daemon asks of the queue, on the implementation and on the world:
    a request of a handler, or a signal of the operating system, whose handler
    makes requests in its turn. *)
Inductive Request :=
  | Arm (target : nat) (e : Event) (time_ns : Z)
  | Disarm (target : nat) (e : Event).

Definition q_request (r : Request) : Q unit :=
  match r with
  | Arm p e ns => q_addEventTimer true true p e ns
  | Disarm p e => q_deleteEventTimer p e
  end.
Definition w_request (r : Request) : D unit :=
  match r with
  | Arm p e ns => addEventTimer p e ns
  | Disarm p e => deleteEventTimer p e
  end.
Fixpoint q_requests (rs : list Request) : Q unit :=
  match rs with [] => mret tt | r :: rs' => q_request r;; q_requests rs' end.
Fixpoint w_requests (rs : list Request) : D unit :=
  match rs with [] => mret tt | r :: rs' => w_request r;; w_requests rs' end.

Definition represents (q : Queue) (ts : list Timer) : Prop :=
  exists T, repr_at ∅ ∅ q T /\ (map_to_list T).*2 ≡ₚ ts.

(** The timer of a key. *)
Definition holds_timer (q : Queue) (key : Z) (t : Timer) : Prop :=
  exists a, timerQueueMap q !! key = Some a /\ entry_for q key a t.

(** The signal [key] on the world: without an entry nothing happens; with one,
    its timer leaves the list and the handler of its event runs on its port. *)
Definition w_signal (q : Queue) (key : Z) (handler : Event -> nat -> list Request)
    (w w' : World) : Prop :=
  match timerQueueMap q !! key with
  | None => w' = w
  | Some _ => exists i t, timers w !! i = Some t /\ holds_timer q key t /\
      w_requests (handler (tm_event t) (tm_port t))
        (w <| timers := base.delete i (timers w) |>) = Done tt w'
  end.

Lemma filter_perm {A} (f : A -> bool) l l' : l ≡ₚ l' -> List.filter f l ≡ₚ List.filter f l'.
Proof.
  induction 1 as [|x l l' _ IH|x y l|]; cbn; [done|..].
  - destruct (f x); [by constructor|done].
  - destruct (f x), (f y); [constructor|done..].
  - by etrans.
Qed.

Lemma without_view e (T : gmap Z Timer) :
  (map_to_list (filter (fun kt => tm_event kt.2 <> e) T)).*2 ≡ₚ without e (map_to_list T).*2.
Proof.
  induction T as [|k t T Hk IH] using map_ind; [by rewrite map_filter_empty, !map_to_list_empty|].
  unfold without. rewrite (filter_perm _ _ _ (fmap_Permutation _ _ _ (map_to_list_insert T k t Hk))).
  cbn. destruct (decide (tm_event t = e)) as [He|He].
  - rewrite bool_decide_eq_true_2 by done. cbn. rewrite map_filter_insert_False by (cbn; auto).
    rewrite delete_id by done. exact IH.
  - rewrite bool_decide_eq_false_2 by done. cbn. rewrite map_filter_insert_True by done.
    rewrite map_to_list_insert by (rewrite map_lookup_filter_None; by left).
    cbn. by rewrite IH.
Qed.

Lemma requests_ok xd xt rs : forall q T w, repr_at xd xt q T -> (map_to_list T).*2 ≡ₚ timers w ->
  q_key q + Z.of_nat (length rs) <= INT_MAX ->
  exists q' T' w', q_requests rs q = Done tt q' /\ w_requests rs w = Done tt w' /\
    repr_at xd xt q' T' /\ (map_to_list T').*2 ≡ₚ timers w'.
Proof.
  induction rs as [|r rs IH]; intros q T w R P Hroom; [by exists q, T, w|].
  cbn [length] in Hroom. destruct r as [p e ns|p e].
  - destruct (add_ok _ _ _ _ p e ns R ltac:(lia)) as (q1 & k & E1 & (K0 & K1 & _) & Hk & R1).
    destruct (IH q1 _ (w <| timers := timers w ++ [mkTimer (u32 (ns / 1000)) e p] |>) R1)
      as (q' & T' & w' & E & W & R' & P'); [|lia|].
    { cbn. rewrite map_to_list_insert by done. cbn. rewrite P. by rewrite Permutation_cons_append. }
    exists q', T', w'. split; [cbn; unfold mbind, M_bind; by rewrite E1|]. by split.
  - destruct (cancel_ok _ _ _ _ p e R) as (q1 & E1 & K1 & R1).
    destruct (IH q1 _ (w <| timers := without e (timers w) |>) R1)
      as (q' & T' & w' & E & W & R' & P'); [|lia|].
    { cbn. rewrite without_view. by apply filter_perm. }
    exists q', T', w'. split; [cbn; unfold mbind, M_bind; by rewrite E1|]. by split.
Qed.

Lemma view_delete (T : gmap Z Timer) k t ts : T !! k = Some t -> (map_to_list T).*2 ≡ₚ ts ->
  exists i, ts !! i = Some t /\ (map_to_list (base.delete k T)).*2 ≡ₚ base.delete i ts.
Proof.
  intros E P. rewrite <- (map_to_list_delete T k t E) in P. cbn in P.
  assert (t ∈ ts) as [i Hi]%list_elem_of_lookup by (rewrite <- P; by left).
  exists i. split; [done|]. rewrite (delete_Permutation ts i t Hi) in P.
  by apply Permutation_cons_inv in P.
Qed.

Lemma repr_holds xd xt q T k t : repr_at xd xt q T -> T !! k = Some t -> holds_timer q k t.
Proof.
  intros R Et. destruct (ra_lookup _ _ _ _ _ _ R Et) as [a Ea]. exists a.
  split; [done|]. exact (ra_entry _ _ _ _ R _ _ _ Ea Et).
Qed.

Lemma request_ok q w r : represents q (timers w) -> q_key q < INT_MAX ->
  exists q' w', q_request r q = Done tt q' /\ w_request r w = Done tt w' /\
    represents q' (timers w').
Proof.
  intros (T & R & P) Hk.
  destruct (requests_ok _ _ [r] _ _ w R P) as (q' & T' & w' & E & W & R' & P'); [cbn; lia|].
  exists q', w'. cbn in E, W. unfold mbind, M_bind in E, W.
  destruct (q_request r q) as [[] ?|]; [|done]. destruct (w_request r w) as [[] ?|]; [|done].
  injection E as ->. injection W as ->. split; [done|]. split; [done|]. by exists T'.
Qed.

Lemma signal_ok q w key handler : represents q (timers w) ->
  (forall e p, q_key q + Z.of_nat (length (handler e p)) <= INT_MAX) ->
  exists q' w', on_signal (fun e p => q_requests (handler e p)) key q = Done tt q' /\
    w_signal q key handler w w' /\ represents q' (timers w').
Proof.
  intros (T & R & P) Hroom. unfold on_signal, w_signal, gets, mbind, M_bind.
  destruct (timerQueueMap q !! key) as [a|] eqn:Ea;
    [|exists q, w; split; [done|]; split; [done|by exists T]].
  destruct (ra_lookup' _ _ _ _ _ _ R Ea) as [t Et].
  pose proof (ra_entry _ _ _ _ R _ _ _ Ea Et) as He.
  destruct (view_delete _ _ _ _ Et P) as (i & Hi & Pi).
  pose proof (repr_erase _ _ _ _ _ _ _ R Ea Et) as R1.
  set (w1 := w <| timers := base.delete i (timers w) |>).
  destruct (requests_ok _ _ (handler (tm_event t) (tm_port t)) _ _ w1 R1 Pi)
    as (q' & T' & w' & E & W & R' & P'); [apply Hroom|].
  destruct (proj2 (ra_descriptors _ _ _ _ R' (inner_arg a)) ltac:(left; set_solver)) as [d Hd].
  destruct (proj2 (ra_timers _ _ _ _ R' (timer_handle a)) ltac:(left; set_solver)) as [o Ho].
  eexists _, w'. split; [|split].
  - destruct He as (Hrm & _ & Hd0 & _). unfold erase, modify, read_descriptor. cbn in E |- *.
    rewrite Hd0. cbn. rewrite E, Hrm. unfold when, delete_descriptor, timer_delete. cbn.
    rewrite Hd. cbn. rewrite Ho. reflexivity.
  - exists i, t. split; [done|]. split; [by exists a|done].
  - exists T'. split; [|done].
    apply (repr_free _ _ _ _ (inner_arg a) (timer_handle a)) in R'; [|set_solver..].
    replace (_ ∖ _) with (∅ : gset nat) in R' by set_solver.
    replace (_ ∖ _) with (∅ : gset nat) in R' by set_solver. exact R'.
Qed.


Definition queue_of (r : res Queue unit) : Queue := match r with Done _ q => q | Fault _ => Queue_new end.
Definition two_timers : Queue :=
  queue_of (q_requests [Arm 0 ANNOUNCE_RECEIPT_TIMEOUT_EXPIRES 3000000000;
                        Arm 0 STATE_CHANGE_EVENT 16000000] Queue_new).
Definition two_timers_world : list Timer :=
  [mkTimer 3000000 ANNOUNCE_RECEIPT_TIMEOUT_EXPIRES 0; mkTimer 16000 STATE_CHANGE_EVENT 0].

Lemma represents_new : represents Queue_new [].
Proof.
  exists ∅. split; [|by rewrite map_to_list_empty]. constructor; cbn.
  - intros k. by rewrite !lookup_empty.
  - intros k a t [=].
  - intros k k' a a' [=].
  - intros d. rewrite lookup_empty. split; [by intros []|]. intros [[]%elem_of_empty|(k & a & [=] & _)].
  - intros d. rewrite lookup_empty. split; [by intros []|]. intros [[]%elem_of_empty|(k & a & [=] & _)].
  - intros k a [=].
  - intros d. rewrite lookup_empty. by intros [].
  - intros d. rewrite lookup_empty. by intros [].
  - intros k. rewrite lookup_empty. by intros [].
Qed.

Lemma two_timers_represented : represents two_timers two_timers_world.
Proof.
  destruct represents_new as (T & R & P).
  destruct (requests_ok _ _ [Arm 0 ANNOUNCE_RECEIPT_TIMEOUT_EXPIRES 3000000000;
    Arm 0 STATE_CHANGE_EVENT 16000000] _ _ (world_of [] clock_memory) R P)
    as (q' & T' & w' & E & W & R' & P'); [done|].
  unfold two_timers. rewrite E. exists T'. split; [done|]. rewrite P'.
  vm_compute in W. injection W as <-. done.
Qed.

Definition two_timers_w : World := world_of [] clock_memory <| timers := two_timers_world |>.


(** A signal that outlives its timer.  A key is free again as soon as its
    timer is cancelled, and the next timer takes it: if the operating system
    had already queued the signal of the cancelled timer, that signal is taken
    for the new timer's, whose handler then runs at once instead of after its
    delay. *)
Theorem stale_signal_fires q ts p e ns p' e' ns' :
  represents q ts -> timerQueueMap q !! q_key q = None -> q_key q < INT_MAX -> e <> e' ->
  exists q1 q2, q_request (Arm p e ns) q = Done tt q1 /\
    holds_timer q1 (q_key q) (mkTimer (u32 (ns / 1000)) e p) /\
    q_requests [Disarm p e; Arm p' e' ns'] q1 = Done tt q2 /\
    holds_timer q2 (q_key q) (mkTimer (u32 (ns' / 1000)) e' p').
Proof.
  intros (T & R & _) Hfree Hmax Hne.
  destruct (add_ok _ _ _ _ p e ns R Hmax) as (q1 & k & E1 & (K1 & _ & Hk) & _ & R1).
  destruct (cancel_ok _ _ _ _ p e R1) as (q2 & E2 & K2 & R2).
  rewrite (Hk Hfree) in *. clear Hk.
  assert (Hgone : timerQueueMap q2 !! q_key q2 = None).
  { apply eq_None_not_Some. rewrite (ra_dom _ _ _ _ R2), K2, K1, map_lookup_filter, lookup_insert_eq.
    cbn. rewrite option_guard_False by auto. by intros []. }
  destruct (add_ok _ _ _ _ p' e' ns' R2 ltac:(lia)) as (q3 & k' & E3 & (K3 & _ & Hk') & _ & R3).
  rewrite (Hk' Hgone), K2, K1 in R3.
  exists q1, q3. split; [done|]. split; [by eapply repr_holds; [exact R1|apply lookup_insert_eq]|].
  split; [cbn; unfold mbind, M_bind; rewrite E2, E3; done|].
  by eapply repr_holds; [exact R3|apply lookup_insert_eq].
Qed.

Lemma stale_signal_fires_witness :
  exists q1 q2, q_request (Arm 0 STATE_CHANGE_EVENT 16000000) Queue_new = Done tt q1 /\
    holds_timer q1 0 (mkTimer 16000 STATE_CHANGE_EVENT 0) /\
    q_requests [Disarm 0 STATE_CHANGE_EVENT;
                Arm 0 PDELAY_RESP_PEER_MISBEHAVING_TIMEOUT_EXPIRES 300000000000] q1 = Done tt q2 /\
    holds_timer q2 0 (mkTimer 300000000 PDELAY_RESP_PEER_MISBEHAVING_TIMEOUT_EXPIRES 0).
Proof.
  apply (stale_signal_fires Queue_new [] 0 STATE_CHANGE_EVENT 16000000 0
           PDELAY_RESP_PEER_MISBEHAVING_TIMEOUT_EXPIRES 300000000000 represents_new);
    [by vm_compute|by vm_compute|discriminate].
Defined.

(** What becomes of a timer that the operating system refuses, which
    [addEventTimer] does not report: when the timer cannot be created nothing is
    armed and the event descriptor is leaked; when it cannot be armed its entry
    stays in the map and will never fire. *)
Theorem refused_timer q ts p e ns :
  represents q ts -> q_key q < INT_MAX ->
  (exists q' T, q_addEventTimer false true p e ns q = Done tt q' /\
     repr_at {[next_descriptor q]} ∅ q' T /\ (map_to_list T).*2 ≡ₚ ts) /\
  (exists q' a, q_addEventTimer true false p e ns q = Done tt q' /\
     timerQueueMap q' !! q_key q' = Some a /\ inner_arg a = next_descriptor q /\
     os_timers q' !! timer_handle a = Some (mkOSTimer (q_key q') None)).
Proof.
  intros (T & R & P) Hmax. pose proof (find_key_top _ _ (ra_key _ _ _ _ R) Hmax) as Hf.
  set (k := match timerQueueMap q !! q_key q with Some _ => q_key q + 1 | None => q_key q end) in Hf.
  assert (Hk : q_key q <= k) by (unfold k; destruct (timerQueueMap q !! _); lia).
  unfold q_addEventTimer, addEvent, new_descriptor, timer_create, gets, modify, mbind, M_bind.
  split.
  - eexists _, T. split; [cbn; rewrite Hf; reflexivity|]. split; [|done].
    apply (repr_new_descriptor _ _ _ _ (e, p)) in R. apply (repr_key _ _ _ _ k) in R; [|done].
    by rewrite union_empty_r_L in R.
  - eexists _, (mkActionArg (next_timer q) (next_descriptor q) (Event_code e) true).
    split; [cbn; rewrite Hf; reflexivity|]. cbn. rewrite !lookup_insert_eq. done.
Qed.

Lemma refused_timer_witness :
  exists q' T, q_addEventTimer false true 0 POWERUP 0 two_timers = Done tt q' /\
     repr_at {[next_descriptor two_timers]} ∅ q' T /\ (map_to_list T).*2 ≡ₚ two_timers_world.
Proof.
  apply (refused_timer two_timers two_timers_world 0 POWERUP 0 two_timers_represented).
  by vm_compute.
Defined.
