(* ===== verification/TicketLock.v ===== *)
(** * The ticket lock

    [TicketingLock] (linux/src/linux_hal_common.cpp), which serialises the
    access of the sending and the listening threads to a network interface.
    Each section between [pthread_mutex_lock] and [pthread_mutex_unlock] (or
    [pthread_cond_wait]) is one atomic step; threads interleave between
    steps in any order. *)

From Stdlib Require Import ZArith Lia.
From stdpp Require Import base gmap list relations.
From S2P Require Import Prelude.

(** ** The lock

    The members of the class, the threads that wait on its condition, with
    their tickets, in the order of their arrival, and the threads that hold
    the lock. *)
Record TicketingLock := mkTicketingLock {
  init_flag : bool;
  cond_ticket_issue : Z;     (* uint8_t *)
  cond_ticket_serving : Z;   (* uint8_t *)
  waiting : list (nat * Z);
  holders : list nat;
}.
#[export] Instance eta_TicketingLock : Settable TicketingLock := fun l =>
  mkTicketingLock (init_flag l) (cond_ticket_issue l) (cond_ticket_serving l) (waiting l) (holders l).

(** What a call of [lock] comes to. *)
Inductive Outcome := NotInitialised | Acquired | Refused | Blocked.

(** The constructor and [init]. *)
Definition TicketingLock_new (garbage : Z) : TicketingLock :=
  mkTicketingLock false (u8 garbage) (u8 garbage) [] [].
Definition init (l : TicketingLock) : bool * TicketingLock :=
  if init_flag l then (false, l)
  else (true, l <| cond_ticket_issue := 0 |> <| cond_ticket_serving := 0 |> <| init_flag := true |>).

(** [lock( got )] by the thread [t] up to its return or its first wait; [try]
    when [got] is not null. *)
Definition lock (try : bool) (t : nat) (l : TicketingLock) : Outcome * TicketingLock :=
  if negb (init_flag l) then (NotInitialised, l)
  else
    let ticket := cond_ticket_issue l in
    let l := l <| cond_ticket_issue := u8 (cond_ticket_issue l + 1) |> in
    if ticket =? cond_ticket_serving l then (Acquired, l <| holders := t :: holders l |>)
    else if try then (Refused, l <| cond_ticket_issue := u8 (cond_ticket_issue l - 1) |>)
    else (Blocked, l <| waiting := waiting l ++ [(t, ticket)] |>).

Fixpoint ticket_of (t : nat) (ws : list (nat * Z)) : option Z :=
  match ws with
  | [] => None
  | (t', k) :: ws' => if (t =? t')%nat then Some k else ticket_of t ws'
  end.

(** A waiting thread is woken, by the broadcast or spuriously, and looks at its
    ticket. *)
Definition wake (t : nat) (l : TicketingLock) : TicketingLock :=
  match ticket_of t (waiting l) with
  | Some k =>
      if k =? cond_ticket_serving l
      then l <| waiting := List.filter (fun w => negb (w.1 =? t)%nat) (waiting l) |>
             <| holders := t :: holders l |>
      else l
  | None => l
  end.

(** [unlock()]: nothing checks who calls it. *)
Definition unlock (t : nat) (l : TicketingLock) : bool * TicketingLock :=
  if negb (init_flag l) then (false, l)
  else (true, l <| cond_ticket_serving := u8 (cond_ticket_serving l + 1) |>
                <| holders := List.filter (fun h => negb (h =? t)%nat) (holders l) |>).

(** ** Threads that use it

    [n] threads, each of which locks when it neither holds the lock nor waits
    for it, and unlocks when it holds it. *)
Definition busy (t : nat) (l : TicketingLock) : Prop := t ∈ holders l \/ t ∈ (waiting l).*1.

#[export] Instance busy_dec t l : Decision (busy t l).
Proof. unfold busy. apply _. Defined.

Inductive step (n : nat) : relation TicketingLock :=
  | step_lock try t l : (t < n)%nat -> ~ busy t l -> step n l (lock try t l).2
  | step_wake t l : t ∈ (waiting l).*1 -> step n l (wake t l)
  | step_unlock t l : t ∈ holders l -> step n l (unlock t l).2.

Definition initial (l : TicketingLock) : Prop := exists g, l = (init (TicketingLock_new g)).2.
Definition reachable (n : nat) (l : TicketingLock) : Prop :=
  exists l0, initial l0 /\ rtc (step n) l0 l.

(** ** The invariant

    At most one holder; the waiting threads have consecutive tickets, in the
    order of their arrival, the first of them the next to be served; the next
    ticket is the one after. *)
Definition tickets (first : Z) (n : nat) : list Z := map (fun i => u8 (first + Z.of_nat i)) (seq 0 n).
Arguments tickets : simpl never.

Record lock_inv (n : nat) (l : TicketingLock) : Prop := {
  li_init : init_flag l = true;
  li_holder : (length (holders l) <= 1)%nat;
  li_serving : 0 <= cond_ticket_serving l < 256;
  li_tickets : (waiting l).*2 =
    tickets (cond_ticket_serving l + Z.of_nat (length (holders l))) (length (waiting l));
  li_issue : cond_ticket_issue l =
    u8 (cond_ticket_serving l + Z.of_nat (length (holders l) + length (waiting l)));
  li_nodup : NoDup (holders l ++ (waiting l).*1);
  li_threads t : busy t l -> (t < n)%nat;
}.

Lemma tickets_S first n : tickets first (S n) = u8 first :: tickets (first + 1) n.
Proof.
  unfold tickets. cbn. f_equal; [f_equal; lia|]. rewrite <- seq_shift, map_map.
  apply map_ext. intros i. f_equal. lia.
Qed.
Lemma tickets_snoc first n : tickets first (S n) = tickets first n ++ [u8 (first + Z.of_nat n)].
Proof. unfold tickets. by rewrite seq_S, map_app. Qed.
Lemma length_tickets first n : length (tickets first n) = n.
Proof. unfold tickets. by rewrite length_map, length_seq. Qed.
Lemma tickets_wrap first n : tickets (u8 first) n = tickets first n.
Proof. unfold tickets. apply map_ext. intros i. unfold u8, uwrap. by rewrite Zplus_mod_idemp_l. Qed.
Lemma lookup_tickets first n i : (i < n)%nat -> tickets first n !! i = Some (u8 (first + Z.of_nat i)).
Proof.
  intros Hi. unfold tickets. rewrite list_lookup_fmap, lookup_seq_lt by done. done.
Qed.

Lemma inv_count n l : lock_inv n l -> (length (holders l) + length (waiting l) <= n)%nat.
Proof.
  intros I. rewrite <- (length_fmap fst (waiting l)), <- length_app, <- (length_seq n 0).
  apply submseteq_length, NoDup_submseteq; [apply (li_nodup _ _ I)|].
  intros t [H|H]%elem_of_app; apply elem_of_seq; pose proof (li_threads _ _ I t); unfold busy in *;
    intuition lia.
Qed.

(** The next ticket is the one being served only when the lock is free. *)
Lemma issue_serving n l : (n < 256)%nat -> lock_inv n l ->
  (cond_ticket_issue l =? cond_ticket_serving l) = true <-> holders l = [] /\ waiting l = [].
Proof.
  intros Hn I. pose proof (inv_count _ _ I) as Hc. rewrite Z.eqb_eq, (li_issue _ _ I).
  pose proof (li_serving _ _ I) as Hs. unfold u8, uwrap. split.
  - intros He. assert (length (holders l) + length (waiting l) = 0)%nat as H0.
    { change (2 ^ 8) with 256 in He.
      destruct (Z_lt_le_dec (cond_ticket_serving l + Z.of_nat (length (holders l) + length (waiting l))) 256).
      - rewrite Z.mod_small in He by lia. lia.
      - rewrite <- (Z.mod_add _ (-1)), Z.mod_small in He by lia. lia. }
    split; apply nil_length_inv; lia.
  - intros [-> ->]. cbn. rewrite Z.add_0_r. by apply Z.mod_small.
Qed.

Lemma ticket_of_lookup t ws : NoDup ws.*1 -> t ∈ ws.*1 ->
  exists i k, ws !! i = Some (t, k) /\ ticket_of t ws = Some k.
Proof.
  induction ws as [|[t' k'] ws IH]; cbn; intros Hnd Hin; [by apply elem_of_nil in Hin|].
  apply NoDup_cons in Hnd as [Hn Hnd]. destruct (Nat.eqb_spec t t') as [->|Hne].
  - by exists 0%nat, k'.
  - apply elem_of_cons in Hin as [|Hin]; [done|].
    destruct (IH Hnd Hin) as (i & k & Hi & Hk). by exists (S i), k.
Qed.

Lemma filter_absent (t : nat) (ws : list (nat * Z)) : t ∉ ws.*1 ->
  List.filter (fun w => negb (w.1 =? t)%nat) ws = ws.
Proof.
  induction ws as [|[t' k] ws IH]; cbn; [done|]. rewrite not_elem_of_cons. intros [Hne Hn].
  destruct (Nat.eqb_spec t' t) as [->|]; [done|]. cbn. by rewrite IH.
Qed.

Lemma holder_only n l t : lock_inv n l -> t ∈ holders l -> holders l = [t].
Proof.
  intros I Ht. pose proof (li_holder _ _ I). destruct (holders l) as [|h [|]]; cbn in *;
    [by apply elem_of_nil in Ht|by apply list_elem_of_singleton in Ht as ->|lia].
Qed.

(** A woken thread goes on exactly when the lock is free and no thread has
    waited longer. *)
Lemma wake_cases n l t : (n < 256)%nat -> lock_inv n l -> t ∈ (waiting l).*1 ->
  (exists ws k, holders l = [] /\ waiting l = (t, k) :: ws /\
     wake t l = l <| waiting := ws |> <| holders := [t] |>) \/
  (wake t l = l /\ ~ (holders l = [] /\ head (waiting l).*1 = Some t)).
Proof.
  intros Hn I Ht. pose proof (inv_count _ _ I) as Hc. pose proof (li_serving _ _ I) as Hs.
  pose proof (li_nodup _ _ I) as (_ & _ & Hnd)%NoDup_app.
  destruct (ticket_of_lookup t (waiting l) Hnd Ht) as (i & k & Hi & Hk).
  pose proof (lookup_lt_Some _ _ _ Hi) as Hlt.
  assert (Hki : k = u8 (cond_ticket_serving l + Z.of_nat (length (holders l)) + Z.of_nat i)).
  { pose proof (li_tickets _ _ I) as Hti. apply (f_equal (fun x => x !! i)) in Hti.
    rewrite list_lookup_fmap, Hi, lookup_tickets in Hti by done. by injection Hti. }
  unfold wake. rewrite Hk. destruct (k =? cond_ticket_serving l) eqn:He.
  - left. apply Z.eqb_eq in He. rewrite He in Hki. unfold u8, uwrap in Hki. change (2 ^ 8) with 256 in Hki.
    assert (length (holders l) + i = 0)%nat as H0.
    { set (j := Z.of_nat (length (holders l)) + Z.of_nat i) in *.
      assert (0 <= j < 256) by lia. rewrite <- Z.add_assoc in Hki. fold j in Hki.
      destruct (Z_lt_le_dec (cond_ticket_serving l + j) 256).
      - rewrite Z.mod_small in Hki by lia. lia.
      - rewrite <- (Z.mod_add _ (-1)), Z.mod_small in Hki by lia. lia. }
    assert (i = 0)%nat as -> by lia. assert (holders l = []) as H1 by (apply nil_length_inv; lia).
    destruct (waiting l) as [|[t' k'] ws] eqn:Ew; [done|]. injection Hi as -> ->.
    exists ws, k. split; [done|]. split; [done|]. cbn. rewrite Nat.eqb_refl, H1. cbn.
    apply NoDup_cons in Hnd as [Hnot _]. by rewrite filter_absent.
  - right. split; [done|]. intros [H1 H2].
    destruct (waiting l) as [|[t' k'] ws] eqn:Ew; [done|]. injection H2 as ->.
    assert (k' = k) as -> by (cbn in Hk; rewrite Nat.eqb_refl in Hk; by injection Hk).
    apply Z.eqb_neq in He. apply He. pose proof (li_tickets _ _ I) as Hti.
    rewrite Ew, H1 in Hti. cbn [length] in Hti. rewrite tickets_S in Hti. injection Hti as -> _.
    cbn. rewrite Z.add_0_r. by apply Z.mod_small.
Qed.

Lemma inv_lock n l try t : (n < 256)%nat -> lock_inv n l -> (t < n)%nat -> ~ busy t l ->
  lock_inv n (lock try t l).2.
Proof.
  intros Hn I Ht Hb. pose proof (issue_serving _ _ Hn I) as Hfree.
  pose proof (li_serving _ _ I) as Hs. unfold lock. rewrite (li_init _ _ I). cbn.
  destruct (cond_ticket_issue l =? cond_ticket_serving l) eqn:E.
  - destruct (proj1 Hfree eq_refl) as [Hh Hw]. pose proof (li_issue _ _ I) as Hi.
    rewrite Hh, Hw in Hi. cbn in Hi. rewrite Z.add_0_r in Hi.
    destruct I as [I1 I2 I3 I4 I5 I6 I7]. constructor; cbn; rewrite ?Hh, ?Hw; cbn; try done.
    + by apply Z.eqb_eq in E as ->.
    + apply NoDup_singleton.
    + intros t'. unfold busy. cbn. rewrite ?Hh, ?Hw. cbn. rewrite elem_of_nil, list_elem_of_singleton.
      by intros [->|[]].
  - destruct try; cbn [snd].
    + assert (Hsame : u8 (u8 (cond_ticket_issue l + 1) - 1) = cond_ticket_issue l).
      { rewrite (li_issue _ _ I). unfold u8, uwrap.
        rewrite Zminus_mod_idemp_l, Z.add_simpl_r. by apply Z.mod_mod. }
      destruct I as [I1 I2 I3 I4 I5 I6 I7]. constructor; cbn; rewrite ?Hsame; try done.
    + destruct I as [I1 I2 I3 I4 I5 I6 I7]. constructor; cbn; try done.
      * rewrite fmap_app, I4, length_app. cbn. rewrite Nat.add_1_r, tickets_snoc. f_equal.
        rewrite I5. do 2 f_equal. lia.
      * rewrite I5, length_app. unfold u8, uwrap. rewrite Zplus_mod_idemp_l. f_equal. cbn. lia.
      * rewrite fmap_app, app_assoc. apply NoDup_app. split; [done|]. split; [|apply NoDup_singleton].
        intros t' Hin ->%list_elem_of_singleton. apply Hb. by apply elem_of_app in Hin.
      * intros t'. unfold busy. cbn. rewrite fmap_app, elem_of_app. cbn.
        intros [H|[H|H%list_elem_of_singleton]]; [apply I7; by left|apply I7; by right|by subst].
Qed.

Lemma inv_wake n l t : (n < 256)%nat -> lock_inv n l -> t ∈ (waiting l).*1 -> lock_inv n (wake t l).
Proof.
  intros Hn I Ht. destruct (wake_cases _ _ _ Hn I Ht) as [(ws & k & Hh & Hw & ->)|[-> _]]; [|done].
  destruct I as [I1 I2 I3 I4 I5 I6 I7]. rewrite Hh, Hw in *. cbn [length fmap list_fmap] in I4, I5, I6.
  rewrite tickets_S in I4. injection I4 as _ I4.
  constructor; cbn; try done.
  - cbn in I4. by rewrite Z.add_0_r in I4.
  - intros t'. unfold busy. cbn. intros H. apply I7. unfold busy. rewrite Hh, Hw. cbn.
    rewrite elem_of_cons. destruct H as [H|H]; [apply list_elem_of_singleton in H|]; auto.
Qed.

Lemma inv_unlock n l t : lock_inv n l -> t ∈ holders l -> lock_inv n (unlock t l).2.
Proof.
  intros I Ht. pose proof (holder_only _ _ _ I Ht) as Hh. unfold unlock. rewrite (li_init _ _ I). cbn.
  destruct I as [I1 I2 I3 I4 I5 I6 I7]. rewrite Hh in *. cbn in *. rewrite Nat.eqb_refl. cbn.
  apply NoDup_cons in I6 as [_ I6]. constructor; cbn; try done; [lia|..].
  - unfold u8, uwrap. apply Z.mod_pos_bound. lia.
  - by rewrite Z.add_0_r, tickets_wrap.
  - rewrite I5. unfold u8, uwrap. rewrite Zplus_mod_idemp_l. f_equal. lia.
  - intros t' [H|H]; [by apply elem_of_nil in H|]. apply I7. by right.
Qed.

Lemma inv_reachable n l : (n < 256)%nat -> reachable n l -> lock_inv n l.
Proof.
  intros Hn (l0 & (g & ->) & Hr).
  assert (I0 : lock_inv n (init (TicketingLock_new g)).2).
  { constructor; cbn; try done; [lia|constructor|]. by intros t [[]%elem_of_nil|[]%elem_of_nil]. }
  revert I0. induction Hr as [l|l l1 l2 Hs _ IH]; [done|]. intros I. apply IH.
  destruct Hs; eauto using inv_lock, inv_wake, inv_unlock.
Qed.

(** ** Theorems *)

(** C27: mutual exclusion and fairness.  With fewer than 256 threads, however
    they interleave: at most one holds the lock; a thread obtains it at once
    exactly when nobody holds it or waits for it; otherwise a call that may not
    wait is refused and changes nothing, and one that may joins the end of the
    queue; and a waiting thread that is woken goes on exactly when the lock is
    free and it is the one that has waited longest. *)
Theorem ticket_lock_exclusion n l : (n < 256)%nat -> reachable n l ->
  (length (holders l) <= 1)%nat /\
  (forall try t, (t < n)%nat -> ~ busy t l ->
   match (lock try t l).1 with
   | Acquired => holders l = [] /\ waiting l = []
   | Refused => try = true /\ ~ (holders l = [] /\ waiting l = []) /\ (lock try t l).2 = l
   | Blocked => try = false /\ ~ (holders l = [] /\ waiting l = []) /\
       (waiting (lock try t l).2).*1 = (waiting l).*1 ++ [t]
   | NotInitialised => False
   end) /\
  (forall t, t ∈ (waiting l).*1 ->
   holders (wake t l) = t :: holders l <-> holders l = [] /\ head (waiting l).*1 = Some t).
Proof.
  intros Hn Hr. pose proof (inv_reachable _ _ Hn Hr) as I. split; [apply (li_holder _ _ I)|]. split.
  - intros try t Ht Hb. pose proof (issue_serving _ _ Hn I) as Hfree.
    unfold lock. rewrite (li_init _ _ I). cbn.
    destruct (cond_ticket_issue l =? cond_ticket_serving l); cbn; [by apply Hfree|].
    assert (Hbusy : ~ (holders l = [] /\ waiting l = [])) by (intros H; by apply Hfree in H).
    destruct try; cbn; split; [done| |done|]; (split; [done|]).
    + rewrite (li_issue _ _ I) at 1. unfold u8, uwrap.
      rewrite Zplus_mod_idemp_l, Zminus_mod_idemp_l, Z.add_simpl_r.
      pose proof (li_issue _ _ I) as Hi. unfold u8, uwrap in Hi. rewrite <- Hi. by destruct l.
    + by rewrite fmap_app.
  - intros t Ht. destruct (wake_cases _ _ _ Hn I Ht) as [(ws & k & Hh & Hw & ->)|[-> Hno]].
    + rewrite Hh, Hw. done.
    + split; [|done]. intros H. exfalso. apply (f_equal length) in H. cbn in H. lia.
Qed.

(** The holder unlocks, and the thread at the head of the queue is woken. *)
Definition handover (l : TicketingLock) : TicketingLock :=
  let l := match holders l with h :: _ => (unlock h l).2 | [] => l end in
  match waiting l with (t, _) :: _ => wake t l | [] => l end.

Lemma handover_spec n l t k ws : (n < 256)%nat -> lock_inv n l -> waiting l = (t, k) :: ws ->
  holders (handover l) = [t] /\ waiting (handover l) = ws /\ lock_inv n (handover l) /\
  rtc (step n) l (handover l).
Proof.
  intros Hn I Hw. unfold handover.
  assert (exists l1, match holders l with h :: _ => (unlock h l).2 | [] => l end = l1 /\
            lock_inv n l1 /\ holders l1 = [] /\ waiting l1 = waiting l /\ rtc (step n) l l1)
    as (l1 & -> & I1 & H1 & W1 & S1).
  { destruct (holders l) as [|h hs] eqn:Hh; [by exists l|].
    assert (Hin : h ∈ holders l) by (rewrite Hh; left).
    exists (unlock h l).2. split; [done|]. split; [by apply inv_unlock|].
    split; [|split; [|by apply rtc_once; constructor]].
    - unfold unlock. rewrite (li_init _ _ I), (holder_only _ _ _ I Hin). cbn. by rewrite Nat.eqb_refl.
    - unfold unlock. by rewrite (li_init _ _ I). }
  rewrite W1, Hw. assert (Hin : t ∈ (waiting l1).*1) by (rewrite W1, Hw; left).
  destruct (wake_cases _ _ _ Hn I1 Hin) as [(ws' & k' & _ & Hw' & Hk)|[_ Hno]].
  - pose proof (inv_wake _ _ _ Hn I1 Hin) as I2. rewrite W1, Hw in Hw'. injection Hw' as <- <-.
    rewrite Hk in *. split; [done|]. split; [done|]. split; [done|].
    eapply rtc_r; [exact S1|]. rewrite <- Hk. by constructor.
  - exfalso. apply Hno. split; [done|]. by rewrite W1, Hw.
Qed.


(** Threads [0] to [n - 1] call [lock]. *)
Definition all_lock (n : nat) (l : TicketingLock) : TicketingLock :=
  fold_left (fun l t => (lock false t l).2) (seq 0 n) l.

(** The bound on the number of threads is sharp: with 257 of them the 8-bit
    ticket of the last is the one being served, and two threads hold the lock. *)
Theorem ticket_lock_overflow :
  holders (all_lock 257 (init (TicketingLock_new 0)).2) = [256%nat; 0%nat] /\
  holders (all_lock 256 (init (TicketingLock_new 0)).2) = [0%nat].
Proof. split; vm_compute; reflexivity. Qed.

Definition three : TicketingLock := all_lock 3 (init (TicketingLock_new 7)).2.
Lemma three_reachable : reachable 3 three.
Proof.
  exists (init (TicketingLock_new 7)).2. split; [by exists 7|].
  unfold three, all_lock. cbn [seq fold_left].
  eapply rtc_l; [apply (step_lock 3 false 0); [lia|]|].
  2: eapply rtc_l; [apply (step_lock 3 false 1); [lia|]|].
  3: eapply rtc_l; [apply (step_lock 3 false 2); [lia|]|reflexivity].
  all: by refine (bool_decide_unpack _ _); vm_compute.
Qed.

Lemma ticket_lock_exclusion_witness :
  (length (holders three) <= 1)%nat /\ holders (wake 2 three) <> [2%nat; 0%nat].
Proof.
  destruct (ticket_lock_exclusion 3 three) as (A & _ & B); [lia|apply three_reachable|].
  split; [exact A|]. intros H.
  assert (Hin : 2%nat ∈ (waiting three).*1) by (vm_compute; right; left).
  by apply (B 2%nat Hin) in H as [H _].
Defined.

