(* ===== verification/Ownership.v ===== *)
(** * Ownership of messages

    What a handler may do to the heap.  The state is abstracted to the class
    and the collection flag of every allocated message, and to the pointers
    that the ports keep; [spec T P m R] runs [m] from a world with the abstract
    state [(T, P)]: it ends in one that satisfies [R], or in a fault that is not
    a memory fault.  Most operations leave the abstract state alone
    ([silent]).  HeapSafety.v builds the handlers on these rules. *)

From Stdlib Require Import ZArith Lia.
From Stdlib.Floats Require Import SpecFloat.
From stdpp Require Import base gmap list.
From S2P Require Import Prelude Timestamp CFloat Identity Message Wire World Loops Clock Port Media Ether Servo Transmit PDelay Sync CommonPort Receive Wireless Dispatch.

(** ** The abstract state *)

(** The pointers an Ethernet port keeps, and those every port keeps. *)
Record EthPtrs := mkEthPtrs {
  ep_req : option nat; ep_resp : option nat; ep_fup : option nat; ep_sync : option nat;
}.
Record PtrPart := mkPtrPart { pp_annc : option nat; pp_eth : option EthPtrs }.

Definition eth_ptrs (e : EtherPart) : EthPtrs :=
  mkEthPtrs (last_pdelay_req e) (last_pdelay_resp e) (last_pdelay_resp_fwup e) (last_sync e).
Definition ptr_part (x : Port) : PtrPart :=
  mkPtrPart (qualified_announce x)
    (match media x with Ether e => Some (eth_ptrs e) | Wireless _ => None end).

Abbreviation heap_type := (gmap nat (MessageType * bool)).

Definition msg_type (m : Message) : MessageType * bool := (messageType m, _gc m).
Definition types (w : World) : heap_type := msg_type <$> heap w.
Definition ptrs (w : World) : list PtrPart := ptr_part <$> ports w.

(** A port has the timestamper of its medium. *)
Definition equipped (x : Port) : Prop :=
  match media x with
  | Ether _ => _hw_timestamper x = EtherTs
  | Wireless _ => _hw_timestamper x = WirelessTs
  end.

(** [n] ports, to which the timers and the clock's list refer. *)
Record good (n : nat) (w : World) : Prop := {
  gd_ports : length (ports w) = n;
  gd_list p : Some p ∈ port_list (clk w) -> (p < n)%nat;
  gd_timers : Forall (fun t => (tm_port t < n)%nat) (timers w);
  gd_equipped : Forall equipped (ports w);
  gd_fresh q : is_Some (heap w !! q) -> (q < next_ptr w)%nat;
}.

(** A fault that is not a use of a null or dangling pointer. *)
Definition mild (f : fault) : Prop :=
  match f with NullPointer | DanglingPointer => False | _ => True end.

(** ** Specifications *)

Section Spec.
Context {n : nat}.

Definition spec {A} (T : heap_type) (P : list PtrPart) (m : D A)
    (R : A -> heap_type -> list PtrPart -> Prop) : Prop :=
  forall w, good n w -> types w = T -> ptrs w = P ->
  match m w with
  | Done a w' => good n w' /\ R a (types w') (ptrs w')
  | Fault f => mild f
  end.

(** The abstract state stays; the value satisfies [V]. *)
Definition silent_val {A} T P (m : D A) (V : A -> Prop) : Prop :=
  spec T P m (fun a T' P' => T' = T /\ P' = P /\ V a).
Definition silent {A} T P (m : D A) : Prop := silent_val T P m (fun _ => True).

Lemma spec_bind {A B} T P (m : D A) (k : A -> D B) R1 R :
  spec T P m R1 -> (forall a T1 P1, R1 a T1 P1 -> spec T1 P1 (k a) R) -> spec T P (m ≫= k) R.
Proof.
  intros Hm Hk w G HT HP. unfold mbind, M_bind. specialize (Hm w G HT HP).
  destruct (m w) as [a w1|f]; [|done]. destruct Hm as [G1 H1]. by apply (Hk _ _ _ H1).
Qed.
Lemma spec_mono {A} T P (m : D A) R R' :
  spec T P m R -> (forall a T' P', R a T' P' -> R' a T' P') -> spec T P m R'.
Proof.
  intros Hm Hr w G HT HP. specialize (Hm w G HT HP). destruct (m w); [|done].
  destruct Hm as [? ?]. split; [done|auto].
Qed.
Lemma spec_ret {A} T P (a : A) (R : A -> heap_type -> list PtrPart -> Prop) :
  R a T P -> spec T P (mret a) R.
Proof. intros Hr w G <- <-. done. Qed.
Lemma spec_fail {A} T P f (R : A -> heap_type -> list PtrPart -> Prop) :
  mild f -> spec T P (fail f) R.
Proof. intros Hf w G _ _. done. Qed.
Lemma spec_from_option {A} T P f (o : option A) (R : A -> heap_type -> list PtrPart -> Prop) :
  mild f -> (forall a, o = Some a -> R a T P) -> spec T P (from_option f o) R.
Proof. intros Hf Hr. destruct o; [apply spec_ret; auto|by apply spec_fail]. Qed.

Lemma silent_val_bind {A B} T P (m : D A) (k : A -> D B) V R :
  silent_val T P m V -> (forall a, V a -> spec T P (k a) R) -> spec T P (m ≫= k) R.
Proof. intros Hm Hk. eapply spec_bind; [exact Hm|]. intros a T1 P1 (-> & -> & H). auto. Qed.
Lemma silent_bind {A B} T P (m : D A) (k : A -> D B) R :
  silent T P m -> (forall a, spec T P (k a) R) -> spec T P (m ≫= k) R.
Proof. intros Hm Hk. eapply silent_val_bind; [exact Hm|]. intros a _. apply Hk. Qed.
Lemma silent_seq {A B} T P (m : D A) (k : A -> D B) :
  silent T P m -> (forall a, silent T P (k a)) -> silent T P (m ≫= k).
Proof. exact (silent_bind T P m k _). Qed.
Lemma silent_seq_val {A B} T P (m : D A) (k : A -> D B) V :
  silent_val T P m V -> (forall a, V a -> silent T P (k a)) -> silent T P (m ≫= k).
Proof. exact (silent_val_bind T P m k V _). Qed.
Lemma silent_weaken {A} T P (m : D A) V : silent_val T P m V -> silent T P m.
Proof. intros Hm. eapply spec_mono; [exact Hm|]. intros a T' P' (-> & -> & _). done. Qed.
Lemma spec_silent {A} T P (m : D A) (R : A -> heap_type -> list PtrPart -> Prop) :
  silent T P m -> (forall a, R a T P) -> spec T P m R.
Proof. intros Hm Hr. eapply spec_mono; [exact Hm|]. intros a T' P' (-> & -> & _). auto. Qed.
Lemma spec_when T P (b : bool) (m : D unit) R :
  (b = true -> spec T P m R) -> (b = false -> R tt T P) -> spec T P (when b m) R.
Proof. intros H1 H2. destruct b; [auto|]. apply spec_ret. auto. Qed.
Lemma silent_when T P (b : bool) (m : D unit) :
  (b = true -> silent T P m) -> silent T P (when b m).
Proof. intros H1. apply spec_when; [done|]. done. Qed.
Lemma silent_ret {A} T P (a : A) : silent T P (mret a).
Proof. by apply spec_ret. Qed.
Lemma silent_fail {A} T P f : mild f -> silent T P (fail f : D A).
Proof. by apply spec_fail. Qed.
Lemma spec_from_option_val {A} T P f (o : option A) : mild f ->
  silent_val T P (from_option f o) (fun a => o = Some a).
Proof. intros Hf. by apply spec_from_option. Qed.
Lemma silent_from_option {A} T P f (o : option A) : mild f -> silent T P (from_option f o).
Proof. intros Hf. by apply spec_from_option. Qed.

(** ** Primitive operations *)

Lemma silent_gets {A} T P (f : World -> A) : silent T P (gets f).
Proof. intros w G <- <-. done. Qed.
Lemma silent_ask {A} T P (f : nat -> A) : silent T P (ask f).
Proof. intros w [] <- <-. split; [by constructor|done]. Qed.
Lemma silent_modify T P f :
  (forall w, good n w -> good n (f w)) ->
  (forall w, heap (f w) = heap w /\ ports (f w) = ports w) -> silent T P (modify f).
Proof.
  intros Hg Hf w G <- <-. split; [by apply Hg|]. destruct (Hf w) as [E1 E2].
  unfold types, ptrs. by rewrite E1, E2.
Qed.
Lemma silent_mod_clock T P f :
  (forall c, port_list (f c) = port_list c) -> silent T P (mod_clock f).
Proof.
  intros Hf. apply silent_modify; [|done]. intros w []. constructor; cbn; try done. by rewrite Hf.
Qed.
Lemma silent_emit T P e : silent T P (emit e).
Proof. apply silent_modify; [|done]. intros w []. by constructor. Qed.
Lemma silent_get_clock T P : silent T P get_clock.
Proof. apply silent_gets. Qed.

Lemma spec_get_clock T P :
  silent_val T P get_clock (fun c => forall p, Some p ∈ port_list c -> (p < n)%nat).
Proof. intros w G <- <-. split; [done|]. split; [done|]. split; [done|]. apply (gd_list _ _ G). Qed.

(** A port: its pointers are those of the abstract state. *)
Lemma spec_get_port T P p : (p < n)%nat ->
  silent_val T P (get_port p) (fun x => P !! p = Some (ptr_part x) /\ equipped x).
Proof.
  intros Hp w G <- <-. unfold get_port. pose proof (gd_ports _ _ G).
  destruct (lookup_lt_is_Some_2 (ports w) p ltac:(lia)) as [x Hx]. rewrite Hx.
  split; [done|]. split; [done|]. split; [done|]. split.
  - unfold ptrs. by rewrite list_lookup_fmap, Hx.
  - pose proof (gd_equipped _ _ G) as He. rewrite Forall_lookup in He. eauto.
Qed.
Lemma silent_get_port T P p : (p < n)%nat -> silent T P (get_port p).
Proof. intros Hp. eapply silent_weaken, spec_get_port. done. Qed.

(** A port is updated. *)
Lemma spec_mod_port T P p f (g : PtrPart -> PtrPart) : (p < n)%nat ->
  (forall x, equipped x -> equipped (f x)) -> (forall x, ptr_part (f x) = g (ptr_part x)) ->
  spec T P (mod_port p f) (fun _ T' P' => T' = T /\ P' = alter g p P).
Proof.
  intros Hp He Hg w G <- <-. unfold mod_port. destruct G as [G1 G2 G3 G4 G5].
  destruct (lookup_lt_is_Some_2 (ports w) p ltac:(lia)) as [x Hx]. rewrite Hx.
  split; [constructor; cbn|split; [done|]].
  - by rewrite length_insert.
  - done.
  - done.
  - apply Forall_insert; [done|]. apply He. rewrite Forall_lookup in G4. eauto.
  - done.
  - unfold ptrs. cbn. apply list_eq. intros i. rewrite list_lookup_fmap.
    destruct (decide (i = p)) as [->|Hne].
    + rewrite list_lookup_insert_eq by lia. rewrite list_lookup_alter_eq, list_lookup_fmap, Hx. cbn. by rewrite Hg.
    + rewrite list_lookup_insert_ne, list_lookup_alter_ne, list_lookup_fmap by done. done.
Qed.
Lemma silent_mod_port T P p f : (p < n)%nat ->
  (forall x, ptr_part (f x) = ptr_part x /\ (equipped x -> equipped (f x))) ->
  silent T P (mod_port p f).
Proof.
  intros Hp Hf. eapply spec_mono; [apply (spec_mod_port _ _ _ _ (fun x => x)); [done|..]|].
  - intros x. apply Hf.
  - intros x. apply Hf.
  - intros [] T' P' [-> ->]. split; [done|]. split; [|done]. by rewrite list_alter_id.
Qed.

(** Messages. *)
Lemma spec_new_msg T P m :
  spec T P (new_msg m) (fun q T' P' => T !! q = None /\ T' = <[q := msg_type m]> T /\ P' = P).
Proof.
  intros w G <- <-. unfold new_msg. split; [|split; [|split; [|done]]].
  - destruct G as [G1 G2 G3 G4 G5]. constructor; cbn; try done.
    intros q [<-|[_ H%G5]]%lookup_insert_is_Some; lia.
  - unfold types. rewrite lookup_fmap. destruct (heap w !! next_ptr w) eqn:E; [|done].
    pose proof (gd_fresh _ _ G (next_ptr w) ltac:(by rewrite E)). lia.
  - unfold types. cbn. by rewrite fmap_insert.
Qed.
Lemma spec_get_msg T P q c : T !! q = Some c ->
  silent_val T P (get_msg q) (fun m => msg_type m = c).
Proof.
  intros Hc w G <- <-. unfold get_msg. unfold types in Hc. rewrite lookup_fmap in Hc.
  destruct (heap w !! q); [|done]. injection Hc as <-. done.
Qed.
Lemma silent_get_msg T P q c : T !! q = Some c -> silent T P (get_msg q).
Proof. intros Hc. by eapply silent_weaken, spec_get_msg. Qed.
Lemma spec_mod_msg T P q f c c' : T !! q = Some c ->
  (forall m, msg_type m = c -> msg_type (f m) = c') ->
  spec T P (mod_msg q f) (fun _ T' P' => T' = <[q := c']> T /\ P' = P).
Proof.
  intros Hc Hf w G <- <-. unfold mod_msg. unfold types in Hc. rewrite lookup_fmap in Hc.
  destruct (heap w !! q) as [m|] eqn:E; [|done]. injection Hc as Hc. split; [|split; [|done]].
  - destruct G as [G1 G2 G3 G4 G5]. constructor; cbn; try done.
    intros q' [<-|[_ H]]%lookup_insert_is_Some; eauto.
  - unfold types. cbn. rewrite fmap_insert. by rewrite (Hf m Hc).
Qed.
Lemma silent_mod_msg T P q f c : T !! q = Some c ->
  (forall m, msg_type m = c -> msg_type (f m) = c) -> silent T P (mod_msg q f).
Proof.
  intros Hc Hf. eapply spec_mono; [by eapply spec_mod_msg|]. intros [] T' P' [-> ->].
  by rewrite insert_id.
Qed.
Lemma spec_delete_msg T P q : is_Some (T !! q) ->
  spec T P (delete_msg q) (fun _ T' P' => T' = base.delete q T /\ P' = P).
Proof.
  intros [c Hc] w G <- <-. unfold delete_msg. unfold types in Hc. rewrite lookup_fmap in Hc.
  destruct (heap w !! q) as [m|] eqn:E; [|done]. split; [|split; [|done]].
  - destruct G as [G1 G2 G3 G4 G5]. constructor; cbn; try done.
    intros q' [_ H]%lookup_delete_is_Some; eauto.
  - unfold types. cbn. by rewrite fmap_delete.
Qed.

(** Locks and timers. *)
Context `{Env}.
Lemma silent_lock T P l : silent T P (lock l).
Proof.
  eapply silent_bind; [apply silent_ask|]. intros ok. eapply silent_bind; [|intros; apply silent_ret].
  apply silent_when. intros _. apply silent_modify; [|done]. intros w []. by constructor.
Qed.
Lemma silent_trylock T P l : silent T P (trylock l).
Proof.
  eapply silent_bind; [apply silent_ask|]. intros ok. eapply silent_bind; [|intros; apply silent_ret].
  apply silent_when. intros _. apply silent_modify; [|done]. intros w []. by constructor.
Qed.
Lemma silent_unlock T P l : silent T P (unlock l).
Proof.
  intros w G <- <-. unfold unlock. destruct (release l (held w)); [|done].
  split; [|done]. destruct G. by constructor.
Qed.
Lemma silent_cancelEvent T P e : silent T P (cancelEvent e).
Proof.
  apply silent_modify; [|done]. intros w []. constructor; cbn; try done.
  apply Forall_forall. intros t Ht%list_elem_of_In%filter_In. destruct Ht as [Ht%list_elem_of_In _].
  by eapply Forall_forall in gd_timers0.
Qed.
Lemma silent_addEventTimer T P p e ns : (p < n)%nat -> silent T P (addEventTimer p e ns).
Proof.
  intros Hp. apply silent_modify; [|done]. intros w []. constructor; cbn; try done.
  apply Forall_app. split; [done|]. by repeat constructor.
Qed.
End Spec.
Arguments spec n {A} T P m R.
Arguments silent n {A} T P m.
Arguments silent_val n {A} T P m V.

(** ** Automation *)

Definition is_eth (P : list PtrPart) (p : nat) : Prop := exists a e, P !! p = Some (mkPtrPart a (Some e)).
Definition is_wl (P : list PtrPart) (p : nat) : Prop := exists a, P !! p = Some (mkPtrPart a None).

Create HintDb silent discriminated.

(** [f] leaves a port's pointers and timestamper. *)
Ltac solve_mod_port :=
  let x := fresh "x" in let He := fresh "He" in
  intros x; unfold ptr_part, equipped, set_asCapable, inc_wrongSeqID, upd_ether; cbn;
  repeat (match goal with |- context [ if ?b then _ else _ ] =>
            lazymatch type of b with bool => destruct b end end; cbn);
  let Em := fresh "Em" in destruct (media x) eqn:Em; cbn; rewrite ?Em; cbn;
  repeat (match goal with |- context [ match ?b with _ => _ end ] => destruct b end; cbn);
  (split; [reflexivity|intros He; exact He]).
(** [f] leaves the class and the flag of a message. *)
Ltac solve_mod_msg :=
  let m := fresh "m" in let E := fresh "E" in
  intros m E; unfold msg_type, messageType in *; destruct m; cbn in *;
  repeat match goal with |- context [ match ?x with _ => _ end ] => destruct x; cbn in * end;
  first [ exact E | injection E as ? ?; subst; reflexivity ].

#[export] Hint Resolve silent_get_port silent_gets silent_ask silent_emit silent_get_clock silent_lock
  silent_trylock silent_unlock silent_cancelEvent silent_addEventTimer silent_get_msg : silent.
#[export] Hint Extern 1 (silent _ _ _ (mod_clock _)) =>
  apply silent_mod_clock; intros ?; reflexivity : silent.
#[export] Hint Extern 1 (silent _ _ _ (mod_port _ _)) =>
  apply silent_mod_port; [assumption|solve_mod_port] : silent.
#[export] Hint Extern 1 (silent _ _ _ (mod_msg _ _)) =>
  eapply silent_mod_msg; [eassumption|solve_mod_msg] : silent.
#[export] Hint Extern 1 (mild _) => exact I : silent.
#[export] Hint Extern 1 (_ < _)%nat => assumption : silent.

Ltac sil_unfold m :=
  let rec head t := lazymatch t with ?f _ => head f | _ => t end in
  let h := head m in unfold h.
(** [sil] walks a handler that leaves the abstract state alone. *)
Ltac sil :=
  repeat lazymatch goal with
  | |- silent _ _ _ (mret _) => apply silent_ret
  | |- silent _ _ _ (fail _) => apply silent_fail; exact I
  | |- silent _ _ _ (from_option _ _) => apply silent_from_option; exact I
  | |- silent _ _ _ (when _ _) => apply silent_when; intros ?
  | |- silent _ _ _ (if ?b then _ else _) => let E := fresh "E" in destruct b eqn:E
  | |- silent _ _ _ (match ?x with _ => _ end) => let E := fresh "E" in destruct x eqn:E
  | |- silent _ _ _ (let _ := _ in _) => cbv zeta
  | |- silent _ _ _ (_ ≫= _) => apply silent_seq; [|intros ?]
  | |- silent _ _ _ ?m => first [ solve [eauto 3 with silent] | progress sil_unfold m ]
  end.

(** ** The port's class, and loops *)

Section Media.
Context {n : nat} `{Env} {T : heap_type} {P : list PtrPart} {p : nat} (Hp : (p < n)%nat).

Lemma spec_by_media {A} (m1 m2 : D A) R :
  (is_eth P p -> spec n T P m1 R) -> (is_wl P p -> spec n T P m2 R) ->
  spec n T P (by_media p m1 m2) R.
Proof.
  intros H1 H2. eapply silent_val_bind; [by apply spec_get_port|]. intros x [Hx _].
  unfold ptr_part in Hx. destruct (media x); [apply H1|apply H2]; eexists; eauto.
Qed.
Lemma silent_as_ether : silent n T P (as_ether p).
Proof. sil. Qed.
(** The members of a port known to be an Ethernet port. *)
Lemma spec_as_ether : silent_val n T P (as_ether p) (fun o => match o with
  | Some e => exists a, P !! p = Some (mkPtrPart a (Some (eth_ptrs e)))
  | None => is_wl P p end).
Proof.
  eapply silent_val_bind; [by apply spec_get_port|]. intros x [Hx _]. apply spec_ret.
  split; [done|]. split; [done|]. unfold ptr_part in Hx. destruct (media x); by eexists.
Qed.
Lemma spec_get_ether : is_eth P p ->
  silent_val n T P (get_ether p) (fun e => exists a, P !! p = Some (mkPtrPart a (Some (eth_ptrs e)))).
Proof.
  intros (a & e0 & He). eapply silent_val_bind; [apply spec_as_ether|]. intros [e|].
  - intros Hx. apply spec_ret. done.
  - intros (a' & Hx). rewrite He in Hx. done.
Qed.
Lemma silent_get_ether : is_eth P p -> silent n T P (get_ether p).
Proof. intros He. by eapply silent_weaken, spec_get_ether. Qed.
Lemma silent_get_wireless : is_wl P p -> silent n T P (get_wireless p).
Proof.
  intros (a & Ha). eapply silent_val_bind; [by apply spec_get_port|]. intros x [Hx _].
  unfold ptr_part in Hx. rewrite Ha in Hx. destruct (media x); [done|]. apply silent_ret.
Qed.

Lemma skip_null_in j l r : skip_null j l = Some r -> Some r.2 ∈ l.
Proof.
  revert j. induction l as [|[q|] l IH]; intros j; cbn; [done|..].
  - intros [= <-]. left.
  - intros Hr. right. eauto.
Qed.

(** A loop over the ports whose body keeps an invariant of its value. *)
Lemma silent_for_ports {A B} k j (body : pid -> A -> D (A + B)) (V : A -> Prop) (W : B -> Prop) a :
  V a ->
  (forall p a, (p < n)%nat -> V a -> silent_val n T P (body p a)
     (fun r => match r with inl a => V a | inr b => W b end)) ->
  silent_val n T P (for_ports k j body a) (fun r => match r with inl a => V a | inr b => W b end).
Proof.
  intros Ha Hbody. revert j a Ha. induction k as [|k IH]; intros j a Ha; [by apply spec_ret|].
  cbn [for_ports]. eapply silent_val_bind; [apply spec_get_clock|]. intros c Hc.
  eapply silent_val_bind; [by apply spec_from_option_val|]. intros [j' p'] E.
  eapply silent_val_bind; [apply Hbody; [|exact Ha]|].
  { apply Hc. apply skip_null_in in E. apply list_elem_of_lookup in E as [i Ei].
    rewrite lookup_drop in Ei. by eapply list_elem_of_lookup_2. }
  intros [a'|b] Hr; [by apply IH|by apply spec_ret].
Qed.
End Media.
Lemma silent_by_media {n} `{Env} {A} T P p (m1 m2 : D A) : (p < n)%nat ->
  (is_eth P p -> silent n T P m1) -> (is_wl P p -> silent n T P m2) ->
  silent n T P (by_media p m1 m2).
Proof. intros Hp. by apply spec_by_media. Qed.
Lemma silent_loop {n} `{Env} {A B} T P k j (body : pid -> A -> D (A + B)) a :
  (forall p a, (p < n)%nat -> silent n T P (body p a)) -> silent n T P (for_ports k j body a).
Proof.
  intros Hb. eapply silent_weaken, (silent_for_ports _ _ _ (fun _ => True) (fun _ => True)); [done|].
  intros p' a' Hp' _. eapply spec_mono; [by apply Hb|]. intros [a1|b] T' P' (-> & -> & _); done.
Qed.
#[export] Hint Resolve silent_as_ether silent_get_ether silent_get_wireless : silent.
#[export] Hint Extern 1 (silent _ _ _ (mod_ether _ _)) =>
  apply silent_mod_port; [assumption|solve_mod_port] : silent.
