(* ===== verification/Silent.v ===== *)
(** * Operations that leave the messages alone

    The operations of the daemon that neither make, mark, delete nor move a
    message: the timers and locks, the hardware, sending, the transitions of a
    port, the servo, the requests of a signalling message.  Each is [silent] in
    the sense of Ownership.v. *)

From Stdlib Require Import ZArith Lia.
From Stdlib.Floats Require Import SpecFloat.
From stdpp Require Import base gmap list.
From S2P Require Import Prelude Timestamp CFloat Identity Message Wire World Loops Clock Port Media Ether Servo Transmit PDelay Sync CommonPort Receive Wireless Dispatch Ownership.

(** ** Timers, locks and hardware *)

Section Silent.
Context {n : nat} `{Env} {T : heap_type} {P : list PtrPart} {p : nat} (Hp : (p < n)%nat).

Lemma sil_addLocked e t : silent n T P (addEventTimerLocked p e t).
Proof. sil. Qed.
Lemma sil_deleteLocked e : silent n T P (deleteEventTimerLocked p e).
Proof. sil. Qed.
Lemma sil_updateFUPInfo : silent n T P updateFUPInfo.
Proof. sil. Qed.
Lemma sil_count f : silent n T P (count f p).
Proof. sil. Qed.
Lemma sil_getDeviceTime : silent n T P (getDeviceTime p).
Proof. sil. Qed.
Lemma sil_set_grandmaster id a b q : silent n T P (set_grandmaster id a b q).
Proof. apply silent_mod_clock. intros c. by destruct (cid_ne id (grandmaster_clock_identity c)). Qed.
Lemma sil_calcLocal t1 t2 : silent n T P (calcLocalSystemClockRateDifference t1 t2).
Proof.
  intros w [] <- <-. split; [|done]. constructor; try done. cbn. unfold calcLocalSystem.
  by destruct (negb _).
Qed.
Lemma sil_calcMaster t1 t2 : silent n T P (calcMasterLocalClockRateDifference t1 t2).
Proof.
  intros w [] <- <-. split; [|done]. constructor; try done. cbn. unfold calcMasterLocal.
  destruct (negb _); [done|]. by destruct (_ <? _).
Qed.
Hint Resolve sil_addLocked sil_deleteLocked sil_updateFUPInfo sil_count sil_getDeviceTime : silent.
Lemma sil_setLinkDelay d : silent n T P (setLinkDelay p d).
Proof. sil. Qed.
Lemma sil_startSyncReceiptTimer t : silent n T P (startSyncReceiptTimer p t).
Proof. sil. Qed.
Lemma sil_stopSyncReceiptTimer : silent n T P (stopSyncReceiptTimer p).
Proof. sil. Qed.
Lemma sil_startSyncIntervalTimer t : silent n T P (startSyncIntervalTimer p t).
Proof. sil. Qed.
Lemma sil_startAnnounceIntervalTimer t : silent n T P (startAnnounceIntervalTimer p t).
Proof. sil. Qed.
Lemma sil_send a t b l ts : silent n T P (send p a t b l ts).
Proof. sil. Qed.
Lemma sil_timestamper_reset : silent n T P (timestamper_reset p).
Proof. sil. Qed.
Lemma sil_eth_startPDelayIntervalTimer t : silent n T P (eth_startPDelayIntervalTimer p t).
Proof. sil. Qed.
End Silent.
#[export] Hint Resolve sil_addLocked sil_deleteLocked sil_updateFUPInfo sil_count sil_getDeviceTime
  sil_set_grandmaster sil_calcLocal sil_calcMaster sil_setLinkDelay sil_startSyncReceiptTimer
  sil_stopSyncReceiptTimer sil_startSyncIntervalTimer sil_startAnnounceIntervalTimer sil_send
  sil_timestamper_reset sil_eth_startPDelayIntervalTimer : silent.

(** Ethernet and wireless ports. *)
Section SilentPorts.
Context {n : nat} `{Env} {T : heap_type} {P : list PtrPart} {p : nat} (Hp : (p < n)%nat).

Lemma sil_port_send ty b l mc d ts : is_eth P p -> mc <> MCAST_NONE ->
  silent n T P (port_send p ty b l mc d ts).
Proof. intros He Hmc. destruct mc; [done|..]; sil. Qed.
Hint Resolve sil_port_send : silent.
Lemma sil_sendEventPort ty b l mc d : is_eth P p -> mc <> MCAST_NONE ->
  silent n T P (sendEventPort p ty b l mc d).
Proof. intros He Hmc. sil. Qed.
Lemma sil_eth_sendGeneralPort ty b l mc d : is_eth P p -> mc <> MCAST_NONE ->
  silent n T P (eth_sendGeneralPort p ty b l mc d).
Proof. intros He Hmc. sil. Qed.
Hint Resolve sil_sendEventPort sil_eth_sendGeneralPort : silent.
Lemma sil_send_test_status : is_eth P p -> silent n T P (send_test_status p).
Proof.
  intros He. sil. apply silent_modify; [|done]. intros w []. by constructor.
Qed.
Lemma sil_startPDelay : is_eth P p -> silent n T P (startPDelay p).
Proof. intros He. sil. Qed.
Lemma sil_stopPDelay : is_eth P p -> silent n T P (stopPDelay p).
Proof. intros He. sil. Qed.
Lemma sil_eth_becomeMaster b : silent n T P (eth_becomeMaster p b).
Proof. sil. Qed.
Lemma sil_eth_becomeSlave b : silent n T P (eth_becomeSlave p b).
Proof. sil. Qed.
Hint Resolve sil_send_test_status sil_startPDelay : silent.
Lemma sil_avb_sync_step : is_eth P p -> silent n T P (avb_sync_step p).
Proof. intros He. sil. Qed.
Hint Resolve sil_avb_sync_step : silent.
Lemma sil_eth_syncDone : is_eth P p -> silent n T P (eth_syncDone p).
Proof. intros He. sil. Qed.
Lemma sil_tx_retry i id mid r : silent n T P (tx_retry i p id mid r).
Proof. revert r. induction i as [|i IH]; intros r; cbn; sil. Qed.
Lemma sil_rx_retry i id mid r : silent n T P (rx_retry i p id mid r).
Proof. revert r. induction i as [|i IH]; intros r; cbn; sil. Qed.
Hint Resolve sil_tx_retry : silent.
Lemma sil_wl_sendGeneralPort ty b l mc d : is_wl P p -> silent n T P (wl_sendGeneralPort p ty b l mc d).
Proof. intros He. sil. Qed.
Lemma sil_wl_becomeSlave b : silent n T P (wl_becomeSlave p b).
Proof. sil. Qed.
Lemma sil_wl_becomeMaster b : silent n T P (wl_becomeMaster p b).
Proof. sil. Qed.
Lemma sil_setPrevDialog d : silent n T P (setPrevDialog p d).
Proof. sil. Qed.
Hint Resolve sil_setPrevDialog : silent.
Lemma sil_timingMeasurementConfirmCB d : is_wl P p -> silent n T P (timingMeasurementConfirmCB p d).
Proof. intros He. sil. Qed.
Lemma sil_requestTimingMeasurement a s d f l : silent n T P (requestTimingMeasurement p a s d f l).
Proof. sil. Qed.

(** A message whose class is known. *)
Lemma prepare_type m : msg_type (prepare m) = msg_type m.
Proof. unfold msg_type, messageType, prepare. by destruct (payload m) eqn:E; cbn; rewrite ?E. Qed.
Context {q : nat} {c : MessageType * bool} (Hq : T !! q = Some c).
Lemma sil_setPortIdentity id : silent n T P (setPortIdentity q id).
Proof. sil. Qed.
Lemma sil_setSequenceId s : silent n T P (setSequenceId q s).
Proof. sil. Qed.
Lemma sil_setTimestamp t : silent n T P (setTimestamp q t).
Proof. sil. Qed.
Lemma sil_build_frame : silent n T P (build_frame q).
Proof.
  eapply silent_seq; [eauto with silent|]. intros m. eapply silent_seq; [|intros ?; sil].
  eapply silent_mod_msg; [exact Hq|]. intros m' <-. apply prepare_type.
Qed.
Lemma sil_getTxTimestamp s : silent n T P (getTxTimestamp q p s).
Proof. sil. Qed.
End SilentPorts.
#[export] Hint Resolve sil_sendEventPort sil_eth_sendGeneralPort sil_send_test_status sil_startPDelay
  sil_stopPDelay sil_eth_becomeMaster sil_eth_becomeSlave sil_avb_sync_step sil_eth_syncDone
  sil_tx_retry sil_rx_retry sil_wl_sendGeneralPort sil_wl_becomeSlave sil_wl_becomeMaster
  sil_setPrevDialog sil_timingMeasurementConfirmCB sil_requestTimingMeasurement
  sil_setPortIdentity sil_setSequenceId sil_setTimestamp sil_build_frame sil_getTxTimestamp : silent.
#[export] Hint Extern 1 (_ <> MCAST_NONE) => discriminate : silent.

(** The virtual methods, the servo, the decisions. *)
Section SilentVirtual.
Context {n : nat} `{Env} {T : heap_type} {P : list PtrPart} {p : nat} (Hp : (p < n)%nat).

Lemma sil_m_becomeMaster b : silent n T P (m_becomeMaster p b).
Proof. apply silent_by_media; [done|intros _..]; sil. Qed.
Lemma sil_m_becomeSlave b : silent n T P (m_becomeSlave p b).
Proof. apply silent_by_media; [done|intros _..]; sil. Qed.
Lemma sil_m_getTxLock : silent n T P (m_getTxLock p).
Proof. apply silent_by_media; [done|intros _..]; sil. Qed.
Lemma sil_m_putTxLock : silent n T P (m_putTxLock p).
Proof. apply silent_by_media; [done|intros _..]; sil. Qed.
Lemma sil_m_syncDone : silent n T P (m_syncDone p).
Proof. apply silent_by_media; [done|intros ?..]; sil. Qed.
Lemma sil_m_sendGeneralPort ty b l mc d : mc <> MCAST_NONE ->
  silent n T P (m_sendGeneralPort p ty b l mc d).
Proof. intros Hmc. apply silent_by_media; [done|intros ?..]; sil. Qed.
Lemma sil_m_startPDelayIntervalTimer t : silent n T P (m_startPDelayIntervalTimer p t).
Proof. apply silent_by_media; [done|intros _..]; sil. Qed.
End SilentVirtual.
#[export] Hint Resolve sil_m_becomeMaster sil_m_becomeSlave sil_m_getTxLock sil_m_putTxLock
  sil_m_syncDone sil_m_sendGeneralPort sil_m_startPDelayIntervalTimer : silent.

Section SilentProtocol.
Context {n : nat} `{Env} {T : heap_type} {P : list PtrPart}.

Lemma sil_getTxLockAll : silent n T P getTxLockAll.
Proof. sil. apply silent_loop. intros p _ Hp. sil. Qed.
Lemma sil_putTxLockAll : silent n T P putTxLockAll.
Proof. sil. apply silent_loop. intros p _ Hp. sil. Qed.
Lemma sil_restartPDelayAll : silent n T P restartPDelayAll.
Proof. sil. apply silent_loop. intros p _ Hp. sil. Qed.
Hint Resolve sil_getTxLockAll sil_putTxLockAll sil_restartPDelayAll : silent.

Context {p : nat} (Hp : (p < n)%nat).
Lemma sil_steer o r : silent n T P (steer p o r).
Proof. sil. Qed.
Hint Resolve sil_steer : silent.
Lemma sil_phase_step o : silent n T P (phase_step p o).
Proof. sil. Qed.
Hint Resolve sil_phase_step : silent.
Lemma sil_setMasterOffset ms : silent n T P (setMasterOffset p ms).
Proof. sil. Qed.
Hint Resolve sil_setMasterOffset : silent.
Lemma sil_followup_slave a b c d e f : silent n T P (followup_slave p a b c d e f).
Proof. sil. Qed.
Hint Resolve sil_followup_slave : silent.
Lemma sil_followup_apply f o a : silent n T P (followup_apply p f o a).
Proof. sil. Qed.
Lemma sil_signalling_pdelay l : silent n T P (signalling_pdelay p l).
Proof. sil. Qed.
Lemma sil_signalling_sync l : silent n T P (signalling_sync p l).
Proof. sil. Qed.
Lemma sil_signalling_announce l : silent n T P (signalling_announce p l).
Proof. sil. Qed.
Lemma sil_recommendState s b : silent n T P (recommendState p s b).
Proof. sil. Qed.
Lemma sil_become_grandmaster : silent n T P become_grandmaster.
Proof. sil. Qed.
Lemma sil_update_link d t1 t2 : silent n T P (update_link p d t1 t2).
Proof. sil. Qed.
Lemma sil_check_duplicate m o : is_eth P p -> silent n T P (check_duplicate_response p m o).
Proof. intros He. sil. Qed.
Lemma sil_rx_timestamp id mid : silent n T P (rx_timestamp p id mid).
Proof. sil. Qed.
End SilentProtocol.
#[export] Hint Resolve sil_setMasterOffset sil_followup_apply sil_signalling_pdelay sil_signalling_sync
  sil_signalling_announce sil_recommendState sil_become_grandmaster sil_update_link
  sil_check_duplicate sil_rx_timestamp : silent.
