(* ===== verification/HeapSafety.v ===== *)
(** * Memory safety

    No run of the daemon uses a null or dangling pointer.  The invariant is an
    ownership of the messages: each pointer a port keeps is the only one to its
    message, which is allocated, of the right class, and not marked for
    collection.  Silent.v has the operations that leave the messages alone; here
    are those that move a message into a port or out of it, the handlers, and
    the runs of the daemon. *)

From Stdlib Require Import ZArith Lia.
From Stdlib.Floats Require Import SpecFloat.
From stdpp Require Import base gmap list.
From S2P Require Import Prelude Timestamp CFloat Identity Message Wire World Loops Clock Port Media Ether Servo Transmit PDelay Sync CommonPort Receive Wireless Dispatch Ownership Silent Fixture.


(** ** Ownership *)

(** The places where a port keeps a message, and the class kept there. *)
Inductive Place := Annc | Req | Resp | Fup | LastSync.
#[export] Instance Place_eq_dec : EqDecision Place.
Proof. solve_decision. Defined.

Definition class_of (f : Place) : MessageType :=
  match f with
  | Annc => ANNOUNCE_MESSAGE
  | Req => PATH_DELAY_REQ_MESSAGE
  | Resp => PATH_DELAY_RESP_MESSAGE
  | Fup => PATH_DELAY_FOLLOWUP_MESSAGE
  | LastSync => SYNC_MESSAGE
  end.

Definition eth_at (e : EthPtrs) (f : Place) : option nat :=
  match f with
  | Annc => None
  | Req => ep_req e
  | Resp => ep_resp e
  | Fup => ep_fup e
  | LastSync => ep_sync e
  end.
Definition part_at (x : PtrPart) (f : Place) : option nat :=
  match f with Annc => pp_annc x | _ => e ← pp_eth x; eth_at e f end.
Definition ptr_at (P : list PtrPart) (p : nat) (f : Place) : option nat := x ← P !! p; part_at x f.

(** A place is set to [o]. *)
Definition put_at (f : Place) (o : option nat) (x : PtrPart) : PtrPart :=
  match f, pp_eth x with
  | Annc, e => mkPtrPart o e
  | Req, Some e => mkPtrPart (pp_annc x) (Some (mkEthPtrs o (ep_resp e) (ep_fup e) (ep_sync e)))
  | Resp, Some e => mkPtrPart (pp_annc x) (Some (mkEthPtrs (ep_req e) o (ep_fup e) (ep_sync e)))
  | Fup, Some e => mkPtrPart (pp_annc x) (Some (mkEthPtrs (ep_req e) (ep_resp e) o (ep_sync e)))
  | LastSync, Some e => mkPtrPart (pp_annc x) (Some (mkEthPtrs (ep_req e) (ep_resp e) (ep_fup e) o))
  | _, None => x
  end.
Definition store (P : list PtrPart) (p : nat) (f : Place) (o : option nat) : list PtrPart :=
  alter (put_at f o) p P.

(** Each stored pointer is the only one to a message of its class, which is not
    marked for collection. *)
Record owned (T : heap_type) (P : list PtrPart) : Prop := {
  ow_live p f q : ptr_at P p f = Some q -> T !! q = Some (class_of f, false);
  ow_unique p f p' f' q : ptr_at P p f = Some q -> ptr_at P p' f' = Some q -> p = p' /\ f = f';
}.

Definition unstored (P : list PtrPart) (q : nat) : Prop := forall p f, ptr_at P p f <> Some q.
(** The heap without the message that a place held. *)
Definition without_old (T : heap_type) (o : option nat) : heap_type :=
  match o with Some q => base.delete q T | None => T end.

(** The place exists: it is the announcement, or the port is of Ethernet. *)
Definition has_place (P : list PtrPart) (p : nat) (f : Place) : Prop :=
  is_Some (P !! p) /\ (f = Annc \/ is_eth P p).

Section Owned.
Implicit Types (T : heap_type) (P : list PtrPart).

Lemma ptr_at_store P p f o p' f' : has_place P p f ->
  ptr_at (store P p f o) p' f' = if decide (p = p' /\ f = f') then o else ptr_at P p' f'.
Proof.
  intros [[x Hx] Hf]. unfold ptr_at, store. destruct (decide (p = p')) as [<-|Hne].
  - rewrite list_lookup_alter_eq, Hx. cbn. destruct Hf as [->|(a & e & He)].
    + destruct f'; cbn; first [rewrite decide_True by done; done|rewrite decide_False by (intros [_ [=]]); done].
    + rewrite Hx in He. injection He as ->.
      destruct f, f'; cbn; first [rewrite decide_True by done; done|rewrite decide_False by (intros [_ [=]]); done].
  - rewrite list_lookup_alter_ne by done. rewrite decide_False by (intros [? _]; done). done.
Qed.

Lemma is_eth_store P p f o p' : is_eth P p' -> is_eth (store P p f o) p'.
Proof.
  intros (a & e & He). unfold is_eth, store. destruct (decide (p = p')) as [<-|Hne].
  - rewrite list_lookup_alter_eq, He. cbn. destruct f; cbn; eauto.
  - rewrite list_lookup_alter_ne by done. eauto.
Qed.
Lemma is_wl_store P p f o p' : is_wl P p' -> is_wl (store P p f o) p'.
Proof.
  intros (a & He). unfold is_wl, store. destruct (decide (p = p')) as [<-|Hne].
  - rewrite list_lookup_alter_eq, He. cbn. destruct f; cbn; eauto.
  - rewrite list_lookup_alter_ne by done. eauto.
Qed.

(** A message that no port keeps may be made, changed and deleted. *)
Lemma owned_insert T P q c : owned T P -> unstored P q -> owned (<[q := c]> T) P.
Proof.
  intros [L U] Hq. constructor; [|done]. intros p f q' E. rewrite lookup_insert_ne; [by apply (L p)|].
  intros <-. by apply Hq in E.
Qed.
Lemma owned_delete T P q : owned T P -> unstored P q -> owned (base.delete q T) P.
Proof.
  intros [L U] Hq. constructor; [|done]. intros p f q' E. rewrite lookup_delete_ne; [by apply (L p)|].
  intros <-. by apply Hq in E.
Qed.
Lemma unstored_fresh T P q : owned T P -> T !! q = None -> unstored P q.
Proof. intros [L U] Hq p f E. apply L in E. congruence. Qed.
(** So is one whose class or flag no place has. *)
Lemma unstored_marked T P q c : owned T P -> T !! q = Some (c, true) -> unstored P q.
Proof. intros [L U] Hq p f E. apply L in E. congruence. Qed.

Lemma unstored_store P p f o q : has_place P p f -> unstored P q -> o <> Some q ->
  unstored (store P p f o) q.
Proof.
  intros Hp Hq Ho p' f'. rewrite ptr_at_store by done. destruct (decide _); [done|]. apply Hq.
Qed.

(** A place takes a message, or none, and what it held is deleted. *)
Lemma owned_replace T P p f o : owned T P -> has_place P p f ->
  (forall q, o = Some q -> unstored P q /\ T !! q = Some (class_of f, false)) ->
  owned (without_old T (ptr_at P p f)) (store P p f o).
Proof.
  intros [L U] Hp Ho. constructor.
  - intros p' f' q. rewrite ptr_at_store by done. destruct (decide _) as [[<- <-]|Hne]; intros E.
    + destruct (Ho q E) as [Hq Ht]. destruct (ptr_at P p f) as [old|] eqn:Eo; cbn; [|done].
      rewrite lookup_delete_ne; [done|]. intros <-. by apply Hq in Eo.
    + destruct (ptr_at P p f) as [old|] eqn:Eo; cbn; [|by apply (L p')].
      rewrite lookup_delete_ne; [by apply (L p')|]. intros <-.
      destruct (U _ _ _ _ _ Eo E). by destruct Hne.
  - intros p1 f1 p2 f2 q. rewrite !ptr_at_store by done.
    destruct (decide (p = p1 /\ f = f1)) as [[<- <-]|H1], (decide (p = p2 /\ f = f2)) as [[<- <-]|H2];
      intros E1 E2; [done|..|by eapply U].
    + destruct (Ho q E1) as [Hq _]. by apply Hq in E2.
    + destruct (Ho q E2) as [Hq _]. by apply Hq in E1.
Qed.
(** A place gives its message up, without deleting it. *)
Lemma owned_give_up T P p f : owned T P -> has_place P p f ->
  owned T (store P p f None) /\ (forall q, ptr_at P p f = Some q -> unstored (store P p f None) q).
Proof.
  intros [L U] Hp. split; [constructor|].
  - intros p' f' q. rewrite ptr_at_store by done. destruct (decide _); [done|]. apply L.
  - intros p1 f1 p2 f2 q. rewrite !ptr_at_store by done.
    do 2 (destruct (decide _); [done|]). apply U.
  - intros q E p' f'. rewrite ptr_at_store by done. destruct (decide _) as [|Hne]; [done|].
    intros E'. destruct (U _ _ _ _ _ E E') as [-> ->]. by apply Hne.
Qed.

Lemma has_annc P p x : P !! p = Some x -> has_place P p Annc.
Proof. intros E. split; [by rewrite E|by left]. Qed.
Lemma has_eth P p f : is_eth P p -> has_place P p f.
Proof. intros (a & e & E). split; [by rewrite E|right; by eexists _, _]. Qed.
Lemma ptr_at_eth P p f a e : P !! p = Some (mkPtrPart a (Some e)) -> f <> Annc ->
  ptr_at P p f = eth_at e f.
Proof. intros E Hf. unfold ptr_at. rewrite E. by destruct f. Qed.
End Owned.

(** ** Operations that make, move and delete messages *)

Section Moves.
Context {n : nat} `{Env} {T : heap_type} {P : list PtrPart} {p : nat} (Hp : (p < n)%nat).

(** [m] makes a message of class [c]. *)
Definition makes (c : MessageType) (m : D nat) : Prop :=
  spec n T P m (fun q T' P' => T !! q = None /\ T' = <[q := (c, false)]> T /\ P' = P).

Lemma makes_after {A} c (m : D A) k : silent n T P m -> (forall a, makes c (k a)) -> makes c (m ≫= k).
Proof. intros Hm Hk. by eapply silent_bind. Qed.
Lemma makes_init c pl k : payload_type pl = c ->
  (forall m, msg_type m = (c, false) -> makes c (k m)) -> makes c (PTPMessageCommon_init pl ≫= k).
Proof.
  intros Hc Hk. eapply silent_val_bind; [|exact Hk].
  eapply silent_bind; [apply silent_get_clock|]. intros x. apply spec_ret. subst c. by destruct pl.
Qed.
Lemma makes_new c m : msg_type m = (c, false) -> makes c (new_msg m).
Proof. intros Hm. unfold makes. rewrite <- Hm. apply spec_new_msg. Qed.

Ltac make :=
  repeat match goal with
  | |- makes _ (new_msg _) =>
      apply makes_new; unfold msg_type, messageType in *; cbn in *; assumption
  | |- makes _ (PTPMessageCommon_init _ ≫= _) => apply makes_init; [reflexivity|intros ? ?]
  | |- makes _ (_ ≫= _) => apply makes_after; [sil|intros ?]
  end.

Lemma makes_sync : makes SYNC_MESSAGE (PTPMessageSync_new p).
Proof. unfold PTPMessageSync_new. make. Qed.
Lemma makes_announce : makes ANNOUNCE_MESSAGE (PTPMessageAnnounce_new p).
Proof. unfold PTPMessageAnnounce_new. make. Qed.
Lemma makes_followup : makes FOLLOWUP_MESSAGE (PTPMessageFollowUp_new p).
Proof. unfold PTPMessageFollowUp_new. make. Qed.
Lemma makes_req : is_eth P p -> makes PATH_DELAY_REQ_MESSAGE (PTPMessagePathDelayReq_new p).
Proof. intros He. unfold PTPMessagePathDelayReq_new. make. Qed.
Lemma makes_resp : makes PATH_DELAY_RESP_MESSAGE PTPMessagePathDelayResp_new.
Proof. unfold PTPMessagePathDelayResp_new. make. Qed.
Lemma makes_resp_followup : makes PATH_DELAY_FOLLOWUP_MESSAGE PTPMessagePathDelayRespFollowUp_new.
Proof. unfold PTPMessagePathDelayRespFollowUp_new. make. Qed.
Lemma makes_signalling : makes SIGNALLING_MESSAGE (PTPMessageSignalling_new p).
Proof. unfold PTPMessageSignalling_new. make. Qed.

(** A message that is made, used and deleted again. *)
Lemma silent_scratch {A} c m (k : nat -> D A) : makes c m ->
  (forall q T1, T1 !! q = Some (c, false) ->
   spec n T1 P (k q) (fun _ T' P' => T' = base.delete q T1 /\ P' = P)) ->
  silent n T P (m ≫= k).
Proof.
  intros Hm Hk. eapply spec_bind; [exact Hm|]. intros q T1 P1 (Hq & -> & ->).
  eapply spec_mono; [apply Hk; by rewrite lookup_insert_eq|]. intros a T' P' [-> ->].
  by rewrite delete_insert_id.
Qed.

(** The marks and the members of a message. *)
Lemma spec_set_gc q c g b : T !! q = Some (c, g) ->
  spec n T P (set_gc q b) (fun _ T' P' => T' = <[q := (c, b)]> T /\ P' = P).
Proof. intros Hq. eapply spec_mod_msg; [done|]. intros m [= ? ?]. unfold msg_type. by subst c. Qed.
Lemma silent_get_msg_type q c g : T !! q = Some (c, g) ->
  silent_val n T P (get_msg q) (fun m => payload_type (payload m) = c /\ _gc m = g).
Proof.
  intros Hq. eapply spec_mono; [by apply spec_get_msg|]. by intros m T' P' (-> & -> & [= <- <-]).
Qed.
Lemma sil_announce_fields q g : T !! q = Some (ANNOUNCE_MESSAGE, g) -> silent n T P (announce_fields q).
Proof.
  intros Hq. eapply silent_val_bind; [by eapply silent_get_msg_type|]. intros m [Hm _].
  destruct (payload m); done || apply silent_ret.
Qed.
Lemma sil_resp_fields q g : T !! q = Some (PATH_DELAY_RESP_MESSAGE, g) -> silent n T P (resp_fields q).
Proof.
  intros Hq. eapply silent_val_bind; [by eapply silent_get_msg_type|]. intros m [Hm _].
  destruct (payload m); done || apply silent_ret.
Qed.
Lemma sil_fup_fields q g : T !! q = Some (PATH_DELAY_FOLLOWUP_MESSAGE, g) -> silent n T P (fup_fields q).
Proof.
  intros Hq. eapply silent_val_bind; [by eapply silent_get_msg_type|]. intros m [Hm _].
  destruct (payload m); done || apply silent_ret.
Qed.

(** The pointers of a port. *)
Lemma spec_store f o (m : Port -> Port) :
  (forall x, equipped x -> equipped (m x)) -> (forall x, ptr_part (m x) = put_at f o (ptr_part x)) ->
  spec n T P (mod_port p m) (fun _ T' P' => T' = T /\ P' = store P p f o).
Proof. intros H1 H2. by apply spec_mod_port. Qed.

Ltac solve_store :=
  apply spec_store; intros x; unfold ptr_part, equipped, upd_ether; cbn;
  let Em := fresh "Em" in destruct (media x) eqn:Em; cbn; rewrite ?Em; done.

Lemma spec_setLastSync o :
  spec n T P (setLastSync p o) (fun _ T' P' => T' = T /\ P' = store P p LastSync o).
Proof. solve_store. Qed.
Lemma spec_setLastPDelayReq o :
  spec n T P (setLastPDelayReq p o) (fun _ T' P' => T' = T /\ P' = store P p Req o).
Proof. solve_store. Qed.
Lemma spec_setLastPDelayResp o :
  spec n T P (setLastPDelayResp p o) (fun _ T' P' => T' = T /\ P' = store P p Resp o).
Proof. solve_store. Qed.
Lemma spec_setLastPDelayRespFollowUp o :
  spec n T P (setLastPDelayRespFollowUp p o) (fun _ T' P' => T' = T /\ P' = store P p Fup o).
Proof. solve_store. Qed.

Lemma spec_delete_opt o : (forall q, o = Some q -> is_Some (T !! q)) ->
  spec n T P (delete_opt o) (fun _ T' P' => T' = without_old T o /\ P' = P).
Proof. intros Ho. destruct o as [q|]; [by apply spec_delete_msg, Ho|by apply spec_ret]. Qed.
Lemma owned_is_Some f q : owned T P -> ptr_at P p f = Some q -> is_Some (T !! q).
Proof. intros O E. by rewrite (ow_live _ _ O _ _ _ E). Qed.
Lemma spec_setQualifiedAnnounce o : owned T P ->
  spec n T P (setQualifiedAnnounce p o)
    (fun _ T' P' => T' = without_old T (ptr_at P p Annc) /\ P' = store P p Annc o).
Proof.
  intros O. eapply silent_val_bind; [by apply spec_get_port|]. intros x [Hx _].
  assert (Ep : ptr_at P p Annc = qualified_announce x) by (unfold ptr_at; by rewrite Hx).
  eapply spec_bind.
  - apply spec_delete_opt. intros q Eq. apply (owned_is_Some Annc); [done|congruence].
  - intros [] T1 P1 [-> ->]. eapply spec_mono.
    + apply (spec_mod_port _ _ _ _ (put_at Annc o)); [done|done|]. done.
    + intros [] T' P' [-> ->]. by rewrite Ep.
Qed.
End Moves.
#[export] Hint Resolve sil_announce_fields sil_resp_fields sil_fup_fields : silent.

(** [steps] walks the silent prefix of a handler, [drop_msg] ends it with the
    deletion of its message. *)
Ltac steps := repeat (eapply silent_bind; [solve [sil]|intros ?]).
Ltac drop_msg := eapply spec_delete_msg; by eexists.
Ltac drop_then := eapply spec_bind; [drop_msg|intros [] ? ? [-> ->]].

Section Scratch.
Context {n : nat} `{Env} {T : heap_type} {P : list PtrPart} {p : nat} (Hp : (p < n)%nat).

Lemma sil_send_signalling a b c : is_eth P p -> silent n T P (send_signalling p a b c).
Proof.
  intros He. eapply silent_scratch; [by apply makes_signalling|]. intros q T1 Hq.
  unfold signalling_sendPort. steps. drop_msg.
Qed.
Lemma sil_send_followup s g : is_eth P p -> T !! s = Some (SYNC_MESSAGE, g) ->
  silent n T P (send_followup p s).
Proof.
  intros He Hs. unfold send_followup. steps.
  eapply silent_scratch; [by apply makes_followup|]. intros q T1 Hq.
  steps. drop_msg.
Qed.
Lemma sil_dialog_followup d b : silent n T P (dialog_followup p d b).
Proof.
  eapply silent_scratch; [by apply makes_followup|]. intros q T1 Hq. steps. drop_then. by apply spec_ret.
Qed.
Lemma sil_on_announce_interval : silent n T P (on_announce_interval p).
Proof.
  unfold on_announce_interval. eapply silent_bind; [sil|intros x]. eapply silent_seq; [|intros _; sil].
  apply silent_when. intros _. eapply silent_scratch; [by apply makes_announce|].
  intros q T1 Hq. unfold announce_sendPort. steps. drop_msg.
Qed.
End Scratch.
#[export] Hint Resolve sil_send_signalling sil_send_followup sil_dialog_followup
  sil_on_announce_interval : silent.

Section Exchange.
Context {n : nat} `{Env} {T : heap_type} {P : list PtrPart} {p : nat} (Hp : (p < n)%nat).
Lemma sil_eth_on_sync_interval : is_eth P p -> silent n T P (eth_on_sync_interval p).
Proof.
  intros He. eapply silent_scratch; [by apply makes_sync|]. intros q T1 Hq.
  unfold sync_sendPort. steps. drop_then. by apply spec_ret.
Qed.
Lemma sil_pdelay_req_respond q g : is_eth P p -> T !! q = Some (PATH_DELAY_REQ_MESSAGE, g) ->
  silent n T P (pdelay_req_respond p q).
Proof.
  intros He Hreq. unfold pdelay_req_respond. steps.
  eapply spec_bind; [apply makes_resp|]. intros r T1 P1 (Hr & -> & ->).
  set (T1 := <[r := _]> T). assert (Hr1 : T1 !! r = Some (PATH_DELAY_RESP_MESSAGE, false)) by apply lookup_insert_eq.
  assert (Hq1 : T1 !! q = Some (PATH_DELAY_REQ_MESSAGE, g)) by (unfold T1; by rewrite lookup_insert_ne by congruence).
  unfold pdelay_resp_sendPort, pdelay_resp_followup_sendPort. steps.
  eapply spec_bind; [apply makes_resp_followup|]. intros f T2 P2 (Hf & -> & ->).
  set (T2 := <[f := _]> T1).
  assert (Hf2 : T2 !! f = Some (PATH_DELAY_FOLLOWUP_MESSAGE, false)) by apply lookup_insert_eq.
  assert (Hne : r <> f) by congruence.
  assert (Hr2 : T2 !! r = Some (PATH_DELAY_RESP_MESSAGE, false)) by (unfold T2; by rewrite lookup_insert_ne).
  steps. drop_then.
  eapply spec_mono; [eapply spec_delete_msg; rewrite lookup_delete_ne by done; by eexists|].
  intros [] T' P' [-> ->]. split; [|done]. rewrite delete_delete. unfold T2.
  rewrite delete_insert_id by done. by apply delete_insert_id.
Qed.
End Exchange.
#[export] Hint Resolve sil_eth_on_sync_interval sil_pdelay_req_respond : silent.

(** ** The handlers of messages

    A received message is no port's; after its handler the invariant holds
    again, and the message is still allocated. *)
Definition handled (q : nat) {A} (_ : A) (T : heap_type) (P : list PtrPart) : Prop :=
  owned T P /\ is_Some (T !! q).

Section Handlers.
Context {n : nat} `{Env} {T : heap_type} {P : list PtrPart} {p : nat} (Hp : (p < n)%nat).
Context (O : owned T P) {q : nat} (Hu : unstored P q).

Lemma handled_silent {A} c (m : D A) : T !! q = Some c -> silent n T P m -> spec n T P m (handled q).
Proof. intros Hq Hm. eapply spec_silent; [exact Hm|]. intros a. split; [done|by eexists]. Qed.
Lemma handled_mark c g b : T !! q = Some (c, g) -> spec n T P (set_gc q b) (handled q).
Proof.
  intros Hq. eapply spec_mono; [by eapply spec_set_gc|]. intros [] T' P' [-> ->].
  split; [by apply owned_insert|]. rewrite lookup_insert_eq. by eexists.
Qed.
Lemma kept_without_old f c : T !! q = Some c -> without_old T (ptr_at P p f) !! q = Some c.
Proof.
  intros Hq. destruct (ptr_at P p f) as [o|] eqn:E; cbn; [|done].
  rewrite lookup_delete_ne; [done|]. intros ->. by apply Hu in E.
Qed.
Lemma handled_replace f (a : unit) : has_place P p f -> T !! q = Some (class_of f, false) ->
  handled q a (without_old T (ptr_at P p f)) (store P p f (Some q)).
Proof.
  intros Hf Hq. split; [|by eexists; apply kept_without_old].
  apply owned_replace; [done|done|]. intros q' [= <-]. done.
Qed.

(** As many pointer parts as ports. *)
Lemma spec_length {A} (m : D A) R : (length P = n -> spec n T P m R) -> spec n T P m R.
Proof.
  intros Hm w G HT HP. apply Hm; [|done..]. rewrite <- HP. unfold ptrs. rewrite length_fmap. apply G.
Qed.
Lemma has_place_annc : length P = n -> has_place P p Annc.
Proof. intros Hl. split; [apply lookup_lt_is_Some; lia|by left]. Qed.

Lemma safe_announce : T !! q = Some (ANNOUNCE_MESSAGE, false) ->
  spec n T P (announce_process p q) (handled q).
Proof.
  intros Hq. apply spec_length. intros Hl. unfold announce_process. steps.
  eapply spec_bind with (R1 := handled q).
  - destruct (announce_dropped _ _ _); [apply spec_ret; split; [done|by eexists]|].
    eapply spec_bind; [by apply spec_setQualifiedAnnounce|]. intros [] T1 P1 [-> ->].
    eapply spec_silent; [sil|]. intros []. apply handled_replace; [by apply has_place_annc|done].
  - intros [] T1 P1 Hh. eapply spec_silent; [sil|done].
Qed.

(** What [get_ether] reads. *)
Definition reads (P : list PtrPart) (p : nat) (e : EtherPart) : Prop :=
  ptr_at P p Req = last_pdelay_req e /\ ptr_at P p Resp = last_pdelay_resp e /\
  ptr_at P p Fup = last_pdelay_resp_fwup e /\ ptr_at P p LastSync = last_sync e.
Lemma spec_reads : is_eth P p -> silent_val n T P (get_ether p) (reads P p).
Proof.
  intros He. eapply spec_mono; [by apply spec_get_ether|]. intros e T' P' (-> & -> & a & Ha).
  split; [done|]. split; [done|]. unfold reads. by rewrite !(ptr_at_eth _ _ _ _ _ Ha).
Qed.
(** The pointer that a place holds is deleted. *)
Lemma spec_delete_place f o : ptr_at P p f = o ->
  spec n T P (delete_opt o) (fun _ T' P' => T' = without_old T (ptr_at P p f) /\ P' = P).
Proof.
  intros <-. apply spec_delete_opt. intros x Ex. by eapply owned_is_Some.
Qed.

Lemma safe_sync_store : is_eth P p -> T !! q = Some (SYNC_MESSAGE, false) ->
  spec n T P (e ← get_ether p; (delete_opt (last_sync e);; setLastSync p (Some q);; set_gc q false))
    (handled q).
Proof.
  intros He Hq. eapply silent_val_bind; [by apply spec_reads|]. intros e (_ & _ & _ & Es).
  eapply spec_bind; [by apply (spec_delete_place LastSync)|]. intros [] T1 P1 [-> ->].
  eapply spec_bind; [by apply spec_setLastSync|]. intros [] T1 P1 [-> ->].
  eapply spec_mono; [eapply spec_set_gc; by apply kept_without_old|]. intros [] T1 P1 [-> ->].
  rewrite insert_id by (by apply kept_without_old).
  apply (handled_replace LastSync); [by apply has_eth|done].
Qed.
(** [as_ether] tells the class of the port. *)
Lemma spec_as_ether_cases {A} (k : option EtherPart -> D A) R :
  (forall e, is_eth P p -> spec n T P (k (Some e)) R) -> spec n T P (k None) R ->
  spec n T P (as_ether p ≫= k) R.
Proof.
  intros H1 H2. eapply silent_val_bind; [by apply spec_as_ether|]. intros [e|]; [|done].
  intros [a Ha]. apply H1. by eexists _, _.
Qed.

(** A port that is disabled or faulty does not look at the message. *)
Lemma spec_by_state {A} s (m1 m2 : D A) R : spec n T P m1 R -> spec n T P m2 R ->
  spec n T P (match s with PTP_DISABLED | PTP_FAULTY => m1 | _ => m2 end) R.
Proof. by destruct s. Qed.

Lemma safe_sync : T !! q = Some (SYNC_MESSAGE, false) -> spec n T P (sync_process p q) (handled q).
Proof.
  intros Hq. apply spec_as_ether_cases; [intros e He|]; steps; [|by eapply handled_mark].
  apply spec_by_state; [by eapply handled_silent; [done|sil]|].
  eapply silent_bind; [sil|intros _]. by apply safe_sync_store.
Qed.

Lemma safe_pdelay_req : T !! q = Some (PATH_DELAY_REQ_MESSAGE, false) ->
  spec n T P (pdelay_req_process p q) (handled q).
Proof.
  intros Hq. apply spec_as_ether_cases; [intros e He|]; steps; by eapply handled_mark.
Qed.

Lemma safe_pdelay_resp_store : is_eth P p -> T !! q = Some (PATH_DELAY_RESP_MESSAGE, false) ->
  spec n T P (pdelay_resp_store p q) (handled q).
Proof.
  intros He Hq. eapply silent_val_bind; [by apply spec_reads|]. intros e (_ & Er & _ & _).
  eapply silent_bind.
  { destruct (last_pdelay_resp e) as [old|]; [|sil]. pose proof (ow_live _ _ O _ _ _ Er). sil. }
  intros _. eapply spec_bind; [by apply spec_setLastPDelayResp|]. intros [] T1 P1 [-> ->].
  eapply spec_bind.
  { apply spec_delete_opt. intros x Ex. eapply (owned_is_Some (p := p) Resp); [done|congruence]. }
  intros [] T1 P1 [-> ->]. rewrite <- Er. eapply silent_bind; [sil|intros _].
  eapply spec_mono; [eapply spec_set_gc; by apply kept_without_old|]. intros [] T1 P1 [-> ->].
  rewrite insert_id by (by apply kept_without_old).
  apply (handled_replace Resp); [by apply has_eth|done].
Qed.
Lemma safe_pdelay_resp : T !! q = Some (PATH_DELAY_RESP_MESSAGE, false) ->
  spec n T P (pdelay_resp_process p q) (handled q).
Proof.
  intros Hq. apply spec_as_ether_cases; [intros e He|]; [|by eapply handled_mark]. steps.
  apply spec_by_state; [by eapply handled_silent; [done|sil]|].
  eapply silent_bind; [sil|intros _]. eapply silent_bind; [sil|intros ok].
  destruct ok; [by apply safe_pdelay_resp_store|by eapply handled_silent; [done|sil]].
Qed.

(** *** Follow_Up *)

Lemma sil_getTimestampVersion : silent n T P (getTimestampVersion p).
Proof.
  eapply silent_seq_val; [by apply spec_get_port|]. intros x [_ Hx]. unfold equipped in Hx.
  destruct (media x); rewrite Hx; sil.
Qed.
Lemma spec_followup_process_at g t : T !! q = Some (FOLLOWUP_MESSAGE, g) ->
  spec n T P (followup_process_at p q t)
    (fun _ T' P' => T' = <[q := (FOLLOWUP_MESSAGE, true)]> T /\ P' = P).
Proof.
  intros Hq. unfold followup_process_at. eapply silent_bind; [sil|intros _].
  eapply silent_bind; [sil|intros x].
  eapply silent_val_bind; [by eapply silent_get_msg_type|]. intros m [Hm _].
  eapply silent_bind; [|intros _; by eapply spec_set_gc].
  destruct (payload m); done || sil.
Qed.
Hint Resolve sil_getTimestampVersion : silent.
Lemma spec_followup_pair_sync s : T !! q = Some (FOLLOWUP_MESSAGE, false) ->
  T !! s = Some (SYNC_MESSAGE, false) ->
  spec n T P (followup_pair_sync p q s)
    (fun _ T' P' => (exists g, T' = <[q := (FOLLOWUP_MESSAGE, g)]> T) /\ P' = P).
Proof.
  intros Hq Hs. unfold followup_pair_sync. steps.
  assert (Hsame : forall m : D unit, silent n T P m ->
    spec n T P m (fun _ T' P' => (exists g, T' = <[q := (FOLLOWUP_MESSAGE, g)]> T) /\ P' = P)).
  { intros m Hm. eapply spec_silent; [exact Hm|]. intros []. split; [|done]. exists false. by rewrite insert_id. }
  destruct (_ || _); [apply Hsame; sil|]. steps.
  destruct (_ =? _); [|apply Hsame; sil].
  eapply spec_mono; [by eapply spec_followup_process_at|]. intros [] T' P' [-> ->]. eauto.
Qed.
Lemma safe_followup : T !! q = Some (FOLLOWUP_MESSAGE, false) ->
  spec n T P (followup_process p q) (handled q).
Proof.
  intros Hq. apply spec_as_ether_cases; [intros e He|by eapply handled_silent; [done|sil]].
  do 2 (eapply silent_bind; [sil|intros ?]).
  apply spec_by_state; [by eapply handled_silent; [done|sil]|].
  eapply silent_val_bind; [by apply spec_reads|]. intros e' (_ & _ & _ & Es).
  destruct (last_sync e') as [s|]; [|by eapply handled_silent; [done|sil]].
  pose proof (ow_live _ _ O _ _ _ Es) as Hs. cbn in Hs.
  assert (Hne : q <> s) by (intros ->; by apply Hu in Es).
  eapply spec_bind; [by apply spec_followup_pair_sync|]. intros [] T1 P1 [[g ->] ->].
  eapply spec_bind; [by apply spec_setLastSync|]. intros [] T1 P1 [-> ->].
  eapply spec_mono; [eapply spec_delete_msg; rewrite lookup_insert_ne by done; by eexists|].
  intros [] T1 P1 [-> ->]. split.
  - pose proof (owned_replace (<[q:=(FOLLOWUP_MESSAGE, g)]> T) P p LastSync None) as Hr.
    rewrite Es in Hr. apply Hr; [by apply owned_insert|by apply has_eth|done].
  - rewrite lookup_delete_ne by done. rewrite lookup_insert_eq. by eexists.
Qed.
Lemma safe_signalling : T !! q = Some (SIGNALLING_MESSAGE, false) ->
  spec n T P (signalling_process p q) (handled q).
Proof.
  intros Hq. eapply silent_val_bind; [by eapply silent_get_msg_type|]. intros m [Hm _].
  eapply handled_silent; [done|]. destruct (payload m); done || sil.
Qed.
End Handlers.

(** *** Pdelay_Resp_Follow_Up

    The message is new, or it is the one the port deferred: then the port keeps
    it in its place while it is processed, and it may come to be marked
    there. *)
Definition new_or_deferred (P : list PtrPart) (p q : nat) : Prop :=
  forall p' f', ptr_at P p' f' = Some q -> p' = p /\ f' = Fup.

Definition followup_done (P : list PtrPart) (p q : nat) {A} (_ : A) (T' : heap_type)
    (P' : list PtrPart) : Prop :=
  exists g, T' !! q = Some (PATH_DELAY_FOLLOWUP_MESSAGE, g) /\
    owned (<[q := (PATH_DELAY_FOLLOWUP_MESSAGE, false)]> T') P' /\
    (g = true -> forall p' f', ptr_at P' p' f' = Some q -> ptr_at P p' f' = Some q) /\
    (ptr_at P p Fup = Some q -> ptr_at P' p Fup = Some q) /\
    (is_eth P p -> is_eth P' p).

Section RespFollowUp.
Context {n : nat} `{Env} {T : heap_type} {P : list PtrPart} {p : nat} (Hp : (p < n)%nat).
Context (O : owned T P) {q : nat} (Hn : new_or_deferred P p q).
Context (Hq : T !! q = Some (PATH_DELAY_FOLLOWUP_MESSAGE, false)).

(** The follow-up is deferred: it takes the place, and one that was there
    before is deleted. *)
Definition deferred_at (T' : heap_type) (P' : list PtrPart) : Prop :=
  owned T' P' /\ T' !! q = Some (PATH_DELAY_FOLLOWUP_MESSAGE, false) /\
  ptr_at P' p Fup = Some q /\ is_eth P' p.
Definition measured (r : bool) (T' : heap_type) (P' : list PtrPart) : Prop :=
  if r then deferred_at T' P' else T' = T /\ P' = P.

(** What the place then refers to. *)
Lemma defer_again : has_place P p Fup -> ptr_at P p Fup = Some q -> owned T (store P p Fup (Some q)).
Proof.
  intros Hplace Es. destruct O as [L U]. constructor.
  - intros p' f' q'. rewrite ptr_at_store by done. destruct (decide _) as [[<- <-]|]; [|apply L].
    by intros [= <-].
  - intros p1 f1 p2 f2 q'. rewrite !ptr_at_store by done.
    destruct (decide (p = p1 /\ Fup = f1)) as [[<- <-]|H1], (decide (p = p2 /\ Fup = f2)) as [[<- <-]|H2];
      intros E1 E2; [done|..|by eapply U].
    + injection E1 as <-. destruct (U _ _ _ _ _ Es E2). done.
    + injection E2 as <-. destruct (U _ _ _ _ _ Es E1). done.
Qed.
Lemma spec_deferred T1 : is_eth P p -> owned T1 (store P p Fup (Some q)) ->
  T1 !! q = Some (PATH_DELAY_FOLLOWUP_MESSAGE, false) ->
  spec n T1 P (setLastPDelayRespFollowUp p (Some q);;
               addEventTimerLocked p PDELAY_DEFERRED_PROCESSING 1000000;; mret true) measured.
Proof.
  intros He O1 Hq1. eapply spec_bind; [by apply spec_setLastPDelayRespFollowUp|]. intros [] T' P' [-> ->].
  eapply silent_bind; [sil|intros _]. apply spec_ret. split; [done|]. split; [done|].
  split; [|by apply is_eth_store]. rewrite ptr_at_store by (by apply has_eth). by rewrite decide_True.
Qed.
Lemma spec_defer : is_eth P p ->
  spec n T P (e ← get_ether p;
    (match last_pdelay_resp_fwup e with
     | Some old => if (old =? q)%nat then mret tt else delete_msg old
     | None => mret tt
     end);;
    setLastPDelayRespFollowUp p (Some q);;
    addEventTimerLocked p PDELAY_DEFERRED_PROCESSING 1000000;; mret true) measured.
Proof.
  intros He. eapply silent_val_bind; [by apply spec_reads|]. intros e (_ & _ & Ef & _).
  assert (Hplace : has_place P p Fup) by (by apply has_eth).
  destruct (decide (ptr_at P p Fup = Some q)) as [Es|Hs].
  - rewrite <- Ef, Es, Nat.eqb_refl. eapply silent_bind; [sil|intros _].
    apply spec_deferred; auto using defer_again.
  - assert (Hu : unstored P q) by (intros p' f' E; destruct (Hn _ _ E) as [-> ->]; done).
    eapply spec_bind with (R1 := fun _ T' P' => T' = without_old T (ptr_at P p Fup) /\ P' = P).
    + rewrite Ef. destruct (last_pdelay_resp_fwup e) as [old|]; [|by apply spec_ret].
      rewrite (proj2 (Nat.eqb_neq old q)) by congruence.
      apply spec_delete_msg. by rewrite (ow_live _ _ O _ _ _ Ef).
    + intros [] T' P' [-> ->]. apply spec_deferred; [done| |by apply kept_without_old].
      apply owned_replace; [done|done|]. by intros q' [= <-].
Qed.

Lemma spec_followup_measure ex : is_eth P p -> spec n T P (followup_measure p q ex) measured.
Proof.
  intros He. unfold followup_measure. eapply silent_bind; [sil|intros _].
  destruct (_ =? _); [by apply spec_ret|]. destruct (_ =? _); [by apply spec_defer|].
  eapply silent_bind; [sil|intros f]. destruct (negb _); [by apply spec_ret|]. steps. by apply spec_ret.
Qed.
Lemma spec_followup_pair : is_eth P p -> spec n T P (followup_pair p q) measured.
Proof.
  intros He. eapply silent_val_bind; [by apply spec_reads|]. intros e (Er & Es & _ & _).
  destruct (last_pdelay_req e) as [req|], (last_pdelay_resp e) as [resp|]; try by apply spec_ret.
  pose proof (ow_live _ _ O _ _ _ Er) as Hr. pose proof (ow_live _ _ O _ _ _ Es) as Hs.
  eapply silent_bind; [sil|intros mreq]. eapply silent_bind; [sil|intros m].
  destruct (negb _); [by apply spec_ret|]. steps.
  cbv zeta. destruct (follow_up_matches _ _ _); [by apply spec_followup_measure|by apply spec_ret].
Qed.

Lemma done_silent {A} (m : D A) : silent n T P m -> spec n T P m (followup_done P p q).
Proof.
  intros Hm. eapply spec_silent; [exact Hm|]. intros a. exists false. by rewrite insert_id.
Qed.
(** The follow-up is marked for collection. *)
Lemma done_marked (a : unit) T1 P1 : owned T1 P1 ->
  T1 !! q = Some (PATH_DELAY_FOLLOWUP_MESSAGE, false) ->
  (forall p' f', ptr_at P1 p' f' = Some q <-> ptr_at P p' f' = Some q) -> (is_eth P p -> is_eth P1 p) ->
  followup_done P p q a (<[q := (PATH_DELAY_FOLLOWUP_MESSAGE, true)]> T1) P1.
Proof.
  intros O1 Hq1 Hat He. exists true. rewrite lookup_insert_eq, insert_insert_eq, insert_id by done.
  split; [done|]. split; [done|]. split; [intros _ p' f'; apply Hat|]. split; [apply Hat|done].
Qed.
Lemma spec_followup_locked : is_eth P p -> spec n T P (followup_locked p q) (followup_done P p q).
Proof.
  intros He. eapply silent_val_bind; [by apply spec_reads|]. intros e (_ & Er & _ & _).
  eapply spec_bind; [by apply spec_followup_pair|]. intros [] T1 P1.
  - intros (O1 & Hq1 & Hat & He1). eapply silent_bind; [sil|intros _]. eapply spec_silent; [sil|].
    intros []. exists false. by rewrite insert_id.
  - intros [-> ->]. eapply spec_bind with (R1 := followup_done P p q);
      [|intros [] T1 P1 Hd; eapply spec_silent; [sil|by intros []]].
    eapply spec_bind; [by apply (spec_delete_place (p := p) O Resp)|]. intros [] T1 P1 [-> ->].
    eapply spec_bind; [by apply spec_setLastPDelayResp|]. intros [] T1 P1 [-> ->].
    assert (Hplace : has_place P p Resp) by (by apply has_eth).
    assert (Hq1 : without_old T (ptr_at P p Resp) !! q = Some (PATH_DELAY_FOLLOWUP_MESSAGE, false)).
    { destruct (ptr_at P p Resp) as [r|] eqn:E; cbn; [|done]. rewrite lookup_delete_ne; [done|].
      intros ->. apply (ow_live _ _ O) in E. cbn in E. congruence. }
    eapply spec_mono; [by eapply spec_set_gc|]. intros [] T1 P1 [-> ->].
    apply done_marked; [by apply owned_replace|done| |by intros _; apply is_eth_store].
    intros p' f'. rewrite ptr_at_store by done. destruct (decide _) as [[<- <-]|]; [|done].
    split; [done|]. intros E. by destruct (Hn _ _ E).
Qed.
Lemma spec_resp_followup : spec n T P (pdelay_resp_followup_process p q) (followup_done P p q).
Proof.
  apply spec_as_ether_cases; [done|intros e He|].
  - eapply silent_bind; [sil|intros x]. apply spec_by_state; [by apply done_silent; sil|].
    eapply silent_bind; [sil|intros _]. eapply silent_bind; [sil|intros ok].
    destruct ok; [by apply spec_followup_locked|by apply done_silent; sil].
  - eapply spec_mono; [by eapply spec_set_gc|]. intros [] T1 P1 [-> ->]. by apply done_marked.
Qed.

(** A new follow-up is handled as any other message. *)
Lemma safe_resp_followup : unstored P q ->
  spec n T P (pdelay_resp_followup_process p q) (handled q).
Proof.
  intros Hu. eapply spec_mono; [apply spec_resp_followup|].
  intros [] T' P' (g & Hq' & O' & Hm & _ & _). split; [|by eexists]. destruct g.
  - assert (Hu' : unstored P' q) by (intros p' f' E; by apply Hm, Hu in E).
    rewrite <- (insert_id T' q _ Hq'), <- (insert_insert_eq T' q _ (PATH_DELAY_FOLLOWUP_MESSAGE, false)).
    by apply owned_insert.
  - by rewrite insert_id in O'.
Qed.
End RespFollowUp.

(** The deferred follow-up of a port. *)
Lemma safe_on_deferred {n} `{Env} T P p : (p < n)%nat -> owned T P -> is_eth P p ->
  spec n T P (eth_on_deferred p) (fun _ => owned).
Proof.
  intros Hp O He. unfold eth_on_deferred. eapply silent_bind; [sil|intros _].
  eapply silent_val_bind; [by apply spec_reads|]. intros e (_ & _ & Ef & _).
  destruct (last_pdelay_resp_fwup e) as [q|]; [|by apply spec_fail].
  assert (Hq : T !! q = Some (PATH_DELAY_FOLLOWUP_MESSAGE, false)) by apply (ow_live _ _ O _ _ _ Ef).
  eapply spec_bind.
  { apply spec_resp_followup; [done|done| |done]. intros p' f' E.
    destruct (ow_unique _ _ O _ _ _ _ _ Ef E) as [-> ->]. done. }
  intros [] T' P' (g & Hq' & O' & _ & Hat & He').
  eapply silent_val_bind; [by apply spec_reads; auto|]. intros e' (_ & _ & Ef' & _).
  rewrite <- Ef', Hat by done. apply (silent_val_bind _ _ _ _ (fun a => a = q)); [by apply spec_ret|].
  intros _ ->. eapply silent_val_bind; [by eapply silent_get_msg_type|]. intros m [_ ->].
  eapply spec_bind with (R1 := fun _ => owned); [|intros [] T1 P1 O1; eapply spec_silent; [sil|done]].
  assert (Hplace : has_place P' p Fup) by (by apply has_eth, He').
  destruct g; [|apply spec_ret; by rewrite insert_id in O'].
  eapply spec_bind; [eapply spec_delete_msg; by eexists|]. intros [] T1 P1 [-> ->].
  eapply spec_mono; [by apply spec_setLastPDelayRespFollowUp|]. intros [] T1 P1 [-> ->].
  pose proof (owned_replace _ _ p Fup None O' Hplace) as Hr. rewrite Hat in Hr by done. cbn in Hr.
  rewrite delete_insert_eq in Hr. by apply Hr.
Qed.

(** ** Events *)

Section Events.
Context {n : nat} `{Env} {T : heap_type} {P : list PtrPart} {p : nat} (Hp : (p < n)%nat).
Context (O : owned T P).

(** The request that the port keeps is replaced by the next. *)
Lemma safe_on_pdelay_interval : is_eth P p ->
  spec n T P (eth_on_pdelay_interval p) (fun _ => owned).
Proof.
  intros He. eapply spec_bind; [by apply makes_req|]. intros q T1 P1 (Hq & -> & ->).
  set (T1 := <[q := _]> T). assert (Hq1 : T1 !! q = Some (PATH_DELAY_REQ_MESSAGE, false)) by apply lookup_insert_eq.
  assert (Hu : unstored P q) by by eapply unstored_fresh.
  assert (O1 : owned T1 P) by by apply owned_insert.
  eapply silent_bind; [sil|intros x]. eapply silent_bind; [sil|intros _]. eapply silent_bind; [sil|intros _].
  eapply silent_val_bind; [by apply spec_reads|]. intros e (Er & _).
  eapply spec_bind; [by apply (spec_delete_place (p := p) O1 Req)|]. intros [] T2 P2 [-> ->].
  eapply spec_bind; [by apply spec_setLastPDelayReq|]. intros [] T2 P2 [-> ->].
  assert (Hq2 : without_old T1 (ptr_at P p Req) !! q = Some (PATH_DELAY_REQ_MESSAGE, false))
    by by apply kept_without_old.
  assert (He2 : is_eth (store P p Req (Some q)) p) by by apply is_eth_store.
  unfold pdelay_req_sendPort. eapply spec_silent; [sil|]. intros _.
  apply owned_replace; [done|by apply has_eth|]. by intros q' [= <-].
Qed.

Lemma sil_eth_processEvent e : is_eth P p ->
  e <> PDELAY_INTERVAL_TIMEOUT_EXPIRES -> e <> PDELAY_DEFERRED_PROCESSING ->
  silent n T P (eth_processEvent p e).
Proof. intros He H1 H2. destruct e; try done; sil. Qed.
Lemma safe_eth_processEvent e : is_eth P p -> spec n T P (eth_processEvent p e) (fun _ => owned).
Proof.
  intros He. destruct (decide (e = PDELAY_INTERVAL_TIMEOUT_EXPIRES)) as [->|H1];
    [by apply safe_on_pdelay_interval|].
  destruct (decide (e = PDELAY_DEFERRED_PROCESSING)) as [->|H2]; [by apply safe_on_deferred|].
  eapply spec_silent; [by apply sil_eth_processEvent|done].
Qed.
Lemma sil_wl_on_sync_interval : is_wl P p -> silent n T P (wl_on_sync_interval p).
Proof.
  intros [an Hw]. eapply silent_seq_val; [by apply spec_get_port|]. intros x [Hx Ht].
  assert (Hts : _hw_timestamper x = WirelessTs).
  { rewrite Hw in Hx. unfold ptr_part, equipped in *. by destruct (media x). }
  rewrite Hts. assert (is_wl P p) by by eexists. sil.
Qed.
Hint Resolve sil_wl_on_sync_interval : silent.
Lemma sil_wl_processEvent e : is_wl P p -> silent n T P (wl_processEvent p e).
Proof. intros Hw. destruct e; sil. Qed.

(** The virtual event handler. *)
Lemma safe_m_processEvent e : spec n T P (m_processEvent p e) (fun _ => owned).
Proof.
  apply spec_by_media; [done| |]; intros Hm; [by apply safe_eth_processEvent|].
  eapply spec_silent; [by apply sil_wl_processEvent|done].
Qed.
End Events.

Section Decision.
Context {n : nat} `{Env} {T : heap_type} {P : list PtrPart} (O : owned T P).

(** A pointer to an announcement, if any. *)
Definition annc_ok (T : heap_type) (best : option nat) : Prop :=
  forall q, best = Some q -> T !! q = Some (ANNOUNCE_MESSAGE, false).

Lemma spec_calculateERBest p : (p < n)%nat -> silent_val n T P (calculateERBest p) (annc_ok T).
Proof.
  intros Hp. eapply silent_val_bind; [by apply spec_get_port|]. intros x [Hx _]. apply spec_ret.
  split; [done|]. split; [done|]. intros q Hq. apply (ow_live _ _ O p Annc).
  unfold ptr_at. by rewrite Hx.
Qed.
Lemma spec_better_announce b c : annc_ok T b -> annc_ok T c ->
  silent_val n T P (better_announce b c) (annc_ok T).
Proof.
  intros Hb Hc. destruct b as [qb|]; [|by apply spec_ret]. destruct c as [qc|]; [|by apply spec_ret].
  pose proof (Hb _ eq_refl). pose proof (Hc _ eq_refl).
  eapply silent_bind; [sil|intros ab]. eapply silent_bind; [sil|intros ac]. apply spec_ret.
  split; [done|]. split; [done|]. intros q [= <-]. by destruct (annc_isBetterThan _ _).
Qed.
Lemma spec_ebest_step p best : (p < n)%nat -> annc_ok T best ->
  silent_val n T P (ebest_step p best) (annc_ok T).
Proof.
  intros Hp Hb. eapply silent_bind; [sil|intros x]. destruct (participates x); [|by apply spec_ret].
  eapply silent_val_bind; [by apply spec_calculateERBest|]. intros c Hc. by apply spec_better_announce.
Qed.
Lemma spec_find_ebest : silent_val n T P find_ebest (annc_ok T).
Proof.
  eapply silent_bind; [sil|intros c].
  eapply silent_val_bind; [apply (silent_for_ports _ _ _ (annc_ok T) (fun _ => True)); [done|]|].
  - intros p best Hp Hb. eapply silent_val_bind; [by apply spec_ebest_step|]. intros b' Hb'.
    by apply spec_ret.
  - intros [b|[]] Hb. by apply spec_ret.
Qed.
Lemma spec_fields_of best : annc_ok T best ->
  silent_val n T P (fields_of best) (fun a => best = None -> a = None).
Proof.
  intros Hb. destruct best as [q|]; [pose proof (Hb _ eq_refl)|by apply spec_ret].
  eapply silent_bind; [sil|intros a]. by apply spec_ret.
Qed.
(** Without an announcement the clock is better, and the pointer is not used. *)
Lemma spec_decide_port b p best : (p < n)%nat -> annc_ok T best ->
  silent_val n T P (decide_port b p best) (annc_ok T).
Proof.
  intros Hp Hb. unfold decide_port. steps. destruct (participates _); [|by apply spec_ret].
  eapply silent_bind; [sil|intros c].
  eapply silent_val_bind; [by apply spec_fields_of|]. intros oa Ha.
  destruct (clock_isBetterThan c oa) eqn:Eb.
  - steps. by apply spec_ret.
  - eapply silent_val_bind; [by apply spec_calculateERBest|]. intros mine Hm.
    eapply silent_bind; [|intros _; by apply spec_ret].
    destruct (decide _) as [_|]; [|sil]. eapply silent_seq; [sil|intros _].
    destruct best as [q|]; [|by rewrite (Ha eq_refl) in Eb]. pose proof (Hb _ eq_refl).
    apply (silent_seq_val _ _ _ _ (fun r => r = q)); [by apply spec_ret|]. intros _ ->. sil.
Qed.
Lemma sil_decide_ports b best : annc_ok T best -> silent n T P (decide_ports b best).
Proof.
  intros Hb. eapply silent_seq; [sil|intros c]. eapply silent_seq; [|intros _; sil].
  eapply silent_weaken, (silent_for_ports _ _ _ (annc_ok T) (fun _ => True)); [done|].
  intros p best' Hp Hb'. eapply silent_val_bind; [by apply spec_decide_port|]. intros b' Hb1.
  by apply spec_ret.
Qed.
Hint Resolve sil_decide_ports : silent.
Lemma sil_processStateChange p : silent n T P (processStateChange p).
Proof.
  eapply silent_seq; [sil|intros c]. destruct (_ =? _); [sil|].
  eapply silent_seq_val; [by apply spec_find_ebest|]. intros best Hb.
  destruct best as [q|]; [|sil]. pose proof (Hb _ eq_refl).
  sil.
Qed.
End Decision.

Section CommonEvents.
Context {n : nat} `{Env} {T : heap_type} {P : list PtrPart} {p : nat} (Hp : (p < n)%nat).
Context (O : owned T P).

Lemma safe_processSyncAnnounceTimeout e :
  spec n T P (processSyncAnnounceTimeout p e) (fun _ => owned).
Proof.
  apply spec_length. intros Hl. eapply silent_bind; [sil|intros c]. destruct (_ =? _); [by apply spec_ret|].
  eapply silent_bind; [sil|intros x]. eapply silent_bind; [sil|intros _].
  destruct (decide _); [by apply spec_ret|]. steps.
  eapply spec_bind; [by apply spec_setQualifiedAnnounce|]. intros [] T1 P1 [-> ->].
  eapply spec_silent; [sil|]. intros _. apply owned_replace; [done|by apply (has_place_annc Hp)|done].
Qed.
Lemma safe_then {A} (m : D bool) (k : bool -> D A) :
  spec n T P m (fun _ => owned) ->
  (forall r T' P', owned T' P' -> spec n T' P' (k r) (fun _ => owned)) ->
  spec n T P (m ≫= k) (fun _ => owned).
Proof. intros Hm Hk. by eapply spec_bind. Qed.
Lemma owned_silent {A} (m : D A) : silent n T P m -> spec n T P m (fun _ => owned).
Proof. intros Hm. by eapply spec_silent. Qed.
Lemma safe_on_sync_interval e : spec n T P (on_sync_interval p e) (fun _ => owned).
Proof.
  eapply silent_bind; [sil|intros x]. apply safe_then.
  - destruct (asCapable x); [by apply safe_m_processEvent|by apply spec_ret].
  - intros r T' P' O'. eapply spec_silent; [sil|done].
Qed.
End CommonEvents.

Section Steps.
Context {n : nat} `{Env} {T : heap_type} {P : list PtrPart} {p : nat} (Hp : (p < n)%nat).
Context (O : owned T P).

Lemma safe_processEvent e : spec n T P (processEvent p e) (fun _ => owned).
Proof.
  pose proof (safe_m_processEvent Hp O) as Hm.
  assert (Hi : spec n T P (on_initialize p e) (fun _ => owned)).
  { eapply silent_bind; [sil|intros c]. eapply silent_bind; [sil|intros x].
    eapply silent_bind; [sil|intros _]. apply Hm. }
  assert (Ht : forall f, spec n T P (count f p;; ret ← m_processEvent p e;
    (if (ret : bool) then mret true else processSyncAnnounceTimeout p e)) (fun _ => owned)).
  { intros f. eapply silent_bind; [sil|intros _]. apply safe_then; [apply Hm|].
    intros [] T' P' O'; [by apply spec_ret|by apply safe_processSyncAnnounceTimeout]. }
  destruct e; try apply Hm; try apply Hi; try apply Ht.
  - apply safe_then; [apply Hm|]. intros [] T' P' O'; [by apply spec_ret|].
    eapply spec_silent; [by apply sil_processStateChange|done].
  - by apply safe_on_sync_interval.
  - apply owned_silent; [done|]. sil.
Qed.

(** ** Reception *)

Lemma parse_header_unmarked b buf id seq t c pl m : parse_header b buf id seq t c pl = Some m -> _gc m = false.
Proof.
  unfold parse_header. intros E. repeat (apply bind_Some in E as (? & ? & E)). by injection E as <-.
Qed.
(** A message that was received is new. *)
Definition received (T : heap_type) (P : list PtrPart) (o : option nat) (T' : heap_type)
    (P' : list PtrPart) : Prop :=
  match o with
  | None => T' = T
  | Some q => T !! q = None /\ exists c, T' = <[q := (c, false)]> T
  end /\ P' = P.

Lemma spec_buildPTPMessage buf size remote :
  spec n T P (buildPTPMessage p buf size remote) (received T P).
Proof.
  unfold buildPTPMessage. eapply silent_bind; [sil|intros [[[ty tr] id] seq]].
  eapply silent_bind; [sil|intros [[t cv]|]]; [|by apply spec_ret].
  destruct (negb _); [by apply spec_ret|].
  destruct (parse_body ty buf size) as [r|]; [|steps; by apply spec_ret].
  eapply silent_bind; [sil|intros [[pl base]|]]; [|by apply spec_ret].
  eapply silent_val_bind; [by apply spec_from_option_val|]. intros m Em%parse_header_unmarked.
  eapply silent_bind; [sil|intros _].
  eapply spec_bind; [apply spec_new_msg|]. intros q T1 P1 (Hq & -> & ->). apply spec_ret.
  split; [|done]. split; [done|]. exists (messageType m). unfold msg_type. by rewrite Em.
Qed.
Lemma safe_processMessage q c : unstored P q -> T !! q = Some (c, false) ->
  spec n T P (processMessage p q) (handled q).
Proof.
  intros Hu Hq. eapply silent_val_bind; [by eapply silent_get_msg_type|]. intros m [<- _].
  destruct (payload m); auto using safe_sync, safe_followup, safe_pdelay_req, safe_pdelay_resp,
    safe_announce, safe_signalling.
  apply safe_resp_followup; [done|done| |done|done]. intros p' f' E. by apply Hu in E.
Qed.
Lemma safe_collect q : is_Some (T !! q) -> spec n T P (collect q) (fun _ => owned).
Proof.
  intros [[c g] Hq]. eapply silent_val_bind; [by eapply silent_get_msg_type|]. intros m [_ ->].
  destruct g; [|by apply spec_ret].
  eapply spec_mono; [eapply spec_delete_msg; by eexists|]. intros [] T' P' [-> ->].
  apply owned_delete; [done|]. by eapply unstored_marked.
Qed.
End Steps.

Section Reception.
Context {n : nat} `{Env} {T : heap_type} {P : list PtrPart} {p : nat} (Hp : (p < n)%nat).
Context (O : owned T P).

(** What both receivers do with a message. *)
Lemma safe_received (k : nat -> D unit) buf size remote :
  (forall q c T1, owned T1 P -> unstored P q -> T1 !! q = Some (c, false) ->
   spec n T1 P (k q) (fun _ => owned)) ->
  spec n T P (msg ← buildPTPMessage p buf size remote;
              match msg with None => mret tt | Some q => k q end) (fun _ => owned).
Proof.
  intros Hk. eapply spec_bind; [by apply spec_buildPTPMessage|].
  intros [q|] T1 P1 [Hr ->]; [|subst T1; by apply spec_ret].
  destruct Hr as (Hq & c & ->). assert (Hu : unstored P q) by by eapply unstored_fresh.
  eapply Hk; [by apply owned_insert|done|by rewrite lookup_insert_eq].
Qed.
Lemma safe_eth_receive buf size remote speed :
  spec n T P (eth_receive p buf size remote speed) (fun _ => owned).
Proof.
  apply safe_received. intros q c T1 O1 Hu Hq. steps.
  eapply spec_bind; [by eapply safe_processMessage|]. intros [] T2 P2 [O2 Hs]. by apply safe_collect.
Qed.
Lemma safe_wl_receive buf size remote : spec n T P (wl_receive p buf size remote) (fun _ => owned).
Proof.
  apply safe_received. intros q c T1 O1 Hu Hq. steps.
  eapply spec_bind with (R1 := handled q); [|intros [] T2 P2 [O2 Hs]; by apply safe_collect].
  destruct (isEvent _); [by eapply handled_mark|by eapply safe_processMessage].
Qed.
Lemma safe_indication addr current previous buf buflen : is_wl P p ->
  spec n T P (timeMeasurementIndicationCB p addr current previous buf buflen) (fun _ => owned).
Proof.
  intros Hw. eapply spec_bind; [by apply spec_buildPTPMessage|].
  intros msg T1 P1 [Hr ->]. eapply silent_bind; [sil|intros w].
  eapply spec_bind with (R1 := fun _ => owned); [|intros [] T2 P2 O2; eapply spec_silent; [sil|done]].
  destruct msg as [q|]; [|subst T1; by apply spec_ret].
  destruct Hr as (Hq & c & ->). assert (Hu : unstored P q) by by eapply unstored_fresh.
  eapply silent_val_bind; [eapply silent_get_msg_type; by rewrite lookup_insert_eq|]. intros m [Hm _].
  destruct (bool_decide (messageType m = FOLLOWUP_MESSAGE)) eqn:Ef; cbn;
    [|apply spec_ret; by apply owned_insert].
  apply bool_decide_eq_true_1 in Ef. unfold messageType in Ef. rewrite Hm in Ef. clear Hm. subst c.
  destruct (_ && _); [|apply spec_ret; by apply owned_insert].
  cbv zeta. eapply silent_bind; [sil|intros _].
  eapply spec_mono; [eapply spec_followup_process_at; [done|by rewrite lookup_insert_eq]|].
  intros [] T2 P2 [-> ->]. rewrite insert_insert_eq. by apply owned_insert.
Qed.
End Reception.

(** ** Runs of the daemon *)

(** The input names a port that exists. *)
Definition in_range (n : nat) (i : Input) : Prop :=
  match i with
  | Fire _ => True
  | Frame p _ _ _ | LinkEvent p _ | Confirm p _ | Indication p _ _ _ _ _ => (p < n)%nat
  end.

Section Runs.
Context {n : nat} `{Env} {T : heap_type} {P : list PtrPart}.

Lemma safe_fire i : owned T P -> spec n T P (fire i) (fun _ => owned).
Proof.
  intros O w G HT HP. unfold fire. destruct (timers w !! i) as [t|] eqn:Et; [|split; [done|by subst]].
  assert (Hp : (tm_port t < n)%nat).
  { pose proof (gd_timers _ _ G) as Ht. rewrite Forall_lookup in Ht. eauto. }
  clear Et. revert w G HT HP. change (spec n T P (ok ← lock TimerQLock;
    if (ok : bool) then
      modify (fun w => w <| timers := base.delete i (timers w) |>);;
      _ ← processEvent (tm_port t) (tm_event t);
      _ ← unlock TimerQLock; mret tt
    else mret tt) (fun _ => owned)).
  eapply silent_bind; [sil|intros [|]]; [|by apply spec_ret].
  eapply silent_bind.
  { apply silent_modify; [|done]. intros w []. constructor; cbn; try done. by apply Forall_delete. }
  intros _. apply safe_then; [by apply safe_processEvent|]. intros r T' P' O'.
  eapply spec_silent; [sil|done].
Qed.
Lemma safe_step i : owned T P -> in_range n i -> spec n T P (daemon_step i) (fun _ => owned).
Proof.
  intros O Hi. destruct i; cbn in Hi; [by apply safe_fire|..].
  - apply spec_by_media; [done|intros _|intros _; by apply safe_wl_receive].
    eapply silent_bind; [sil|intros x]. by apply safe_eth_receive.
  - apply safe_then; [by apply safe_processEvent|]. intros r T' P' O'. by apply spec_ret.
  - apply spec_by_media; [done|intros _; by apply spec_ret|intros Hw]. eapply spec_silent; [sil|done].
  - apply spec_by_media; [done|intros _; by apply spec_ret|intros Hw]. by apply safe_indication.
Qed.
End Runs.

Lemma safe_run {n} `{Env} inputs T P : owned T P -> Forall (in_range n) inputs ->
  spec n T P (daemon_run inputs) (fun _ => owned).
Proof.
  intros O Hi. revert T P O. induction Hi as [|i inputs Hi _ IH]; intros T P O; [by apply spec_ret|].
  cbn [daemon_run]. eapply spec_bind; [by apply safe_step|]. intros [] T1 P1 O1. by apply IH.
Qed.

(** C1: memory safety.  From a state in which every stored pointer owns its
    message and every port has the timestamper of its medium, no input - timers,
    frames, link events, callbacks, in any order, with any contents, whatever
    the environment answers - makes the daemon use a null or a dangling
    pointer or free a message twice, and such a state is reached again. *)
Theorem daemon_run_memory_safe `{Env} n w inputs :
  good n w -> owned (types w) (ptrs w) -> Forall (in_range n) inputs ->
  match daemon_run inputs w with
  | Done _ w' => good n w' /\ owned (types w') (ptrs w')
  | Fault f => f <> NullPointer /\ f <> DanglingPointer
  end.
Proof.
  intros G O Hi. pose proof (safe_run inputs _ _ O Hi w G eq_refl eq_refl) as Hs.
  destruct (daemon_run inputs w); [done|]. by destruct f.
Qed.

Lemma world0_good : good 1 world0.
Proof.
  constructor.
  - reflexivity.
  - intros p Hp. assert (El : port_list (clk world0) = Some 0%nat :: repeat None 31) by reflexivity.
    rewrite El in Hp. apply elem_of_cons in Hp as [[= ->]|Hp]; [lia|].
    by apply list_elem_of_In, repeat_spec in Hp.
  - constructor.
  - by repeat constructor.
  - intros q [m Hm]. done.
Qed.
Lemma world0_owned : owned (types world0) (ptrs world0).
Proof.
  assert (Hn : forall p f, ptr_at (ptrs world0) p f = None).
  { intros [|p] f; [by destruct f|]. by destruct p. }
  constructor; intros *; rewrite Hn; done.
Qed.
Lemma daemon_run_memory_safe_witness :
  match @daemon_run env_ok session world0 with
  | Done _ w' => good 1 w' /\ owned (types w') (ptrs w') /\ size (heap w') = 2%nat
  | Fault _ => False
  end.
Proof.
  pose proof (@daemon_run_memory_safe env_ok 1 world0 session world0_good world0_owned) as Hs.
  destruct (@daemon_run env_ok session world0) as [[] w'|f] eqn:E.
  - destruct Hs as [G O]; [by repeat constructor|]. split; [exact G|]. split; [exact O|].
    apply (f_equal (fun r => match r with Done _ w => size (heap w) | Fault _ => 0%nat end)) in E.
    rewrite <- E. vm_compute. reflexivity.
  - apply (f_equal is_done) in E. vm_compute in E. discriminate.
Defined.
