(* ===== verification/Persist.v ===== *)
(** * Saved state

    [serializeState] and [restoreSerializedState] of [IEEE1588Clock]
    (common/ieee1588clock.cpp) and [CommonPort] (common/common_port.cpp), and the
    two places of the daemon (linux/src/daemon_cl.cpp) that chain them over one
    buffer: the callback that saves the state and the start that restores it.
    The members are copied as the host represents them, x87 [long double]s
    included. *)

From Stdlib Require Import ZArith Lia.
From Stdlib.Floats Require Import SpecFloat.
From stdpp Require Import base gmap list.
From S2P Require Import Prelude Timestamp CFloat Identity Message World Fixture.

(** ** The octets of a [long double]

    Ten octets - the 64-bit significand with its integer bit, the biased
    exponent, the sign - and six of padding, whose values are not specified. *)

Definition sign_bit (s : bool) : Z := if s then 2 ^ 79 else 0.
Definition ld_bits (x : spec_float) : Z :=
  match x with
  | S754_zero s => sign_bit s
  | S754_infinity s => sign_bit s + 0x7FFF * 2 ^ 64 + 2 ^ 63
  | S754_nan => 0x7FFF * 2 ^ 64 + 3 * 2 ^ 62
  | S754_finite s m e =>
      sign_bit s + (if Zpos m <? 2 ^ 63 then 0 else e + 16446) * 2 ^ 64 + Zpos m
  end.
(** A significand without its integer bit is no operand unless the exponent is
    the least. *)
Definition ld_of_bits (z : Z) : spec_float :=
  let s := 2 ^ 79 <=? z in
  let e := (z / 2 ^ 64) mod 2 ^ 15 in
  let m := z mod 2 ^ 64 in
  if e =? 0 then match m with Zpos m => S754_finite s m (-16445) | _ => S754_zero s end
  else if m <? 2 ^ 63 then S754_nan
  else if e =? 0x7FFF then (if m =? 2 ^ 63 then S754_infinity s else S754_nan)
  else match m with Zpos m => S754_finite s m (e - 16446) | _ => S754_nan end.

Definition SIZEOF_LD : nat := 16.
Definition ld_encode (pad : list Z) (x : spec_float) : list Z := le_encode 10 (ld_bits x) ++ pad.
Definition ld_decode (o : list Z) : spec_float := ld_of_bits (le_decode (take 10 o)).

(** The other members; an octet or an integer that is no value of [bool] or of
    the enumeration is [None]. *)
Definition bool_encode (b : bool) : list Z := [Z.b2z b].
Definition bool_decode (o : list Z) : option bool :=
  match o with [0] => Some false | [1] => Some true | _ => None end.
Definition PortState_of_code (z : Z) : option PortState :=
  match z with
  | 7 => Some PTP_MASTER | 8 => Some PTP_PRE_MASTER | 9 => Some PTP_SLAVE
  | 10 => Some PTP_UNCALIBRATED | 11 => Some PTP_DISABLED | 12 => Some PTP_FAULTY
  | 13 => Some PTP_INITIALIZING | 14 => Some PTP_LISTENING | _ => None
  end.
Definition state_encode (s : PortState) : list Z := le_encode 4 (PortState_code s).
Definition state_decode (o : list Z) : option PortState := PortState_of_code (le_decode o).
Definition i64_encode (z : Z) : list Z := le_encode 8 z.
Definition i64_decode (o : list Z) : Z := i64 (le_decode o).

(** ** Blocks

    What the functions keep while they go through the members: whether all
    went well so far, the octets left - or missing - and the position. *)
Record Cursor := mkCursor { cur_ret : bool; cur_count : Z; cur_pos : nat }.

(** [size] octets of a member are appended. *)
Definition save_block (b : nat * list Z) (st : Cursor * list Z) : option (Cursor * list Z) :=
  let '(size, enc) := b in
  let '(mkCursor ret count pos, mem) := st in
  if ret && (Z.of_nat size <=? count) then
    mem' ← put pos enc mem;
    Some (mkCursor true (count - Z.of_nat size) (pos + size), mem')
  else if negb ret then Some (mkCursor false (count + Z.of_nat size) pos, mem)
  else Some (mkCursor false (Z.of_nat size - count) pos, mem).

(** [size] octets are read into a member. *)
Definition load_block {S} (mem : list Z) (b : nat * (list Z -> S -> option S)) (st : Cursor * S)
    : option (Cursor * S) :=
  let '(size, read) := b in
  let '(mkCursor ret count pos, x) := st in
  if ret && (Z.of_nat size <=? count) then
    o ← slice pos size mem;
    x' ← read o x;
    Some (mkCursor true (count - Z.of_nat size) (pos + size), x')
  else if negb ret then Some (mkCursor false (count + Z.of_nat size) pos, x)
  else Some (mkCursor false (Z.of_nat size - count) pos, x).

Fixpoint save_blocks (bs : list (nat * list Z)) (st : Cursor * list Z) : option (Cursor * list Z) :=
  match bs with
  | [] => Some st
  | b :: bs' => st' ← save_block b st; save_blocks bs' st'
  end.
Fixpoint load_blocks {S} (mem : list Z) (bs : list (nat * (list Z -> S -> option S)))
    (st : Cursor * S) : option (Cursor * S) :=
  match bs with
  | [] => Some st
  | b :: bs' => st' ← load_block mem b st; load_blocks mem bs' st'
  end.

(** ** The clock and the port *)

Definition clock_state_size : Z := 16 + 16 + 8.
Definition clock_save (pad : list Z) (c : Clock) : list (nat * list Z) :=
  [ (SIZEOF_LD, ld_encode pad (_master_local_freq_offset c));
    (SIZEOF_LD, ld_encode pad (_local_system_freq_offset c));
    (8%nat, LastEBestIdentity c) ].
Definition clock_load : list (nat * (list Z -> Clock -> option Clock)) :=
  [ (SIZEOF_LD, fun o c => Some (c <| _master_local_freq_offset := ld_decode o |>));
    (SIZEOF_LD, fun o c => Some (c <| _local_system_freq_offset := ld_decode o |>));
    (8%nat, fun o c => Some (c <| LastEBestIdentity := o |>)) ].
Definition clock_serializeState (pad : list Z) (c : Clock) (pos : nat) (count : Z) (mem : list Z)
    : option (Cursor * list Z) := save_blocks (clock_save pad c) (mkCursor true count pos, mem).
Definition clock_restoreSerializedState (mem : list Z) (pos : nat) (count : Z) (c : Clock)
    : option (Cursor * Clock) := load_blocks mem clock_load (mkCursor true count pos, c).

Definition port_state_size : Z := 4 + 16 + 1 + 8.
Definition port_save (pad : list Z) (x : Port) : list (nat * list Z) :=
  [ (1%nat, bool_encode (asCapable x));
    (4%nat, state_encode (port_state x));
    (8%nat, i64_encode (one_way_delay x));
    (SIZEOF_LD, ld_encode pad (_peer_rate_offset x)) ].
Definition port_load : list (nat * (list Z -> Port -> option Port)) :=
  [ (1%nat, fun o x => b ← bool_decode o; Some (x <| asCapable := b |>));
    (4%nat, fun o x => s ← state_decode o; Some (x <| port_state := s |>));
    (8%nat, fun o x => Some (x <| one_way_delay := i64_decode o |>));
    (SIZEOF_LD, fun o x => Some (x <| _peer_rate_offset := ld_decode o |>)) ].
(** Only a master or a slave is saved. *)
Definition port_serializeState (pad : list Z) (x : Port) (pos : nat) (count : Z) (mem : list Z)
    : option (Cursor * list Z) :=
  match port_state x with
  | PTP_MASTER | PTP_SLAVE => save_blocks (port_save pad x) (mkCursor true count pos, mem)
  | _ => Some (mkCursor false 0 pos, mem)
  end.
Definition port_restoreSerializedState (mem : list Z) (pos : nat) (count : Z) (x : Port)
    : option (Cursor * Port) := load_blocks mem port_load (mkCursor true count pos, x).

(** ** The daemon

    [buf + (length - count)]: a pointer before the buffer is undefined. *)
Definition rest_of (mem : list Z) (count : Z) : option nat :=
  if count <=? Z.of_nat (length mem) then Some (Z.to_nat (Z.of_nat (length mem) - count)) else None.

(** [setWriteSize] *)
Definition write_size : Z := clock_state_size + port_state_size.

(** [gPTPPersistWriteCB] ignores what the functions return. *)
Definition gPTPPersistWriteCB (pad : list Z) (c : Clock) (x : Port) (mem : list Z) : option (list Z) :=
  r ← clock_serializeState pad c 0 (Z.of_nat (length mem)) mem;
  pos ← rest_of mem (cur_count r.1);
  r ← port_serializeState pad x pos (cur_count r.1) r.2;
  Some r.2.

(** The start of the daemon with the file's contents [mem]: whether it failed,
    the clock, the port. *)
Definition daemon_restore (mem : list Z) (c : Clock) (x : Port) : option (bool * Clock * Port) :=
  r ← clock_restoreSerializedState mem 0 (Z.of_nat (length mem)) c;
  let restorefailed := negb (cur_ret r.1) in
  if restorefailed then Some (true, r.2, x)
  else
    pos ← rest_of mem (cur_count r.1);
    r' ← port_restoreSerializedState mem pos (cur_count r.1) x;
    Some (negb (cur_ret r'.1), r.2, r'.2).

(** ** The representation *)

Definition ld_valid (x : spec_float) : Prop := valid_binary 64 16384 x = true.

Lemma ld_split s e m : 0 <= e < 2 ^ 15 -> 0 <= m < 2 ^ 64 ->
  let z := sign_bit s + e * 2 ^ 64 + m in
  (2 ^ 79 <=? z) = s /\ (z / 2 ^ 64) mod 2 ^ 15 = e /\ z mod 2 ^ 64 = m /\ 0 <= z < 2 ^ 80.
Proof.
  intros He Hm z.
  assert (Hz : z = (e + Z.b2z s * 2 ^ 15) * 2 ^ 64 + m) by (unfold z, sign_bit; destruct s; cbn; lia).
  assert (Hd : z / 2 ^ 64 = e + Z.b2z s * 2 ^ 15).
  { rewrite Hz, Z.div_add_l, (Z.div_small m) by lia. lia. }
  repeat split.
  - unfold z, sign_bit. destruct s; [apply Z.leb_le|apply Z.leb_gt]; lia.
  - rewrite Hd, Z.mod_add by lia. by apply Z.mod_small.
  - rewrite Hz, Z.add_comm, Z.mod_add by lia. by apply Z.mod_small.
  - unfold z, sign_bit. destruct s; lia.
  - unfold z, sign_bit. destruct s; lia.
Qed.

(** A valid finite number has a normal significand, or the least exponent. *)
Lemma ld_finite s m e : ld_valid (S754_finite s m e) ->
  Zpos m < 2 ^ 64 /\ -16445 <= e <= 16320 /\ (Zpos m < 2 ^ 63 -> e = -16445).
Proof.
  unfold ld_valid. cbn. unfold bounded, canonical_mantissa, fexp, SpecFloat.emin.
  rewrite digits2_pos_size, andb_true_iff. intros [Hc%Z.eqb_eq Hb%Z.leb_le].
  pose proof (Z.log2_spec (Zpos m) eq_refl) as [Hl Hu].
  assert (Hm : Zpos m < 2 ^ 64).
  { eapply Z.lt_le_trans; [exact Hu|]. apply Z.pow_le_mono_r; lia. }
  split; [exact Hm|]. split; [lia|]. intros Hs.
  assert (Z.log2 (Zpos m) < 63) by (by apply Z.log2_lt_pow2). lia.
Qed.

Lemma ld_bits_back x : ld_valid x -> ld_of_bits (ld_bits x) = x /\ 0 <= ld_bits x < 2 ^ 80.
Proof.
  intros Hv. destruct x as [s|s| |s m e].
  - destruct (ld_split s 0 0) as (A & B & C & D); [lia..|]. unfold ld_bits.
    replace (sign_bit s) with (sign_bit s + 0 * 2 ^ 64 + 0) by lia.
    split; [|exact D]. unfold ld_of_bits. by rewrite A, B, C.
  - destruct (ld_split s 0x7FFF (2 ^ 63)) as (A & B & C & D); [lia..|]. unfold ld_bits.
    split; [|exact D]. unfold ld_of_bits. by rewrite A, B, C.
  - split; [reflexivity|]. cbn. lia.
  - apply ld_finite in Hv as (Hm & He & Hn). unfold ld_bits.
    set (f := if Zpos m <? 2 ^ 63 then 0 else e + 16446).
    assert (Hf : 0 <= f < 0x7FFF) by (unfold f; destruct (_ <? _); lia).
    destruct (ld_split s f (Zpos m)) as (A & B & C & D); [lia..|].
    split; [|exact D]. unfold ld_of_bits. rewrite A, B, C. unfold f.
    destruct (Z.ltb_spec (Zpos m) (2 ^ 63)) as [Hs|Hs].
    + rewrite Hn by done. done.
    + rewrite (proj2 (Z.eqb_neq _ _)), (proj2 (Z.eqb_neq (e + 16446) 0x7FFF)) by lia.
      f_equal. lia.
Qed.
Lemma ld_back pad x : ld_valid x -> ld_decode (ld_encode pad x) = x.
Proof.
  intros [Hx Hb]%ld_bits_back. unfold ld_decode, ld_encode.
  rewrite take_app_length' by (by rewrite length_le_encode). rewrite le_back by (cbn; lia). done.
Qed.
Lemma length_ld_encode pad x : length pad = 6%nat -> length (ld_encode pad x) = SIZEOF_LD.
Proof. intros Hp. unfold ld_encode. by rewrite length_app, length_le_encode, Hp. Qed.
Lemma state_back s : state_decode (state_encode s) = Some s.
Proof. by destruct s. Qed.
Lemma bool_back b : bool_decode (bool_encode b) = Some b.
Proof. by destruct b. Qed.
Lemma i64_back z : sfits 64 z -> i64_decode (i64_encode z) = z.
Proof. intros Hz. unfold i64_decode, i64_encode. by apply (le_back_signed 8). Qed.

(** ** Going through the blocks *)

Definition total (bs : list (nat * list Z)) : nat := sum_list (bs.*1).
Definition octets_of (bs : list (nat * list Z)) : list Z := concat (bs.*2).
(** Every block has the size it declares. *)
Definition sized (bs : list (nat * list Z)) : Prop := Forall (fun b => length b.2 = b.1) bs.

Lemma total_cons n enc bs : total ((n, enc) :: bs) = (n + total bs)%nat.
Proof. done. Qed.
Lemma octets_of_cons n enc bs : octets_of ((n, enc) :: bs) = enc ++ octets_of bs.
Proof. done. Qed.
Lemma length_octets_of bs : sized bs -> length (octets_of bs) = total bs.
Proof.
  induction 1 as [|b bs Hb _ IH]; [done|]. unfold octets_of, total in *. cbn.
  rewrite length_app, IH. lia.
Qed.

Lemma put_split pos bs mem : (pos + length bs <= length mem)%nat ->
  put pos bs mem = Some (take pos mem ++ bs ++ drop (pos + length bs) mem).
Proof. intros Hl. unfold put. by rewrite decide_True. Qed.

(** All blocks fit: they are written one after the other. *)
Lemma save_fits bs : forall pos count mem, sized bs ->
  Z.of_nat (total bs) <= count -> (pos + total bs <= length mem)%nat ->
  save_blocks bs (mkCursor true count pos, mem) =
  Some (mkCursor true (count - Z.of_nat (total bs)) (pos + total bs),
        take pos mem ++ octets_of bs ++ drop (pos + total bs) mem).
Proof.
  induction bs as [|[n enc] bs IH]; intros pos count mem Hs Hc Hl.
  - unfold total, octets_of. cbn. rewrite Nat.add_0_r, take_drop. do 3 f_equal. lia.
  - apply Forall_cons in Hs as [Hn Hs]. cbn in Hn. rewrite total_cons in *.
    cbn [save_blocks save_block andb].
    rewrite (proj2 (Z.leb_le _ _)) by lia. rewrite put_split by lia. cbn [mbind option_bind].
    set (mem' := take pos mem ++ enc ++ drop (pos + length enc) mem).
    assert (Hl' : length mem' = length mem).
    { unfold mem'. rewrite !length_app, length_take, length_drop. lia. }
    rewrite IH by (lia || done). f_equal. f_equal; [f_equal; lia|].
    unfold mem'. rewrite Hn, octets_of_cons, <- !app_assoc.
    rewrite !(app_assoc (take pos mem) enc).
    rewrite take_app_length', drop_app_ge, drop_drop by (rewrite length_app, length_take; lia).
    rewrite <- !app_assoc. do 4 f_equal. rewrite length_app, length_take. lia.
Qed.

(** The blocks of [bs] are at [pos], and are read by [ls] as the updates [us]. *)
Definition at_pos (mem : list Z) (pos : nat) (bs : list (nat * list Z)) : Prop :=
  slice pos (total bs) mem = Some (octets_of bs).
Inductive reads_as {S} : list (nat * list Z) -> list (nat * (list Z -> S -> option S)) ->
    list (S -> S) -> Prop :=
  | reads_nil : reads_as [] [] []
  | reads_cons n enc read u bs ls us :
      length enc = n -> (forall x, read enc x = Some (u x)) -> reads_as bs ls us ->
      reads_as ((n, enc) :: bs) ((n, read) :: ls) (u :: us).

Lemma reads_as_sized {S} bs (ls : list (nat * (list Z -> S -> option S))) us :
  reads_as bs ls us -> sized bs.
Proof. induction 1; by constructor. Qed.

Lemma slice_app pos la lb a b mem : length a = la -> length b = lb ->
  slice pos (la + lb) mem = Some (a ++ b) ->
  slice pos la mem = Some a /\ slice (pos + la) lb mem = Some b.
Proof.
  intros <- <- Hs. split.
  - rewrite <- (Nat.add_0_r pos). rewrite (slice_sub _ _ 0 (length a) _ _ Hs) by lia.
    rewrite slice_app_l by lia. unfold slice. rewrite decide_True by lia. cbn. by rewrite take_ge.
  - rewrite (slice_sub _ _ (length a) (length b) _ _ Hs) by lia.
    pose proof (slice_middle a b []) as Hm. by rewrite app_nil_r in Hm.
Qed.

(** What is loaded when [count] octets are left: the blocks that fit, up to the
    first that does not. *)
Fixpoint fitting (bs : list (nat * list Z)) (count : Z) : nat :=
  match bs with
  | [] => O
  | (n, _) :: bs' =>
      if Z.of_nat n <=? count then S (fitting bs' (count - Z.of_nat n)) else O
  end.
Definition update_all {S} (us : list (S -> S)) (x : S) : S := fold_left (fun x u => u x) us x.

Lemma load_failed {S} mem (bs : list (nat * list Z)) (ls : list (nat * (list Z -> S -> option S))) us :
  reads_as bs ls us -> forall count pos x,
  load_blocks mem ls (mkCursor false count pos, x) =
  Some (mkCursor false (count + Z.of_nat (total bs)) pos, x).
Proof.
  induction 1 as [|n enc read u bs ls us _ _ _ IH]; intros count pos x.
  - unfold total. cbn. by rewrite Z.add_0_r.
  - cbn [load_blocks load_block andb negb mbind option_bind]. rewrite IH. unfold total. cbn.
    do 3 f_equal. lia.
Qed.

Lemma fitting_bound bs : forall count, 0 <= count ->
  Z.of_nat (total (take (fitting bs count) bs)) <= count.
Proof.
  induction bs as [|[n enc] bs IH]; intros count Hc; cbn [fitting]; [done|].
  destruct (Z.leb_spec (Z.of_nat n) count); cbn [take]; [|done].
  rewrite total_cons. specialize (IH (count - Z.of_nat n)). lia.
Qed.
Lemma fitting_all bs : forall count, Z.of_nat (total bs) <= count -> fitting bs count = length bs.
Proof.
  induction bs as [|[n enc] bs IH]; intros count Hc; [done|]. rewrite total_cons in Hc. cbn.
  rewrite (proj2 (Z.leb_le _ _)) by lia. by rewrite IH by lia.
Qed.

(** Loading: the members that fit are loaded, and the count tells what is left
    or missing. *)
Lemma load_spec {S} mem bs (ls : list (nat * (list Z -> S -> option S))) us :
  reads_as bs ls us -> forall count pos x, 0 <= count ->
  at_pos mem pos (take (fitting bs count) bs) ->
  exists pos',
  load_blocks mem ls (mkCursor true count pos, x) =
  Some (mkCursor (Z.of_nat (total bs) <=? count) (Z.abs (count - Z.of_nat (total bs))) pos',
        update_all (take (fitting bs count) us) x) /\
  (Z.of_nat (total bs) <= count -> pos' = (pos + total bs)%nat).
Proof.
  induction 1 as [|n enc read u bs ls us Hn Hread Hr IH]; intros count pos x Hc Hat.
  - exists pos. unfold total. cbn. rewrite (proj2 (Z.leb_le _ _)) by done.
    rewrite Z.sub_0_r, Z.abs_eq by done. split; [done|lia].
  - cbn [fitting] in *. rewrite total_cons. cbn [load_blocks load_block andb negb].
    destruct (Z.leb_spec (Z.of_nat n) count) as [Hle|Hgt]; cbn [take mbind option_bind] in *.
    + unfold at_pos in Hat. rewrite total_cons, octets_of_cons in Hat.
      pose proof (length_octets_of _ (Forall_take _ (fitting bs (count - Z.of_nat n)) _ (reads_as_sized _ _ _ Hr))) as Hl.
      apply slice_app in Hat as [H1 H2]; [|done|done]. rewrite H1. cbn [mbind option_bind]. rewrite Hread.
      cbn [mbind option_bind]. destruct (IH (count - Z.of_nat n) (pos + n)%nat (u x)) as (pos' & -> & Hp); [lia|done|].
      exists pos'. split; [|lia]. f_equal. f_equal. f_equal; [|lia].
      destruct (Z.leb_spec (Z.of_nat (total bs)) (count - Z.of_nat n)), (Z.leb_spec (Z.of_nat (n + total bs)) count);
        done || lia.
    + exists pos. rewrite (load_failed _ _ _ _ Hr). split; [|lia]. f_equal. f_equal.
      rewrite (proj2 (Z.leb_gt _ _)) by lia. f_equal. lia.
Qed.

(** ** The members that are copied *)

Definition same_clock_state (c c' : Clock) : Clock :=
  c' <| _master_local_freq_offset := _master_local_freq_offset c |>
     <| _local_system_freq_offset := _local_system_freq_offset c |>
     <| LastEBestIdentity := LastEBestIdentity c |>.
Definition same_port_state (x x' : Port) : Port :=
  x' <| asCapable := asCapable x |> <| port_state := port_state x |>
     <| one_way_delay := one_way_delay x |> <| _peer_rate_offset := _peer_rate_offset x |>.
(** The first [k] of them. *)
Definition clock_updates (c : Clock) : list (Clock -> Clock) :=
  [ (fun c' => c' <| _master_local_freq_offset := _master_local_freq_offset c |>);
    (fun c' => c' <| _local_system_freq_offset := _local_system_freq_offset c |>);
    (fun c' => c' <| LastEBestIdentity := LastEBestIdentity c |>) ].
Definition port_updates (x : Port) : list (Port -> Port) :=
  [ (fun x' => x' <| asCapable := asCapable x |>);
    (fun x' => x' <| port_state := port_state x |>);
    (fun x' => x' <| one_way_delay := one_way_delay x |>);
    (fun x' => x' <| _peer_rate_offset := _peer_rate_offset x |>) ].

(** Values that the members can hold. *)
Record storable (pad : list Z) (c : Clock) (x : Port) : Prop := {
  so_pad : length pad = 6%nat;
  so_master : ld_valid (_master_local_freq_offset c);
  so_local : ld_valid (_local_system_freq_offset c);
  so_ebest : length (LastEBestIdentity c) = 8%nat;
  so_delay : sfits 64 (one_way_delay x);
  so_peer : ld_valid (_peer_rate_offset x);
}.

Section Saved.
Context {pad : list Z} {c : Clock} {x : Port} (St : storable pad c x).

Lemma clock_reads : reads_as (clock_save pad c) clock_load (clock_updates c).
Proof.
  destruct St. repeat constructor; auto using length_ld_encode; intros c'; by rewrite ld_back.
Qed.
Lemma port_reads : reads_as (port_save pad x) port_load (port_updates x).
Proof.
  destruct St. repeat constructor; auto using length_ld_encode; intros x';
    rewrite ?bool_back, ?state_back, ?i64_back, ?ld_back by done; done.
Qed.

(** The file of a daemon whose port is a master or a slave. *)
Definition saved_file : list Z := octets_of (clock_save pad c) ++ octets_of (port_save pad x).
Lemma length_saved : length saved_file = 69%nat.
Proof.
  unfold saved_file. rewrite length_app, !length_octets_of; [done|..].
  - apply (reads_as_sized _ _ _ port_reads).
  - apply (reads_as_sized _ _ _ clock_reads).
Qed.
Lemma length_clock_octets : length (octets_of (clock_save pad c)) = 40%nat.
Proof. by rewrite length_octets_of by apply (reads_as_sized _ _ _ clock_reads). Qed.
End Saved.

(** The blocks at the start of a file, of which [n] octets are there. *)
Lemma at_prefix bs pre tail n k : sized bs ->
  (length pre + total (take k bs) <= n)%nat ->
  at_pos (take n (pre ++ octets_of bs ++ tail)) (length pre) (take k bs).
Proof.
  intros Hs Hn. unfold at_pos. set (a := octets_of (take k bs)).
  assert (Ha : length a = total (take k bs)) by (by apply length_octets_of, Forall_take).
  assert (Hb : octets_of bs = a ++ octets_of (drop k bs)).
  { unfold a, octets_of. by rewrite <- concat_app, <- fmap_app, take_drop. }
  rewrite Hb. unfold slice. rewrite decide_True by (rewrite length_take, !length_app; lia). f_equal.
  rewrite skipn_firstn_comm, drop_app_length, <- app_assoc, take_take.
  rewrite take_app_length' by lia. done.
Qed.

(** ** Theorems *)

Section Theorems.
Context {pad : list Z} {c : Clock} {x : Port} (St : storable pad c x).

Lemma total_clock : total (clock_save pad c) = 40%nat.
Proof. done. Qed.
Lemma total_port : total (port_save pad x) = 29%nat.
Proof. done. Qed.

(** The clock's part of the callback. *)
Lemma save_clock mem : (69 <= length mem)%nat ->
  clock_serializeState pad c 0 (Z.of_nat (length mem)) mem =
  Some (mkCursor true (Z.of_nat (length mem) - 40) 40, octets_of (clock_save pad c) ++ drop 40 mem).
Proof.
  intros Hl. unfold clock_serializeState. rewrite save_fits.
  - by rewrite total_clock.
  - apply (reads_as_sized _ _ _ (clock_reads St)).
  - rewrite total_clock. lia.
  - rewrite total_clock. lia.
Qed.
(** The clock's part of the start, of the first [n] octets of a file. *)
Lemma restore_clock tail c' n : (n <= 40 + length tail)%nat ->
  exists pos, clock_restoreSerializedState (take n (octets_of (clock_save pad c) ++ tail)) 0 (Z.of_nat n) c' =
  Some (mkCursor (40 <=? Z.of_nat n) (Z.abs (Z.of_nat n - 40)) pos,
        update_all (take (fitting (clock_save pad c) (Z.of_nat n)) (clock_updates c)) c').
Proof.
  intros Hn. pose proof (reads_as_sized _ _ _ (clock_reads St)) as Hs.
  pose proof (fitting_bound (clock_save pad c) (Z.of_nat n)) as Hb.
  destruct (load_spec (take n (octets_of (clock_save pad c) ++ tail)) _ _ _ (clock_reads St)
    (Z.of_nat n) 0%nat c') as (pos & E & _); [lia| |by exists pos].
  apply (at_prefix _ [] tail n _ Hs). cbn [length]. lia.
Qed.
(** The port's part, after the clock's. *)
Lemma restore_port tail x' n : (40 <= n <= 69 + length tail)%nat ->
  exists pos, port_restoreSerializedState
    (take n (saved_file (pad := pad) (c := c) (x := x) ++ tail)) 40 (Z.of_nat n - 40) x' =
  Some (mkCursor (69 <=? Z.of_nat n) (Z.abs (Z.of_nat n - 40 - 29)) pos,
        update_all (take (fitting (port_save pad x) (Z.of_nat n - 40)) (port_updates x)) x').
Proof.
  intros Hn. pose proof (reads_as_sized _ _ _ (port_reads St)) as Hs.
  pose proof (fitting_bound (port_save pad x) (Z.of_nat n - 40)) as Hb.
  pose proof (length_clock_octets St) as Hl.
  destruct (load_spec (take n (saved_file (pad := pad) (c := c) (x := x) ++ tail)) _ _ _ (port_reads St)
    (Z.of_nat n - 40) 40%nat x') as (pos & E & _); [lia| |].
  - pose proof (at_prefix (port_save pad x) (octets_of (clock_save pad c)) tail n
      (fitting (port_save pad x) (Z.of_nat n - 40)) Hs) as Ha.
    rewrite Hl, app_assoc in Ha. apply Ha. lia.
  - exists pos. unfold port_restoreSerializedState. rewrite E, total_port.
    assert (Hle : (Z.of_nat 29 <=? Z.of_nat n - 40) = (69 <=? Z.of_nat n)); [|by rewrite Hle].
    destruct (Z.leb_spec (Z.of_nat 29) (Z.of_nat n - 40)), (Z.leb_spec 69 (Z.of_nat n)); done || lia.
Qed.

(** What is restored of the first [n] octets of a file. *)
Definition restored (n : nat) (c' : Clock) (x' : Port) : Clock * Port :=
  (update_all (take (fitting (clock_save pad c) (Z.of_nat n)) (clock_updates c)) c',
   if 40 <=? Z.of_nat n
   then update_all (take (fitting (port_save pad x) (Z.of_nat n - 40)) (port_updates x)) x' else x').
Lemma restore_file tail c' x' n : (n <= 69 + length tail)%nat ->
  daemon_restore (take n (saved_file (pad := pad) (c := c) (x := x) ++ tail)) c' x' =
  Some (Z.of_nat n <? 69, (restored n c' x').1, (restored n c' x').2).
Proof.
  intros Hn. pose proof (length_saved St) as Hl. unfold daemon_restore, restored.
  assert (Hlen : length (take n (saved_file (pad := pad) (c := c) (x := x) ++ tail)) = n)
    by (rewrite length_take, length_app; lia).
  rewrite !Hlen.
  destruct (restore_clock (octets_of (port_save pad x) ++ tail) c' n) as (pos & E).
  { unfold saved_file in Hl. rewrite length_app in *. pose proof (length_clock_octets St). lia. }
  rewrite app_assoc in E. fold (saved_file (pad := pad) (c := c) (x := x)) in E.
  rewrite E. cbn [mbind option_bind fst snd cur_ret cur_count].
  destruct (Z.leb_spec 40 (Z.of_nat n)) as [Hge|Hlt]; cbn [negb].
  - unfold rest_of. rewrite Hlen, (proj2 (Z.leb_le _ _)) by lia. cbn [mbind option_bind].
    rewrite Z.abs_eq by lia. replace (Z.to_nat _) with 40%nat by lia.
    destruct (restore_port tail x' n) as (pos' & ->); [lia|]. cbn. do 3 f_equal.
    by destruct (Z.leb_spec 69 (Z.of_nat n)), (Z.ltb_spec (Z.of_nat n) 69); try lia.
  - by rewrite (proj2 (Z.ltb_lt _ _)) by lia.
Qed.
End Theorems.

Lemma whole_file (mem : list Z) : Z.of_nat (length mem) = write_size -> length mem = 69%nat.
Proof. change write_size with 69. lia. Qed.
(** The port's part of a whole file. *)
Lemma rest_of_port mem : (69 <= length mem)%nat ->
  rest_of mem (Z.of_nat (length mem) - 40) = Some 40%nat.
Proof. intros Hl. unfold rest_of. rewrite (proj2 (Z.leb_le _ _)) by lia. f_equal. lia. Qed.
Lemma serialize_port {pad c x} mem : storable pad c x -> (69 <= length mem)%nat ->
  port_state x = PTP_MASTER \/ port_state x = PTP_SLAVE ->
  gPTPPersistWriteCB pad c x mem = Some (saved_file (pad := pad) (c := c) (x := x) ++ drop 69 mem).
Proof.
  intros St Hl Hp. pose proof (length_clock_octets St) as Hc.
  unfold gPTPPersistWriteCB. rewrite (save_clock St mem Hl). cbn [mbind option_bind fst snd cur_count].
  rewrite rest_of_port by done. cbn [mbind option_bind].
  set (k := Z.of_nat (length mem) - 40).
  assert (Hs : port_serializeState pad x 40 k (octets_of (clock_save pad c) ++ drop 40 mem) =
    save_blocks (port_save pad x) (mkCursor true k 40, octets_of (clock_save pad c) ++ drop 40 mem)).
  { unfold port_serializeState. by destruct Hp as [-> | ->]. }
  rewrite Hs, save_fits; cbn [mbind option_bind snd].
  - rewrite take_app_length' by done.
    change (40 + total (port_save pad x))%nat with 69%nat.
    rewrite drop_app_ge by (rewrite Hc; lia). rewrite drop_drop, Hc. unfold saved_file. by rewrite <- app_assoc.
  - apply (reads_as_sized _ _ _ (port_reads St)).
  - change (total (port_save pad x)) with 29%nat. lia.
  - rewrite length_app, length_drop, Hc. change (total (port_save pad x)) with 29%nat. lia.
Qed.
Lemma restore_saved {pad c x} tail c' x' : storable pad c x ->
  daemon_restore (saved_file (pad := pad) (c := c) (x := x) ++ tail) c' x' =
  Some (false, same_clock_state c c', same_port_state x x').
Proof.
  intros St. pose proof (length_saved St) as Hs.
  rewrite <- (take_ge (saved_file ++ tail) (69 + length tail)) by (rewrite length_app; lia).
  rewrite (restore_file St) by lia. rewrite (proj2 (Z.ltb_ge _ _)) by lia.
  unfold restored. rewrite (proj2 (Z.leb_le _ _)) by lia.
  rewrite !fitting_all; [done|..].
  - change (total (port_save pad x)) with 29%nat. lia.
  - change (total (clock_save pad c)) with 40%nat. lia.
Qed.

(** What is saved is restored.  From a port that is a master or a slave, the
    callback fills a file of the size it was told or more, whatever was in it,
    without a change to its length; and a
    daemon that starts from the file has the frequency offsets, the best master,
    the link delay, the neighbour rate ratio, the state and the asCapable flag
    of the one that saved it, long doubles bit for bit, and nothing else
    changed. *)
Theorem persist_roundtrip pad c x mem c' x' :
  storable pad c x -> write_size <= Z.of_nat (length mem) ->
  port_state x = PTP_MASTER \/ port_state x = PTP_SLAVE ->
  exists file, gPTPPersistWriteCB pad c x mem = Some file /\ length file = length mem /\
    daemon_restore file c' x' = Some (false, same_clock_state c c', same_port_state x x').
Proof.
  intros St Hl Hp. change write_size with 69 in Hl. eexists.
  split; [apply serialize_port; [done|lia|done]|]. split; [|by apply restore_saved].
  rewrite length_app, length_drop, (length_saved St). lia.
Qed.

(** A file that is too short.  Whatever part of a saved file is there, the
    start notices that it is not the whole, and has restored exactly the members
    that are complete, in the order of the file, and none of the port when the
    clock's are not all there. *)
Theorem persist_truncated pad c x c' x' n :
  storable pad c x -> Z.of_nat n < write_size ->
  daemon_restore (take n (saved_file (pad := pad) (c := c) (x := x))) c' x' =
  Some (true,
        update_all (take (fitting (clock_save pad c) (Z.of_nat n)) (clock_updates c)) c',
        if clock_state_size <=? Z.of_nat n
        then update_all (take (fitting (port_save pad x) (Z.of_nat n - clock_state_size))
               (port_updates x)) x'
        else x').
Proof.
  intros St Hn. change write_size with 69 in Hn.
  rewrite <- (app_nil_r saved_file), (restore_file St) by (cbn; lia).
  by rewrite (proj2 (Z.ltb_lt _ _)) by lia.
Qed.

Lemma repeat_replicate (z : Z) n : repeat z n = replicate n z.
Proof. induction n as [|n IH]; cbn; [done|]. by rewrite IH. Qed.
(** Zeros where the port should be: the state is no state. *)
Lemma zero_port a x' : length a = 40%nat ->
  port_restoreSerializedState (a ++ repeat 0 29) 40 29 x' = None.
Proof.
  intros Ha. unfold port_restoreSerializedState. cbn [load_blocks port_load load_block andb].
  change (Z.of_nat 1 <=? 29) with true. cbn [andb].
  assert (Ho : forall o l, (o + l <= 29)%nat -> slice (40 + o) l (a ++ repeat 0 29) = Some (repeat 0 l)).
  { intros o l Ho. unfold slice. rewrite decide_True by (rewrite length_app, repeat_length; lia). f_equal.
    rewrite drop_app_ge, Ha by lia. replace (40 + o - 40)%nat with o by lia.
    rewrite !repeat_replicate, drop_replicate, take_replicate. f_equal. lia. }
  generalize dependent (repeat 0 29). intros zeros Ho.
  rewrite (Ho 0%nat 1%nat ltac:(lia) : slice 40 1 _ = Some [0]). cbn [mbind option_bind bool_decode].
  change (Z.of_nat 4 <=? 29 - Z.of_nat 1) with true. change (40 + 1)%nat with 41%nat. cbn [andb].
  by rewrite (Ho 1%nat 4%nat ltac:(lia) : slice 41 4 _ = Some [0; 0; 0; 0]).
Qed.

(** Why the daemon saves only while its port is a master or a slave: a port
    in another state leaves its part of the file as it was, and the callback does
    not look at the failure; were it called then for a file that is new, the
    port's part would be zeros, which are no port state, and the next start
    would read one. *)
Theorem persist_stale pad c x mem :
  storable pad c x -> Z.of_nat (length mem) = write_size ->
  port_state x <> PTP_MASTER -> port_state x <> PTP_SLAVE ->
  gPTPPersistWriteCB pad c x mem = Some (octets_of (clock_save pad c) ++ drop 40 mem) /\
  (mem = repeat 0 69 -> forall file c' x', gPTPPersistWriteCB pad c x mem = Some file ->
   daemon_restore file c' x' = None).
Proof.
  intros St Hl H1 H2. pose proof (whole_file _ Hl) as Hl'.
  assert (Hw : gPTPPersistWriteCB pad c x mem = Some (octets_of (clock_save pad c) ++ drop 40 mem)).
  { unfold gPTPPersistWriteCB. rewrite (save_clock St mem) by lia.
    cbn [mbind option_bind fst snd cur_count]. rewrite rest_of_port by lia. cbn [mbind option_bind].
    unfold port_serializeState. by destruct (port_state x). }
  split; [exact Hw|]. intros -> file c' x' Hf.
  assert (file = octets_of (clock_save pad c) ++ repeat 0 29) as ->
    by (change (repeat 0 29) with (drop 40 (repeat 0 69)); congruence).
  pose proof (length_clock_octets St) as Hc.
  assert (Hlf : length (octets_of (clock_save pad c) ++ repeat 0 29) = 69%nat)
    by (rewrite length_app, Hc; done).
  destruct (restore_clock (x := x) St (repeat 0 29) c' 69) as (pos & E); [done|].
  rewrite take_ge in E by lia.
  unfold daemon_restore. rewrite Hlf, E. cbn [mbind option_bind fst snd cur_ret cur_count].
  change (40 <=? Z.of_nat 69) with true. change (Z.abs (Z.of_nat 69 - 40)) with 29. cbn [negb].
  pose proof (rest_of_port (octets_of (clock_save pad c) ++ repeat 0 29)) as Hr.
  rewrite Hlf in Hr. rewrite (Hr ltac:(lia) : rest_of _ 29 = _). cbn [mbind option_bind]. by rewrite zero_port.
Qed.

(** ** Witnesses *)

Definition saved_clock : Clock :=
  clock_memory <| _master_local_freq_offset := fl_lit fmt_ldouble 1000001 1000000 |>
    <| _local_system_freq_offset := fl_lit fmt_ldouble 3 7 |>.
Definition saved_port : Port :=
  port_memory <| asCapable := true |> <| port_state := PTP_SLAVE |> <| one_way_delay := -412 |>
    <| _peer_rate_offset := fl_lit fmt_ldouble 999999 1000000 |>.
Lemma saved_storable s : storable (repeat 7 6) saved_clock (saved_port <| port_state := s |>).
Proof. split; by vm_compute. Qed.

Lemma persist_roundtrip_witness :
  exists file, gPTPPersistWriteCB (repeat 7 6) saved_clock saved_port (repeat 0 69) = Some file /\
    length file = 69%nat /\
    daemon_restore file clock_memory port_memory =
      Some (false, same_clock_state saved_clock clock_memory, same_port_state saved_port port_memory).
Proof.
  exact (persist_roundtrip (repeat 7 6) saved_clock saved_port (repeat 0 69) clock_memory port_memory
    (saved_storable PTP_SLAVE) (Z.le_refl _) (or_intror eq_refl)).
Defined.
(** Fifty octets: the clock, the flag and the state, but no link delay. *)
Lemma persist_truncated_witness :
  daemon_restore (take 50 (saved_file (pad := repeat 7 6) (c := saved_clock) (x := saved_port)))
    clock_memory port_memory =
  Some (true, same_clock_state saved_clock clock_memory,
        port_memory <| asCapable := true |> <| port_state := PTP_SLAVE |>).
Proof.
  exact (persist_truncated (repeat 7 6) saved_clock saved_port clock_memory port_memory 50
    (saved_storable PTP_SLAVE) eq_refl).
Defined.
Lemma persist_stale_witness :
  exists file, gPTPPersistWriteCB (repeat 7 6) saved_clock
      (saved_port <| port_state := PTP_LISTENING |>) (repeat 0 69) = Some file /\
    daemon_restore file clock_memory port_memory = None.
Proof.
  destruct (persist_stale (repeat 7 6) saved_clock (saved_port <| port_state := PTP_LISTENING |>)
    (repeat 0 69) (saved_storable PTP_LISTENING)) as [Hw Hr]; [done..|].
  eexists. split; [exact Hw|]. by eapply Hr.
Defined.
