(* ===== verification/Config.v ===== *)
(** * The configuration file

    [GptpIniParser] (common/gptp_cfg.cpp): the callback that the ini parser
    calls for each item, with the conversions of the (GNU) C library it relies on.
    The ini parser itself is third-party code: what it calls the callback with
    is an argument. *)

From Stdlib Require Import ZArith Lia Ascii String.
From stdpp Require Import base gmap list strings.
From S2P Require Import Prelude Timestamp Identity Message World Clock Port.

Open Scope string_scope.
Open Scope Z_scope.

(** ** The C library *)

(** [isspace] of the C locale. *)
Definition is_space (c : ascii) : bool :=
  let n := Z.of_nat (nat_of_ascii c) in (n =? 32) || ((9 <=? n) && (n <=? 13)).
(** The value of a decimal digit. *)
Definition digit_of (c : ascii) : option Z :=
  let n := Z.of_nat (nat_of_ascii c) in
  if (48 <=? n) && (n <=? 57) then Some (n - 48) else None.

Fixpoint skip_space (s : string) : string :=
  match s with
  | String c s' => if is_space c then skip_space s' else s
  | EmptyString => s
  end.
(** The digits at the start of [s], after [acc]. *)
Fixpoint digits (acc : Z) (s : string) : Z * string :=
  match s with
  | String c s' => match digit_of c with Some d => digits (acc * 10 + d) s' | None => (acc, s) end
  | EmptyString => (acc, s)
  end.
Definition starts_with_digit (s : string) : bool :=
  match s with String c _ => match digit_of c with Some _ => true | None => false end | _ => false end.

Definition ULONG_MAX : Z := 2 ^ 64 - 1.

(** [strtoul( s, &end, 10 )]: the value, [end], and whether [errno] is set. *)
Definition strtoul (s : string) : Z * string * bool :=
  let s1 := skip_space s in
  let '(neg, s2) :=
    match s1 with
    | String "-" s' => (true, s')
    | String "+" s' => (false, s')
    | _ => (false, s1)
    end in
  if starts_with_digit s2 then
    let '(v, rest) := digits 0 s2 in
    if ULONG_MAX <? v then (ULONG_MAX, rest, true)
    else (if (neg : bool) then u64 (- v) else v, rest, false)
  else (0, s, false).

Definition lower (c : ascii) : ascii :=
  let n := nat_of_ascii c in
  if ((65 <=? n) && (n <=? 90))%nat then ascii_of_nat (n + 32) else c.
(** [strcasecmp( s1, s2 ) == 0] *)
Fixpoint parseMatch (s1 s2 : string) : bool :=
  match s1, s2 with
  | EmptyString, EmptyString => true
  | String a s1', String b s2' => Ascii.eqb (lower a) (lower b) && parseMatch s1' s2'
  | _, _ => false
  end.
(** [strncmp( s, p, strlen( p )) == 0], and what follows the prefix. *)
Fixpoint strip_prefix (p s : string) : option string :=
  match p, s with
  | EmptyString, _ => Some s
  | String a p', String b s' => if Ascii.eqb a b then strip_prefix p' s' else None
  | _, _ => None
  end.

(** ** Link speeds *)

Definition LINKSPEED_10G : Z := 10000000.
Definition LINKSPEED_2_5G : Z := 2500000.
Definition LINKSPEED_1G : Z := 1000000.
Definition LINKSPEED_100MB : Z := 100000.

(** The table ends with [INVALID_LINKSPEED]. *)
Definition speed_name_map : list (Z * string) :=
  [ (LINKSPEED_10G, "LINKSPEED_10G"); (LINKSPEED_2_5G, "LINKSPEED_2_5G");
    (LINKSPEED_1G, "LINKSPEED_1G"); (LINKSPEED_100MB, "LINKSPEED_100MB") ].

Fixpoint find_name (m : list (Z * string)) (speed : Z) : option string :=
  match m with
  | [] => None
  | (v, name) :: m' => if v =? speed then Some name else find_name m' speed
  end.
Definition findNameBySpeed (speed : Z) : option string := find_name speed_name_map speed.

Fixpoint find_speed (m : list (Z * string)) (s : string) : Z * string :=
  match m with
  | [] => (INVALID_LINKSPEED, s)
  | (v, name) :: m' =>
      match strip_prefix name s with Some rest => (v, rest) | None => find_speed m' s end
  end.
(** The speed, and where its name ends. *)
Definition findSpeedByName (name : string) : Z * string := find_speed speed_name_map name.

(** ** The configuration *)

Record gptp_cfg := mkCfg {
  cfg_priority1 : Z;                        (* unsigned char *)
  announceReceiptTimeout : Z;               (* unsigned int *)
  syncReceiptTimeout : Z;                   (* unsigned int *)
  syncReceiptThresh : Z;                    (* unsigned int *)
  neighborPropDelayThresh : Z;              (* int64_t *)
  seqIdAsCapableThresh : Z;                 (* unsigned int *)
  lostPdelayRespThresh : Z;                 (* uint16_t *)
  allowNegativeCorrField : bool;
  cfg_phy_delay : gmap Z (Z * Z);
}.
#[export] Instance eta_gptp_cfg : Settable gptp_cfg := fun c =>
  mkCfg (cfg_priority1 c) (announceReceiptTimeout c) (syncReceiptTimeout c) (syncReceiptThresh c)
    (neighborPropDelayThresh c) (seqIdAsCapableThresh c) (lostPdelayRespThresh c)
    (allowNegativeCorrField c) (cfg_phy_delay c).

(** [phy_delay[ speed ]]: a missing entry is made by a constructor that leaves
    both delays as the memory is; the setters take 16 bits. *)
Definition phy_entry (garbage : Z * Z) (speed : Z) (m : gmap Z (Z * Z)) : Z * Z :=
  default (u16 garbage.1, u16 garbage.2) (m !! speed).
Definition set_tx_delay (garbage : Z * Z) (speed v : Z) (c : gptp_cfg) : gptp_cfg :=
  c <| cfg_phy_delay := <[speed := (u16 v, (phy_entry garbage speed (cfg_phy_delay c)).2)]> (cfg_phy_delay c) |>.
Definition set_rx_delay (garbage : Z * Z) (speed v : Z) (c : gptp_cfg) : gptp_cfg :=
  c <| cfg_phy_delay := <[speed := ((phy_entry garbage speed (cfg_phy_delay c)).1, u16 v)]> (cfg_phy_delay c) |>.
Definition set_delay (speed tx rx : Z) (c : gptp_cfg) : gptp_cfg :=
  c <| cfg_phy_delay := <[speed := (u16 tx, u16 rx)]> (cfg_phy_delay c) |>.

(** ** The callback *)

(** A value that is a number to its end sets a member. *)
Definition number (value : string) (set : Z -> gptp_cfg) (cfg : gptp_cfg) : bool * gptp_cfg :=
  let '(v, rest, range) := strtoul value in
  if (rest =? "")%string && negb range then (true, set v) else (false, cfg).

(** The item "phy_delay": a speed, by name or in numbers, and two delays. *)
Definition item_speed (value : string) : Z * string * bool :=
  let '(speed, rest) := findSpeedByName value in
  if speed =? INVALID_LINKSPEED then
    let '(v, rest, e) := strtoul value in (u32 v, rest, e)
  else (speed, rest, false).
Definition phy_delay_item (value : string) (cfg : gptp_cfg) : bool * gptp_cfg :=
  let '(speed, rest, e0) := item_speed value in
  let '(tx, rest, e1) := strtoul rest in
  let '(rx, rest, e2) := strtoul rest in
  if (rest =? "")%string && negb (e0 || e1 || e2) then (true, set_delay speed (u32 tx) (u32 rx) cfg)
  else (false, cfg).

(** [iniCallBack]: whether the item is accepted, and the configuration. *)
Definition iniCallBack (garbage : Z * Z) (section name value : string) (cfg : gptp_cfg)
    : bool * gptp_cfg :=
  if parseMatch section "ptp" then
    if parseMatch name "priority1" then number value (fun v => cfg <| cfg_priority1 := u8 v |>) cfg
    else (false, cfg)
  else if parseMatch section "port" then
    if parseMatch name "announceReceiptTimeout" then
      number value (fun v => cfg <| announceReceiptTimeout := u32 v |>) cfg
    else if parseMatch name "syncReceiptTimeout" then
      number value (fun v => cfg <| syncReceiptTimeout := u32 v |>) cfg
    else if parseMatch name "neighborPropDelayThresh" then
      number value (fun v => cfg <| neighborPropDelayThresh := i64 v |>) cfg
    else if parseMatch name "syncReceiptThresh" then
      number value (fun v => cfg <| syncReceiptThresh := u32 v |>) cfg
    else if parseMatch name "seqIdAsCapableThresh" then
      number value (fun v => cfg <| seqIdAsCapableThresh := u32 v |>) cfg
    else if parseMatch name "lostPdelayRespThresh" then
      number value (fun v => cfg <| lostPdelayRespThresh := u16 v |>) cfg
    else if parseMatch name "allowNegativeCorrectionField" then
      let '(v, rest, range) := strtoul value in
      let v := u32 v in
      if (rest =? "")%string && negb range && ((v =? 0) || (v =? 1))
      then (true, cfg <| allowNegativeCorrField := v =? 1 |>) else (false, cfg)
    else (false, cfg)
  else if parseMatch section "eth" then
    if parseMatch name "phy_delay_gb_tx" then
      number value (fun v => set_tx_delay garbage LINKSPEED_1G (u32 v) cfg) cfg
    else if parseMatch name "phy_delay_gb_rx" then
      number value (fun v => set_rx_delay garbage LINKSPEED_1G (u32 v) cfg) cfg
    else if parseMatch name "phy_delay_mb_tx" then
      number value (fun v => set_tx_delay garbage LINKSPEED_100MB (u32 v) cfg) cfg
    else if parseMatch name "phy_delay_mb_rx" then
      number value (fun v => set_rx_delay garbage LINKSPEED_100MB (u32 v) cfg) cfg
    else if parseMatch name "phy_delay" then phy_delay_item value cfg
    else (false, cfg)
  else (false, cfg).

(** [GptpIniParser( filename )], in the memory [mem], for the items that the ini
    parser reports; it goes on after an item that is refused. *)
Definition GptpIniParser_new (garbage : Z * Z) (items : list (string * string * string))
    (mem : gptp_cfg) : gptp_cfg :=
  fold_left (fun cfg i => (iniCallBack garbage i.1.1 i.1.2 i.2 cfg).2) items
    (mem <| cfg_phy_delay := ∅ |>).

(** ** Decimal numbers *)

Definition digit (d : Z) : ascii := ascii_of_nat (Z.to_nat (48 + d)).
(** The [n] last digits of [z], before [acc]. *)
Fixpoint last_digits (n : nat) (z : Z) (acc : string) : string :=
  match n with
  | O => acc
  | S n' =>
      let acc := String (digit (z mod 10)) acc in
      if z <? 10 then acc else last_digits n' (z / 10) acc
  end.
(** [z] in decimal, for at most twenty digits. *)
Definition decimal (z : Z) (rest : string) : string := last_digits 20 z rest.

Lemma digit_back d : 0 <= d < 10 -> digit_of (digit d) = Some d.
Proof.
  intros Hd. unfold digit_of, digit. rewrite nat_ascii_embedding by lia. rewrite Z2Nat.id by lia.
  rewrite !(proj2 (Z.leb_le _ _)) by lia. cbn [andb]. f_equal. lia.
Qed.
Lemma last_digits_S n z acc : last_digits (S n) z acc =
  if z <? 10 then String (digit (z mod 10)) acc
  else last_digits n (z / 10) (String (digit (z mod 10)) acc).
Proof. done. Qed.

(** Reading what was printed gives the number back. *)
Lemma digits_last n : forall z a rest, 0 <= z < 10 ^ Z.of_nat n -> (0 < n)%nat ->
  exists k, digits a (last_digits n z rest) = digits (a * 10 ^ k + z) rest /\ 0 <= k /\
    (a = 0 -> a * 10 ^ k + z = z).
Proof.
  induction n as [|n IH]; intros z a rest Hz Hn; [lia|].
  rewrite last_digits_S. destruct (Z.ltb_spec z 10) as [Hlt|Hge].
  - exists 1. cbn [digits]. rewrite digit_back by (apply Z.mod_pos_bound; lia).
    rewrite Z.mod_small by lia. split; [f_equal; lia|lia].
  - rewrite Nat2Z.inj_succ, Z.pow_succ_r in Hz by lia.
    destruct n as [|n']; [cbn in Hz; lia|].
    destruct (IH (z / 10) a (String (digit (z mod 10)) rest)) as (k & E & Hk & _); [|lia|].
    { split; [apply Z.div_pos; lia|]. apply Z.div_lt_upper_bound; lia. }
    exists (k + 1). rewrite E. cbn [digits]. rewrite digit_back by (apply Z.mod_pos_bound; lia).
    split; [|lia]. f_equal. rewrite Z.pow_add_r, Z.pow_1_r by lia.
    pose proof (Z.div_mod z 10 ltac:(lia)). lia.
Qed.
Lemma starts_last n : forall z rest, (0 < n)%nat ->
  starts_with_digit (last_digits n z rest) = true /\
  skip_space (last_digits n z rest) = last_digits n z rest /\
  exists d s, last_digits n z rest = String (digit d) s /\ 0 <= d < 10.
Proof.
  assert (Hd : forall d s, 0 <= d < 10 -> starts_with_digit (String (digit d) s) = true /\
    skip_space (String (digit d) s) = String (digit d) s).
  { intros d s Hd. unfold starts_with_digit. rewrite digit_back by done. split; [done|]. cbn [skip_space].
    assert (is_space (digit d) = false) as ->; [|done]. unfold is_space, digit.
    rewrite nat_ascii_embedding, Z2Nat.id by lia.
    rewrite (proj2 (Z.eqb_neq _ _)), (proj2 (Z.leb_gt (48 + d) 13)) by lia. by rewrite andb_false_r. }
  induction n as [|n IH]; intros z rest Hn; [lia|]. rewrite last_digits_S.
  pose proof (Z.mod_pos_bound z 10 eq_refl) as Hm. destruct (Z.ltb_spec z 10) as [Hlt|Hge].
  - destruct (Hd (z mod 10) rest Hm). split; [done|]. split; [done|]. by exists (z mod 10), rest.
  - destruct n as [|n'].
    + cbn [last_digits]. destruct (Hd (z mod 10) rest Hm). split; [done|]. split; [done|].
      by exists (z mod 10), rest.
    + apply IH. lia.
Qed.

(** [strtoul] on a number followed by something that is no digit. *)
Definition ends_number (s : string) : Prop := starts_with_digit s = false.
Lemma digits_end a s : ends_number s -> digits a s = (a, s).
Proof. unfold ends_number. destruct s as [|c s]; cbn; [done|]. by destruct (digit_of c). Qed.

Lemma strtoul_number s0 z rest : 0 <= z <= ULONG_MAX -> ends_number rest ->
  skip_space s0 = decimal z rest -> strtoul s0 = (z, rest, false).
Proof.
  intros Hz He Hk. unfold strtoul. rewrite Hk. unfold decimal.
  destruct (starts_last 20 z rest) as (Hs & _ & d & s & Hd & Hd'); [lia|].
  assert (Hsign : (match last_digits 20 z rest with
     | String "-" s' => (true, s') | String "+" s' => (false, s')
     | _ => (false, last_digits 20 z rest) end) = (false, last_digits 20 z rest)).
  { rewrite Hd. assert (Hc : d = 0 \/ d = 1 \/ d = 2 \/ d = 3 \/ d = 4 \/ d = 5 \/ d = 6 \/ d = 7 \/ d = 8 \/ d = 9) by lia.
    repeat (destruct Hc as [->|Hc]; [reflexivity|]). by subst. }
  rewrite Hsign, Hs. destruct (digits_last 20 z 0 rest) as (k & E & _ & Hv).
  { unfold ULONG_MAX in Hz. cbn. lia. } { lia. }
  rewrite E, Hv, digits_end by done. by rewrite (proj2 (Z.ltb_ge _ _)) by lia.
Qed.
Lemma strtoul_decimal z rest : 0 <= z <= ULONG_MAX -> ends_number rest ->
  strtoul (decimal z rest) = (z, rest, false).
Proof. intros Hz He. apply strtoul_number; [done|done|]. apply starts_last. lia. Qed.
Lemma strtoul_spaced z rest : 0 <= z <= ULONG_MAX -> ends_number rest ->
  strtoul (String " " (decimal z rest)) = (z, rest, false).
Proof. intros Hz He. apply strtoul_number; [done|done|]. apply starts_last. lia. Qed.

(** ** Names *)

Fixpoint lower_all (s : string) : string :=
  match s with EmptyString => EmptyString | String c s' => String (lower c) (lower_all s') end.
Lemma parseMatch_lower a : forall b, parseMatch a b = (lower_all a =? lower_all b)%string.
Proof.
  induction a as [|x a IH]; intros [|y b]; cbn; try done. rewrite IH. by destruct (Ascii.eqb_spec (lower x) (lower y)).
Qed.
(** Matching is up to the case of letters. *)
Lemma parseMatch_as a b c : parseMatch a b = true -> parseMatch a c = parseMatch b c.
Proof. rewrite !parseMatch_lower. by intros ->%String.eqb_eq. Qed.
Lemma iniCallBack_as g sec sec' name name' value cfg :
  parseMatch sec sec' = true -> parseMatch name name' = true ->
  iniCallBack g sec name value cfg = iniCallBack g sec' name' value cfg.
Proof.
  intros Hs Hn. unfold iniCallBack. by rewrite !(parseMatch_as sec sec' _ Hs), !(parseMatch_as name name' _ Hn).
Qed.

(** ** Theorems *)

(** The items that take a number: section, name, width of the member, and the
    member it sets. *)
Definition number_items (g : Z * Z) : list (string * string * Z * (Z -> gptp_cfg -> gptp_cfg)) :=
  [ ("ptp", "priority1", 8, fun v c => c <| cfg_priority1 := v |>);
    ("port", "announceReceiptTimeout", 32, fun v c => c <| announceReceiptTimeout := v |>);
    ("port", "syncReceiptTimeout", 32, fun v c => c <| syncReceiptTimeout := v |>);
    ("port", "neighborPropDelayThresh", 63, fun v c => c <| neighborPropDelayThresh := v |>);
    ("port", "syncReceiptThresh", 32, fun v c => c <| syncReceiptThresh := v |>);
    ("port", "seqIdAsCapableThresh", 32, fun v c => c <| seqIdAsCapableThresh := v |>);
    ("port", "lostPdelayRespThresh", 16, fun v c => c <| lostPdelayRespThresh := v |>);
    ("eth", "phy_delay_gb_tx", 16, fun v c => set_tx_delay g LINKSPEED_1G v c);
    ("eth", "phy_delay_gb_rx", 16, fun v c => set_rx_delay g LINKSPEED_1G v c);
    ("eth", "phy_delay_mb_tx", 16, fun v c => set_tx_delay g LINKSPEED_100MB v c);
    ("eth", "phy_delay_mb_rx", 16, fun v c => set_rx_delay g LINKSPEED_100MB v c) ].

Lemma number_decimal z f cfg : 0 <= z <= ULONG_MAX -> number (decimal z "") f cfg = (true, f z).
Proof. intros Hz. unfold number. by rewrite strtoul_decimal. Qed.

Lemma numbers_set g z cfg : Forall (fun '(sec, name, bits, set) => 0 <= z < 2 ^ bits ->
  iniCallBack g sec name (decimal z "") cfg = (true, set z cfg)) (number_items g).
Proof.
  assert (Hu : forall w, 0 <= z < 2 ^ w -> uwrap w z = z) by (intros w; apply uwrap_small).
  assert (Hb : forall b w, 0 <= z < 2 ^ b -> 0 <= b <= w -> 0 <= z < 2 ^ w).
  { intros b w Hz Hw. pose proof (Z.pow_le_mono_r 2 b w). lia. }
  assert (Hset : forall b f f', 0 <= z < 2 ^ b -> 0 <= b <= 63 -> f z = f' ->
    number (decimal z "") f cfg = (true, f')).
  { intros b f f' Hz Hw <-. apply number_decimal. unfold ULONG_MAX. specialize (Hb b 63 Hz Hw). lia. }
  repeat constructor; intros Hz; unfold iniCallBack; cbn -[number set_tx_delay set_rx_delay];
    (eapply Hset; [exact Hz|lia|]); unfold set_tx_delay, set_rx_delay, u8, u16, u32.
  4: { unfold i64. by rewrite swrap_small by (unfold sfits; lia). }
  all: by rewrite !Hu by (eapply Hb; [exact Hz|lia]).
Qed.

(** A number in the file is the number in the configuration.  For every item
    that takes a number, however its section and name are capitalised, a value
    that the member can hold, in decimal, is accepted and sets that member and
    nothing else. *)
Theorem config_number g sec name bits set z cfg sec' name' :
  In (sec, name, bits, set) (number_items g) -> 0 <= z < 2 ^ bits ->
  parseMatch sec' sec = true -> parseMatch name' name = true ->
  iniCallBack g sec' name' (decimal z "") cfg = (true, set z cfg).
Proof.
  intros Hin Hz Hs Hn. rewrite (iniCallBack_as _ _ _ _ _ _ _ Hs Hn).
  pose proof (numbers_set g z cfg) as Hf. rewrite Forall_forall in Hf.
  by apply (Hf _ (proj2 (list_elem_of_In _ _) Hin)).
Qed.

(** The name of a speed, or the speed in decimal. *)
Definition speed_text (by_name : bool) (speed : Z) (rest : string) : string :=
  if by_name then match findNameBySpeed speed with Some n => n ++ rest | None => rest end
  else decimal speed rest.
Definition speed_ok (by_name : bool) (speed : Z) : Prop :=
  if by_name then is_Some (findNameBySpeed speed) else 0 <= speed < 2 ^ 32.

Lemma find_by_name speed rest : is_Some (findNameBySpeed speed) ->
  findSpeedByName (speed_text true speed rest) = (speed, rest) /\ (speed =? INVALID_LINKSPEED) = false.
Proof.
  intros [n Hn]. unfold speed_text. rewrite Hn. unfold findNameBySpeed, speed_name_map in Hn. cbn [find_name] in Hn.
  repeat match type of Hn with (if ?v =? speed then _ else _) = _ =>
    destruct (Z.eqb_spec v speed) as [<-|_]; [injection Hn as <-; done|] end. done.
Qed.
(** A number is no name. *)
Lemma find_number speed rest :
  findSpeedByName (decimal speed rest) = (INVALID_LINKSPEED, decimal speed rest).
Proof.
  destruct (starts_last 20 speed rest) as (_ & _ & d & s & Hd & Hd'); [lia|].
  unfold decimal. rewrite Hd. unfold findSpeedByName, speed_name_map. cbn [find_speed strip_prefix].
  assert (Hc : Ascii.eqb "L" (digit d) = false); [|by rewrite Hc].
  apply Ascii.eqb_neq. intros E. apply (f_equal digit_of) in E. by rewrite digit_back in E.
Qed.

Lemma iniCallBack_phy g value cfg :
  iniCallBack g "eth" "phy_delay" value cfg = phy_delay_item value cfg.
Proof. reflexivity. Qed.

(** The delays of a link speed, given by its name or in numbers: the pair of
    delays of that speed, and of no other, is set; whatever follows the second
    delay makes the item refused. *)
Theorem config_phy_delay g by_name speed tx rx cfg trailing :
  speed_ok by_name speed -> 0 <= tx < 2 ^ 16 -> 0 <= rx < 2 ^ 16 -> ends_number trailing ->
  iniCallBack g "eth" "phy_delay"
    (speed_text by_name speed (String " " (decimal tx (String " " (decimal rx trailing))))) cfg =
  if (trailing =? "")%string
  then (true, cfg <| cfg_phy_delay := <[speed := (tx, rx)]> (cfg_phy_delay cfg) |>)
  else (false, cfg).
Proof.
  intros Hs Ht Hr He. rewrite iniCallBack_phy. unfold phy_delay_item.
  set (r1 := String " " (decimal rx trailing)). set (r0 := String " " (decimal tx r1)).
  assert (H0 : item_speed (speed_text by_name speed r0) = (speed, r0, false)).
  { unfold item_speed. destruct by_name.
    - destruct (find_by_name speed r0 Hs) as [-> ->]. done.
    - cbn [speed_text]. rewrite find_number, Z.eqb_refl, strtoul_decimal by (cbn in Hs; unfold ULONG_MAX; lia || done).
      unfold u32. by rewrite uwrap_small. }
  rewrite H0. unfold r0. rewrite strtoul_spaced by (unfold ULONG_MAX; lia || done).
  unfold r1. rewrite strtoul_spaced by (unfold ULONG_MAX; lia || done).
  cbn [orb negb]. rewrite andb_true_r. destruct (trailing =? "")%string; [|done].
  unfold set_delay, u16, u32.
  rewrite !(uwrap_small 32) by (unfold fits; lia). by rewrite !(uwrap_small 16) by (unfold fits; lia).
Qed.

(** An item that is refused changes nothing, and every item of a section or
    name that the program does not know is refused. *)
Theorem config_refused g sec name value cfg :
  ((iniCallBack g sec name value cfg).1 = false -> (iniCallBack g sec name value cfg).2 = cfg) /\
  (parseMatch sec "ptp" = false -> parseMatch sec "port" = false -> parseMatch sec "eth" = false ->
   (iniCallBack g sec name value cfg).1 = false).
Proof.
  assert (Hn : forall set, (number value set cfg).1 = false -> (number value set cfg).2 = cfg).
  { intros set. unfold number. destruct (strtoul value) as [[v rest] e]. by destruct (_ && _). }
  assert (Hp : (phy_delay_item value cfg).1 = false -> (phy_delay_item value cfg).2 = cfg).
  { unfold phy_delay_item. destruct (item_speed value) as [[sp r] e0].
    destruct (strtoul r) as [[tx r1] e1], (strtoul r1) as [[rx r2] e2]. by destruct (_ && _). }
  split; [|by unfold iniCallBack; intros -> -> ->].
  unfold iniCallBack. destruct (strtoul value) as [[v rest] e].
  repeat match goal with |- context [if ?b then _ else _] => destruct b end;
    first [apply Hn|exact Hp|done].
Qed.

(** What the callback takes for a number: an empty value is zero, a value
    that is too large for the member is cut to its width, and so is a negative
    one. *)
Theorem config_lax g cfg :
  iniCallBack g "ptp" "priority1" "" cfg = (true, cfg <| cfg_priority1 := 0 |>) /\
  iniCallBack g "ptp" "priority1" "256" cfg = (true, cfg <| cfg_priority1 := 0 |>) /\
  iniCallBack g "ptp" "priority1" "-1" cfg = (true, cfg <| cfg_priority1 := 255 |>) /\
  iniCallBack g "eth" "phy_delay_gb_tx" "65537" cfg = (true, set_tx_delay g LINKSPEED_1G 1 cfg) /\
  (cfg_phy_delay cfg !! LINKSPEED_1G = None ->
   cfg_phy_delay (iniCallBack g "eth" "phy_delay_gb_tx" "184" cfg).2 !! LINKSPEED_1G =
   Some (184, u16 g.2)).
Proof.
  split; [reflexivity|]. split; [reflexivity|]. split; [reflexivity|]. split; [reflexivity|].
  intros Hn. change ((iniCallBack g "eth" "phy_delay_gb_tx" "184" cfg).2)
    with (set_tx_delay g LINKSPEED_1G 184 cfg).
  unfold set_tx_delay, phy_entry. cbn [cfg_phy_delay]. rewrite Hn. cbn. by rewrite lookup_insert_eq.
Qed.

(** ** Witnesses *)

Definition cfg0 : gptp_cfg := mkCfg 248 3 3 5 800 3 3 false ∅.

Lemma config_number_witness :
  iniCallBack (0, 0) "PTP" "Priority1" "50" cfg0 = (true, cfg0 <| cfg_priority1 := 50 |>).
Proof.
  exact (config_number (0, 0) "ptp" "priority1" 8 (fun v c => c <| cfg_priority1 := v |>) 50 cfg0
    "PTP" "Priority1" (or_introl eq_refl) ltac:(lia) eq_refl eq_refl).
Defined.
Lemma config_phy_delay_witness :
  iniCallBack (0, 0) "eth" "phy_delay" "LINKSPEED_2_5G 550 1044" cfg0 =
  (true, cfg0 <| cfg_phy_delay := {[ LINKSPEED_2_5G := (550, 1044) ]} |>).
Proof.
  apply (config_phy_delay (0, 0) true LINKSPEED_2_5G 550 1044 cfg0 ""); [by eexists|lia|lia|done].
Defined.
Lemma config_refused_witness :
  (iniCallBack (0, 0) "port" "syncReceiptThresh" "five" cfg0).2 = cfg0.
Proof. by apply (config_refused (0, 0) "port" "syncReceiptThresh" "five" cfg0). Defined.
Lemma config_lax_witness :
  cfg_phy_delay (iniCallBack (0, 0xBEEF) "eth" "phy_delay_gb_tx" "184" cfg0).2 !! LINKSPEED_1G =
  Some (184, 0xBEEF).
Proof. by apply (config_lax (0, 0xBEEF) cfg0). Defined.
