(* ===== verification/CommandLine.v ===== *)
(** * The command line

    The first half of [main] (linux/src/daemon_cl.cpp): the defaults, the
    options, and what of the (GNU) C library they are read with - [atoi],
    [strtoul] with base 0, [strtok], which writes to the argument it splits. *)

From Stdlib Require Import ZArith Lia Ascii String.
From stdpp Require Import base gmap list strings.
From S2P Require Import Prelude Timestamp Identity Message World Clock Port Config.

Open Scope string_scope.
Open Scope Z_scope.

(** ** The C library *)

Definition LONG_MAX : Z := 2 ^ 63 - 1.

(** The sign at the start of a number, and the rest. *)
Definition sign_of (s : string) : bool * string :=
  match s with
  | String "-" s' => (true, s')
  | String "+" s' => (false, s')
  | _ => (false, s)
  end.

(** [atoi], which is [strtol] with base 10 cut to 32 bits. *)
Definition atoi (s : string) : Z :=
  let '(neg, s2) := sign_of (skip_space s) in
  let v := (digits 0 s2).1 in
  i32 (if (neg : bool) then Z.max (- v) (- LONG_MAX - 1) else Z.min v LONG_MAX).

(** The value of a digit in a base up to 16. *)
Definition hex_digit (base : Z) (c : ascii) : option Z :=
  let n := Z.of_nat (nat_of_ascii c) in
  let v := if (48 <=? n) && (n <=? 57) then n - 48
           else if (97 <=? n) && (n <=? 102) then n - 87
           else if (65 <=? n) && (n <=? 70) then n - 55
           else 16 in
  if v <? base then Some v else None.
Fixpoint digits_in (base acc : Z) (s : string) : Z :=
  match s with
  | String c s' => match hex_digit base c with Some d => digits_in base (acc * base + d) s' | None => acc end
  | EmptyString => acc
  end.
(** The base that a number shows, and its digits; "0x" without a digit after it
    is the number 0. *)
Definition base_of (s : string) : Z * string :=
  match s with
  | String "0" (String c (String d s')) =>
      if (Ascii.eqb c "x" || Ascii.eqb c "X") && match hex_digit 16 d with Some _ => true | None => false end
      then (16, String d s') else (8, s)
  | String "0" _ => (8, s)
  | _ => (10, s)
  end.
(** [strtoul( s, NULL, 0 )] *)
Definition strtoul0 (s : string) : Z :=
  let '(neg, s2) := sign_of (skip_space s) in
  let '(base, s3) := base_of s2 in
  let v := digits_in base 0 s3 in
  if ULONG_MAX <? v then ULONG_MAX else if (neg : bool) then u64 (- v) else v.

(** The tokens between commas that [strtok] finds one after the other. *)
Fixpoint pieces (s : string) : string * list string :=
  match s with
  | EmptyString => ("", [])
  | String c s' =>
      let '(p, ps) := pieces s' in
      if Ascii.eqb c "," then ("", p :: ps) else (String c p, ps)
  end.
Definition tokens (s : string) : list string :=
  let '(p, ps) := pieces s in filter (fun t => t <> "") (p :: ps).
(** What [strtok] leaves in the array: it ends the first token. *)
Fixpoint first_token (seen : bool) (s : string) : string :=
  match s with
  | EmptyString => ""
  | String c s' =>
      if Ascii.eqb c "," then if seen then "" else String c (first_token false s')
      else String c (first_token true s')
  end.

(** ** The options *)

#[export] Instance eta_PortInit : Settable PortInit := fun i =>
  mkPortInit (pi_index i) (pi_timestamper i) (pi_automotive_profile i) (pi_isGM i) (pi_testMode i)
    (pi_linkUp i) (pi_initialLogSyncInterval i) (pi_initialLogPdelayReqInterval i)
    (pi_operLogPdelayReqInterval i) (pi_operLogSyncInterval i) (pi_phy_delay i)
    (pi_syncReceiptThreshold i) (pi_neighborPropDelayThreshold i) (pi_allowNegativeCorrField i).

(** The variables of [main] that the options set; [persist], [ipc_arg] and
    [config_file] are the values of -M, -G and -F. *)
Record Options := mkOptions {
  syntonize : bool;
  pps : bool;
  o_priority1 : Z;                          (* uint8_t *)
  override_portstate : bool;
  o_port_state : PortState;
  persist : option string;
  ipc_arg : option string;
  config_file : option string;
  input_delay : bool;
  ether_phy_delay : gmap Z (Z * Z);
  portInit : PortInit;
}.
#[export] Instance eta_Options : Settable Options := fun o =>
  mkOptions (syntonize o) (pps o) (o_priority1 o) (override_portstate o) (o_port_state o) (persist o)
    (ipc_arg o) (config_file o) (input_delay o) (ether_phy_delay o) (portInit o).

Definition DEFAULT_SYNC_RECEIPT_THRESH : Z := 5.
Definition NEIGHBOR_PROP_DELAY_THRESH : Z := 800.

Definition portInit_default : PortInit := {|
  pi_index := 0; pi_timestamper := NoTimestamper; pi_automotive_profile := false; pi_isGM := false;
  pi_testMode := false; pi_linkUp := false; pi_initialLogSyncInterval := LOG2_INTERVAL_INVALID;
  pi_initialLogPdelayReqInterval := LOG2_INTERVAL_INVALID;
  pi_operLogPdelayReqInterval := LOG2_INTERVAL_INVALID;
  pi_operLogSyncInterval := LOG2_INTERVAL_INVALID; pi_phy_delay := ∅;
  pi_syncReceiptThreshold := DEFAULT_SYNC_RECEIPT_THRESH;
  pi_neighborPropDelayThreshold := NEIGHBOR_PROP_DELAY_THRESH;
  pi_allowNegativeCorrField := false;
|}.
Definition options_default : Options := {|
  syntonize := false; pps := false; o_priority1 := 248; override_portstate := false;
  o_port_state := PTP_SLAVE; persist := None; ipc_arg := None; config_file := None;
  input_delay := false; ether_phy_delay := ∅; portInit := portInit_default;
|}.

(** What becomes of [main]: it goes on, it returns, or its behaviour is
    undefined. *)
Inductive Parsed :=
  | Run (o : Options)
  | Exit (code : Z)
  | Undefined (f : fault).

(** What the loop knows of [argv[ i + 1 ]]: it is as it was given, it has been
    written to, or it is passed over. *)
Inductive NextArg := AsGiven | Written (s : string) | PassedOver.

(** One option: the result of [main], or the loop's state, with whether
    [strtok] has been given a string before. *)
Definition Step : Type := Parsed + (NextArg * bool * Options).

Definition CONFIG_PATH_SIZE : nat := 512.

(** [-R] *)
Definition arg_priority1 (used : bool) (rest : list string) (o : Options) : Step :=
  match rest with
  | [] => inr (AsGiven, used, o)
  | v :: _ =>
      let tmp := strtoul0 v in
      inr (PassedOver, used, if tmp =? 0 then o else o <| o_priority1 := u8 tmp |>)
  end.

(** [-D]: exactly four tokens; [strtok( NULL )] goes on with the string before,
    which has no more tokens, and without one it uses a null pointer. *)
Definition arg_delay (used : bool) (rest : list string) (o : Options) : Step :=
  match rest with
  | [] => if used then inl (Exit 0) else inl (Undefined NullPointer)
  | v :: _ =>
      match map atoi (tokens v) with
      | [d0; d1; d2; d3] =>
          inr (Written (first_token false v), true,
               o <| input_delay := true |>
                 <| ether_phy_delay := <[LINKSPEED_100MB := (u16 d2, u16 d3)]>
                      (<[LINKSPEED_1G := (u16 d0, u16 d1)]> (ether_phy_delay o)) |>)
      | _ => inl (Exit 0)
      end
  end.

(** [-F]: the path is copied to an array of 512 characters. *)
Definition arg_config (used : bool) (rest : list string) (o : Options) : Step :=
  match rest with
  | [] => inr (AsGiven, used, o)
  | v :: _ =>
      if (String.length v <? CONFIG_PATH_SIZE)%nat
      then inr (AsGiven, used, o <| config_file := Some v |>) else inl (Undefined OutOfBounds)
  end.

(** The options that set an interval take the next argument without a look. *)
Definition arg_interval (used : bool) (rest : list string) (set : Z -> PortInit) (o : Options) : Step :=
  match rest with
  | [] => inl (Undefined NullPointer)
  | v :: _ => inr (PassedOver, used, o <| portInit := set (i8 (atoi v)) |>)
  end.

Definition option_step (used : bool) (name : string) (rest : list string) (o : Options) : Step :=
  let i := portInit o in
  let flag o := inr (AsGiven, used, o) in
  if (name =? "S")%string then flag (o <| syntonize := true |>)
  else if (name =? "T")%string then flag (o <| override_portstate := true |> <| o_port_state := PTP_MASTER |>)
  else if (name =? "L")%string then flag (o <| override_portstate := true |> <| o_port_state := PTP_SLAVE |>)
  else if (name =? "M")%string then
    flag (match rest with v :: _ => o <| persist := Some v |> | [] => o end)
  else if (name =? "G")%string then
    match rest with
    | v :: _ => inr (PassedOver, used, o <| ipc_arg := Some v |>)
    | [] => flag o
    end
  else if (name =? "P")%string then flag (o <| pps := true |>)
  else if (name =? "H")%string then inl (Exit 0)
  else if (name =? "R")%string then arg_priority1 used rest o
  else if (name =? "D")%string then arg_delay used rest o
  else if (name =? "V")%string then flag (o <| portInit := i <| pi_automotive_profile := true |> |>)
  else if (name =? "GM")%string then flag (o <| portInit := i <| pi_isGM := true |> |>)
  else if (name =? "E")%string then flag (o <| portInit := i <| pi_testMode := true |> |>)
  else if (name =? "N")%string then flag (o <| portInit := i <| pi_allowNegativeCorrField := true |> |>)
  else if (name =? "INITSYNC")%string then
    arg_interval used rest (fun z => i <| pi_initialLogSyncInterval := z |>) o
  else if (name =? "OPERSYNC")%string then
    arg_interval used rest (fun z => i <| pi_operLogSyncInterval := z |>) o
  else if (name =? "INITPDELAY")%string then
    arg_interval used rest (fun z => i <| pi_initialLogPdelayReqInterval := z |>) o
  else if (name =? "OPERPDELAY")%string then
    arg_interval used rest (fun z => i <| pi_operLogPdelayReqInterval := z |>) o
  else if (name =? "F")%string then arg_config used rest o
  else flag o.

(** The loop over [argv[ 2 .. argc - 1 ]]; what does not start with a dash, and
    unknown options, are passed over. *)
Fixpoint parse_loop (args : list string) (next : NextArg) (used : bool) (o : Options) : Parsed :=
  match args with
  | [] => Run o
  | a :: rest =>
      match next with
      | PassedOver => parse_loop rest AsGiven used o
      | _ =>
          match match next with Written a' => a' | _ => a end with
          | String "-" name =>
              match option_step used name rest o with
              | inl r => r
              | inr (next', used', o') => parse_loop rest next' used' o'
              end
          | _ => parse_loop rest AsGiven used o
          end
      end
  end.

Definition PHY_DELAY_GB_TX_I20 : Z := 184.
Definition PHY_DELAY_GB_RX_I20 : Z := 382.
Definition PHY_DELAY_MB_TX_I20 : Z := 1044.
Definition PHY_DELAY_MB_RX_I20 : Z := 2133.

(** Without -D the delays of the I210. *)
Definition default_delays (o : Options) : Options :=
  if input_delay o then o
  else o <| ether_phy_delay := <[LINKSPEED_100MB := (PHY_DELAY_MB_TX_I20, PHY_DELAY_MB_RX_I20)]>
              (<[LINKSPEED_1G := (PHY_DELAY_GB_TX_I20, PHY_DELAY_GB_RX_I20)]> (ether_phy_delay o)) |>.

(** [main] up to the delays, on [argv[ 1 .. argc - 1 ]]; the first is the network
    interface. *)
Definition parse_args (args : list string) : Parsed :=
  match args with
  | [] => Exit (-1)
  | _ :: opts =>
      match parse_loop opts AsGiven false options_default with
      | Run o => Run (default_delays o)
      | r => r
      end
  end.

(** ** Numbers *)

Lemma sign_decimal z rest : sign_of (decimal z rest) = (false, decimal z rest).
Proof.
  destruct (starts_last 20 z rest) as (_ & _ & d & s & Hd & Hd'); [lia|]. unfold decimal. rewrite Hd.
  assert (Hc : d = 0 \/ d = 1 \/ d = 2 \/ d = 3 \/ d = 4 \/ d = 5 \/ d = 6 \/ d = 7 \/ d = 8 \/ d = 9) by lia.
  repeat (destruct Hc as [->|Hc]; [reflexivity|]). by subst.
Qed.
Lemma digits_decimal z rest : 0 <= z <= ULONG_MAX -> ends_number rest ->
  digits 0 (decimal z rest) = (z, rest).
Proof.
  intros Hz He. destruct (digits_last 20 z 0 rest) as (k & E & _ & Hv); [unfold ULONG_MAX in Hz; cbn; lia|lia|].
  unfold decimal. by rewrite E, Hv, digits_end.
Qed.
Lemma skip_decimal z rest : skip_space (decimal z rest) = decimal z rest.
Proof. by apply starts_last; lia. Qed.

Lemma i32_small z : - 2 ^ 31 <= z < 2 ^ 31 -> i32 z = z.
Proof. intros Hz. unfold i32. by apply swrap_small. Qed.
Lemma atoi_decimal z : 0 <= z < 2 ^ 31 -> atoi (decimal z "") = z.
Proof.
  intros Hz. unfold atoi. rewrite skip_decimal, sign_decimal, digits_decimal by (unfold ULONG_MAX; lia || done).
  cbn [fst]. rewrite Z.min_l by (unfold LONG_MAX; lia). apply i32_small. lia.
Qed.
Lemma atoi_negative z : 0 <= z <= 2 ^ 31 -> atoi (String "-" (decimal z "")) = - z.
Proof.
  intros Hz. unfold atoi. change (skip_space (String "-" (decimal z ""))) with (String "-" (decimal z "")).
  cbn [sign_of]. rewrite digits_decimal by (unfold ULONG_MAX; lia || done).
  cbn [fst]. rewrite Z.max_l by (unfold LONG_MAX; lia). apply i32_small. lia.
Qed.

(** ** Writing a command line

    The options as a user means them, the arguments that stand for each, and
    what each does. *)

Inductive Interval := INITSYNC | OPERSYNC | INITPDELAY | OPERPDELAY.
Inductive Opt :=
  | OSyntonize | OMaster | OSlave | OPps | OAutomotive | OGrandmaster | OTest | ONegative
  | OPersist (file : string)
  | OGroup (name : string)
  | OPriority (n : Z)
  | ODelay (gb_tx gb_rx mb_tx mb_rx : Z)
  | OInterval (k : Interval) (log : Z)
  | OConfig (path : string).

Definition interval_name (k : Interval) : string :=
  match k with
  | INITSYNC => "INITSYNC" | OPERSYNC => "OPERSYNC" | INITPDELAY => "INITPDELAY" | OPERPDELAY => "OPERPDELAY"
  end.
Definition set_interval (k : Interval) (z : Z) (i : PortInit) : PortInit :=
  match k with
  | INITSYNC => i <| pi_initialLogSyncInterval := z |>
  | OPERSYNC => i <| pi_operLogSyncInterval := z |>
  | INITPDELAY => i <| pi_initialLogPdelayReqInterval := z |>
  | OPERPDELAY => i <| pi_operLogPdelayReqInterval := z |>
  end.
Definition signed (z : Z) : string :=
  if z <? 0 then String "-" (decimal (- z) "") else decimal z "".
Definition delays_text (a b c d : Z) : string :=
  decimal a (String "," (decimal b (String "," (decimal c (String "," (decimal d "")))))).

Definition render (x : Opt) : list string :=
  match x with
  | OSyntonize => ["-S"] | OMaster => ["-T"] | OSlave => ["-L"] | OPps => ["-P"]
  | OAutomotive => ["-V"] | OGrandmaster => ["-GM"] | OTest => ["-E"] | ONegative => ["-N"]
  | OPersist file => ["-M"; file]
  | OGroup name => ["-G"; name]
  | OPriority n => ["-R"; decimal n ""]
  | ODelay a b c d => ["-D"; delays_text a b c d]
  | OInterval k z => [String "-" (interval_name k); signed z]
  | OConfig path => ["-F"; path]
  end.

Definition apply_opt (o : Options) (x : Opt) : Options :=
  match x with
  | OSyntonize => o <| syntonize := true |>
  | OMaster => o <| override_portstate := true |> <| o_port_state := PTP_MASTER |>
  | OSlave => o <| override_portstate := true |> <| o_port_state := PTP_SLAVE |>
  | OPps => o <| pps := true |>
  | OAutomotive => o <| portInit := portInit o <| pi_automotive_profile := true |> |>
  | OGrandmaster => o <| portInit := portInit o <| pi_isGM := true |> |>
  | OTest => o <| portInit := portInit o <| pi_testMode := true |> |>
  | ONegative => o <| portInit := portInit o <| pi_allowNegativeCorrField := true |> |>
  | OPersist file => o <| persist := Some file |>
  | OGroup name => o <| ipc_arg := Some name |>
  | OPriority n => o <| o_priority1 := n |>
  | ODelay a b c d =>
      o <| input_delay := true |>
        <| ether_phy_delay := <[LINKSPEED_100MB := (c, d)]> (<[LINKSPEED_1G := (a, b)]> (ether_phy_delay o)) |>
  | OInterval k z => o <| portInit := set_interval k z (portInit o) |>
  | OConfig path => o <| config_file := Some path |>
  end.

(** The value of -M and of -F is looked at once more, as an option. *)
Definition no_dash (s : string) : Prop := match s with String "-" _ => False | _ => True end.
Definition delay_ok (z : Z) : Prop := 0 <= z < 2 ^ 16.
Definition opt_ok (x : Opt) : Prop :=
  match x with
  | OPersist file => no_dash file
  | OConfig path => no_dash path /\ (String.length path < CONFIG_PATH_SIZE)%nat
  | OPriority n => 1 <= n < 2 ^ 8
  | ODelay a b c d => delay_ok a /\ delay_ok b /\ delay_ok c /\ delay_ok d
  | OInterval _ z => - 2 ^ 7 <= z < 2 ^ 7
  | _ => True
  end.
Definition is_delay (x : Opt) : bool := match x with ODelay _ _ _ _ => true | _ => false end.

(** *** Tokens *)

Fixpoint no_comma (s : string) : bool :=
  match s with String c s' => negb (Ascii.eqb c ",") && no_comma s' | EmptyString => true end.
Lemma pieces_app d s p ps : no_comma d = true -> pieces s = (p, ps) -> pieces (d ++ s) = (d ++ p, ps).
Proof.
  induction d as [|c d IH]; intros Hd Hs; [done|]. cbn in Hd. apply andb_true_iff in Hd as [Hc Hd].
  change (String c d ++ s) with (String c (d ++ s)). cbn [pieces]. rewrite (IH Hd Hs). by apply negb_true_iff in Hc as ->.
Qed.
Lemma string_app_assoc a b c : (a ++ b) ++ c = a ++ (b ++ c).
Proof.
  induction a as [|x a IH]; [done|].
  change ((String x a ++ b) ++ c) with (String x ((a ++ b) ++ c)). by rewrite IH.
Qed.
Lemma last_digits_app n : forall z acc, last_digits n z acc = last_digits n z "" ++ acc.
Proof.
  induction n as [|n IH]; intros z acc; [done|]. rewrite !last_digits_S.
  destruct (z <? 10); [done|]. rewrite IH, (IH _ (String _ "")), string_app_assoc. done.
Qed.
Lemma digit_no_comma d : 0 <= d < 10 -> Ascii.eqb (digit d) "," = false.
Proof.
  intros Hd. apply Ascii.eqb_neq. intros E. apply (f_equal digit_of) in E. by rewrite digit_back in E.
Qed.
Lemma last_digits_no_comma n : forall z acc, no_comma acc = true -> no_comma (last_digits n z acc) = true.
Proof.
  induction n as [|n IH]; intros z acc Ha; [done|]. rewrite last_digits_S.
  assert (Hd : no_comma (String (digit (z mod 10)) acc) = true).
  { cbn. by rewrite digit_no_comma by (apply Z.mod_pos_bound; lia). }
  destruct (z <? 10); auto.
Qed.
Lemma pieces_decimal z s p ps : pieces s = (p, ps) -> pieces (decimal z s) = (decimal z "" ++ p, ps).
Proof.
  intros Hs. unfold decimal. rewrite last_digits_app. apply pieces_app; [|done]. by apply last_digits_no_comma.
Qed.
Lemma pieces_comma s p ps : pieces s = (p, ps) -> pieces (String "," s) = ("", p :: ps).
Proof. intros Hs. cbn. by rewrite Hs. Qed.
Lemma decimal_nonempty z s : decimal z s <> "".
Proof. destruct (starts_last 20 z s) as (_ & _ & d & s' & E & _); [lia|]. unfold decimal. by rewrite E. Qed.

Lemma tokens_delays a b c d :
  tokens (delays_text a b c d) = [decimal a ""; decimal b ""; decimal c ""; decimal d ""].
Proof.
  assert (Hp : forall z s p ps, pieces s = (p, ps) ->
    pieces (decimal z (String "," s)) = (decimal z "", p :: ps)).
  { intros z s p ps Hs. rewrite (pieces_decimal z _ "" (p :: ps)) by by apply pieces_comma.
    unfold decimal. by rewrite <- last_digits_app. }
  assert (Hd : pieces (decimal d "") = (decimal d "", [])).
  { rewrite (pieces_decimal d "" "" []) by done. unfold decimal. by rewrite <- last_digits_app. }
  unfold tokens, delays_text. erewrite Hp; [|eapply Hp, Hp, Hd]. rewrite !filter_cons_True by apply decimal_nonempty. done.
Qed.
Lemma first_token_no_dash a s : no_dash (first_token false (decimal a s)).
Proof.
  destruct (starts_last 20 a s) as (_ & _ & d & s' & E & Hd); [lia|]. unfold decimal. rewrite E.
  cbn [first_token]. rewrite digit_no_comma by done.
  assert (Hc : d = 0 \/ d = 1 \/ d = 2 \/ d = 3 \/ d = 4 \/ d = 5 \/ d = 6 \/ d = 7 \/ d = 8 \/ d = 9) by lia.
  repeat (destruct Hc as [->|Hc]; [exact I|]). by subst.
Qed.

(** *** Values *)

Lemma strtoul0_priority n : 1 <= n < 2 ^ 8 -> strtoul0 (decimal n "") = n.
Proof.
  intros Hn. assert (Hall : Forall (fun n => strtoul0 (decimal n "") = n) (seqZ 1 255)).
  { apply (bool_decide_unpack _). vm_compute. exact I. }
  rewrite Forall_forall in Hall. apply Hall, elem_of_seqZ. lia.
Qed.
Lemma atoi_signed z : - 2 ^ 7 <= z < 2 ^ 7 -> i8 (atoi (signed z)) = z.
Proof.
  intros Hz. assert (atoi (signed z) = z) as ->; [|by apply swrap_small].
  unfold signed. destruct (Z.ltb_spec z 0).
  - rewrite atoi_negative by lia. lia.
  - apply atoi_decimal. lia.
Qed.

(** *** The loop *)

(** An argument that is no option is passed over. *)
Lemma loop_value v rest next used o : no_dash (match next with Written s => s | _ => v end) ->
  parse_loop (v :: rest) next used o = parse_loop rest AsGiven used o.
Proof.
  intros Hv. cbn [parse_loop]. destruct next as [|s|]; [| |done].
  - destruct v as [|c v]; [done|]. by destruct c as [[] [] [] [] [] [] [] []].
  - destruct s as [|c s]; [done|]. by destruct c as [[] [] [] [] [] [] [] []].
Qed.

Lemma loop_delay a b c d rest used o : opt_ok (ODelay a b c d) ->
  parse_loop ("-D" :: delays_text a b c d :: rest) AsGiven used o =
  parse_loop rest AsGiven true (apply_opt o (ODelay a b c d)).
Proof.
  intros (Ha & Hb & Hc & Hd).
  change (parse_loop ("-D" :: delays_text a b c d :: rest) AsGiven used o) with
    (match arg_delay used (delays_text a b c d :: rest) o with
     | inl r => r
     | inr (n, u, o') => parse_loop (delays_text a b c d :: rest) n u o'
     end).
  unfold arg_delay. rewrite tokens_delays. cbn [map].
  unfold delay_ok in *. rewrite !atoi_decimal by lia. cbn match.
  rewrite loop_value by apply first_token_no_dash.
  unfold u16. rewrite !uwrap_small by (unfold fits; lia). done.
Qed.
Lemma loop_interval k z rest used o : opt_ok (OInterval k z) ->
  parse_loop (String "-" (interval_name k) :: signed z :: rest) AsGiven used o =
  parse_loop rest AsGiven used (apply_opt o (OInterval k z)).
Proof.
  intros Hz. pose proof (atoi_signed z Hz) as Ha. revert Ha. generalize (signed z).
  intros v <-. by destruct k.
Qed.
Lemma loop_priority n rest used o : opt_ok (OPriority n) ->
  parse_loop ("-R" :: decimal n "" :: rest) AsGiven used o =
  parse_loop rest AsGiven used (apply_opt o (OPriority n)).
Proof.
  intros Hn. change (parse_loop ("-R" :: decimal n "" :: rest) AsGiven used o) with
    (let tmp := strtoul0 (decimal n "") in
     parse_loop rest AsGiven used (if tmp =? 0 then o else o <| o_priority1 := u8 tmp |>)).
  rewrite strtoul0_priority by exact Hn. cbn zeta. cbn in Hn.
  rewrite (proj2 (Z.eqb_neq _ _)) by lia. unfold u8. by rewrite uwrap_small by (unfold fits; lia).
Qed.
Lemma loop_config path rest used o : opt_ok (OConfig path) ->
  parse_loop ("-F" :: path :: rest) AsGiven used o =
  parse_loop rest AsGiven used (apply_opt o (OConfig path)).
Proof.
  intros [Hd Hl]. change (parse_loop ("-F" :: path :: rest) AsGiven used o) with
    (match (if (String.length path <? CONFIG_PATH_SIZE)%nat
            then inr (AsGiven, used, o <| config_file := Some path |>) else inl (Undefined OutOfBounds) : Step) with
     | inl r => r
     | inr (n, u, o') => parse_loop (path :: rest) n u o'
     end).
  rewrite (proj2 (Nat.ltb_lt _ _)) by done. cbn match. by rewrite loop_value.
Qed.

(** Each option does what it means, and its arguments are consumed. *)
Lemma loop_opt x rest used o : opt_ok x ->
  parse_loop (render x ++ rest)%list AsGiven used o =
  parse_loop rest AsGiven (used || is_delay x) (apply_opt o x).
Proof.
  intros Hx. destruct x; cbn [is_delay]; rewrite ?orb_false_r, ?orb_true_r; try reflexivity.
  - exact (loop_value file rest AsGiven used _ Hx).
  - by apply loop_priority.
  - by apply loop_delay.
  - by apply loop_interval.
  - by apply loop_config.
Qed.

Definition render_all (opts : list Opt) : list string := concat (map render opts).
Definition apply_all (opts : list Opt) (o : Options) : Options := fold_left apply_opt opts o.

Lemma loop_opts opts : forall rest used o, Forall opt_ok opts ->
  parse_loop (render_all opts ++ rest)%list AsGiven used o =
  parse_loop rest AsGiven (used || existsb is_delay opts) (apply_all opts o).
Proof.
  induction opts as [|x opts IH]; intros rest used o Ho.
  - by rewrite orb_false_r.
  - apply Forall_cons in Ho as [Hx Ho]. unfold render_all. cbn [map concat existsb apply_all fold_left].
    rewrite <- app_assoc, loop_opt, orb_assoc by done. by apply IH.
Qed.

(** ** Theorems *)

(** C14: the command line means what it says.  However many options there are, in
    any order and with repetitions, the daemon starts with what they stand for,
    a later one overriding an earlier, and with the delays of the I210 when none
    are given; for every priority from 1 to 255, every delay of 16 bits and
    every interval that a signed octet holds. *)
Theorem command_line ifname opts : Forall opt_ok opts ->
  parse_args (ifname :: render_all opts) = Run (default_delays (apply_all opts options_default)).
Proof.
  intros Ho. unfold parse_args. rewrite <- (app_nil_r (render_all opts)), loop_opts by done. done.
Qed.

(** What an option does that needs a value and is the last argument. *)
Definition without_value (delays_before : bool) (name : string) (o : Options) : Parsed :=
  if (name =? "D")%string then if delays_before then Exit 0 else Undefined NullPointer
  else if bool_decide (name ∈ ["M"; "G"; "R"; "F"]) then Run o
  else Undefined NullPointer.

(** A value that is missing.  After any options, -M, -G, -R and -F without a
    value are ignored; each of the four interval options uses a null pointer,
    and so does -D unless delays were given before, when the daemon exits. *)
Theorem command_line_missing ifname opts name : Forall opt_ok opts ->
  name ∈ ["M"; "G"; "R"; "F"; "D"; "INITSYNC"; "OPERSYNC"; "INITPDELAY"; "OPERPDELAY"] ->
  parse_args (ifname :: render_all opts ++ [String "-" name])%list =
  without_value (existsb is_delay opts) name (default_delays (apply_all opts options_default)).
Proof.
  intros Ho Hn. unfold parse_args. rewrite loop_opts by done. generalize (apply_all opts options_default).
  generalize (existsb is_delay opts). intros b o.
  repeat (apply elem_of_cons in Hn as [->|Hn]; [by destruct b|]). by apply elem_of_nil in Hn.
Qed.

(** The values of -M, -F and -D are looked at as options: a file named "-T" also
    makes the port a master, and so does the first of four delays. *)
Lemma value_reread ifname :
  parse_args [ifname; "-M"; "-T"] =
    Run (default_delays (options_default <| persist := Some "-T" |>
           <| override_portstate := true |> <| o_port_state := PTP_MASTER |>)) /\
  parse_args [ifname; "-D"; "-T,1,2,3"] =
    Run (default_delays (options_default <| input_delay := true |>
           <| ether_phy_delay := <[LINKSPEED_100MB := (2, 3)]> (<[LINKSPEED_1G := (0, 1)]> ∅) |>
           <| override_portstate := true |> <| o_port_state := PTP_MASTER |>)).
Proof. done. Qed.
(** A priority of 256 is accepted, and is the highest there is. *)
Lemma priority_wraps ifname :
  parse_args [ifname; "-R"; "256"] = Run (default_delays (options_default <| o_priority1 := 0 |>)).
Proof. done. Qed.

(** ** Witnesses *)

Definition some_options : list Opt :=
  [OAutomotive; OPriority 100; OInterval INITSYNC (-5); ODelay 184 382 1044 2133; OPersist "ptp.dat";
   OConfig "gptp_cfg.ini"; OInterval OPERPDELAY 0].
Lemma some_options_ok : Forall opt_ok some_options.
Proof. repeat constructor; cbn; unfold delay_ok; lia. Qed.

Lemma command_line_witness :
  render_all some_options = ["-V"; "-R"; "100"; "-INITSYNC"; "-5"; "-D"; "184,382,1044,2133"; "-M"; "ptp.dat";
    "-F"; "gptp_cfg.ini"; "-OPERPDELAY"; "0"] /\
  parse_args ("eth0" :: render_all some_options) =
    Run (default_delays (apply_all some_options options_default)).
Proof. split; [reflexivity|]. apply (command_line "eth0" some_options some_options_ok). Defined.
Lemma command_line_missing_witness :
  parse_args ["eth0"; "-P"; "-INITSYNC"] = Undefined NullPointer.
Proof.
  apply (command_line_missing "eth0" [OPps] "INITSYNC").
  - by repeat constructor.
  - by apply (bool_decide_unpack _).
Defined.
