(* ===== verification/Storage.v ===== *)
(** * The file of the saved state

    [LinuxGPTPPersistFile] (linux/src/linux_hal_persist_file.cpp): the file that
    the daemon restores its state from and saves it to through a shared
    mapping.  The outcomes of the system calls are arguments; the contents of
    the file are a list of octets. *)

From Stdlib Require Import ZArith Lia.
From Stdlib.Floats Require Import SpecFloat.
From stdpp Require Import base gmap list.
From S2P Require Import Prelude Timestamp CFloat Identity Message World Fixture Persist.

(** [persistFD] and [restoredata] tell whether the file is open, and mapped. *)
Record Storage := mkStorage {
  persistFD : bool;
  restoredata : bool;
  storedDataLength : Z;                     (* off_t *)
  memoryDataLength : Z;                     (* off_t *)
  writeCB : bool;
}.
#[export] Instance eta_Storage : Settable Storage := fun s =>
  mkStorage (persistFD s) (restoredata s) (storedDataLength s) (memoryDataLength s) (writeCB s).

Definition LinuxGPTPPersistFile_new : Storage := mkStorage false false 0 0 false.

Definition initStorage (opened : bool) (s : Storage) : bool * Storage :=
  (opened, s <| persistFD := opened |>).

(** The buffer that is found, whose size is a [uint32_t].  An empty file is not
    mapped. *)
Definition readStorage (fstat_ok mmap_ok : bool) (file : list Z) (s : Storage)
    : option (list Z) * Storage :=
  if negb (persistFD s) then (None, s)
  else if negb fstat_ok then (None, s <| storedDataLength := 0 |>)
  else
    let len := Z.of_nat (length file) in
    let s := s <| storedDataLength := len |> in
    if len =? 0 then (None, s)
    else if negb mmap_ok then (None, s <| restoredata := false |>)
    else (Some (take (Z.to_nat (u32 len)) file), s <| restoredata := true |>).

Definition setWriteSize (size : Z) (s : Storage) : Storage := s <| memoryDataLength := size |>.
Definition registerWriteCB (s : Storage) : Storage := s <| writeCB := true |>.

(** [ftruncate] to a greater length appends zeros. *)
Definition extend (n : nat) (file : list Z) : list Z := file ++ repeat 0 (n - length file).

Definition PAGE : nat := 4096.
(** The pages of the file are there to its end; an access after them is a
    signal, and what is written between the end of the file and the end of its
    last page is lost. *)
Definition mapped_octets (file : list Z) : nat := ((length file + (PAGE - 1)) / PAGE * PAGE)%nat.
Definition write_through (n : nat) (cb : list Z -> option (list Z)) (file : list Z)
    : option (list Z) :=
  if (n <=? mapped_octets file)%nat then
    buf ← cb (take n (extend n file));
    Some (take (length file) (buf ++ drop n file))
  else None.

(** [triggerWriteStorage]: the callback is called in every case, also on the
    address that a failed mapping returns. *)
Definition grow (trunc_ok map_ok : bool) (s : Storage) (file : list Z) : bool * Storage * list Z :=
  if storedDataLength s <? memoryDataLength s then
    let file := if persistFD s && trunc_ok then extend (Z.to_nat (memoryDataLength s)) file else file in
    if persistFD s && map_ok
    then (true, s <| restoredata := true |> <| storedDataLength := memoryDataLength s |>, file)
    else (false, s <| restoredata := false |>, file)
  else (false, s, file).
Definition triggerWriteStorage (trunc_ok map_ok : bool) (cb : list Z -> option (list Z))
    (s : Storage) (file : list Z) : option (bool * Storage * list Z) :=
  let '(result, s, file) := grow trunc_ok map_ok s file in
  if negb (writeCB s) then Some (result, s, file)
  else if restoredata s then
    file' ← write_through (Z.to_nat (storedDataLength s)) cb file;
    Some (result, s, file')
  else None.

(** ** The life of a file *)

(** The start of the daemon with [-M], and its preparation for saving. *)
Definition open_storage (file : list Z) : option (list Z) * Storage :=
  let s := (initStorage true LinuxGPTPPersistFile_new).2 in
  let '(buf, s) := readStorage true true file s in
  (buf, registerWriteCB (setWriteSize write_size s)).

(** The file is open and as long as it was found to be, and mapped unless it is
    empty. *)
Record ready (s : Storage) (file : list Z) : Prop := {
  rd_open : persistFD s = true;
  rd_length : storedDataLength s = Z.of_nat (length file);
  rd_mapped : restoredata s = negb (Z.of_nat (length file) =? 0);
  rd_size : memoryDataLength s = write_size;
  rd_cb : writeCB s = true;
}.

Lemma open_ready file : ready (open_storage file).2 file.
Proof.
  unfold open_storage, readStorage. cbn. destruct (Z.eqb_spec (Z.of_nat (length file)) 0) as [E|E]; cbn;
    constructor; cbn; rewrite ?E; try done. by rewrite (proj2 (Z.eqb_neq _ _)).
Qed.
Lemma open_found file : file <> [] -> Z.of_nat (length file) < 2 ^ 32 ->
  (open_storage file).1 = Some file.
Proof.
  intros Hne Hl. unfold open_storage, readStorage. cbn.
  rewrite (proj2 (Z.eqb_neq _ _)) by (by destruct file). cbn. unfold u32.
  rewrite uwrap_small by (unfold fits; lia). by rewrite Nat2Z.id, take_ge.
Qed.
Lemma open_empty : (open_storage []).1 = None.
Proof. done. Qed.

Lemma length_extend n file : length (extend n file) = Nat.max n (length file).
Proof. unfold extend. rewrite length_app, repeat_length. lia. Qed.
Lemma mapped_enough n file : (n <= length file)%nat -> (n <= mapped_octets file)%nat.
Proof.
  intros Hn. unfold mapped_octets. set (l := length file) in *.
  pose proof (Nat.div_mod (l + (PAGE - 1)) PAGE ltac:(done)) as Hd.
  pose proof (Nat.mod_upper_bound (l + (PAGE - 1)) PAGE ltac:(done)) as Hm.
  rewrite Nat.mul_comm in Hd. unfold PAGE in *. lia.
Qed.
Lemma write_all n cb file buf : n = length file -> cb file = Some buf -> length buf = length file ->
  write_through n cb file = Some buf.
Proof.
  intros -> Hc Hb. unfold write_through. rewrite (proj2 (Nat.leb_le _ _)) by (by apply mapped_enough).
  unfold extend. rewrite Nat.sub_diag, app_nil_r, (take_ge file) by done. rewrite Hc. cbn [mbind option_bind].
  rewrite drop_ge, app_nil_r by done. by rewrite take_ge by lia.
Qed.

(** A save through a file that is ready: the file grows to the size of the state
    and the callback writes it in place. *)
Lemma trigger_spec cb s file buf :
  ready s file ->
  cb (extend (Z.to_nat write_size) file) = Some buf ->
  length buf = length (extend (Z.to_nat write_size) file) ->
  exists result s', triggerWriteStorage true true cb s file = Some (result, s', buf) /\ ready s' buf.
Proof.
  intros [Ho Hl Hm Hs Hw] Hcb Hb. unfold triggerWriteStorage, grow. rewrite Hl, Hs, Ho.
  destruct (Z.ltb_spec (Z.of_nat (length file)) write_size) as [Hlt|Hge]; cbn [andb].
  - cbn -[write_size]. rewrite Hw. cbn [negb].
    rewrite length_extend in Hb.
    rewrite (write_all _ _ _ buf); [|by rewrite length_extend; lia|done|by rewrite length_extend].
    cbn [mbind option_bind]. eexists _, _. split; [reflexivity|].
    constructor; cbn -[write_size]; try done; [lia|].
    rewrite Hb. change write_size with 69 in *. by rewrite (proj2 (Z.eqb_neq _ _)) by lia.
  - assert (He : extend (Z.to_nat write_size) file = file).
    { unfold extend. replace (_ - _)%nat with 0%nat by lia. apply app_nil_r. }
    rewrite He in *. rewrite Hw, Hm. change write_size with 69 in Hge.
    rewrite (proj2 (Z.eqb_neq _ _)) by lia. cbn [negb].
    rewrite Hl, Nat2Z.id, (write_all _ _ _ buf) by done. cbn [mbind option_bind].
    eexists _, _. split; [reflexivity|]. constructor; try done; by rewrite Hb.
Qed.

(** What is saved at one time. *)
Record Snapshot := mkSnapshot { sn_pad : list Z; sn_clock : Clock; sn_port : Port }.
Definition savable (n : Snapshot) : Prop :=
  storable (sn_pad n) (sn_clock n) (sn_port n) /\
  (port_state (sn_port n) = PTP_MASTER \/ port_state (sn_port n) = PTP_SLAVE).
Definition save (n : Snapshot) (st : Storage * list Z) : option (Storage * list Z) :=
  r ← triggerWriteStorage true true (gPTPPersistWriteCB (sn_pad n) (sn_clock n) (sn_port n)) st.1 st.2;
  Some (r.1.2, r.2).
Fixpoint save_all (ns : list Snapshot) (st : Storage * list Z) : option (Storage * list Z) :=
  match ns with
  | [] => Some st
  | n :: ns' => st' ← save n st; save_all ns' st'
  end.

(** The file holds the state of [n] at its start. *)
Definition holds (n : Snapshot) (file : list Z) : Prop :=
  exists tail, file = saved_file (pad := sn_pad n) (c := sn_clock n) (x := sn_port n) ++ tail.

Lemma save_spec n s file : savable n -> ready s file ->
  exists s' file', save n (s, file) = Some (s', file') /\ ready s' file' /\ holds n file' /\
    length file' = Nat.max (Z.to_nat write_size) (length file).
Proof.
  intros [St Hp] Hr. set (e := extend (Z.to_nat write_size) file).
  assert (He : length e = Nat.max 69 (length file)) by apply length_extend.
  pose proof (serialize_port e St ltac:(lia) Hp) as Hc.
  pose proof (length_saved St) as Hs.
  destruct (trigger_spec _ _ _ _ Hr Hc) as (r & s' & E & Hr').
  { rewrite length_app, length_drop. fold e. lia. }
  eexists _, _. split; [unfold save; cbn [fst snd]; rewrite E; reflexivity|].
  cbn [fst snd]. split; [exact Hr'|]. split; [by eexists|]. rewrite length_app, length_drop.
  change (Z.to_nat write_size) with 69%nat. lia.
Qed.

Lemma save_all_spec ns n : forall s file, Forall savable (ns ++ [n]) -> ready s file ->
  exists s' file', save_all (ns ++ [n]) (s, file) = Some (s', file') /\ ready s' file' /\
    holds n file' /\ length file' = Nat.max (Z.to_nat write_size) (length file).
Proof.
  induction ns as [|m ns IH]; intros s file Hn Hr; cbn [app save_all]; apply Forall_cons in Hn as [Hm Hn];
    destruct (save_spec _ _ _ Hm Hr) as (s1 & f1 & E & Hr1 & Hh & Hl); rewrite E; cbn [mbind option_bind].
  - by exists s1, f1.
  - destruct (IH s1 f1 Hn Hr1) as (s2 & f2 & E2 & Hr2 & Hh2 & Hl2).
    exists s2, f2. split; [done|]. split; [done|]. split; [done|]. lia.
Qed.

(** ** Theorems *)

(** C39: the file, from one start to the next.  Whatever the file held when the
    daemon started - nothing, a part of a state, or more - and however often
    the state was saved, if the system calls succeed no save is undefined, the
    file has the length of a state or the greater one it had, and the next start
    finds in it the state that was saved last. *)
Theorem storage_keeps_last file ns n c' x' :
  Forall savable (ns ++ [n]) -> Z.of_nat (length file) < 2 ^ 32 ->
  exists s file' buf,
    save_all (ns ++ [n]) ((open_storage file).2, file) = Some (s, file') /\
    length file' = Nat.max (Z.to_nat write_size) (length file) /\
    (open_storage file').1 = Some buf /\
    daemon_restore buf c' x' =
      Some (false, same_clock_state (sn_clock n) c', same_port_state (sn_port n) x').
Proof.
  intros Hn Hl. destruct (save_all_spec ns n _ _ Hn (open_ready file)) as (s & f & E & _ & [tail ->] & Hf).
  exists s. eexists _, _. split; [exact E|]. split; [exact Hf|].
  change (Z.to_nat write_size) with 69%nat in Hf.
  split; [apply open_found; [|lia]|].
  - intros Hnil. rewrite Hnil in Hf. cbn in Hf. lia.
  - apply restore_saved. apply Forall_app in Hn as [_ [[St _] _]%Forall_cons]. exact St.
Qed.

(** A file that cannot be mapped when the daemon starts keeps the length that was
    found, and the first save writes through the address of the failed mapping. *)
Lemma failed_mapping cb file : write_size <= Z.of_nat (length file) ->
  let s := (initStorage true LinuxGPTPPersistFile_new).2 in
  let r := readStorage true false file s in
  triggerWriteStorage true true cb (registerWriteCB (setWriteSize write_size r.2)) file = None.
Proof.
  intros Hl. change write_size with 69 in *. unfold readStorage. cbn.
  rewrite (proj2 (Z.eqb_neq _ _)) by lia. unfold triggerWriteStorage, grow. cbn.
  by rewrite (proj2 (Z.ltb_ge _ _)) by lia.
Qed.

(** ** Witnesses *)

Definition snapshot (s : PortState) : Snapshot :=
  mkSnapshot (repeat 7 6) saved_clock (saved_port <| port_state := s |>).
Lemma storage_keeps_last_witness :
  exists s file' buf,
    save_all [snapshot PTP_MASTER; snapshot PTP_SLAVE] ((open_storage []).2, []) = Some (s, file') /\
    length file' = 69%nat /\ (open_storage file').1 = Some buf /\
    daemon_restore buf clock_memory port_memory =
      Some (false, same_clock_state saved_clock clock_memory, same_port_state saved_port port_memory).
Proof.
  apply (storage_keeps_last [] [snapshot PTP_MASTER] (snapshot PTP_SLAVE)); [|done].
  constructor; [|constructor; [|constructor]]; split; try apply saved_storable; [by left|by right].
Defined.
