(* ===== verification/Startup.v ===== *)
(** * The daemon from its start

    The second half of [main] (linux/src/daemon_cl.cpp): the clock and the
    Ethernet port are made from the options, the configuration file and the
    saved state, the port is powered up, and signals are waited for.  Memory
    safety of the daemon from here on, and that a daemon that is started again
    resumes. *)

From Stdlib Require Import ZArith Lia.
From Stdlib Require String.
From Stdlib.Floats Require Import SpecFloat.
From stdpp Require Import base gmap list.
From S2P Require Import Prelude Timestamp CFloat Identity Message Wire World Loops Clock Port Media Ether Servo Transmit PDelay Sync CommonPort Receive Wireless Dispatch Fixture Runs Ownership Silent HeapSafety Persist Config CommandLine Storage.

Open Scope Z_scope.

(** What [main] gets from its surroundings: the memory its objects are made in,
    the address of the network interface if one can be opened, whether the
    shared memory can be, what [readStorage] finds, and the items of the
    configuration file, none when it cannot be parsed. *)
Record Machine := mkMachine {
  m_clock_memory : Clock;
  m_port_memory : Port;
  m_ether_memory : EtherPart;
  m_cfg_memory : gptp_cfg;
  m_cfg_garbage : Z * Z;
  m_interface : option LinkLayerAddress;
  m_ipc : bool;
  m_stored : option (list Z);
  m_config : option (list (String.string * String.string * String.string));
}.

(** ** Construction *)

Definition new_EtherPort (mem : Port) (emem : EtherPart) (i : PortInit) : D pid :=
  xs ← gets ports;
  let p := length xs in
  modify (fun w => w <| ports := ports w ++ [EtherPort_new mem emem i] |>);;
  registerPort p (pi_index i);;
  mret p.

(** The initial values of the port: with a configuration file, its thresholds,
    its flag, and its delays unless -D was given. *)
Definition configure (m : Machine) (o : Options) : PortInit :=
  let i := portInit o <| pi_index := 1 |> <| pi_timestamper := EtherTs |>
             <| pi_phy_delay := ether_phy_delay o |> in
  match config_file o, m_config m with
  | Some _, Some items =>
      let cfg := GptpIniParser_new (m_cfg_garbage m) items (m_cfg_memory m) in
      i <| pi_neighborPropDelayThreshold := neighborPropDelayThresh cfg |>
        <| pi_syncReceiptThreshold := syncReceiptThresh cfg |>
        <| pi_phy_delay := if input_delay o then ether_phy_delay o else cfg_phy_delay cfg |>
        <| pi_allowNegativeCorrField := allowNegativeCorrField cfg |>
  | _, _ => i
  end.

(** ** The saved state

    The octets that are left after the clock's; none when nothing was found, or
    when it was too short. *)
Definition restoreClock (stored : option (list Z)) : D (option Z) :=
  match stored with
  | None => mret None
  | Some mem =>
      c ← get_clock;
      r ← from_option CastOverflow
            (clock_restoreSerializedState mem 0 (Z.of_nat (length mem)) c);
      mod_clock (fun _ => r.2);;
      mret (if cur_ret r.1 then Some (cur_count r.1) else None)
  end.
Definition restorePort (p : pid) (stored : option (list Z)) (left : option Z) : D unit :=
  match stored, left with
  | Some mem, Some count =>
      pos ← from_option OutOfBounds (rest_of mem count);
      x ← get_port p;
      r ← from_option CastOverflow (port_restoreSerializedState mem pos count x);
      mod_port p (fun _ => r.2)
  | _, _ => mret tt
  end.

(** The automotive profile fixes the state, the options -T and -L may. *)
Definition forced_state (o : Options) : option PortState :=
  if pi_automotive_profile (portInit o) then
    Some (if pi_isGM (portInit o) then PTP_MASTER else PTP_SLAVE)
  else if override_portstate o then Some (o_port_state o) else None.

(** ** [main] *)

Section Main.
Context `{Env}.

(** From the clock's construction to the port's state; none when there is no
    network interface, and the daemon exits. *)
Definition prepare (m : Machine) (o : Options) : D (option pid) :=
  mod_clock (fun _ => IEEE1588Clock_new (m_clock_memory m) false (syntonize o) (o_priority1 o) (m_ipc m));;
  left ← restoreClock (m_stored m);
  p ← new_EtherPort (m_port_memory m) (m_ether_memory m) (configure m o);
  match m_interface m with
  | None => mod_port p (fun x => x <| log_mean_sync_interval := initialLogSyncInterval x |>);; mret None
  | Some addr =>
      init_port p addr;;
      restorePort p (m_stored m) left;;
      (match forced_state o with Some s => setPortState p s | None => mret tt end);;
      mret (Some p)
  end.

Definition main_start (m : Machine) (o : Options) : D (option pid) :=
  r ← prepare m o;
  match r with
  | None => mret None
  | Some p => _ ← processEvent p POWERUP; mret (Some p)
  end.

(** *** Signals *)

Inductive Signal := SIGHUP | SIGUSR2 | SIGINT | SIGTERM.

(** [SIGHUP] saves the state of a master or a slave when -M was given; [pad] is
    what lies in the padding of the long doubles. *)
Definition on_signal (p : pid) (trunc_ok map_ok : bool) (pad : list Z) (sig : Signal)
    (st : option (Storage * list Z)) : D (option (Storage * list Z)) :=
  match sig, st with
  | SIGHUP, Some (s, file) =>
      x ← get_port p;
      c ← get_clock;
      match port_state x with
      | PTP_MASTER | PTP_SLAVE =>
          r ← from_option OutOfBounds
                (triggerWriteStorage trunc_ok map_ok (gPTPPersistWriteCB pad c x) s file);
          mret (Some (r.1.2, r.2))
      | _ => mret st
      end
  | _, _ => mret st
  end.

(** What happens to a daemon: its inputs, and signals with the outcomes of the
    system calls; the loop of [main] ends with another signal than [SIGHUP] and
    [SIGUSR2]. *)
Inductive Occurrence :=
  | Happens (i : Input)
  | Signalled (sig : Signal) (trunc_ok map_ok : bool) (pad : list Z).

Fixpoint main_loop (p : pid) (os : list Occurrence) (st : option (Storage * list Z))
    : D (option (Storage * list Z)) :=
  match os with
  | [] => mret st
  | Happens i :: os' => daemon_step i;; main_loop p os' st
  | Signalled sig trunc_ok map_ok pad :: os' =>
      st' ← on_signal p trunc_ok map_ok pad sig st;
      match sig with
      | SIGHUP | SIGUSR2 => main_loop p os' st'
      | SIGINT | SIGTERM => mret st'
      end
  end.

Definition main (m : Machine) (o : Options) (st : option (Storage * list Z))
    (os : list Occurrence) : D (option (Storage * list Z)) :=
  r ← main_start m o;
  match r with
  | None => mret st
  | Some p => main_loop p os st
  end.
End Main.

(** ** Before the daemon runs

    A world without ports, messages and timers. *)
Definition bare (w : World) : Prop := ports w = [] /\ heap w = ∅ /\ timers w = [].
(** The memory of the clock's list of ports is zero, as the constructor does not
    set it. *)
Definition zero_list (m : Machine) : Prop := Forall (fun o => o = None) (port_list (m_clock_memory m)).

Definition no_ptrs : PtrPart := mkPtrPart None (Some (mkEthPtrs None None None None)).

Lemma owned_start : owned ∅ [no_ptrs].
Proof.
  assert (Hn : forall p f, ptr_at [no_ptrs] p f = None).
  { intros [|p] f; [by destruct f|by destruct p]. }
  constructor; intros *; rewrite Hn; done.
Qed.

(** The members of the clock and of the port that a load does not change. *)
Lemma load_blocks_keeps {S} (R : S -> S -> Prop) `{!PreOrder R} mem
    (ls : list (nat * (list Z -> S -> option S))) :
  Forall (fun l => forall o x x', l.2 o x = Some x' -> R x x') ls ->
  forall st st', load_blocks mem ls st = Some st' -> R st.2 st'.2.
Proof.
  induction 1 as [|[n read] ls Hl _ IH]; intros [[ret count pos] x] st' E; cbn [load_blocks] in E.
  - injection E as <-. reflexivity.
  - apply bind_Some in E as (st1 & E1 & E2). etrans; [|exact (IH _ _ E2)].
    cbn [load_block] in E1. destruct (ret && (Z.of_nat n <=? count)).
    + apply bind_Some in E1 as (o & _ & E1). apply bind_Some in E1 as (x' & Ex & [= <-]). by apply (Hl o).
    + by destruct ret; injection E1 as <-.
Qed.

Definition same_ports (c c' : Clock) : Prop :=
  port_list c' = port_list c /\ number_ports c' = number_ports c.
#[export] Instance same_ports_preorder : PreOrder same_ports.
Proof. split; [done|]. intros a b c [H1 H2] [H3 H4]. split; congruence. Qed.
Definition same_ptrs (x x' : Port) : Prop :=
  ptr_part x' = ptr_part x /\ (equipped x -> equipped x').
#[export] Instance same_ptrs_preorder : PreOrder same_ptrs.
Proof. split; [done|]. intros a b c [H1 H2] [H3 H4]. split; [congruence|auto]. Qed.

Lemma restored_clock mem pos count c r :
  clock_restoreSerializedState mem pos count c = Some r -> same_ports c r.2.
Proof.
  apply (load_blocks_keeps same_ports).
  repeat (apply Forall_cons_2; [intros o x x' [= <-]; done|]). by apply Forall_nil.
Qed.
Lemma restored_port mem pos count x r :
  port_restoreSerializedState mem pos count x = Some r -> same_ptrs x r.2.
Proof.
  apply (load_blocks_keeps same_ptrs).
  repeat (apply Forall_cons_2;
    [intros o y y' E; cbn in E; try (apply bind_Some in E as (? & _ & E)); by injection E as <-|]).
  by apply Forall_nil.
Qed.

(** The clock, from memory and from a file. *)
Lemma restoreClock_run stored w :
  match restoreClock stored w with
  | Done _ w' => exists c, w' = w <| clk := c |> /\ same_ports (clk w) c
  | Fault f => mild f
  end.
Proof.
  destruct stored as [mem|]; [|by exists (clk w); destruct w].
  unfold restoreClock, mbind, M_bind, get_clock, gets, from_option.
  destruct (clock_restoreSerializedState mem 0 (Z.of_nat (length mem)) (clk w)) as [r|] eqn:E; [|exact I].
  exists r.2. split; [done|]. by apply restored_clock in E.
Qed.

Lemma configure_index m o : pi_index (configure m o) = 1 /\ pi_timestamper (configure m o) = EtherTs.
Proof. unfold configure. by destruct (config_file o), (m_config m). Qed.

(** The port is the first: the abstract state has one Ethernet port that keeps
    no message. *)
Lemma new_EtherPort_run mem emem i w :
  bare w -> Forall (fun o => o = None) (port_list (clk w)) ->
  pi_index i = 1 -> pi_timestamper i = EtherTs ->
  exists w', new_EtherPort mem emem i w = Done 0%nat w' /\
    good 1 w' /\ types w' = ∅ /\ ptrs w' = [no_ptrs].
Proof.
  intros (Hp & Hh & Ht) Hl Hi Hts. unfold new_EtherPort, registerPort. rewrite Hi.
  unfold mbind, M_bind, gets, modify, get_clock, mod_clock. cbn. rewrite Hp. eexists. split; [reflexivity|].
  split; [constructor; cbn|split].
  - done.
  - assert (Hf : Forall (fun o => forall p, o = Some p -> (p < 1)%nat) (<[0%nat:=Some 0%nat]> (port_list (clk w)))).
    { apply Forall_insert; [|intros p [= <-]; lia]. eapply Forall_impl; [exact Hl|]. by intros ? ->. }
    intros p Hin. rewrite Forall_forall in Hf. by apply (Hf _ Hin).
  - by rewrite Ht.
  - apply Forall_cons_2; [|by apply Forall_nil].
    unfold equipped, EtherPort_new, set_asCapable. cbn. by destruct (pi_automotive_profile i).
  - rewrite Hh. intros q [m Hm]. done.
  - unfold types. cbn. by rewrite Hh, fmap_empty.
  - unfold ptrs, ptr_part, no_ptrs, set_asCapable. cbn. unfold EtherPart_new.
    by destruct (pi_automotive_profile i), (pi_testMode i).
Qed.

(** The rest of the start leaves the messages alone. *)
Section Silent.
Context {n : nat} `{Env} {T : heap_type} {P : list PtrPart} {p : nat} (Hp : (p < n)%nat).

Lemma sil_init_port addr : silent n T P (init_port p addr).
Proof. sil. Qed.
Lemma sil_setPortState s : silent n T P (setPortState p s).
Proof. sil. Qed.
Lemma sil_restorePort stored left : silent n T P (restorePort p stored left).
Proof.
  destruct stored as [mem|], left as [count|]; try by apply silent_ret. unfold restorePort.
  apply silent_seq; [sil|]. intros pos.
  set (f := fun y => match port_restoreSerializedState mem pos count y with Some r => r.2 | None => y end).
  intros w G HT HP. pose proof (silent_mod_port T P p f Hp) as Hf.
  unfold get_port, mbind, M_bind, from_option. destruct (ports w !! p) as [x|] eqn:Ex.
  2: { apply lookup_ge_None in Ex. rewrite (gd_ports _ _ G) in Ex. lia. }
  destruct (port_restoreSerializedState mem pos count x) as [r|] eqn:E; cbn [fail mret M_ret]; [|exact I].
  assert (Hm : mod_port p (fun _ => r.2) w = mod_port p f w).
  { unfold mod_port, f. rewrite Ex, E. done. }
  rewrite Hm. apply Hf; [|done..]. intros y. unfold f.
  destruct (port_restoreSerializedState mem pos count y) as [r'|] eqn:Ey; [|done].
  by apply restored_port in Ey.
Qed.
Lemma sil_on_signal t k pad sig st : silent n T P (on_signal p t k pad sig st).
Proof. unfold on_signal. sil. Qed.
End Silent.

(** The port that a start has made is the first. *)
Definition first_port (r : option pid) : Prop := match r with Some p => p = 0%nat | None => True end.
Definition started (w : World) : Prop := good 1 w /\ owned (types w) (ptrs w).
Definition safely {A} (r : res World A) (Q : A -> World -> Prop) : Prop :=
  match r with Done a w => Q a w | Fault f => mild f end.

Lemma safely_bind {A B} (m : D A) (k : A -> D B) w Q R :
  safely (m w) Q -> (forall a w', Q a w' -> safely (k a w') R) -> safely ((m ≫= k) w) R.
Proof. unfold safely, mbind, M_bind. destruct (m w); [|done]. intros Hq Hk. by apply Hk. Qed.
Lemma spec_safely {A} T P (m : D A) R w :
  spec 1 T P m R -> good 1 w -> types w = T -> ptrs w = P ->
  safely (m w) (fun a w' => good 1 w' /\ R a (types w') (ptrs w')).
Proof. intros Hs G HT HP. exact (Hs w G HT HP). Qed.

Lemma prepare_safe `{Env} m o w : bare w -> zero_list m ->
  safely (prepare m o w) (fun r w' => first_port r /\ started w').
Proof.
  intros (Hp & Hh & Ht) Hz. unfold prepare.
  set (c0 := IEEE1588Clock_new _ _ _ _ _).
  eapply (safely_bind _ _ _ (fun _ w' => bare w' /\ clk w' = c0)); [by repeat split|].
  intros _ w1 [B1 C1].
  eapply (safely_bind _ _ _ (fun _ w' => bare w' /\ Forall (fun o => o = None) (port_list (clk w')))).
  { pose proof (restoreClock_run (m_stored m) w1) as Hr. destruct (restoreClock _ w1) as [left w2|f]; [|done].
    destruct Hr as (c & -> & Hc & _). split; [done|]. cbn. by rewrite Hc, C1. }
  intros left w2 [B2 L2]. destruct (configure_index m o) as [Hi Hts].
  destruct (new_EtherPort_run (m_port_memory m) (m_ether_memory m) _ w2 B2 L2 Hi Hts) as (w3 & E & G & HT & HP).
  eapply (safely_bind _ _ _ (fun p w' => p = 0%nat /\ w' = w3)); [by rewrite E|].
  intros p w' [-> ->].
  assert (Hl : (0 < 1)%nat) by lia.
  assert (Hs : spec 1 ∅ [no_ptrs] (match m_interface m with
     | None => mod_port 0 (fun x => x <| log_mean_sync_interval := initialLogSyncInterval x |>);; mret None
     | Some addr => init_port 0 addr;; restorePort 0 (m_stored m) left;;
         (match forced_state o with Some s => setPortState 0 s | None => mret tt end);; mret (Some 0%nat)
     end) (fun r T P => first_port r /\ owned T P)).
  { destruct (m_interface m) as [addr|].
    - eapply silent_bind; [by apply sil_init_port|intros _]. eapply silent_bind; [by apply sil_restorePort|intros _].
      eapply silent_bind; [sil|intros _]. apply spec_ret. split; [done|]. apply owned_start.
    - eapply silent_bind; [sil|intros _]. apply spec_ret. split; [done|]. apply owned_start. }
  pose proof (Hs w3 G HT HP) as Hr. unfold safely, started.
  match type of Hr with match ?t with _ => _ end => destruct t end; [|done]. by destruct Hr as (? & ? & ?).
Qed.

Lemma loop_safe {n} `{Env} p os : (p < n)%nat ->
  (forall i, Happens i ∈ os -> in_range n i) ->
  forall T P st, owned T P -> spec n T P (main_loop p os st) (fun _ => owned).
Proof.
  intros Hp. induction os as [|o os IH]; intros Hi T P st O; cbn [main_loop]; [by apply spec_ret|].
  assert (IH' : forall T P st, owned T P -> spec n T P (main_loop p os st) (fun _ => owned)).
  { intros T' P' st' O'. apply IH; [|done]. intros i Hin. apply Hi. by right. }
  destruct o as [i|sig t k pad].
  - eapply spec_bind; [apply safe_step; [done|apply Hi; by left]|]. intros [] T1 P1 O1. by apply IH'.
  - eapply silent_bind; [by apply sil_on_signal|]. intros st'.
    destruct sig; first [by apply IH'|by apply spec_ret].
Qed.

(** ** Resuming *)

(** The restore of the clock and that of the port, one after the other, are
    [daemon_restore]. *)
Lemma daemon_restore_inv mem c x c' x' : daemon_restore mem c x = Some (false, c', x') ->
  exists count r, clock_restoreSerializedState mem 0 (Z.of_nat (length mem)) c = Some r /\
    cur_ret r.1 = true /\ cur_count r.1 = count /\ r.2 = c' /\
    exists pos r', rest_of mem count = Some pos /\
      port_restoreSerializedState mem pos count x = Some r' /\ r'.2 = x'.
Proof.
  unfold daemon_restore. intros E. apply bind_Some in E as (r & E1 & E).
  destruct (cur_ret r.1) eqn:Er; cbn [negb] in E; [|done].
  apply bind_Some in E as (pos & Ep & E). apply bind_Some in E as (r' & E2 & E).
  injection E as _ <- <-. exists (cur_count r.1), r. repeat split; eauto.
Qed.
Lemma restoreClock_found mem w r :
  clock_restoreSerializedState mem 0 (Z.of_nat (length mem)) (clk w) = Some r ->
  cur_ret r.1 = true ->
  restoreClock (Some mem) w = Done (Some (cur_count r.1)) (w <| clk := r.2 |>).
Proof.
  intros E Er. unfold restoreClock, mbind, M_bind, get_clock, gets, from_option. rewrite E.
  cbn [mret M_ret]. by rewrite Er.
Qed.
Lemma restorePort_found p mem count pos w x r :
  ports w !! p = Some x -> rest_of mem count = Some pos ->
  port_restoreSerializedState mem pos count x = Some r ->
  restorePort p (Some mem) (Some count) w = Done tt (w <| ports := <[p := r.2]> (ports w) |>).
Proof.
  intros Ex Ep E. unfold restorePort, mbind, M_bind, from_option. rewrite Ep. cbn [mret M_ret].
  unfold get_port. rewrite Ex, E. cbn [mret M_ret]. unfold mod_port. by rewrite Ex.
Qed.

(** What a start takes from a saved state [c], [x]: the members of the clock, and
    those of the port, whose state the options may have fixed. *)
Definition resumed (c : Clock) (x : Port) (o : Options) (w : World) : Prop :=
  (_master_local_freq_offset (clk w) = _master_local_freq_offset c /\
   _local_system_freq_offset (clk w) = _local_system_freq_offset c /\
   LastEBestIdentity (clk w) = LastEBestIdentity c) /\
  exists y, ports w = [y] /\ asCapable y = asCapable x /\ one_way_delay y = one_way_delay x /\
    _peer_rate_offset y = _peer_rate_offset x /\
    port_state y = default (port_state x) (forced_state o).

Definition init_port_members (addr : LinkLayerAddress) (x : Port) : Port :=
  x <| log_mean_sync_interval := initialLogSyncInterval x |> <| local_addr := addr |>
    <| port_identity := mkPortIdentity (cid_set_addr addr) (ifindex x) |>.
Lemma run_init_port x addr w : ports w = [x] ->
  init_port 0 addr w = Done tt (w <| ports := [init_port_members addr x] |>
    <| clk := clk w <| clock_identity := cid_set_addr addr |> |>).
Proof.
  intros Hx. unfold init_port, mbind, M_bind, get_clock, gets, mod_clock, modify, mod_port. by rewrite Hx.
Qed.
Lemma prepare_found `{Env} m o w mem addr c x : ports w = [] ->
  m_interface m = Some addr -> m_stored m = Some mem ->
  (forall c' x', daemon_restore mem c' x' = Some (false, same_clock_state c c', same_port_state x x')) ->
  returns (prepare m o) w (fun r w' => r = Some 0%nat /\ resumed c x o w').
Proof.
  intros Hp Ha Hs Hd. unfold prepare. rewrite Ha, Hs.
  set (c0 := IEEE1588Clock_new _ _ _ _ _).
  eapply returns_step; [apply run_mod_clock|].
  destruct (daemon_restore_inv _ _ _ _ _ (Hd c0 (m_port_memory m))) as (count & r & Er & Hret & Hcount & Hc & _).
  eapply returns_step; [apply restoreClock_found; [exact Er|exact Hret]|].
  rewrite Hc, Hcount. destruct (configure_index m o) as [Hi _].
  eapply returns_step.
  { unfold new_EtherPort, registerPort. rewrite Hi.
    unfold mbind, M_bind, gets, modify, get_clock, mod_clock. cbn. rewrite Hp. reflexivity. }
  cbn [length app]. set (x0 := EtherPort_new _ _ _).
  eapply returns_step; [by apply run_init_port|].
  set (x1 := init_port_members addr x0).
  destruct (daemon_restore_inv _ _ _ _ _ (Hd c0 x1)) as (count' & r1 & Er1 & _ & Hcount' & _ & pos & r' & Hpos & Er' & Hx).
  rewrite Er in Er1. injection Er1 as <-. rewrite Hcount in Hcount'. subst count'.
  eapply returns_step; [eapply restorePort_found; [reflexivity|exact Hpos|exact Er']|].
  rewrite Hx. unfold setPortState, resumed.
  destruct (forced_state o) as [sf|]; (eapply returns_step; [reflexivity|]);
    (split; [done|]); (split; [done|]); eexists; repeat split.
Qed.

(** ** Theorems *)


(** C13: a daemon that is started again resumes.  When [SIGHUP] reaches a daemon
    whose port is a master or a slave, the state is saved, and the start after it
    - with any options and configuration, in any memory - makes a clock with the
    same rates and best master, and a port with the same delay, rate and
    asCapable flag, and in the same state unless the options fix one. *)
Theorem restart_resumes `{Env} p x pad s file w :
  ports w !! p = Some x -> storable pad (clk w) x ->
  port_state x = PTP_MASTER \/ port_state x = PTP_SLAVE ->
  ready s file -> Z.of_nat (length file) < 2 ^ 32 ->
  exists s' file', on_signal p true true pad SIGHUP (Some (s, file)) w = Done (Some (s', file')) w /\
  ready s' file' /\
  forall m o w0 addr, ports w0 = [] -> m_interface m = Some addr ->
    m_stored m = (open_storage file').1 ->
    returns (prepare m o) w0 (fun r w1 => r = Some 0%nat /\ resumed (clk w) x o w1).
Proof.
  intros Hx St Hp Hr Hl.
  destruct (save_spec (mkSnapshot pad (clk w) x) s file (conj St Hp) Hr) as (s' & f' & E & Hr' & [tail Ht] & Hlen).
  exists s', f'. split; [|split; [done|]].
  - unfold save in E. apply bind_Some in E as (r & E & [= <- <-]).
    unfold on_signal, mbind, M_bind, get_port, get_clock, gets, from_option. rewrite Hx.
    cbn [fst snd sn_pad sn_clock sn_port] in E. by destruct Hp as [-> | ->]; rewrite E.
  - intros m o w0 addr H0 Ha Hst. change (Z.to_nat write_size) with 69%nat in Hlen.
    rewrite open_found in Hst by first [lia|intros ->; cbn in Hlen; lia].
    eapply prepare_found; [done|done|exact Hst|]. intros c' x'. rewrite Ht. by apply restore_saved.
Qed.

(** ** Witnesses *)

Definition machine (stored : option (list Z)) : Machine := {|
  m_clock_memory := clock_memory; m_port_memory := port_memory; m_ether_memory := ether_memory;
  m_cfg_memory := mkCfg 0 0 0 0 0 0 0 false ∅; m_cfg_garbage := (0, 0);
  m_interface := Some mac; m_ipc := true; m_stored := stored; m_config := None;
|}.
Definition bare_world : World := world_of [] clock_memory.

(** A start without options, the session of the fixture, a signal, the end. *)
Definition life : list Occurrence :=
  map Happens session ++ [Signalled SIGHUP true true (repeat 0 6); Signalled SIGTERM true true []].
Definition saved_length (r : res World (option (Storage * list Z))) : option nat :=
  match r with Done (Some (_, file)) _ => Some (length file) | _ => None end.
Lemma life_in_range i : Happens i ∈ life -> in_range 1 i.
Proof.
  unfold life, session. cbn. intros Hi.
  repeat (apply elem_of_cons in Hi as [Hi|Hi]; [try discriminate; injection Hi as ->; cbn; lia|]).
  by apply elem_of_nil in Hi.
Qed.

(** The state of the fixture's slave, saved to a new file. *)
Definition slave_world : World := bare_world <| ports := [saved_port] |> <| clk := saved_clock |>.
Lemma restart_resumes_witness :
  exists s' file', @on_signal 0 true true (repeat 7 6) SIGHUP (Some ((open_storage []).2, [])) slave_world =
    Done (Some (s', file')) slave_world /\
  returns (@prepare (machine (open_storage file').1) (default_delays options_default)) bare_world
    (fun r w1 => r = Some 0%nat /\ resumed saved_clock saved_port (default_delays options_default) w1).
Proof.
  destruct (@restart_resumes env_ok 0 saved_port (repeat 7 6) (open_storage []).2 [] slave_world)
    as (s' & file' & E & _ & Hr).
  - done.
  - exact (saved_storable PTP_SLAVE).
  - by right.
  - apply open_ready.
  - done.
  - exists s', file'. split; [exact E|]. by apply (Hr _ _ _ mac).
Defined.
