(* ===== verification/LinuxClock.v ===== *)
(** * The clock of the Linux network card

    [LinuxTimestamperGeneric] (linux/src/linux_hal_generic.cpp,
    linux/src/linux_hal_generic_adj.cpp): the cross timestamp of the PTP clock
    and the system clock, and the requests to the kernel that step the PTP
    clock and set its frequency.  What the ioctl answers is an argument. *)

From Stdlib Require Import ZArith Lia.
From Stdlib.Floats Require Import SpecFloat.
From stdpp Require Import base gmap list.
From S2P Require Import Prelude Timestamp CFloat.

(** ** Times of the kernel *)

(** [struct timespec], with a [time_t] of 64 bits. *)
Record timespec := mkTimespec { tv_sec : Z; tv_nsec : Z }.

(** [tsToTimestamp] (linux_hal_common.cpp): a [Timestamp] without a version. *)
Definition tsToTimestamp (ts : timespec) : Timestamp :=
  timestamp (u32 (tv_nsec ts)) (u32 (Z.land (tv_sec ts) 0xFFFFFFFF)) (u16 (Z.shiftr (tv_sec ts) 32)).

(** [struct ptp_clock_time] *)
Record ptp_clock_time := mkPct { sec : Z; nsec : Z }.   (* int64_t, uint32_t *)

Definition MAX_NSEC : Z := 1000000000.
(** [pct_diff( a, b )]: the difference, and what is left of [*a], whose seconds
    are borrowed from. *)
Definition pct_diff (a b : ptp_clock_time) : ptp_clock_time * ptp_clock_time :=
  if nsec b <=? nsec a then (mkPct (i64 (sec a - sec b)) (u32 (nsec a - nsec b)), a)
  else
    let a := mkPct (i64 (sec a - 1)) (nsec a) in
    (mkPct (i64 (sec a - sec b)) (u32 (u32 (MAX_NSEC - nsec b) + nsec a)), a).
Definition pctns (t : ptp_clock_time) : Z := i64 (sec t * 1000000000 + nsec t).
Definition pctTimestamp (t : ptp_clock_time) : Timestamp :=
  timestamp (nsec t) (u32 (Z.land (sec t) 0xFFFFFFFF)) (u16 (Z.shiftr (sec t) 32)).

(** ** HWTimestamper_gettime *)

Definition LLONG_MAX : Z := 2 ^ 63 - 1.

(** The loop over the samples: [sys] is the system time of the sample at hand, in
    the state that [pct_diff] has left it in, [rest] the device times, each with
    the system time that was read after it.  [best] is the pair that the two
    pointers point to: the entry of a sample is not written again once the loop
    has come to it. *)
Fixpoint gettime_loop (sys : ptp_clock_time) (rest : list (ptp_clock_time * ptp_clock_time))
    (best : option (ptp_clock_time * ptp_clock_time)) (interval : Z)
    : option (ptp_clock_time * ptp_clock_time) :=
  match rest with
  | [] => best
  | (dev, next) :: rest' =>
      let '(d, next') := pct_diff next sys in
      let interval_t := pctns d in
      if interval_t <? interval then gettime_loop next' rest' (Some (sys, dev)) interval_t
      else gettime_loop next' rest' best interval
  end.

(** The system and the device time; [precise] is what [PTP_SYS_OFFSET_PRECISE]
    answers where it is used, [samples] what [PTP_SYS_OFFSET] does: its first
    system time, and the device times, each with the system time after it. *)
Definition HWTimestamper_gettime (phc_open : bool) (precise : option (ptp_clock_time * ptp_clock_time))
    (samples : option (ptp_clock_time * list (ptp_clock_time * ptp_clock_time)))
    (system_time device_time : Timestamp) : option (Timestamp * Timestamp) :=
  if negb phc_open then None
  else
    match precise with
    | Some (dev, sys) => Some (pctTimestamp sys, pctTimestamp dev)
    | None =>
        match samples with
        | None => None
        | Some (sys, rest) =>
            match gettime_loop sys rest None LLONG_MAX with
            | Some (sys, dev) => Some (pctTimestamp sys, pctTimestamp dev)
            | None => Some (system_time, device_time)
            end
        end
    end.

(** ** Adjustments *)

(** The members of [struct timex] that are set. *)
Record timex := mkTimex { tx_sec : Z; tx_usec : Z }.

(** The time that [HWTimestamper_adjclockphase] asks the kernel to add, in
    seconds and nanoseconds. *)
Definition phase_timex (phase_adjust : Z) : timex :=
  if 0 <=? phase_adjust
  then mkTimex (Z.quot phase_adjust 1000000000) (Z.rem phase_adjust 1000000000)
  else mkTimex (Z.quot phase_adjust 1000000000 - 1) (Z.rem phase_adjust 1000000000 + 1000000000).

(** [fmodf( x, 1.0 )], which is exact. *)
Definition fmodf_1 (x : spec_float) : spec_float :=
  match x with
  | S754_zero s => S754_zero s
  | S754_finite s m e =>
      if 0 <=? e then S754_zero s
      else binary_normalize 24 128 (cond_Zopp s (Zpos m mod 2 ^ (- e))) e s
  | _ => S754_nan
  end.

Definition double_65536 : spec_float := fl_of_Z fmt_double 65536.

(** [tx.freq] of [HWTimestamper_adjclockrate]: parts per million with sixteen
    binary places, of the integer part and of the fraction one after the other. *)
Definition rate_freq (freq_offset : spec_float) : option Z :=
  t ← cast_s 64 freq_offset;
  f ← cast_s 64 (fl_mul fmt_double (fl_cvt fmt_double (fmodf_1 freq_offset)) double_65536);
  Some (i64 (i64 (t * 2 ^ 16) + f)).

(** ** The cross timestamp *)

(** A valid time of the kernel, and its nanoseconds. *)
Definition pct_ok (t : ptp_clock_time) : Prop := 0 <= sec t < 2 ^ 33 /\ 0 <= nsec t < MAX_NSEC.
Definition pct_value (t : ptp_clock_time) : Z := sec t * MAX_NSEC + nsec t.

(** The difference is right, and a borrow takes a second from [a]. *)
Definition crosses (a b : ptp_clock_time) : bool := nsec a <? nsec b.
Definition borrowed (b : bool) (t : ptp_clock_time) : ptp_clock_time :=
  if b then mkPct (sec t - 1) (nsec t) else t.
Definition sec_ok (t : ptp_clock_time) : Prop := - 1 <= sec t < 2 ^ 33 /\ 0 <= nsec t < MAX_NSEC.

Lemma pct_diff_spec a b : pct_ok a -> sec_ok b ->
  pctns (pct_diff a b).1 = pct_value a - pct_value b /\
  (pct_diff a b).2 = borrowed (crosses a b) a.
Proof.
  intros [Ha Ha'] [Hb Hb']. unfold pct_diff, pctns, crosses, borrowed, pct_value, MAX_NSEC in *.
  assert (H64 : forall x, - 2 ^ 63 <= x < 2 ^ 63 -> i64 x = x) by (intros; by apply swrap_small).
  assert (H32 : forall x, 0 <= x < 2 ^ 32 -> u32 x = x) by (intros; by apply uwrap_small).
  destruct (Z.leb_spec (nsec b) (nsec a)), (Z.ltb_spec (nsec a) (nsec b)); try lia; cbn [fst snd sec nsec].
  - rewrite (H64 (sec a - sec b)), (H32 (nsec a - nsec b)) by lia. split; [|done]. rewrite H64; lia.
  - rewrite (H64 (sec a - 1)) by lia. cbn [sec nsec].
    rewrite (H64 (sec a - 1 - sec b)), (H32 (1000000000 - nsec b)), H32 by lia.
    split; [|done]. rewrite H64; lia.
Qed.

(** The samples as they were read: a device time between two system times, and
    whether the second changed before the first of these. *)
Record Sample := mkSample {
  sm_crossed : bool; sm_sys : ptp_clock_time; sm_dev : ptp_clock_time; sm_next : ptp_clock_time;
}.
Fixpoint samples (crossed : bool) (sys : ptp_clock_time)
    (rest : list (ptp_clock_time * ptp_clock_time)) : list Sample :=
  match rest with
  | [] => []
  | (dev, next) :: rest' => mkSample crossed sys dev next :: samples (crosses next sys) next rest'
  end.
Definition width (s : Sample) : Z := pct_value (sm_next s) - pct_value (sm_sys s).
(** What the loop compares: a sample that was borrowed from is a second wider. *)
Definition seen_width (s : Sample) : Z := width s + (if sm_crossed s then MAX_NSEC else 0).

Definition taken (s : Sample) : ptp_clock_time * ptp_clock_time :=
  (borrowed (sm_crossed s) (sm_sys s), sm_dev s).
Fixpoint pick (l : list Sample) (best : option (ptp_clock_time * ptp_clock_time)) (interval : Z)
    : option (ptp_clock_time * ptp_clock_time) :=
  match l with
  | [] => best
  | s :: l' =>
      if seen_width s <? interval then pick l' (Some (taken s)) (seen_width s) else pick l' best interval
  end.

Definition times_ok (sys : ptp_clock_time) (rest : list (ptp_clock_time * ptp_clock_time)) : Prop :=
  pct_ok sys /\ Forall (fun r => pct_ok r.2) rest.

Lemma borrowed_sec_ok b t : pct_ok t -> sec_ok (borrowed b t).
Proof. intros [H1 H2]. destruct b; split; cbn; lia. Qed.
Lemma borrowed_value b t : pct_value (borrowed b t) = pct_value t - (if b then MAX_NSEC else 0).
Proof. destruct b; unfold pct_value, borrowed, MAX_NSEC; cbn [sec nsec]; lia. Qed.
Lemma borrowed_nsec b t : nsec (borrowed b t) = nsec t.
Proof. by destruct b. Qed.

Lemma loop_pick rest : forall c sys best interval, times_ok sys rest ->
  gettime_loop (borrowed c sys) rest best interval = pick (samples c sys rest) best interval.
Proof.
  induction rest as [|[dev next] rest IH]; intros c sys best interval [Hs Hr]; [done|].
  apply Forall_cons in Hr as [Hn Hr]. cbn [gettime_loop samples pick].
  destruct (pct_diff next (borrowed c sys)) as [d n'] eqn:E.
  destruct (pct_diff_spec next (borrowed c sys) Hn (borrowed_sec_ok c sys Hs)) as [Hd Hn'].
  rewrite E in Hd, Hn'. cbn [fst snd] in Hd, Hn'. rewrite Hd, Hn', borrowed_value.
  unfold crosses at 1 2. rewrite borrowed_nsec. fold (crosses next sys).
  unfold seen_width, width, taken. cbn [sm_crossed sm_sys sm_dev sm_next].
  replace (pct_value next - (pct_value sys - _)) with
    (pct_value next - pct_value sys + (if c then MAX_NSEC else 0)) by lia.
  destruct (_ <? interval); by apply IH.
Qed.

(** The pick is the first of the narrowest. *)
Lemma pick_spec l : forall best interval,
  (pick l best interval = best /\ Forall (fun s => interval <= seen_width s) l) \/
  exists s, s ∈ l /\ pick l best interval = Some (taken s) /\ seen_width s < interval /\
    Forall (fun s' => seen_width s <= seen_width s') l.
Proof.
  induction l as [|s l IH]; intros best interval; [by left|]. cbn [pick].
  destruct (Z.ltb_spec (seen_width s) interval) as [Hlt|Hge].
  - right. destruct (IH (Some (taken s)) (seen_width s)) as [[E Hf]|(s' & Hin & E & Hw & Hf)].
    + exists s. split; [by left|]. split; [done|]. split; [done|]. by constructor.
    + exists s'. split; [by right|]. split; [done|]. split; [lia|]. constructor; [lia|done].
  - destruct (IH best interval) as [[E Hf]|(s' & Hin & E & Hw & Hf)].
    + left. split; [done|]. by constructor.
    + right. exists s'. split; [by right|]. split; [done|]. split; [done|]. constructor; [lia|done].
Qed.

Definition in_order (l : list Sample) : Prop := Forall (fun s => 0 <= width s) l.

(** C24: the cross timestamp.  For samples whose system times are in order, the
    first within a second, the pair that is returned is one of the pairs that
    were read, unchanged, and no other pair was read within a shorter time, but
    for one: the pair after a change of the second, which the subtraction has
    borrowed a second from, is never taken. *)
Theorem gettime_best sys dev next rest st dt :
  let l := samples false sys ((dev, next) :: rest) in
  times_ok sys ((dev, next) :: rest) -> in_order l -> pct_value next - pct_value sys < MAX_NSEC ->
  exists s, s ∈ l /\ sm_crossed s = false /\
    HWTimestamper_gettime true None (Some (sys, (dev, next) :: rest)) st dt =
      Some (pctTimestamp (sm_sys s), pctTimestamp (sm_dev s)) /\
    forall s', s' ∈ l -> sm_crossed s' = false -> width s <= width s'.
Proof.
  intros l Hok Ho Hfirst. unfold HWTimestamper_gettime. cbn [negb].
  pose proof (loop_pick ((dev, next) :: rest) false sys None LLONG_MAX Hok) as Hl. cbn [borrowed] in Hl.
  rewrite Hl. fold l.
  assert (H1 : mkSample false sys dev next ∈ l) by (by left).
  destruct (pick_spec l None LLONG_MAX) as [[_ Hf]|(s & Hin & -> & _ & Hf)]; rewrite Forall_forall in Hf.
  - specialize (Hf _ H1). unfold seen_width, width, LLONG_MAX, MAX_NSEC in *. cbn in *. lia.
  - exists s. split; [done|]. pose proof (Hf _ H1) as Hw. unfold seen_width in Hw at 2.
    unfold width in Hw at 1. cbn [sm_crossed sm_next sm_sys] in Hw.
    unfold in_order in Ho. rewrite Forall_forall in Ho. pose proof (Ho _ Hin) as Hpos.
    destruct (sm_crossed s) eqn:Hc; [unfold seen_width in Hw; rewrite Hc in Hw; lia|].
    split; [done|]. unfold taken. rewrite Hc. cbn [borrowed]. split; [done|].
    intros s' Hin' Hc'. pose proof (Hf _ Hin') as Hw'. unfold seen_width in Hw'. rewrite Hc, Hc' in Hw'. lia.
Qed.

(** ** The phase *)

(** A step of the clock.  The seconds and nanoseconds that the kernel is asked
    to add make up the adjustment, whatever its sign; the nanoseconds are those
    of a second, as the kernel demands, except for a negative number of whole
    seconds, whose nanoseconds are a whole second. *)
Theorem phase_timex_spec phase :
  let t := phase_timex phase in
  tx_sec t * 1000000000 + tx_usec t = phase /\ 0 <= tx_usec t <= 1000000000 /\
  (tx_usec t = 1000000000 <-> phase < 0 /\ phase mod 1000000000 = 0).
Proof.
  intros t. unfold t, phase_timex.
  pose proof (Z.quot_rem phase 1000000000 ltac:(lia)) as Hq.
  destruct (Z.leb_spec 0 phase) as [Hp|Hn]; cbn [tx_sec tx_usec].
  - pose proof (Z.rem_bound_pos phase 1000000000 Hp ltac:(lia)). split; [lia|]. split; [lia|]. lia.
  - pose proof (Z.rem_bound_pos_neg phase 1000000000 ltac:(lia) ltac:(lia)) as Hr. split; [lia|]. split; [lia|].
    assert (Hd : Z.rem phase 1000000000 = 0 <-> phase mod 1000000000 = 0).
    { rewrite Z.rem_divide, Z.mod_divide by lia. done. }
    rewrite <- Hd. lia.
Qed.

(** ** The frequency *)

(** Rounding is exact when the digits that are shifted out are zeros. *)
Lemma shr_exact p E m j e : 0 <= j -> fexp p E (Z.log2 (Zpos m) + 1 + j + e) = e + j ->
  shr_fexp p E (Zpos m * 2 ^ j) e loc_Exact = (Build_shr_record (Zpos m) false false, e + j).
Proof.
  intros Hj He. unfold shr_fexp, shr.
  assert (Hd : Zdigits2 (Zpos m * 2 ^ j) = Z.log2 (Zpos m) + 1 + j).
  { destruct j as [|j|j]; [|rewrite <- (iter_xO m j)|lia]; unfold Zdigits2;
      rewrite ?Z.mul_1_r, digits2_pos_size, ?iter_xO, ?Z.log2_mul_pow2 by lia; lia. }
  rewrite Hd, He. replace (e + j - e) with j by lia. unfold shr_record_of_loc.
  destruct j as [|j|]; [|rewrite (shr_zeros m j); done|lia]. by rewrite Z.mul_1_r, Z.add_0_r.
Qed.
Lemma round_exact p E s m j e : 0 <= j -> fexp p E (Z.log2 (Zpos m) + 1 + j + e) = e + j ->
  e + j <= E - p ->
  binary_round_aux p E s (Zpos m * 2 ^ j) e loc_Exact = S754_finite s m (e + j).
Proof.
  intros Hj He Hmax. unfold binary_round_aux. rewrite shr_exact by done.
  cbn [shr_m loc_of_shr_record shr_record_of_loc].
  assert (H0 : shr_fexp p E (Zpos m) (e + j) loc_Exact = (Build_shr_record (Zpos m) false false, e + j)).
  { pose proof (shr_exact p E m 0 (e + j) ltac:(lia)) as H0.
    replace (Zpos m * 2 ^ 0) with (Zpos m) in H0 by lia. replace (e + j + 0) with (e + j) in H0 by lia.
    apply H0. rewrite <- He at 2. f_equal. lia. }
  cbn -[shr_fexp Z.leb Z.sub Z.add]. rewrite H0. cbn -[Z.leb Z.sub Z.add].
  by rewrite (proj2 (Z.leb_le _ _)) by lia.
Qed.
(** A mantissa that fits is aligned, and the value is the same. *)
Lemma normalize_exact p E s m e z : let e' := fexp p E (Z.log2 (Zpos m) + 1 + e) in
  e' <= e -> e' <= E - p ->
  exists m', binary_normalize p E (cond_Zopp s (Zpos m)) e z = S754_finite s m' e' /\
    Zpos m' = Zpos m * 2 ^ (e - e').
Proof.
  intros e' He Hmax.
  assert (Hb : binary_normalize p E (cond_Zopp s (Zpos m)) e z = binary_round p E s m e) by (by destruct s).
  rewrite Hb. unfold binary_round, shl_align. rewrite digits2_pos_size. fold e'.
  assert (Hr : forall m', Zpos m' = Zpos m * 2 ^ (e - e') ->
    binary_round_aux p E s (Zpos m') e' loc_Exact = S754_finite s m' e').
  { intros m' Hm'. pose proof (round_exact p E s m' 0 e' ltac:(lia)) as H0.
    rewrite Z.mul_1_r, !Z.add_0_r in H0. apply H0; [|done].
    rewrite Hm', Z.log2_mul_pow2 by lia. unfold e' at 3. f_equal. lia. }
  destruct (e' - e) as [|k|k] eqn:Ed; [..|].
  - assert (He' : e = e') by lia. exists m. rewrite He' at 1. rewrite Hr; rewrite <- ?He', Z.sub_diag; split || idtac; lia || done.
  - lia.
  - exists (Pos.iter xO m k). split; [apply Hr|]; rewrite iter_xO; do 2 f_equal; lia.
Qed.

(** [m * 2^e] without its fraction. *)
Definition scaled (m e : Z) : Z := if 0 <=? e then m * 2 ^ e else m / 2 ^ (- e).
Lemma scaled_shift m e k : 0 <= k -> scaled (m * 2 ^ k) (e - k) = scaled m e.
Proof.
  intros Hk. unfold scaled. destruct (Z.leb_spec 0 (e - k)), (Z.leb_spec 0 e); try lia.
  - rewrite <- Z.mul_assoc, <- Z.pow_add_r by lia. do 2 f_equal. lia.
  - replace (2 ^ k) with (2 ^ e * 2 ^ (- (e - k))) by (rewrite <- Z.pow_add_r by lia; f_equal; lia).
    rewrite Z.mul_assoc, Z.div_mul by lia. done.
  - replace (- (e - k)) with (- e + k) by lia. rewrite Z.pow_add_r, Z.div_mul_cancel_r by lia. done.
Qed.
Lemma fl_trunc_finite s m e : fl_trunc (S754_finite s m e) = Some (cond_Zopp s (scaled (Zpos m) e)).
Proof. done. Qed.
Lemma scaled_pos m e : 0 <= m -> 0 <= scaled m e.
Proof. intros Hm. unfold scaled. destruct (Z.leb_spec 0 e); [lia|]. apply Z.div_pos; lia. Qed.

(** The fraction, times 2^16. *)
Lemma fraction_scaled s m e : 0 < m < 2 ^ 24 -> -149 <= e < 0 ->
  exists m' e', fl_mul fmt_double (fl_cvt fmt_double (binary_normalize 24 128 (cond_Zopp s m) e s)) double_65536 =
    S754_finite s m' e' /\ scaled (Zpos m') e' = scaled m (e + 16).
Proof.
  intros Hm He. destruct m as [|m|m]; try lia.
  assert (Hl : 0 <= Z.log2 (Zpos m) < 24).
  { split; [apply Z.log2_nonneg|]. apply Z.log2_lt_pow2; lia. }
  set (e1 := fexp 24 128 (Z.log2 (Zpos m) + 1 + e)).
  assert (He1 : -149 <= e1 <= e) by (unfold e1, fexp, SpecFloat.emin; lia).
  destruct (normalize_exact 24 128 s m e s) as (m1 & -> & H1); [fold e1; lia..|]. fold e1 in H1 |- *.
  assert (Hl1 : Z.log2 (Zpos m1) = Z.log2 (Zpos m) + (e - e1)) by (rewrite H1, Z.log2_mul_pow2; lia).
  cbn [fl_cvt prec emax fmt_double].
  set (e2 := fexp 53 1024 (Z.log2 (Zpos m1) + 1 + e1)).
  assert (He2 : e2 = Z.log2 (Zpos m) + e - 52) by (unfold e2, fexp, SpecFloat.emin; lia).
  assert (Hb : Z.log2 (Zpos m) + (e - e1) < 24) by (unfold e1, fexp, SpecFloat.emin in *; lia).
  destruct (normalize_exact 53 1024 s m1 e1 s) as (m2 & -> & H2); [fold e2; lia..|]. fold e2 in H2 |- *.
  assert (Hl2 : Z.log2 (Zpos m2) = 52) by (rewrite H2, Z.log2_mul_pow2; lia).
  assert (E : double_65536 = S754_finite false (2 ^ 52) (-36)) by (by vm_compute).
  rewrite E. unfold fl_mul, SFmul. cbn [prec emax fmt_double].
  rewrite Pos2Z.inj_mul, Pos2Z.inj_pow. change (Zpos 2 ^ Zpos 52) with (2 ^ 52).
  rewrite round_exact, xorb_false_r; [|lia|rewrite Hl2; unfold fexp, SpecFloat.emin; lia|lia].
  exists m2, (e2 + -36 + 52). split; [done|].
  assert (H : Zpos m2 = Zpos m * 2 ^ (e - e2)).
  { rewrite H2, H1, <- Z.mul_assoc, <- Z.pow_add_r by lia. do 2 f_equal. lia. }
  rewrite H. replace (e2 + -36 + 52) with (e + 16 - (e - e2)) by lia. apply scaled_shift. lia.
Qed.

(** What the kernel is asked for: the frequency with sixteen binary places,
    truncated. *)
Definition rate_reference (x : spec_float) : Z :=
  match x with S754_finite s m e => cond_Zopp s (scaled (Zpos m) (e + 16)) | _ => 0 end.
(** A [float] between -2^46 and 2^46. *)
Definition rate_ok (x : spec_float) : Prop :=
  valid_binary 24 128 x = true /\
  match x with S754_finite _ m e => scaled (Zpos m) e < 2 ^ 46 | S754_zero _ => True | _ => False end.

Lemma float_finite s m e : valid_binary 24 128 (S754_finite s m e) = true ->
  Zpos m < 2 ^ 24 /\ -149 <= e.
Proof.
  cbn. unfold bounded, canonical_mantissa, fexp, SpecFloat.emin.
  rewrite digits2_pos_size, andb_true_iff. intros [Hc%Z.eqb_eq _].
  pose proof (Z.log2_spec (Zpos m) eq_refl) as [_ Hu].
  split; [|lia]. eapply Z.lt_le_trans; [exact Hu|]. apply Z.pow_le_mono_r; lia.
Qed.
Lemma scaled_split m e : 0 <= m -> e < 0 ->
  scaled m (e + 16) = scaled m e * 2 ^ 16 + scaled (m mod 2 ^ (- e)) (e + 16).
Proof.
  intros Hm He.
  assert (Hs : forall k, scaled k (e + 16) = k * 2 ^ 16 / 2 ^ (- e)).
  { intros k. rewrite <- (scaled_shift k (e + 16) 16) by lia. replace (e + 16 - 16) with e by lia.
    unfold scaled. by rewrite (proj2 (Z.leb_gt _ _)) by lia. }
  rewrite !Hs. unfold scaled. rewrite (proj2 (Z.leb_gt _ _)) by lia.
  pose proof (Z.div_mod m (2 ^ (- e)) ltac:(lia)) as Hd. set (q := m / 2 ^ (- e)) in *.
  set (r := m mod 2 ^ (- e)) in *. rewrite Hd.
  replace ((2 ^ (- e) * q + r) * 2 ^ 16) with (q * 2 ^ 16 * 2 ^ (- e) + r * 2 ^ 16) by lia.
  rewrite Z.div_add_l by lia. done.
Qed.

Lemma opp_bounds s z b : 0 <= z < b -> - b < cond_Zopp s z < b.
Proof. destruct s; cbn; lia. Qed.

(** The frequency.  For every [float] of less than 2^46 parts per million, the
    integer part shifted and the scaled fraction added, each truncated, are the
    whole number scaled and truncated: the kernel is asked for the frequency
    towards zero, with sixteen binary places, for negative numbers too. *)
Theorem rate_freq_exact x : rate_ok x -> rate_freq x = Some (rate_reference x).
Proof.
  intros [Hv Hx]. destruct x as [s| | |s m e]; [|destruct Hx|destruct Hx|].
  - clear Hv Hx. destruct s; vm_compute; reflexivity.
  - apply float_finite in Hv as [Hm He]. unfold rate_freq, rate_reference.
    pose proof (scaled_pos (Zpos m) e ltac:(lia)) as Hp.
    pose proof (opp_bounds s _ _ (conj Hp Hx)) as Hb.
    unfold cast_s. rewrite fl_trunc_finite, decide_True by (cbn; lia). cbn [mbind option_bind].
    set (t := cond_Zopp s (scaled (Zpos m) e)) in *. unfold i64.
    rewrite (swrap_small 64 (t * 2 ^ 16)) by (unfold sfits; lia).
    cbn [fmodf_1]. destruct (Z.leb_spec 0 e) as [Hge|Hlt].
    + assert (Hz : fl_trunc (fl_mul fmt_double (fl_cvt fmt_double (S754_zero s)) double_65536) = Some 0)
        by (clear; destruct s; vm_compute; reflexivity).
      rewrite Hz. cbn [decide]. rewrite decide_True by lia. cbn [mbind option_bind].
      rewrite Z.add_0_r, swrap_small by (unfold sfits; lia). f_equal. unfold t, scaled.
      rewrite !(proj2 (Z.leb_le _ _)), Z.pow_add_r by lia. destruct s; cbn [cond_Zopp]; lia.
    + pose proof (Z.mod_pos_bound (Zpos m) (2 ^ (- e)) ltac:(lia)) as Hr.
      pose proof (scaled_split (Zpos m) e ltac:(lia) Hlt) as Hs.
      assert (Hf : 0 <= scaled (Zpos m mod 2 ^ (- e)) (e + 16) < 2 ^ 16).
      { rewrite <- (scaled_shift _ (e + 16) 16) by lia. replace (e + 16 - 16) with e by lia.
        unfold scaled. rewrite (proj2 (Z.leb_gt _ _)) by lia.
        split; [apply Z.div_pos; lia|]. apply Z.div_lt_upper_bound; lia. }
      pose proof (opp_bounds s _ _ Hf) as Hfb.
      assert (Hfr : fl_trunc (fl_mul fmt_double (fl_cvt fmt_double
          (binary_normalize 24 128 (cond_Zopp s (Zpos m mod 2 ^ (- e))) e s)) double_65536) =
        Some (cond_Zopp s (scaled (Zpos m mod 2 ^ (- e)) (e + 16)))).
      { pose proof (Z.mod_le (Zpos m) (2 ^ (- e)) ltac:(lia) ltac:(lia)) as Hle.
        destruct (Z.eq_dec (Zpos m mod 2 ^ (- e)) 0) as [Hz|Hnz].
        - rewrite Hz. assert (Hsc : scaled 0 (e + 16) = 0) by (unfold scaled; by destruct (_ <=? _)).
          rewrite Hsc. clear. destruct s; vm_compute; reflexivity.
        - destruct (fraction_scaled s (Zpos m mod 2 ^ (- e)) e) as (m' & e' & -> & H'); [lia..|].
          by rewrite fl_trunc_finite, H'. }
      rewrite Hfr, decide_True by lia. cbn [mbind option_bind].
      assert (Ht : cond_Zopp s (scaled (Zpos m) (e + 16)) =
        t * 2 ^ 16 + cond_Zopp s (scaled (Zpos m mod 2 ^ (- e)) (e + 16))).
      { rewrite Hs. unfold t. destruct s; cbn [cond_Zopp]; lia. }
      rewrite swrap_small by (unfold sfits; lia). by rewrite Ht.
Qed.

(** ** Witnesses *)

Definition at_time (s ns : Z) : ptp_clock_time := mkPct s ns.
(** Three samples, the second of which is read across a change of the second. *)
Lemma gettime_best_witness : exists st dt,
  HWTimestamper_gettime true None
    (Some (at_time 9 999990000, [(at_time 50 0, at_time 9 999995000); (at_time 50 5000, at_time 10 1000);
                                 (at_time 50 7000, at_time 10 3000)]))
    (timestamp 0 0 0) (timestamp 0 0 0) = Some (st, dt) /\ st = timestamp 999990000 9 0.
Proof.
  destruct (gettime_best (at_time 9 999990000) (at_time 50 0) (at_time 9 999995000)
    [(at_time 50 5000, at_time 10 1000); (at_time 50 7000, at_time 10 3000)] (timestamp 0 0 0) (timestamp 0 0 0))
    as (s & Hin & Hc & E & _).
  - split; [split; cbn; unfold MAX_NSEC; lia|]. repeat (constructor; [split; cbn; unfold MAX_NSEC; lia|]). constructor.
  - repeat (constructor; [unfold width, pct_value, MAX_NSEC; cbn; lia|]). constructor.
  - unfold pct_value, MAX_NSEC. cbn. lia.
  - eexists _, _. split; [exact E|]. apply (f_equal (fun o => match o with Some (x, _) => x | None => timestamp 1 1 1 end)) in E.
    etrans; [symmetry; exact E|]. by vm_compute.
Defined.
(** -2.7 parts per million. *)
Lemma rate_freq_exact_witness :
  rate_freq (fl_lit fmt_float (-27) 10) = Some (-176947).
Proof.
  rewrite (rate_freq_exact (fl_lit fmt_float (-27) 10)); [reflexivity|]. split; [by vm_compute|].
  vm_compute. reflexivity.
Defined.
