(* ===== verification/LinuxNet.v ===== *)
(** * The network interface of Linux

    [LinuxNetworkInterface] and the timestamps of [LinuxTimestamperGeneric]
    (linux/src/linux_hal_common.cpp, linux/src/linux_hal_generic.cpp,
    linux/src/linux_hal_generic.hpp, linux/src/linux_hal_generic_adj.cpp): the
    lock that a sent event message holds until its timestamp has been read, the
    list of receive timestamps, and the outcomes of reception.  The outcomes of
    the system calls are arguments. *)

From Stdlib Require Import ZArith Lia.
From stdpp Require Import base gmap list.
From S2P Require Import Prelude Timestamp Identity Message World Clock Port Media Ether Transmit Receive Runs Fixture LinuxClock.

Definition GPTP_EC_FAILURE : Z := -1.
Definition GPTP_EC_EAGAIN : Z := -72.

(** ** The state *)

(** A frame that waits at the event socket; a received frame may carry the time of
    the system and that of the device, of which the second is used. *)
Record Frame := mkFrame {
  fr_remote : LinkLayerAddress; fr_data : list Z; fr_stamp : option (timespec * timespec);
}.

(** The interface and its timestamper: how often [net_lock] was locked and
    unlocked, whether frames to the multicast address are received, those that
    wait; whether [post_init] gave the timestamper its socket, the receive
    timestamps, the last first, and the version. *)
Record Card := mkCard {
  locks : nat;
  unlocks : nat;
  member : bool;
  rx_queue : list Frame;
  sd_open : bool;
  rxTimestampList : list Timestamp;
  version : Z;                              (* uint8_t *)
}.
#[export] Instance eta_Card : Settable Card := fun c =>
  mkCard (locks c) (unlocks c) (member c) (rx_queue c) (sd_open c) (rxTimestampList c) (version c).

Definition net_lock (c : Card) : Card := c <| locks := S (locks c) |>.
Definition net_unlock (c : Card) : Card := c <| unlocks := S (unlocks c) |>.
Definition with_version (v : Z) (t : Timestamp) : Timestamp := t <| _version := v |>.

(** ** Sending

    An event message is sent with the lock, which its timestamp gives back; the
    result is whether it was sent. *)
Definition nic_send (timestamp sent : bool) (c : Card) : bool * Card :=
  (sent, if timestamp then net_lock c else c).

(** What [recvmsg] finds in the error queue: nothing yet, a failure, or the octets
    of a frame that was sent, with its times. *)
Inductive TxRecord :=
  | TxAgain
  | TxFailure
  | TxFrame (data : list Z) (stamp : option (timespec * timespec)).

Definition ETHER_HDR_LEN : nat := 14.
Definition PTP_COMMON_HDR_LENGTH : nat := 34.
(** The message type and the sequence id of the octets, which are received in an
    array that holds the two headers and is zero before. *)
Definition reflected_id (data : list Z) : PTPMessageId :=
  let n := (ETHER_HDR_LEN + PTP_COMMON_HDR_LENGTH)%nat in
  let bytes := take n (data ++ repeat 0 n) in
  let octet i := nth (ETHER_HDR_LEN + i) bytes 0 in
  mkPTPMessageId (Z.land (octet 0%nat) 0xF) (octet 30%nat * 256 + octet 31%nat).

(** The code, and the timestamp of a success. *)
Definition tx_answer (v : Z) (r : TxRecord) (mid : PTPMessageId) : Z * option Timestamp :=
  match r with
  | TxAgain => (GPTP_EC_EAGAIN, None)
  | TxFailure => (GPTP_EC_FAILURE, None)
  | TxFrame data stamp =>
      if msgid_ne mid (reflected_id data) then (GPTP_EC_EAGAIN, None)
      else match stamp with
           | Some (_, device) => (GPTP_EC_SUCCESS, Some (with_version v (tsToTimestamp device)))
           | None => (GPTP_EC_EAGAIN, None)
           end
  end.
Definition HWTimestamper_txtimestamp (r : TxRecord) (mid : PTPMessageId) (last : bool) (c : Card)
    : Z * option Timestamp * Card :=
  if negb (sd_open c) then (-1, None, c)
  else
    let '(ret, ts) := tx_answer (version c) r mid in
    (ret, ts, if (ret =? GPTP_EC_SUCCESS) || last then net_unlock c else c).

(** ** Receiving *)

Inductive LockResult := LockFailed | LockBusy | LockGot.
(** [select]: [-1] is never [EINTR], which the code compares it with. *)
Inductive Select := SelTimeout | SelFailed (interrupted : bool) | SelNotOurs | SelReady.
Inductive RecvMsg := RecvError (nomsg : bool) | RecvFrame (f : Frame).
Inductive NetResult := net_trfail | net_fatal | net_succeed (remote : LinkLayerAddress) (length : Z).

Definition pushRXTimestamp (t : Timestamp) (c : Card) : Card :=
  c <| rxTimestampList := with_version (version c) t :: rxTimestampList c |>.
(** Event messages are those without the bit 3 of the message type. *)
Definition is_event_octet (b : Z) : bool := negb (Z.testbit b 3).

(** A frame is written over the start of the array [buf]. *)
Definition received_into (f : Frame) (buf : list Z) : nat * list Z :=
  let data := take (length buf) (fr_data f) in
  (length data, data ++ drop (length data) buf).
Definition nrecv_locked (sel : Select) (r : RecvMsg) (buf : list Z) (c : Card)
    : NetResult * list Z * Card :=
  match sel with
  | SelTimeout | SelNotOurs => (net_trfail, buf, c)
  | SelFailed _ => (net_fatal, buf, c)
  | SelReady =>
      match r with
      | RecvError nomsg => (if nomsg then net_trfail else net_fatal, buf, c)
      | RecvFrame f =>
          let '(n, buf) := received_into f buf in
          let c := if (0 <? Z.of_nat n) && is_event_octet (hd 0 buf) then
                     match fr_stamp f with
                     | Some (_, device) => pushRXTimestamp (tsToTimestamp device) c
                     | None => c
                     end
                   else c in
          (net_succeed (fr_remote f) (Z.of_nat n), buf, c)
      end
  end.
Definition nrecv (lk : LockResult) (sel : Select) (r : RecvMsg) (unlocked : bool) (buf : list Z)
    (c : Card) : NetResult * list Z * Card :=
  match lk with
  | LockFailed => (net_fatal, buf, c)
  | LockBusy => (net_trfail, buf, c)
  | LockGot =>
      let '(ret, buf, c) := nrecv_locked sel r buf (net_lock c) in
      (if unlocked then ret else net_fatal, buf, net_unlock c)
  end.

(** The oldest timestamp. *)
Definition HWTimestamper_rxtimestamp (c : Card) : Z * option Timestamp * Card :=
  match last (rxTimestampList c) with
  | None => (GPTP_EC_EAGAIN, None, c)
  | Some t =>
      (GPTP_EC_SUCCESS, Some t,
       c <| rxTimestampList := take (length (rxTimestampList c) - 1) (rxTimestampList c) |>)
  end.

(** ** A step of the clock *)

(** The interface stops listening, with the lock; a failure leaves it listening. *)
Definition disable_rx_queue (dropped : bool) (c : Card) : Card :=
  let c := net_lock c in if dropped then c <| member := false |> else c.
(** The frames that wait are thrown away; without the membership the lock is not
    given back. *)
Definition clear_reenable_rx_queue (added : bool) (c : Card) : Card :=
  let c := c <| rx_queue := [] |> in
  if added then net_unlock (c <| member := true |>) else c.
(** The request to the kernel, and whether it was granted. *)
Definition HWTimestamper_adjclockphase (dropped adjusted added : bool) (phase_adjust : Z) (c : Card)
    : bool * timex * Card :=
  let c := disable_rx_queue dropped c in
  let c := c <| rxTimestampList := [] |> <| version := u8 (version c + 1) |> in
  (adjusted, phase_timex phase_adjust, clear_reenable_rx_queue added c).

(** ** Construction *)

(** [post_init]: the name, the configuration and the socket option. *)
Definition post_init (name config option : bool) (c : Card) : bool * Card :=
  (name && config && option, c <| sd_open := true |>).

(** The calls of [createInterface], in their order. *)
Record CreateCalls := mkCalls {
  cc_label : bool; cc_lock : bool; cc_general : bool; cc_event : bool;
  cc_address : option LinkLayerAddress; cc_index : bool; cc_membership : bool; cc_bind : bool;
  cc_timestamper : bool; cc_post_init : bool * bool * bool;
}.
Definition card_new (v : Z) : Card := mkCard 0 0 false [] false [] v.
(** The interface's address and its state, when every call succeeds; the
    destructor closes the sockets otherwise. *)
Definition createInterface (k : CreateCalls) (v : Z) : option (LinkLayerAddress * Card) :=
  if negb (cc_label k && cc_lock k && cc_general k && cc_event k) then None
  else
    addr ← cc_address k;
    if negb (cc_index k && cc_membership k && cc_bind k && cc_timestamper k) then None
    else
      let '(a, b, d) := cc_post_init k in
      let '(ok, c) := post_init a b d (card_new v <| member := true |>) in
      if ok then Some (addr, c) else None.

(** ** Transmit timestamps

    The environment in which the timestamper answers from the error queue: [o n]
    is what its [n]-th question finds. *)
Definition tx_env (base : Env) (v : Z) (o : nat -> TxRecord) : Env := {|
  env_lock := @env_lock base; env_trylock := @env_trylock base; env_gettime := @env_gettime base;
  env_version := @env_version base; env_adjclockrate := @env_adjclockrate base;
  env_adjclockphase := @env_adjclockphase base;
  env_txtimestamp n _ mid _ := let r := tx_answer v (o n) mid in (r.1, default (timestamp 0 0 0) r.2, 0);
  env_rxtimestamp := @env_rxtimestamp base; env_send := @env_send base;
  env_payload_offset := @env_payload_offset base; env_thread_start := @env_thread_start base;
  env_timing_measurement := @env_timing_measurement base; env_garbage := @env_garbage base;
|}.

(** The card after [k] questions from the [n]-th on, of which the one after
    [TX_TIMEOUT_ITER] others is flagged as the last. *)
Fixpoint tx_questions (o : nat -> TxRecord) (mid : PTPMessageId) (n i k : nat) (c : Card) : Card :=
  match k with
  | O => c
  | S k' => tx_questions o mid n (S i) k'
              (HWTimestamper_txtimestamp (o (n + i)%nat) mid (i =? TX_TIMEOUT_ITER)%nat c).2
  end.

(** The first of [k] records from the [n]-th on that has the timestamp. *)
Fixpoint first_stamp (v : Z) (o : nat -> TxRecord) (mid : PTPMessageId) (n k : nat)
    : option (nat * Timestamp) :=
  match k with
  | O => None
  | S k' =>
      match tx_answer v (o n) mid with
      | (_, Some t) => Some (O, t)
      | _ => r ← first_stamp v o mid (S n) k'; Some (S r.1, r.2)
      end
  end.

Lemma first_stamp_none v o mid n k code : tx_answer v (o n) mid = (code, None) ->
  first_stamp v o mid n (S k) = r ← first_stamp v o mid (S n) k; Some (S r.1, r.2).
Proof. intros E. cbn [first_stamp]. by rewrite E. Qed.
Lemma tx_answer_cases v r mid :
  (exists t, tx_answer v r mid = (GPTP_EC_SUCCESS, Some t)) \/
  (exists code, tx_answer v r mid = (code, None) /\ code <> GPTP_EC_SUCCESS).
Proof.
  unfold tx_answer. destruct r as [| |data [[s d]|]]; try (by right; eexists); destruct (msgid_ne _ _);
    try (by right; eexists). left. by eexists.
Qed.

Lemma tx_answer_version v r mid code t : tx_answer v r mid = (code, Some t) -> _version t = v.
Proof.
  unfold tx_answer. destruct r as [| |data [[sys d]|]]; try done; destruct (msgid_ne _ _); try done.
  by injection 1 as _ <-.
Qed.
Lemma first_stamp_version v o mid k : forall n j t, first_stamp v o mid n k = Some (j, t) -> _version t = v.
Proof.
  induction k as [|k IH]; intros n j t; [done|]. cbn [first_stamp].
  destruct (tx_answer v (o n) mid) as [code [t0|]] eqn:E.
  - injection 1 as _ <-. exact (tx_answer_version _ _ _ _ _ E).
  - destruct (first_stamp v o mid (S n) k) as [[j' t']|] eqn:E'; [|done].
    injection 1 as _ <-. exact (IH _ _ _ E').
Qed.

(** The questions up to the first timestamp, or to the last. *)
Section Exchange.
Context {base : Env} {v : Z} {o : nat -> TxRecord} {p : pid} {id : PortIdentity} {mid : PTPMessageId}.
Abbreviation E := (tx_env base v o).

Lemma ask_tx lst w x : ports w !! p = Some x -> _hw_timestamper x = EtherTs ->
  @eth_getTxTimestamp E p id mid lst w =
  Done ((tx_answer v (o (tick w)) mid).1, default (timestamp 0 0 0) (tx_answer v (o (tick w)) mid).2)
    (w <| tick := S (tick w) |>).
Proof.
  intros Hx Ht. unfold eth_getTxTimestamp. rewrite (bind_Done _ _ _ _ _ (run_get_port _ _ _ Hx)).
  rewrite Ht. done.
Qed.

(** After the [i]-th question, whose answer is [r]. *)
Lemma tx_retry_first it : forall n i w x r c,
  ports w !! p = Some x -> _hw_timestamper x = EtherTs ->
  (i + it = TX_TIMEOUT_ITER)%nat -> tick w = (n + S i)%nat -> sd_open c = true -> version c = v ->
  tx_answer v (o (n + i)%nat) mid = r ->
  exists k code ts,
    @tx_retry E it p id mid (r.1, default (timestamp 0 0 0) r.2) w =
      Done (code, ts) (w <| tick := (tick w + k)%nat |>) /\ (k <= it)%nat /\
    unlocks (tx_questions o mid n i (S k) c) = S (unlocks c) /\
    match first_stamp v o mid (n + i) (S it) with
    | Some (j, t) => code = GPTP_EC_SUCCESS /\ ts = t /\ k = j
    | None => code <> GPTP_EC_SUCCESS /\ k = it
    end.
Proof.
  induction it as [|it IH]; intros n i w x r c Hx Ht Hi Hn Ho Hv <-.
  - exists 0%nat, (tx_answer v (o (n + i)%nat) mid).1, (default (timestamp 0 0 0) (tx_answer v (o (n + i)%nat) mid).2).
    cbn [tx_questions first_stamp]. unfold HWTimestamper_txtimestamp. rewrite Ho, Hv. cbn [negb].
    assert (Hl : (i =? TX_TIMEOUT_ITER)%nat = true) by (apply Nat.eqb_eq; lia). rewrite Hl.
    rewrite Nat.add_0_r. assert (Hw : w <| tick := tick w |> = w) by (by destruct w).
    destruct (tx_answer_cases v (o (n + i)%nat) mid) as [[t E]|(code & E & Hc)]; rewrite E; cbn [fst snd default].
    + cbn [tx_retry fst]. rewrite Z.eqb_refl, Hw. done.
    + cbn [tx_retry fst]. rewrite (proj2 (Z.eqb_neq _ _) Hc), orb_true_r, Hw. done.
  - assert (Hl : (i =? TX_TIMEOUT_ITER)%nat = false) by (apply Nat.eqb_neq; lia).
    destruct (tx_answer_cases v (o (n + i)%nat) mid) as [[t E]|(code & E & Hc)].
    + exists 0%nat, GPTP_EC_SUCCESS, t. rewrite Nat.add_0_r. assert (Hw : w <| tick := tick w |> = w) by (by destruct w).
      cbn [tx_questions first_stamp tx_retry]. unfold HWTimestamper_txtimestamp. rewrite Ho, Hv, E.
      cbn [negb fst snd default]. rewrite Z.eqb_refl, Hw. split; [done|]. split; [lia|]. done.
    + cbn [tx_retry]. rewrite E. cbn [fst]. rewrite (proj2 (Z.eqb_neq _ _) Hc).
      assert (Hlast : (it =? 0)%nat = (S i =? TX_TIMEOUT_ITER)%nat).
      { destruct (Nat.eqb_spec it 0), (Nat.eqb_spec (S i) TX_TIMEOUT_ITER); done || lia. }
      rewrite Hlast, (bind_Done _ _ _ _ _ (ask_tx _ w x Hx Ht)), Hn.
      set (w1 := w <| tick := S (n + S i) |>).
      assert (Hn1 : tick w1 = (n + S (S i))%nat) by (change (tick w1) with (S (n + S i)); lia).
      destruct (IH n (S i) w1 x _ c Hx Ht ltac:(lia) Hn1 Ho Hv eq_refl)
        as (k & code' & ts & Hr & Hk & Hu & Hf).
      exists (S k), code', ts. rewrite Hr. split; [|split; [lia|split]].
      * rewrite Hn1, <- Hn. unfold w1. destruct w. cbn. do 2 f_equal. cbn in Hn. lia.
      * cbn [tx_questions]. unfold HWTimestamper_txtimestamp at 2. rewrite Ho, Hv, E. cbn [negb fst snd].
        rewrite (proj2 (Z.eqb_neq _ _) Hc), Hl. cbn [orb]. exact Hu.
      * rewrite (first_stamp_none _ _ _ _ _ _ E). replace (S (n + i)) with (n + S i)%nat by lia.
        destruct (first_stamp v o mid (n + S i) (S it)) as [[j t]|]; cbn [mbind option_bind fst snd].
        -- by destruct Hf as (? & ? & ->).
        -- by destruct Hf as [? ->].
Qed.
End Exchange.

Lemma questions_locks o mid n k : forall i c, locks (tx_questions o mid n i k c) = locks c.
Proof.
  induction k as [|k IH]; intros i c; [done|]. cbn [tx_questions]. rewrite IH.
  unfold HWTimestamper_txtimestamp. destruct (negb _); [done|]. destruct (tx_answer _ _ _). cbn [snd].
  by destruct (_ || _).
Qed.

(** ** Receive timestamps

    The environment in which the timestamper answers from the list [l] from the
    [n0]-th question on. *)
Definition rx_env (base : Env) (n0 : nat) (l : list Timestamp) : Env := {|
  env_lock := @env_lock base; env_trylock := @env_trylock base; env_gettime := @env_gettime base;
  env_version := @env_version base; env_adjclockrate := @env_adjclockrate base;
  env_adjclockphase := @env_adjclockphase base; env_txtimestamp := @env_txtimestamp base;
  env_rxtimestamp n _ _ _ :=
    match rev l !! (n - n0)%nat with
    | Some t => (GPTP_EC_SUCCESS, t, 0)
    | None => (GPTP_EC_EAGAIN, timestamp 0 0 0, 0)
    end;
  env_send := @env_send base;
  env_payload_offset := @env_payload_offset base; env_thread_start := @env_thread_start base;
  env_timing_measurement := @env_timing_measurement base; env_garbage := @env_garbage base;
|}.

(** The question of [buildPTPMessage], repeated while there is no timestamp. *)
Fixpoint rx_questions (k : nat) (c : Card) : option Timestamp * Card :=
  match HWTimestamper_rxtimestamp c with
  | (_, Some t, c') => (Some t, c')
  | (_, None, c') => match k with O => (None, c') | S k' => rx_questions k' c' end
  end.

Lemma rx_questions_last k c : (rx_questions k c).1 = last (rxTimestampList c).
Proof.
  induction k as [|k IH]; cbn [rx_questions]; unfold HWTimestamper_rxtimestamp;
    destruct (last (rxTimestampList c)); done.
Qed.

Section RxQuestions.
Context {base : Env} {p : pid} {id : PortIdentity} {mid : PTPMessageId} {n0 : nat} {l : list Timestamp}.
Abbreviation E := (rx_env base n0 l).

Lemma ask_rx lst w x v : ports w !! p = Some x -> _hw_timestamper x = EtherTs ->
  @eth_getRxTimestamp E p id mid v lst w =
  Done (match rev l !! (tick w - n0)%nat with
        | Some t => (GPTP_EC_SUCCESS, t, 0)
        | None => (GPTP_EC_EAGAIN, timestamp 0 0 0, 0)
        end) (w <| tick := S (tick w) |>).
Proof.
  intros Hx Ht. unfold eth_getRxTimestamp. rewrite (bind_Done _ _ _ _ _ (run_get_port _ _ _ Hx)).
  by rewrite Ht.
Qed.
Lemma rx_retry_empty it : l = [] -> forall w x,
  ports w !! p = Some x -> _hw_timestamper x = EtherTs ->
  @rx_retry E it p id mid (GPTP_EC_EAGAIN, timestamp 0 0 0, 0) w =
  Done (GPTP_EC_EAGAIN, timestamp 0 0 0, 0) (w <| tick := (tick w + it)%nat |>).
Proof.
  intros Hl. induction it as [|it IH]; intros w x Hx Ht.
  - rewrite Nat.add_0_r. by destruct w.
  - cbn [rx_retry fst snd]. change (GPTP_EC_EAGAIN =? GPTP_EC_SUCCESS) with false. cbn iota.
    rewrite (bind_Done _ _ _ _ _ (ask_rx _ w x _ Hx Ht)).
    replace (rev l !! (tick w - n0)%nat) with (@None Timestamp) by (by rewrite Hl).
    set (w1 := w <| tick := S (tick w) |>). transitivity (Done (GPTP_EC_EAGAIN, timestamp 0 0 0, 0)
      (w1 <| tick := (tick w1 + it)%nat |>)); [exact (IH w1 x Hx Ht)|].
    f_equal. subst w1. destruct w. cbn. f_equal. lia.
Qed.

(** The daemon's own loop takes what the card's does. *)
Lemma rx_timestamp_card w x e c :
  ports w !! p = Some x -> media x = Ether e -> _hw_timestamper x = EtherTs -> tick w = n0 ->
  rxTimestampList c = l ->
  returns (@rx_timestamp E p id mid) w
    (fun r w' => r = (t ← (rx_questions RX_ITER c).1; Some (t, 0)) /\
                 (l <> [] -> tick w' = S (tick w))).
Proof.
  intros Hx He Ht Hn Hl. unfold rx_timestamp. rewrite rx_questions_last, Hl.
  eapply returns_step; [exact (run_as_ether _ _ _ _ Hx He)|].
  eapply returns_step; [exact (ask_rx _ w x _ Hx Ht)|]. rewrite Hn, Nat.sub_diag.
  destruct (decide (l = [])) as [El|Hne].
  - replace (rev l !! 0%nat) with (@None Timestamp) by (by rewrite El).
    set (w1 := w <| tick := S n0 |>).
    eapply returns_step; [exact (rx_retry_empty RX_ITER El w1 x Hx Ht)|].
    rewrite El. split; [done|]. by intros [].
  - replace (rev l !! 0%nat) with (last l)
      by (rewrite <- head_reverse, head_lookup; unfold reverse; by rewrite <- rev_alt).
    destruct (last l) as [t|] eqn:Et; [|by apply last_None in Et].
    eapply returns_step; [reflexivity|]. done.
Qed.
End RxQuestions.

(** ** Listening

    The listening thread receives a frame and asks for the timestamp of an event
    message; the array keeps what a shorter frame does not overwrite. *)
Fixpoint listen (fs : list Frame) (buf : list Z) (c : Card) : list (option Timestamp) * Card :=
  match fs with
  | [] => ([], c)
  | f :: fs' =>
      let '(_, buf, c) := nrecv LockGot SelReady (RecvFrame f) true buf c in
      let '(t, c) := if is_event_octet (hd 0 buf) then rx_questions RX_ITER c else (None, c) in
      let '(ts, c) := listen fs' buf c in
      (t :: ts, c)
  end.
(** The timestamp a frame has, when it is an event message. *)
Definition own_timestamp (v : Z) (f : Frame) : option Timestamp :=
  match fr_data f with
  | b :: _ =>
      if is_event_octet b then
        match fr_stamp f with
        | Some (_, device) => Some (with_version v (tsToTimestamp device))
        | None => None
        end
      else None
  | [] => None
  end.

Lemma rx_questions_one k c t : rxTimestampList c = [t] ->
  rx_questions k c = (Some t, c <| rxTimestampList := [] |>).
Proof. intros Hl. destruct k; cbn [rx_questions]; unfold HWTimestamper_rxtimestamp; by rewrite Hl. Qed.
Lemma rx_questions_none k c : rxTimestampList c = [] -> rx_questions k c = (None, c).
Proof.
  intros Hl. induction k as [|k IH]; cbn [rx_questions]; unfold HWTimestamper_rxtimestamp; by rewrite Hl.
Qed.

Lemma received_length f buf : length (received_into f buf).2 = length buf.
Proof. unfold received_into. cbn [snd]. rewrite length_app, length_drop, length_take. lia. Qed.

Definition balanced (c c' : Card) : Prop :=
  version c' = version c /\ (locks c' - locks c = unlocks c' - unlocks c)%nat /\
  (locks c <= locks c')%nat /\ (unlocks c <= unlocks c')%nat.

(** One frame: its timestamp is asked for at once, and the list is empty again. *)
Lemma listen_one f fs buf c : rxTimestampList c = [] -> buf <> [] ->
  exists buf' c', buf' <> [] /\ listen (f :: fs) buf c =
    (own_timestamp (version c) f :: (listen fs buf' c').1, (listen fs buf' c').2) /\
    rxTimestampList c' = [] /\ balanced c c'.
Proof.
  intros Hl Hb. cbn [listen]. unfold nrecv, nrecv_locked.
  destruct (received_into f buf) as [n buf'] eqn:E.
  pose proof (received_length f buf) as Hlen. rewrite E in Hlen. cbn [snd] in Hlen.
  assert (Hb' : buf' <> []) by (destruct buf, buf'; done).
  assert (Hd : (n = 0%nat /\ fr_data f = []) \/
    exists b data, fr_data f = b :: data /\ (0 < n)%nat /\ hd 0 buf' = b).
  { unfold received_into in E. injection E as <- <-. destruct (fr_data f) as [|b data], buf as [|b0 buf]; try done.
    - by left.
    - right. exists b, data. cbn. split; [done|]. split; [lia|done]. }
  exists buf'.
  assert (Hbal : forall c', version c' = version c -> locks c' = S (locks c) -> unlocks c' = S (unlocks c) -> balanced c c').
  { intros c' H1 H2 H3. split; [done|]. lia. }
  destruct Hd as [[-> Hd]|(b & data & Hd & Hn & Hh)]; unfold own_timestamp; rewrite Hd.
  - cbn [Z.of_nat Z.ltb Z.compare andb]. exists (net_unlock (net_lock c)). split; [done|].
    split; [|split; [done|by apply Hbal]].
    destruct (is_event_octet _); [rewrite rx_questions_none by done|]; by destruct (listen fs buf' _).
  - rewrite Hh, (proj2 (Z.ltb_lt _ _)) by lia. cbn [andb]. destruct (is_event_octet b).
    + destruct (fr_stamp f) as [[s d]|].
      * rewrite (rx_questions_one _ _ (with_version (version c) (tsToTimestamp d))) by (cbn; by rewrite Hl).
        set (c1 := net_unlock _ <| rxTimestampList := [] |>). exists c1.
        split; [done|]. split; [by destruct (listen fs buf' c1)|]. split; [done|by apply Hbal].
      * rewrite rx_questions_none by done. exists (net_unlock (net_lock c)). split; [done|].
        split; [by destruct (listen fs buf' _)|]. split; [done|by apply Hbal].
    + exists (net_unlock (net_lock c)). split; [done|]. split; [by destruct (listen fs buf' _)|].
      split; [done|by apply Hbal].
Qed.

Lemma listen_spec fs : forall buf c, rxTimestampList c = [] -> buf <> [] ->
  (listen fs buf c).1 = map (own_timestamp (version c)) fs /\
  rxTimestampList (listen fs buf c).2 = [] /\ balanced c (listen fs buf c).2.
Proof.
  induction fs as [|f fs IH]; intros buf c Hl Hb.
  - cbn. split; [done|]. split; [done|]. split; [done|lia].
  - destruct (listen_one f fs buf c Hl Hb) as (buf' & c' & Hb' & -> & Hl' & (Hv & Hd & H1 & H2)).
    destruct (IH buf' c' Hl' Hb') as (E & El & (Hv' & Hd' & H1' & H2')). cbn [fst snd map].
    rewrite E, Hv. split; [done|]. split; [done|]. split; [congruence|lia].
Qed.

(** ** The contracts *)


(** C16: While every event frame is asked for its timestamp as soon as it is received, each frame gets its own device timestamp and no other, no timestamp stays behind, and each reception gives the lock back, whatever the frames are; what the daemon's retry loop returns is what these questions return; and a step of the clock makes it so again from any state, for the new version of the clock, when the interface listens again. *)
Theorem rx_own_timestamp fs buf c : buf <> [] ->
  (rxTimestampList c = [] ->
   (listen fs buf c).1 = map (own_timestamp (version c)) fs /\
   rxTimestampList (listen fs buf c).2 = [] /\ balanced c (listen fs buf c).2) /\
  (forall dropped adjusted phase,
   let c' := (HWTimestamper_adjclockphase dropped adjusted true phase c).2 in
   (listen fs buf c').1 = map (own_timestamp (u8 (version c + 1))) fs /\
   rxTimestampList (listen fs buf c').2 = [] /\ locks c' = S (locks c) /\ unlocks c' = S (unlocks c)) /\
  (forall base p id mid w x e, ports w !! p = Some x -> media x = Ether e -> _hw_timestamper x = EtherTs ->
   returns (@rx_timestamp (rx_env base (tick w) (rxTimestampList c)) p id mid) w
     (fun r _ => r = (t ← (rx_questions RX_ITER c).1; Some (t, 0)))).
Proof.
  intros Hb. split; [|split].
  - intros Hl. exact (listen_spec fs buf c Hl Hb).
  - intros dropped adjusted phase c'.
    destruct (listen_spec fs buf c' ltac:(by destruct dropped) Hb) as (H1 & H2 & _).
    assert (Hv : version c' = u8 (version c + 1)) by (by destruct dropped).
    rewrite H1, H2, Hv. by destruct dropped.
  - intros base p id mid w x e Hx He Ht.
    pose proof (rx_timestamp_card (base := base) (p := p) (id := id) (mid := mid) w x e c Hx He Ht eq_refl eq_refl) as Hr.
    unfold returns in *. destruct (rx_timestamp p id mid w); [|done]. by destruct Hr.
Qed.

(** ** Witnesses *)

Definition card : Card := card_new 7 <| sd_open := true |>.
(** A Sync of the sequence id 5, as the error queue gives it back. *)
Definition sync_octets : list Z := repeat 0 44 ++ [0; 5] ++ repeat 0 2.
Definition sync_record : TxRecord := TxFrame sync_octets (Some (mkTimespec 0 0, mkTimespec 12 34)).
Definition other_record : TxRecord := TxFrame (repeat 0 48) (Some (mkTimespec 0 0, mkTimespec 11 33)).
Definition sync_sent : Message := peer_message 5 (Sync (timestamp 0 0 0)).
Definition records (n : nat) : TxRecord :=
  if (n =? tick world0 + 2)%nat then sync_record else if Nat.even n then other_record else TxAgain.
Definition world_sent : World := world0 <| heap := {[ 9%nat := sync_sent ]} |>.

Definition rx_frame (ty : Z) (s : Z) : Frame :=
  mkFrame peer_mac (ty :: repeat 0 43) (Some (mkTimespec 0 0, mkTimespec s 5)).
Lemma rx_own_timestamp_witness :
  (listen [rx_frame 0 1; rx_frame 11 2; rx_frame 2 3] (repeat 0 128) card).1 =
    [Some (mkTimestamp 5 1 0 7); None; Some (mkTimestamp 5 3 0 7)] /\
  locks (listen [rx_frame 0 1; rx_frame 11 2; rx_frame 2 3] (repeat 0 128) card).2 = 3%nat.
Proof.
  assert (Hb : repeat 0 128 <> []) by discriminate.
  destruct (rx_own_timestamp [rx_frame 0 1; rx_frame 11 2; rx_frame 2 3] (repeat 0 128) card Hb) as (H & _).
  destruct (H eq_refl) as (H1 & _ & _). rewrite H1. split; reflexivity.
Defined.
