(* ===== verification/LinuxLink.v ===== *)
(** * The link of the Linux network interface

    The thread that watches the link (linux/src/linux_hal_common.cpp:
    [x_readEvent], [x_initLinkUpStatus], [getLinkSpeed], [watchNetLink]): the
    netlink messages of the kernel, octet by octet, and the events of the daemon
    that they lead to.  The outcomes of the system calls are arguments. *)

From Stdlib Require Import ZArith Lia.
From stdpp Require Import base gmap list.
From S2P Require Import Prelude Timestamp Identity Message World Clock Port Media Runs Ether CommonPort Wireless Dispatch Config Evolution Fixture.

(** ** Netlink messages

    The values and the two macros of linux/netlink.h and linux/rtnetlink.h. *)

Definition NLMSG_ERROR : Z := 2.
Definition NLMSG_DONE : Z := 3.
Definition RTM_NEWLINK : Z := 16.
Definition NLMSG_HDRLEN : Z := 16.
Definition NLMSG_ALIGN (len : Z) : Z := Z.land (u32 (len + 3)) 0xFFFFFFFC.
Definition BUFFER : nat := 4096.

(** Reads of the array. *)
Definition rd (n off : nat) (buf : list Z) : option Z := s ← slice off n buf; Some (le_decode s).
Definition ifi_index (pos : nat) (buf : list Z) : option Z := v ← rd 4 (pos + 16 + 4) buf; Some (i32 v).
(** [ifi_flags & IFF_RUNNING] *)
Definition ifi_running (pos : nat) (buf : list Z) : option bool := v ← rd 4 (pos + 16 + 8) buf; Some (Z.testbit v 6).

Section Link.
Context `{Env}.

(** The state of the link is compared with what the port was told last. *)
Definition set_link (p : pid) (linkUp' : bool) : D unit :=
  e ← get_ether p;
  if Bool.eqb linkUp' (linkUp e) then mret tt
  else
    mod_ether p (fun e => e <| linkUp := linkUp' |>);;
    _ ← processEvent p (if linkUp' then LINKUP else LINKDOWN); mret tt.

(** The loop over the messages: [pos] is where the next one starts, [status] what is
    left of the received octets, an [int]. *)
Fixpoint read_messages (fuel : nat) (p : pid) (ifindex : Z) (buf : list Z) (pos : nat) (status : Z) : D unit :=
  match fuel with
  | O => mret tt
  | S fuel' =>
      if u32 status <? NLMSG_HDRLEN then mret tt
      else
        nlmsg_len ← from_option OutOfBounds (rd 4 pos buf);
        if (nlmsg_len <? NLMSG_HDRLEN) || (u32 status <? nlmsg_len) then mret tt
        else
          nlmsg_type ← from_option OutOfBounds (rd 2 (pos + 4) buf);
          if (nlmsg_type =? NLMSG_DONE) || (nlmsg_type =? NLMSG_ERROR) then mret tt
          else
            (if nlmsg_type =? RTM_NEWLINK then
               index ← from_option OutOfBounds (ifi_index pos buf);
               if index =? ifindex then
                 running ← from_option OutOfBounds (ifi_running pos buf);
                 set_link p running
               else mret tt
             else mret tt);;
            read_messages fuel' p ifindex buf (pos + Z.to_nat (NLMSG_ALIGN nlmsg_len))
              (i32 (status - NLMSG_ALIGN nlmsg_len))
  end.
(** A message has at least sixteen octets. *)
Definition FUEL : nat := 257.

(** The octets that [recvmsg] gives, none when it fails or at the end, in an array
    that is zero before. *)
Definition received (data : list Z) : list Z := data ++ repeat 0 (BUFFER - length data).
Definition x_readEvent (p : pid) (ifindex : Z) (recv : option (list Z)) : D unit :=
  match recv with
  | None => mret tt
  | Some [] => mret tt
  | Some data => read_messages FUEL p ifindex (received data) 0 (Z.of_nat (length data))
  end.

(** The flags of the interface, when the socket, the name and the flags are given. *)
Definition x_initLinkUpStatus (p : pid) (sock name : bool) (running : option bool) : D unit :=
  match sock && name, running with
  | true, Some true => mod_ether p (fun e => e <| linkUp := true |>)
  | _, _ => mret tt
  end.

(** The speed in Mb/s that ethtool reports, as the daemon names it. *)
Definition getLinkSpeed (name : bool) (speed : option Z) : option Z :=
  if name then
    s ← speed;
    if s =? 100 then Some LINKSPEED_100MB
    else if s =? 1000 then Some LINKSPEED_1G
    else if s =? 2500 then Some LINKSPEED_2_5G
    else if s =? 10000 then Some LINKSPEED_10G
    else None
  else None.

Definition setLinkSpeed (p : pid) (speed : Z) : D unit := mod_port p (fun x => x <| link_speed := speed |>).

(** One wait of 250 ms. *)
Inductive Watch :=
  | WatchTimeout
  | WatchError
  | WatchReady (recv : option (list Z)) (name : bool) (speed : option Z).

(** [link_speed] is the variable of [watchNetLink]. *)
Definition watch_step (p : pid) (ifindex : Z) (i : Watch) (link_speed : Z) : D Z :=
  match i with
  | WatchTimeout | WatchError => mret link_speed
  | WatchReady recv name speed =>
      e ← get_ether p;
      let prev_link_up := linkUp e in
      x_readEvent p ifindex recv;;
      e ← get_ether p;
      if Bool.eqb prev_link_up (linkUp e) then mret link_speed
      else
        let link_speed' :=
          if linkUp e then default INVALID_LINKSPEED (getLinkSpeed name speed) else link_speed in
        setLinkSpeed p link_speed';; mret link_speed'
  end.
Fixpoint watch_loop (p : pid) (ifindex : Z) (waits : list Watch) (link_speed : Z) : D unit :=
  match waits with
  | [] => mret tt
  | i :: waits' => link_speed' ← watch_step p ifindex i link_speed; watch_loop p ifindex waits' link_speed'
  end.

(** What precedes the loop: the three sockets, the state of the link and its speed. *)
Record WatchCalls := mkWatchCalls {
  wc_netlink : bool; wc_bind : bool; wc_inet : bool;
  wc_status : bool * bool * option bool; wc_name : bool; wc_speed : option Z;
}.
(** [waits]: the waits until the thread is told to end. *)
Definition watchNetLink (p : pid) (ifindex : Z) (c : WatchCalls) (waits : list Watch) : D unit :=
  e ← as_ether p;
  match e with
  | None => mret tt
  | Some _ =>
      if negb (wc_netlink c && wc_bind c && wc_inet c) then mret tt
      else
        x_initLinkUpStatus p (wc_status c).1.1 (wc_status c).1.2 (wc_status c).2;;
        e ← get_ether p;
        let link_speed :=
          if linkUp e then default INVALID_LINKSPEED (getLinkSpeed (wc_name c) (wc_speed c))
          else INVALID_LINKSPEED in
        setLinkSpeed p link_speed;;
        watch_loop p ifindex waits link_speed
  end.
End Link.

(** ** What the thread tells the port *)

(** The states of the interface that the messages report. *)
Fixpoint scan (fuel : nat) (ifindex : Z) (buf : list Z) (pos : nat) (status : Z) : option (list bool) :=
  match fuel with
  | O => Some []
  | S fuel' =>
      if u32 status <? NLMSG_HDRLEN then Some []
      else
        nlmsg_len ← rd 4 pos buf;
        if (nlmsg_len <? NLMSG_HDRLEN) || (u32 status <? nlmsg_len) then Some []
        else
          nlmsg_type ← rd 2 (pos + 4) buf;
          if (nlmsg_type =? NLMSG_DONE) || (nlmsg_type =? NLMSG_ERROR) then Some []
          else
            here ← (if nlmsg_type =? RTM_NEWLINK then
                      index ← ifi_index pos buf;
                      if index =? ifindex then running ← ifi_running pos buf; Some [running] else Some []
                    else Some []);
            rest ← scan fuel' ifindex buf (pos + Z.to_nat (NLMSG_ALIGN nlmsg_len))
                     (i32 (status - NLMSG_ALIGN nlmsg_len));
            Some (here ++ rest)
  end.

(** The changes in a sequence of states. *)
Fixpoint changes (up : bool) (states : list bool) : list bool :=
  match states with
  | [] => []
  | b :: states' => if Bool.eqb b up then changes up states' else b :: changes b states'
  end.

(** From one state on, the changes alternate and end in the last state. *)
Fixpoint alternates (up : bool) (l : list bool) : Prop :=
  match l with [] => True | b :: l' => b = negb up /\ alternates b l' end.
Lemma changes_alternate states : forall up, alternates up (changes up states) /\
  default up (last (changes up states)) = default up (last states).
Proof.
  induction states as [|b states IH]; intros up; [done|]. cbn [changes].
  assert (Hl : forall u l, default u (last (b :: l)) = default b (last l))
    by (intros u l; rewrite last_cons; by destruct (last l)).
  rewrite Hl. destruct (Bool.eqb_spec b up) as [->|Hne]; [apply IH|]. rewrite Hl.
  destruct (IH b) as [H1 H2]. split; [split; [by destruct b, up|done]|done].
Qed.

Section Tell.
Context `{Env}.

Fixpoint tell (p : pid) (states : list bool) : D unit :=
  match states with [] => mret tt | b :: states' => set_link p b;; tell p states' end.
(** A change of the link is an input of the daemon. *)
Fixpoint announce (p : pid) (l : list bool) : D unit :=
  match l with
  | [] => mret tt
  | b :: l' =>
      mod_ether p (fun e => e <| linkUp := b |>);;
      daemon_step (LinkEvent p (if b then LINKUP else LINKDOWN));;
      announce p l'
  end.

Lemma bind_ext {A B} (m : D A) (k k' : A -> D B) w :
  (forall a w', m w = Done a w' -> k a w' = k' a w') -> (m ≫= k) w = (m ≫= k') w.
Proof. intros Hk. unfold mbind, M_bind. destruct (m w); [by apply Hk|done]. Qed.
Lemma bind_bind {A B C} (m : D A) (k : A -> D B) (k' : B -> D C) w :
  ((m ≫= k) ≫= k') w = (m ≫= (fun a => k a ≫= k')) w.
Proof. unfold mbind, M_bind. by destruct (m w). Qed.

Lemma read_messages_scan fuel p ifindex buf : forall pos status states w,
  scan fuel ifindex buf pos status = Some states ->
  read_messages fuel p ifindex buf pos status w = tell p states w.
Proof.
  induction fuel as [|fuel IH]; intros pos status states w; cbn [scan read_messages]; [by intros [= <-]|].
  destruct (_ <? NLMSG_HDRLEN); [by intros [= <-]|]. destruct (rd 4 pos buf) as [len|]; [|done]. cbn [mbind option_bind].
  rewrite (bind_Done _ _ _ _ _ (run_from_option OutOfBounds _ _ w eq_refl)).
  destruct (_ || _); [by intros [= <-]|]. destruct (rd 2 _ buf) as [ty|]; [|done]. cbn [mbind option_bind].
  rewrite (bind_Done _ _ _ _ _ (run_from_option OutOfBounds _ _ w eq_refl)).
  destruct (_ || _); [by intros [= <-]|].
  destruct (scan fuel _ _ _ _) as [rest|] eqn:Er.
  2:{ intros Hs. exfalso. destruct (ty =? RTM_NEWLINK); [destruct (ifi_index pos buf); [|done]; cbn in Hs|done].
      destruct (_ =? ifindex); [destruct (ifi_running pos buf)|]; done. }
  destruct (ty =? RTM_NEWLINK); [|intros [= <-]; exact (IH _ _ _ w Er)].
  destruct (ifi_index pos buf) as [index|]; [|done]. cbn [mbind option_bind]. rewrite bind_bind.
  rewrite (bind_Done _ _ _ _ _ (run_from_option OutOfBounds _ _ w eq_refl)).
  destruct (index =? ifindex); [|intros [= <-]; exact (IH _ _ _ w Er)].
  destruct (ifi_running pos buf) as [running|]; [|done]. cbn [mbind option_bind]. intros [= <-]. rewrite bind_bind.
  rewrite (bind_Done _ _ _ _ _ (run_from_option OutOfBounds _ _ w eq_refl)).
  cbn [app tell]. apply bind_ext. intros [] w' _. exact (IH _ _ _ w' Er).
Qed.

Lemma tell_changes p states : forall x e w, ports w !! p = Some x -> media x = Ether e ->
  tell p states w = announce p (changes (linkUp e) states) w.
Proof.
  induction states as [|b states IH]; intros x e w Hx He; [done|]. cbn [tell changes]. unfold set_link.
  rewrite bind_bind, (bind_Done _ _ _ _ _ (run_get_ether p x e w Hx He)).
  destruct (Bool.eqb b (linkUp e)); [exact (IH x e w Hx He)|]. cbn [announce].
  rewrite bind_bind, !(bind_Done _ _ _ _ _ (run_mod_ether p _ x e w Hx He)).
  set (w1 := w <| ports := _ |>). unfold daemon_step. apply bind_ext. intros [] w2 E.
  assert (Hx1 : ports w1 !! p = Some (x <| media := Ether (e <| linkUp := b |>) |>)) by (cbn; by eapply lookup_insert_port).
  assert (Hk : keeps world_evolves (daemon_step (LinkEvent p (if b then LINKUP else LINKDOWN)))) by apply ev_daemon_step.
  destruct (Hk _ _ _ E) as [[_ Hp] _]. destruct (Hp p _ Hx1) as (x2 & Hx2 & [Hc _]).
  assert (Hm : media_config (media x2) = inl (ether_config (e <| linkUp := b |>))) by exact (f_equal snd Hc).
  destruct (media x2) as [e2|] eqn:He2; [|done]. cbn in Hm. injection Hm as _ _ Hl.
  rewrite <- Hl. exact (IH x2 e2 w2 Hx2 He2).
Qed.
End Tell.

(** ** The array is read within its bounds, and the loop ends *)

Lemma nlmsg_align len : 0 <= len < 2 ^ 32 - 3 ->
  len <= NLMSG_ALIGN len <= len + 3 /\ NLMSG_ALIGN len mod 4 = 0.
Proof.
  intros Hl. unfold NLMSG_ALIGN. rewrite (uwrap_small 32) by (unfold fits; lia). set (x := len + 3).
  assert (E : Z.land x 0xFFFFFFFC = 4 * (x / 4)).
  { change 0xFFFFFFFC with (Z.land (Z.ones 32) (Z.lnot 3)). rewrite Z.land_assoc, Z.land_ones by lia.
    rewrite Z.mod_small by lia. rewrite <- Z.ldiff_land. change 3 with (Z.ones 2).
    rewrite Z.ldiff_ones_r, Z.shiftl_mul_pow2, Z.shiftr_div_pow2 by lia. change (2 ^ 2) with 4. lia. }
  rewrite E. pose proof (Z.div_mod x 4 ltac:(lia)). pose proof (Z.mod_pos_bound x 4 ltac:(lia)).
  split; [lia|]. rewrite Z.mul_comm. apply Z.mod_mul. lia.
Qed.

Lemma rd_total n off buf : (off + n <= length buf)%nat -> exists v, rd n off buf = Some v.
Proof. intros H. unfold rd. destruct (slice_defined _ _ _ H) as [r ->]. by eexists. Qed.
Lemma rd_zero data n pos : (length data <= pos)%nat -> (pos + n <= BUFFER)%nat ->
  rd n pos (received data) = Some 0.
Proof.
  intros Hd Hn. unfold rd, received, slice. rewrite length_app, repeat_length, decide_True by lia.
  rewrite drop_app_ge by lia. cbn [mbind option_bind]. f_equal.
  assert (Hz : forall k l, Forall (eq 0) l -> le_decode (take k l) = 0).
  { intros k l Hf. revert k. induction Hf as [|z l <- _ IH]; intros [|k]; cbn; try done. by rewrite IH. }
  apply Hz, Forall_drop. apply Forall_forall. intros z Hin%list_elem_of_In%repeat_spec. done.
Qed.
Lemma length_received data : (length data <= BUFFER)%nat -> length (received data) = BUFFER.
Proof. intros H. unfold received. rewrite length_app, repeat_length. lia. Qed.
Lemma rd_bound n off buf v : octets buf -> rd n off buf = Some v -> 0 <= v < 2 ^ (8 * Z.of_nat n).
Proof.
  intros Hb. unfold rd. destruct (slice off n buf) as [r|] eqn:E; [|done]. intros [= <-].
  rewrite <- (slice_length _ _ _ _ E). apply le_decode_bound. by eapply slice_octets.
Qed.
Lemma octets_received data : octets data -> octets (received data).
Proof.
  intros H. apply Forall_app. split; [done|]. apply Forall_forall.
  intros z Hin%list_elem_of_In%repeat_spec. subst z. unfold octet. lia.
Qed.

(** [data] fits with the twelve octets that are read beyond the header of the last
    message. *)
Lemma scan_total data ifindex : octets data -> (length data <= 4084)%nat ->
  forall fuel pos status, Z.of_nat pos + status = Z.of_nat (length data) -> -3 <= status ->
  (length data + 16 <= pos + 16 * fuel)%nat ->
  exists states, forall fuel', (fuel <= fuel')%nat -> scan fuel' ifindex (received data) pos status = Some states.
Proof.
  intros Ho Hlen. pose proof (length_received data ltac:(unfold BUFFER; lia)) as Hb.
  induction fuel as [|fuel IH]; intros pos status Hp Hs Hf; [lia|].
  assert (Hstep : exists states, forall fuel', (fuel <= fuel')%nat ->
    scan (S fuel') ifindex (received data) pos status = Some states).
  2:{ destruct Hstep as [states Hst]. exists states. intros [|fuel'] H; [lia|]. apply Hst. lia. }
  cbn [scan]. destruct (Z.lt_ge_cases status 0) as [Hneg|Hpos].
  { rewrite (rd_zero data 4 pos) by (unfold BUFFER; lia). cbn [mbind option_bind].
    replace (0 <? NLMSG_HDRLEN) with true by done. exists []. intros. by destruct (u32 status <? NLMSG_HDRLEN). }
  assert (Hu : u32 status = status) by (apply uwrap_small; unfold fits; lia). rewrite Hu. unfold NLMSG_HDRLEN.
  destruct (Z.ltb_spec status 16); [by exists []|].
  destruct (rd_total 4 pos (received data) ltac:(rewrite Hb; unfold BUFFER; lia)) as [len E1]. rewrite E1.
  pose proof (rd_bound _ _ _ _ (octets_received _ Ho) E1) as Hl. cbn [mbind option_bind].
  destruct (Z.ltb_spec len 16); [by exists []|]. destruct (Z.ltb_spec status len); [by exists []|]. cbn [orb].
  destruct (rd_total 2 (pos + 4) (received data) ltac:(rewrite Hb; unfold BUFFER; lia)) as [ty E2]. rewrite E2.
  cbn [mbind option_bind]. destruct (_ || _); [by exists []|].
  assert (Hlk : exists here, (if ty =? RTM_NEWLINK then
      index ← ifi_index pos (received data);
      if index =? ifindex then running ← ifi_running pos (received data); Some [running] else Some []
    else Some []) = Some here).
  { destruct (_ =? RTM_NEWLINK); [|by eexists]. unfold ifi_index, ifi_running.
    destruct (rd_total 4 (pos + 16 + 4) (received data) ltac:(rewrite Hb; unfold BUFFER; lia)) as [i E3]. rewrite E3.
    destruct (rd_total 4 (pos + 16 + 8) (received data) ltac:(rewrite Hb; unfold BUFFER; lia)) as [r E4]. rewrite E4.
    cbn. destruct (_ =? ifindex); by eexists. }
  destruct Hlk as [here ->]. destruct (nlmsg_align len ltac:(lia)) as [Ha _].
  destruct (IH (pos + Z.to_nat (NLMSG_ALIGN len))%nat (status - NLMSG_ALIGN len)) as [rest Hr]; [lia..|].
  rewrite (swrap_small 32) by (unfold sfits; lia). exists (here ++ rest). intros fuel' H'. by rewrite (Hr fuel' H').
Qed.

(** ** The messages of the kernel *)

(** The end of a dump or an error; the state of an interface, with the octets before
    the index, those after the flags, and the attributes; any other message. *)
Inductive NlMessage :=
  | NlEnd (error : bool) (body : list Z)
  | NlLink (family : list Z) (index flags : Z) (attributes : list Z)
  | NlOther (type : Z) (body : list Z).

Definition nl_type (m : NlMessage) : Z :=
  match m with
  | NlEnd error _ => if error then NLMSG_ERROR else NLMSG_DONE
  | NlLink _ _ _ _ => RTM_NEWLINK
  | NlOther ty _ => ty
  end.
Definition nl_body (m : NlMessage) : list Z :=
  match m with
  | NlEnd _ body | NlOther _ body => body
  | NlLink family index flags attributes => family ++ le_encode 4 (u32 index) ++ le_encode 4 flags ++ attributes
  end.
(** A message is padded to a multiple of four octets; [header] are the flags, the
    sequence number and the port id. *)
Definition nl_encode (header : list Z) (m : NlMessage) : list Z :=
  let len := (16 + length (nl_body m))%nat in
  le_encode 4 (Z.of_nat len) ++ le_encode 2 (nl_type m) ++ header ++ nl_body m ++
  repeat 0 (Z.to_nat (NLMSG_ALIGN (Z.of_nat len)) - len).
Definition nl_ok (m : NlMessage) : Prop :=
  match m with
  | NlEnd _ _ => True
  | NlLink family index flags attributes =>
      length family = 4%nat /\ sfits 32 index /\ fits 32 flags
  | NlOther ty _ => fits 16 ty /\ ty <> NLMSG_DONE /\ ty <> NLMSG_ERROR /\ ty <> RTM_NEWLINK
  end.

(** What they say of one interface. *)
Fixpoint link_states (ifindex : Z) (ms : list NlMessage) : list bool :=
  match ms with
  | [] | NlEnd _ _ :: _ => []
  | NlOther _ _ :: ms' => link_states ifindex ms'
  | NlLink _ index flags _ :: ms' =>
      (if index =? ifindex then [Z.testbit flags 6] else []) ++ link_states ifindex ms'
  end.

Section Encoded.
Context (header : list Z) (Hheader : length header = 10%nat).
Abbreviation enc := (nl_encode header).

Lemma rd_here pre n v post pos : pos = length pre -> 0 <= v < 2 ^ (8 * Z.of_nat n) ->
  rd n pos (pre ++ le_encode n v ++ post) = Some v.
Proof.
  intros -> Hv. unfold rd. rewrite <- (length_le_encode n v) at 1. rewrite slice_middle. cbn.
  by rewrite le_back.
Qed.

Lemma length_encode m : (16 + length (nl_body m) <= 4096)%nat ->
  Z.of_nat (length (enc m)) = NLMSG_ALIGN (Z.of_nat (16 + length (nl_body m))).
Proof.
  intros Hl. destruct (nlmsg_align (Z.of_nat (16 + length (nl_body m))) ltac:(lia)) as [Ha _].
  unfold nl_encode. rewrite !length_app, !length_le_encode, repeat_length, Hheader. lia.
Qed.

(** The fields of the first message after [pre]. *)
Lemma fields_at pre m post : (16 + length (nl_body m) <= 4096)%nat -> nl_ok m ->
  let buf := pre ++ enc m ++ post in
  rd 4 (length pre) buf = Some (Z.of_nat (16 + length (nl_body m))) /\
  rd 2 (length pre + 4) buf = Some (nl_type m) /\
  match m with
  | NlLink _ index flags _ => ifi_index (length pre) buf = Some index /\
                              ifi_running (length pre) buf = Some (Z.testbit flags 6)
  | _ => True
  end.
Proof.
  intros Hl Hm buf. subst buf. unfold nl_encode. set (len := (16 + length (nl_body m))%nat) in *. rewrite <- !app_assoc.
  split; [apply rd_here; [done|cbn; lia]|]. split.
  - rewrite (app_assoc pre). apply rd_here; [rewrite length_app, length_le_encode; lia|].
    destruct m as [[]| |ty ?]; cbn in *; try (unfold NLMSG_ERROR, NLMSG_DONE, RTM_NEWLINK; lia).
    destruct Hm as [Hm _]. unfold fits in Hm. lia.
  - destruct m as [|family index flags attributes|]; [done| |done]. destruct Hm as (Hf & Hi & Hfl).
    unfold ifi_index, ifi_running. cbn [nl_body]. rewrite <- !app_assoc.
    set (a := le_encode 4 (Z.of_nat len)). set (b := le_encode 2 _). set (tail := attributes ++ _).
    assert (Ha : length a = 4%nat) by apply length_le_encode. assert (Hb : length b = 2%nat) by apply length_le_encode.
    replace (pre ++ a ++ b ++ header ++ family ++ le_encode 4 (u32 index) ++ le_encode 4 flags ++ tail)
      with ((pre ++ a ++ b ++ header ++ family) ++ le_encode 4 (u32 index) ++ le_encode 4 flags ++ tail)
      by (by rewrite <- !app_assoc).
    split.
    + rewrite rd_here; [cbn; f_equal; by apply (swrap_uwrap 32)|rewrite !length_app; lia|].
      apply (Z.mod_pos_bound index (2 ^ 32)). lia.
    + rewrite app_assoc. rewrite rd_here; [done|rewrite !length_app, length_le_encode; lia|].
      unfold fits in Hfl. exact Hfl.
Qed.

Lemma scan_encoded ifindex ms : forall fuel pre post,
  Forall nl_ok ms -> (length (concat (map enc ms)) <= 4096)%nat -> (length ms < fuel)%nat ->
  scan fuel ifindex (pre ++ concat (map enc ms) ++ post) (length pre) (Z.of_nat (length (concat (map enc ms)))) =
  Some (link_states ifindex ms).
Proof.
  induction ms as [|m ms IH]; intros [|fuel] pre post Hok Hlen Hf; [done|done|cbn in Hf; lia|].
  apply Forall_cons in Hok as [Hm Hok]. cbn [map concat] in *. rewrite length_app in Hlen.
  assert (Hl : (16 + length (nl_body m) <= 4096)%nat).
  { unfold nl_encode in Hlen. rewrite !length_app, !length_le_encode, Hheader in Hlen. lia. }
  pose proof (length_encode m Hl) as He. rewrite <- app_assoc.
  destruct (fields_at pre m (concat (map enc ms) ++ post) Hl Hm) as (E1 & E2 & E3).
  destruct (nlmsg_align (Z.of_nat (16 + length (nl_body m))) ltac:(lia)) as [Ha _].
  cbn [scan]. rewrite E1, E2. cbn [mbind option_bind]. rewrite length_app, Nat2Z.inj_add, He.
  set (n := Z.of_nat (16 + length (nl_body m))) in *. set (k := Z.of_nat (length (concat _))).
  assert (Hk : 0 <= k <= 4096) by lia.
  assert (Hu : u32 (NLMSG_ALIGN n + k) = NLMSG_ALIGN n + k) by (apply uwrap_small; unfold fits; lia).
  assert (Hi : i32 k = k) by (apply swrap_small; unfold sfits; lia). rewrite Hu. unfold NLMSG_HDRLEN.
  rewrite (proj2 (Z.ltb_ge _ _)) by lia. rewrite (proj2 (Z.ltb_ge n 16)) by lia.
  rewrite (proj2 (Z.ltb_ge (_ + _) n)) by lia. cbn [orb].
  replace (NLMSG_ALIGN n + k - NLMSG_ALIGN n) with k by lia. rewrite Hi.
  assert (Hrest : scan fuel ifindex (pre ++ enc m ++ concat (map enc ms) ++ post)
    (length pre + Z.to_nat (NLMSG_ALIGN n)) k = Some (link_states ifindex ms)).
  { rewrite <- He, Nat2Z.id, <- length_app, (app_assoc pre). apply IH; [done|lia|cbn in Hf; lia]. }
  rewrite Hrest. destruct m as [[]|family index flags attributes|ty body]; cbn [nl_type link_states]; [done|done| |].
  - destruct E3 as [-> ->]. cbn. by destruct (_ =? ifindex).
  - destruct Hm as (_ & H1 & H2 & H3). rewrite (proj2 (Z.eqb_neq ty NLMSG_DONE) H1), (proj2 (Z.eqb_neq ty NLMSG_ERROR) H2).
    rewrite (proj2 (Z.eqb_neq ty RTM_NEWLINK) H3). done.
Qed.
End Encoded.

(** ** The contracts *)

Section Contracts.
Context `{Env}.

Lemma read_event_scan p ifindex data x e w states : ports w !! p = Some x -> media x = Ether e ->
  scan FUEL ifindex (received data) 0 (Z.of_nat (length data)) = Some states ->
  x_readEvent p ifindex (Some data) w = announce p (changes (linkUp e) states) w.
Proof.
  intros Hx He Hs. unfold x_readEvent. rewrite <- (tell_changes p states x e w Hx He).
  destruct data as [|b data]; [|by apply read_messages_scan]. by injection Hs as <-.
Qed.

(** C18: What the kernel says of the link reaches the daemon as changes.  For every sequence of netlink messages that fits in the buffer, with any headers and any attributes, the thread does exactly this: up to the first end or error, and for the messages of its own interface only, it takes the IFF_RUNNING flags and gives the daemon one LINKUP or LINKDOWN input for each change, in order, with the state stored first; repeated states give nothing, the events alternate, and the last one is the last reported state. *)
Theorem link_events header p ifindex ms x e w :
  length header = 10%nat -> Forall nl_ok ms -> (length (concat (map (nl_encode header) ms)) <= 4096)%nat ->
  ports w !! p = Some x -> media x = Ether e ->
  let l := changes (linkUp e) (link_states ifindex ms) in
  x_readEvent p ifindex (Some (concat (map (nl_encode header) ms))) w = announce p l w /\
  alternates (linkUp e) l /\ default (linkUp e) (last l) = default (linkUp e) (last (link_states ifindex ms)).
Proof.
  intros Hh Hok Hlen Hx He l. split; [|apply changes_alternate].
  apply (read_event_scan p ifindex _ x e); [done..|]. unfold received.
  apply (scan_encoded header Hh ifindex ms FUEL [] _ Hok Hlen).
  assert (Hms : (16 * length ms <= length (concat (map (nl_encode header) ms)))%nat).
  { clear Hok Hlen l. induction ms as [|m ms IH]; [done|]. cbn [map concat length]. rewrite length_app.
    assert (16 <= length (nl_encode header m))%nat; [|lia].
    unfold nl_encode. rewrite !length_app, !length_le_encode, Hh. lia. }
  unfold FUEL. lia.
Qed.

End Contracts.

(** The port's own interface goes down twice and comes up, another one goes down. *)
Definition down_up : list NlMessage :=
  [NlLink (repeat 0 4) 3 0x1003 [1; 2; 3]; NlLink (repeat 0 4) 7 0x1003 []; NlOther 20 [9];
   NlLink (repeat 0 4) 3 0x1003 []; NlLink (repeat 0 4) 3 0x11043 []; NlEnd false []].
Definition link_part : EtherPart :=
  match media (default port_memory (ports world0 !! 0%nat)) with Ether e => e | Wireless _ => ether_memory end.

Lemma link_events_witness :
  @x_readEvent env_ok 0 3 (Some (concat (map (nl_encode (repeat 0 10)) down_up))) world0 =
  @announce env_ok 0 [false; true] world0.
Proof.
  destruct (@link_events env_ok (repeat 0 10) 0 3 down_up (default port_memory (ports world0 !! 0%nat)) link_part world0)
    as [H _].
  - reflexivity.
  - unfold down_up. repeat constructor; cbn; unfold sfits, fits, NLMSG_DONE, NLMSG_ERROR, RTM_NEWLINK; try lia; done.
  - vm_compute. lia.
  - vm_compute. reflexivity.
  - vm_compute. reflexivity.
  - rewrite H. reflexivity.
Defined.
