(* ===== verification/LinuxIpc.v ===== *)
(** * The shared memory of the daemon

    [LinuxSharedMemoryIPC] (linux/src/linux_hal_common.cpp) and the structure
    that other processes read (common/ipcdef.hpp): its layout, octet by octet,
    and the three updates, which are the effects of the daemon.  The outcomes of
    the system calls and the size of the mutex that precedes the structure are
    arguments. *)

From Stdlib Require Import ZArith Lia.
From Stdlib.Floats Require Import SpecFloat.
From stdpp Require Import base gmap list.
From S2P Require Import Prelude Timestamp CFloat Identity Message World Clock Port Media Runs Ether Servo Transmit Dispatch Fixture ServoTheory Persist.

(** ** The structure *)

Record gPtpTimeData := mkTimeData {
  ml_phoffset : Z; ls_phoffset : Z;                       (* int64_t *)
  ml_freqoffset : spec_float; ls_freqoffset : spec_float; (* long double *)
  local_time : Z;                                         (* uint64_t *)
  gptp_grandmaster_id : ClockIdentity; gptp_domain_number : Z;
  td_clock_identity : ClockIdentity; td_priority1 : Z; clock_class : Z;
  offset_scaled_log_variance : Z; clock_accuracy : Z; td_priority2 : Z; td_domain_number : Z;
  log_sync_interval : Z; log_announce_interval : Z; log_pdelay_interval : Z;   (* int8_t *)
  port_number : Z;
  td_sync_count : Z; td_pdelay_count : Z;                 (* uint32_t *)
  td_asCapable : bool; td_port_state : PortState; process_id : Z;
}.
#[export] Instance eta_TimeData : Settable gPtpTimeData := fun d =>
  mkTimeData (ml_phoffset d) (ls_phoffset d) (ml_freqoffset d) (ls_freqoffset d) (local_time d)
    (gptp_grandmaster_id d) (gptp_domain_number d) (td_clock_identity d) (td_priority1 d) (clock_class d)
    (offset_scaled_log_variance d) (clock_accuracy d) (td_priority2 d) (td_domain_number d)
    (log_sync_interval d) (log_announce_interval d) (log_pdelay_interval d) (port_number d)
    (td_sync_count d) (td_pdelay_count d) (td_asCapable d) (td_port_state d) (process_id d).

(** Its size on x86-64, where a [long double] is aligned to sixteen octets. *)
Definition SIZEOF_TIMEDATA : nat := 112.

(** What another process reads; the members at their offsets. *)
Definition read_timedata (base : nat) (seg : list Z) : option gPtpTimeData :=
  let at_ off len := slice (base + off) len seg in
  let u off len := o ← at_ off len; Some (le_decode o) in
  let s off len := o ← at_ off len; Some (swrap (8 * Z.of_nat len) (le_decode o)) in
  let ld off := o ← at_ off 10%nat; Some (ld_decode o) in
  ml ← s 0%nat 8%nat; ls ← s 8%nat 8%nat; mlf ← ld 16%nat; lsf ← ld 32%nat; time ← u 48%nat 8%nat;
  gm ← at_ 56%nat 8%nat; gdomain ← u 64%nat 1%nat;
  id ← at_ 65%nat 8%nat; p1 ← u 73%nat 1%nat; class ← u 74%nat 1%nat; variance ← u 76%nat 2%nat;
  accuracy ← u 78%nat 1%nat; p2 ← u 79%nat 1%nat; domain ← u 80%nat 1%nat;
  log_sync ← s 81%nat 1%nat; log_announce ← s 82%nat 1%nat; log_pdelay ← s 83%nat 1%nat;
  port ← u 84%nat 2%nat;
  sync ← u 88%nat 4%nat; pdelay ← u 92%nat 4%nat;
  capable ← at_ 96%nat 1%nat; capable ← bool_decode capable;
  state ← at_ 100%nat 4%nat; state ← state_decode state;
  process ← s 104%nat 4%nat;
  Some (mkTimeData ml ls mlf lsf time gm gdomain id p1 class variance accuracy p2 domain
          log_sync log_announce log_pdelay port sync pdelay capable state process).

(** ** The mapping *)

(** The pointer [master_offset_buffer]: null, a mapping, or one that was given
    back. *)
Inductive Segment := NoSegment | Mapped (seg : list Z) | Unmapped.
Record Ipc := mkIpc { buffer : Segment; ipc_locks : nat; ipc_unlocks : nat; pid_of_daemon : Z; linked : bool }.
#[export] Instance eta_Ipc : Settable Ipc := fun i =>
  mkIpc (buffer i) (ipc_locks i) (ipc_unlocks i) (pid_of_daemon i) (linked i).

(** The constructor. *)
Definition LinuxSharedMemoryIPC_new (process : Z) : Ipc := mkIpc NoSegment 0 0 process false.

Section Ipc.
Context (mutex_size : nat).
Definition SHM_SIZE : nat := (SIZEOF_TIMEDATA + mutex_size)%nat.

(** The argument is of the right type, and the calls: [shm_open], [ftruncate],
    [mmap] with what the object holds, [pthread_mutexattr_init],
    [pthread_mutex_init]. *)
Definition init (arg_ok opened sized : bool) (mapped : option (list Z)) (attr mutex : bool) (i : Ipc) : bool * Ipc :=
  if negb arg_ok then (false, i)
  else if negb opened then (false, i)
  else if negb sized then (false, i <| linked := false |>)
  else match mapped with
       | None => (false, i <| buffer := Unmapped |> <| linked := false |>)
       | Some seg =>
           let i := i <| buffer := Mapped seg |> in
           if attr && mutex then (true, i <| linked := true |>) else (false, i <| linked := false |>)
       end.

(** The members are written between the lock and the unlock of the mutex. *)
Definition write_members (fs : list (nat * list Z)) (i : Ipc) : res Ipc bool :=
  match buffer i with
  | NoSegment => Done true i
  | Unmapped => Fault DanglingPointer
  | Mapped seg =>
      match puts mutex_size fs seg with
      | None => Fault OutOfBounds
      | Some seg' =>
          Done true (i <| ipc_locks := S (ipc_locks i) |> <| buffer := Mapped seg' |>
                       <| ipc_unlocks := S (ipc_unlocks i) |>)
      end
  end.

Definition update (ml ls : Z) (mlf lsf : spec_float) (time sync pdelay : Z) (state : PortState) (capable : bool)
    (i : Ipc) : res Ipc bool :=
  write_members
    [ (0, le_encode 8 ml); (8, le_encode 8 ls); (16, ld_encode [] mlf); (32, ld_encode [] lsf);
      (48, le_encode 8 time); (88, le_encode 4 sync); (92, le_encode 4 pdelay); (96, bool_encode capable);
      (100, state_encode state); (104, le_encode 4 (pid_of_daemon i)) ]%nat i.
Definition update_grandmaster (id : ClockIdentity) (domain : Z) (i : Ipc) : res Ipc bool :=
  write_members [ (56, take 8 id); (64, le_encode 1 domain) ]%nat i.
Definition update_network_interface (id : ClockIdentity) (p1 class variance accuracy p2 domain
    log_sync log_announce log_pdelay port : Z) (i : Ipc) : res Ipc bool :=
  write_members
    [ (65, take 8 id); (73, le_encode 1 p1); (74, le_encode 1 class); (76, le_encode 2 variance);
      (78, le_encode 1 accuracy); (79, le_encode 1 p2); (80, le_encode 1 domain);
      (81, le_encode 1 log_sync); (82, le_encode 1 log_announce); (83, le_encode 1 log_pdelay);
      (84, le_encode 2 port) ]%nat i.

(** The pointer is kept. *)
Definition stop (i : Ipc) : Ipc :=
  match buffer i with
  | NoSegment => i
  | _ => i <| buffer := Unmapped |> <| linked := false |>
  end.
(** The destructor. *)
Definition LinuxSharedMemoryIPC_delete (i : Ipc) : Ipc :=
  (match buffer i with Mapped _ => i <| buffer := Unmapped |> | _ => i end) <| linked := false |>.

(** The calls that the effects of the daemon are. *)
Definition on_effect (e : Effect) (i : Ipc) : res Ipc bool :=
  match e with
  | EIpcUpdate ml ls mlf lsf time sync pdelay state capable =>
      update ml ls mlf lsf time sync pdelay state capable i
  | EIpcGrandmaster id domain => update_grandmaster id domain i
  | EIpcInterface id p1 q p2 domain log_sync log_announce log_pdelay port =>
      update_network_interface id p1 (cq_class q) (offsetScaledLogVariance q) (clockAccuracy q) p2 domain
        log_sync log_announce log_pdelay port i
  | _ => Done true i
  end.
Fixpoint on_effects (es : list Effect) (i : Ipc) : res Ipc bool :=
  match es with
  | [] => Done true i
  | e :: es' => match on_effect e i with Done _ i' => on_effects es' i' | Fault f => Fault f end
  end.
End Ipc.

(** ** What the readers see *)

Definition effect_ok (e : Effect) : Prop :=
  match e with
  | EIpcUpdate ml ls mlf lsf time sync pdelay _ _ =>
      sfits 64 ml /\ sfits 64 ls /\ ld_valid mlf /\ ld_valid lsf /\ fits 64 time /\ fits 32 sync /\ fits 32 pdelay
  | EIpcGrandmaster id domain => length id = 8%nat /\ fits 8 domain
  | EIpcInterface id p1 q p2 domain log_sync log_announce log_pdelay port =>
      length id = 8%nat /\ fits 8 p1 /\ fits 8 (cq_class q) /\ fits 16 (offsetScaledLogVariance q) /\
      fits 8 (clockAccuracy q) /\ fits 8 p2 /\ fits 8 domain /\ sfits 8 log_sync /\ sfits 8 log_announce /\
      sfits 8 log_pdelay /\ fits 16 port
  | _ => True
  end.

(** The structure after an effect. *)
Definition show (process : Z) (e : Effect) (d : gPtpTimeData) : gPtpTimeData :=
  match e with
  | EIpcUpdate ml ls mlf lsf time sync pdelay state capable =>
      d <| ml_phoffset := ml |> <| ls_phoffset := ls |> <| ml_freqoffset := mlf |> <| ls_freqoffset := lsf |>
        <| local_time := time |> <| td_sync_count := sync |> <| td_pdelay_count := pdelay |>
        <| td_asCapable := capable |> <| td_port_state := state |> <| process_id := process |>
  | EIpcGrandmaster id domain => d <| gptp_grandmaster_id := id |> <| gptp_domain_number := domain |>
  | EIpcInterface id p1 q p2 domain log_sync log_announce log_pdelay port =>
      d <| td_clock_identity := id |> <| td_priority1 := p1 |> <| clock_class := cq_class q |>
        <| offset_scaled_log_variance := offsetScaledLogVariance q |> <| clock_accuracy := clockAccuracy q |>
        <| td_priority2 := p2 |> <| td_domain_number := domain |> <| log_sync_interval := log_sync |>
        <| log_announce_interval := log_announce |> <| log_pdelay_interval := log_pdelay |> <| port_number := port |>
  | _ => d
  end.

Section Readers.
Context (mutex_size : nat).

(** A mapped segment that shows [d], with the mutex unlocked. *)
Definition shows (i : Ipc) (d : gPtpTimeData) : Prop :=
  sfits 32 (pid_of_daemon i) /\ ipc_locks i = ipc_unlocks i /\
  exists seg, buffer i = Mapped seg /\ length seg = SHM_SIZE mutex_size /\ read_timedata mutex_size seg = Some d.

Lemma write_run fs i seg : buffer i = Mapped seg -> length seg = SHM_SIZE mutex_size ->
  forallb (fun '(o, bs) => o + length bs <=? SIZEOF_TIMEDATA)%nat fs = true ->
  exists seg', puts mutex_size fs seg = Some seg' /\ length seg' = SHM_SIZE mutex_size /\
    write_members mutex_size fs i =
      Done true (i <| ipc_locks := S (ipc_locks i) |> <| buffer := Mapped seg' |> <| ipc_unlocks := S (ipc_unlocks i) |>).
Proof.
  intros Hb Hl Hf. destruct (puts_defined mutex_size fs seg) as [seg' E].
  - rewrite forallb_forall in Hf. apply Forall_forall. intros [o bs] Hin.
    apply list_elem_of_In, Hf, Nat.leb_le in Hin. unfold SHM_SIZE in Hl. lia.
  - exists seg'. split; [done|]. split; [by rewrite (length_puts _ _ _ _ E)|]. unfold write_members. by rewrite Hb, E.
Qed.

(** Every member of the new segment is the one written, or the old one. *)
Ltac members H :=
  repeat match goal with
  | |- context [slice (mutex_size + ?o) ?n ?s] =>
      first [ rewrite (slice_puts _ _ o n _ _ _ H eq_refl)
            | rewrite (slice_puts_disjoint _ _ o n _ _ H eq_refl) ]
  end.
Ltac old_members :=
  repeat match goal with
  | H : context [slice ?o ?n ?s ≫= _] |- _ => destruct (slice o n s) eqn:?; cbn [mbind option_bind] in H |- *; [|done]
  | H : context [bool_decode ?s ≫= _] |- _ => destruct (bool_decode s) eqn:?; cbn [mbind option_bind] in H |- *; [|done]
  | H : context [state_decode ?s ≫= _] |- _ => destruct (state_decode s) eqn:?; cbn [mbind option_bind] in H |- *; [|done]
  end.

Ltac values :=
  repeat first
    [ rewrite le_back_signed by (unfold sfits in *; cbn; lia)
    | rewrite le_back by (unfold fits in *; cbn; lia)
    | rewrite ld_back by assumption ].
Ltac eight id := do 8 (destruct id as [|? id]; [done|]); destruct id; [|done].

Lemma show_grandmaster seg seg' id domain d : length id = 8%nat -> fits 8 domain ->
  puts mutex_size [ (56, take 8 id); (64, le_encode 1 domain) ]%nat seg = Some seg' ->
  read_timedata mutex_size seg = Some d ->
  read_timedata mutex_size seg' = Some (show 0 (EIpcGrandmaster id domain) d).
Proof.
  intros Hi Hd Hp Hr. rewrite (take_ge id) in Hp by lia. eight id.
  unfold read_timedata in *. members Hp. cbn [mbind option_bind]. old_members. injection Hr as <-. values. done.
Qed.
Lemma show_update process seg seg' ml ls mlf lsf time sync pdelay state capable d :
  effect_ok (EIpcUpdate ml ls mlf lsf time sync pdelay state capable) -> sfits 32 process ->
  puts mutex_size
    [ (0, le_encode 8 ml); (8, le_encode 8 ls); (16, ld_encode [] mlf); (32, ld_encode [] lsf);
      (48, le_encode 8 time); (88, le_encode 4 sync); (92, le_encode 4 pdelay); (96, bool_encode capable);
      (100, state_encode state); (104, le_encode 4 process) ]%nat seg = Some seg' ->
  read_timedata mutex_size seg = Some d ->
  read_timedata mutex_size seg' = Some (show process (EIpcUpdate ml ls mlf lsf time sync pdelay state capable) d).
Proof.
  intros (H1 & H2 & H3 & H4 & H5 & H6 & H7) Hq Hp Hr.
  unfold read_timedata in *. members Hp. cbn [mbind option_bind]. rewrite bool_back, state_back.
  cbn [mbind option_bind]. old_members. injection Hr as <-. values. done.
Qed.
Lemma show_interface seg seg' id p1 class variance accuracy p2 domain log_sync log_announce log_pdelay port d :
  effect_ok (EIpcInterface id p1 (mkClockQuality class accuracy variance) p2 domain log_sync log_announce log_pdelay port) ->
  puts mutex_size
    [ (65, take 8 id); (73, le_encode 1 p1); (74, le_encode 1 class); (76, le_encode 2 variance);
      (78, le_encode 1 accuracy); (79, le_encode 1 p2); (80, le_encode 1 domain);
      (81, le_encode 1 log_sync); (82, le_encode 1 log_announce); (83, le_encode 1 log_pdelay);
      (84, le_encode 2 port) ]%nat seg = Some seg' ->
  read_timedata mutex_size seg = Some d ->
  read_timedata mutex_size seg' = Some (show 0 (EIpcInterface id p1 (mkClockQuality class accuracy variance) p2 domain
    log_sync log_announce log_pdelay port) d).
Proof.
  intros (H0 & H1 & H2 & H3 & H4 & H5 & H6 & H7 & H8 & H9 & H10) Hp Hr.
  cbn [cq_class offsetScaledLogVariance clockAccuracy] in *.
  rewrite (take_ge id) in Hp by lia. eight id.
  unfold read_timedata in *. members Hp. cbn [mbind option_bind]. old_members. injection Hr as <-. values. done.
Qed.

(** One effect, as a step of the memory. *)
Lemma ipc_step e i d : effect_ok e -> shows i d ->
  exists i', on_effect mutex_size e i = Done true i' /\ shows i' (show (pid_of_daemon i) e d) /\
    pid_of_daemon i' = pid_of_daemon i.
Proof.
  intros He (Hq & Hk & seg & Hb & Hl & Hr).
  assert (Hw : forall fs, forallb (fun '(o, bs) => o + length bs <=? SIZEOF_TIMEDATA)%nat fs = true ->
    (forall seg', puts mutex_size fs seg = Some seg' ->
       read_timedata mutex_size seg' = Some (show (pid_of_daemon i) e d)) ->
    exists i', write_members mutex_size fs i = Done true i' /\ shows i' (show (pid_of_daemon i) e d) /\
      pid_of_daemon i' = pid_of_daemon i).
  { intros fs Hf Hs. destruct (write_run fs i seg Hb Hl Hf) as (seg' & Hp & Hl' & Hrun). eexists. split; [exact Hrun|].
    split; [|done]. split; [done|]. split; [cbn; by rewrite Hk|]. exists seg'. split; [done|]. split; [done|by apply Hs]. }
  destruct e; try (exists i; split; [done|split; [|done]]; split; [done|]; split; [done|]; by exists seg).
  - apply Hw; [reflexivity|]. intros seg' Hp. by apply (show_update _ seg).
  - destruct He as [H1 H2]. apply Hw; [cbn [forallb]; rewrite (take_ge id) by lia; rewrite H1; reflexivity|].
    intros seg' Hp. by apply (show_grandmaster seg).
  - pose proof He as [H1 _]. destruct q as [class accuracy variance].
    apply Hw; [cbn [forallb]; rewrite (take_ge id) by lia; rewrite H1; reflexivity|].
    intros seg' Hp. by apply (show_interface seg).
Qed.
End Readers.

(** C17: the shared memory refines the effects of the daemon.  A segment that shows a structure to its readers, at the offsets of ipcdef.hpp, shows after any sequence of effects the structure that the effects describe one after the other: every update succeeds, writes its own members with their values and no other member's, stays within the segment, and leaves the mutex unlocked.  After the updates of a measure, the readers see the measure, the state of the port and of the clock, and the current grandmaster. *)
Theorem ipc_refines mutex_size es i d : Forall effect_ok es -> shows mutex_size i d ->
  (exists i', on_effects mutex_size es i = Done true i' /\
     shows mutex_size i' (fold_left (fun d e => show (pid_of_daemon i) e d) es d)) /\
  (forall c x ms, es = ipc_effects c x ms -> ipc c = true ->
     let d' := fold_left (fun d e => show (pid_of_daemon i) e d) es d in
     ml_phoffset d' = master_local_offset ms /\ ls_phoffset d' = local_system_offset ms /\
     ml_freqoffset d' = master_local_freq_offset ms /\ ls_freqoffset d' = local_system_freq_offset ms /\
     local_time d' = TIMESTAMP_TO_NS (ms_local_time ms) /\ td_asCapable d' = asCapable x /\
     td_port_state d' = port_state x /\ gptp_grandmaster_id d' = grandmaster_clock_identity c /\
     td_clock_identity d' = clock_identity c /\ port_number d' = portNumber (port_identity x) /\
     process_id d' = pid_of_daemon i).
Proof.
  intros Hok Hs. split.
  - revert i d Hs. induction Hok as [|e es He _ IH]; intros i d Hs; cbn [on_effects fold_left]; [by exists i|].
    destruct (ipc_step mutex_size e i d He Hs) as (i1 & -> & Hs1 & Hp).
    rewrite <- Hp in Hs1 |- *. by apply IH.
  - intros c x ms -> Hc. unfold ipc_effects. rewrite Hc. done.
Qed.

(** A new segment, and the updates of one measure. *)
Definition shm (mutex_size : nat) : Ipc :=
  (init true true true (Some (repeat 0 mutex_size ++ repeat 0 100 ++ le_encode 4 7 ++ repeat 0 8)) true true
     (LinuxSharedMemoryIPC_new 4711)).2.
Definition ipc_measure : list Effect :=
  [ EIpcUpdate (-5) 17 ratio_one ratio_one 1234567890123 3 4 PTP_SLAVE true;
    EIpcGrandmaster (cid_set_addr peer_mac) 0;
    EIpcInterface (cid_set_addr mac) 248 (mkClockQuality 248 0x22 0x436A) 248 0 (-3) 0 0 1 ].
Definition zero_data : gPtpTimeData :=
  mkTimeData 0 0 (S754_zero false) (S754_zero false) 0 (repeat 0 8) 0 (repeat 0 8) 0 0 0 0 0 0 0 0 0 0 0 0 false
    PTP_MASTER 0.
Lemma shm_shows : shows 40 (shm 40) zero_data.
Proof.
  split; [vm_compute; split; [discriminate|reflexivity]|]. split; [reflexivity|]. eexists. split; [reflexivity|]. split; [reflexivity|].
  vm_compute. reflexivity.
Qed.

Lemma ipc_refines_witness : exists i' d',
  on_effects 40 ipc_measure (shm 40) = Done true i' /\ shows 40 i' d' /\
  ml_phoffset d' = -5 /\ td_port_state d' = PTP_SLAVE /\ log_sync_interval d' = -3 /\ process_id d' = 4711.
Proof.
  assert (Hok : Forall effect_ok ipc_measure).
  { repeat constructor; try (vm_compute; reflexivity); try (vm_compute; discriminate). }
  destruct (ipc_refines 40 ipc_measure (shm 40) zero_data Hok shm_shows) as [(i' & H1 & H2) _].
  exists i'. eexists. split; [exact H1|]. split; [exact H2|]. repeat split.
Defined.
