(* ===== verification/WinClock.v ===== *)
(** * The clocks of the Windows build

    [WindowsCrossTimestamp] (windows/daemon_cl/windows_crosststamp.cpp) and the
    clock of [WindowsEtherTimestamper] (windows/daemon_cl/windows_hal.hpp): the
    cross timestamp from the performance counter or the time stamp counter and
    the time of the system, its quality and its estimated error; the legacy way
    through the counters of the card.  What the counters read is an argument. *)

From Stdlib Require Import ZArith Lia.
From Stdlib.Floats Require Import SpecFloat.
From stdpp Require Import base list.
From S2P Require Import Prelude Timestamp CFloat.

(** ** Times of the system *)

Definition WINDOWS_TO_UNIX_EPOCH_OFFSET : Z := 116444736000000000.

(** [FILETIME]: two DWORDs. *)
Record FILETIME := mkFileTime { dwLowDateTime : Z; dwHighDateTime : Z }.
Definition filetime (ft : FILETIME) : Z := Z.lor (Z.shiftl (dwHighDateTime ft) 32) (dwLowDateTime ft).

(** [fileTimeToUnixNanos], [fileTimeToUnixNs] *)
Definition fileTimeToUnixNanos (ft : FILETIME) : Z :=
  u64 (u64 (filetime ft - WINDOWS_TO_UNIX_EPOCH_OFFSET) * 100).
Definition fileTimeToTimestamp (ft : FILETIME) : Timestamp :=
  set64 (timestamp 0 0 0) (fileTimeToUnixNanos ft).
Definition unixNsToFileTime (unix_ns : Z) : FILETIME :=
  let windows_time := u64 (unix_ns / 100 + WINDOWS_TO_UNIX_EPOCH_OFFSET) in
  mkFileTime (Z.land windows_time 0xFFFFFFFF) (u32 (Z.shiftr windows_time 32)).

(** A division of unsigned integers; none by zero. *)
Definition udiv (a b : Z) : option Z := if b =? 0 then None else Some (a / b).

(** A count of a counter of [freq] ticks a second, in nanoseconds: the product is
    one of 64 bits. *)
Definition ticks_to_ns (freq counter : Z) : option Z := udiv (u64 (u64 counter * 1000000000)) (u64 freq).

(** ** WindowsCrossTimestamp *)

Inductive TimestampMethod :=
  | UNKNOWN | QPC_SYSTEM_TIME | RDTSC_SYSTEM_TIME | HARDWARE_ASSISTED | FALLBACK_CORRELATION.
#[export] Instance TimestampMethod_eq_dec : EqDecision TimestampMethod.
Proof. solve_decision. Defined.

(** [last_update] is the static variable of [updateCorrelation]. *)
Record CrossTimestamp := mkCross {
  m_initialized : bool;
  m_method : TimestampMethod;
  m_qpc_frequency : Z;                 (* LONGLONG *)
  m_rdtsc_frequency : Z;               (* uint64_t *)
  m_quality : Z;
  m_estimated_error_ns : Z;            (* uint64_t *)
  m_hw_available : bool;
  last_qpc : Z;                        (* LONGLONG *)
  calibration_count : Z;               (* uint32_t *)
  successful_timestamps : Z;           (* uint64_t *)
  failed_timestamps : Z;               (* uint64_t *)
  last_update : Z;                     (* uint64_t *)
}.
#[export] Instance eta_Cross : Settable CrossTimestamp := fun c =>
  mkCross (m_initialized c) (m_method c) (m_qpc_frequency c) (m_rdtsc_frequency c) (m_quality c)
    (m_estimated_error_ns c) (m_hw_available c) (last_qpc c) (calibration_count c)
    (successful_timestamps c) (failed_timestamps c) (last_update c).

Definition cross_new : CrossTimestamp := mkCross false UNKNOWN 0 0 0 0 false 0 0 0 0 0.

(** What is read around the time of the system, with the performance counter and
    with the time stamp counter, and the performance counter at the ten samples of
    a calibration. *)
Record Readings := mkReadings {
  qpc_before : Z; qpc_after : Z; rdtsc_before : Z; rdtsc_after : Z; rd_time : FILETIME;
  rd_calibration : nat -> Z;
}.

Definition num_samples : nat := 10.
Definition calibrateCorrelation (qpc : nat -> Z) (c : CrossTimestamp) : CrossTimestamp :=
  foldl (fun c i => c <| last_qpc := qpc i |> <| calibration_count := u32 (calibration_count c + 1) |>)
    c (seq 0 num_samples).

Definition updateCorrelation (qpc : nat -> Z) (c : CrossTimestamp) : CrossTimestamp :=
  let current_time := u64 (last_qpc c) in
  if (successful_timestamps c mod 1000 =? 0)
     || (u64 (10 * m_qpc_frequency c) <? u64 (current_time - last_update c))
  then calibrateCorrelation qpc c <| last_update := current_time |>
  else c.

Definition cleanup (c : CrossTimestamp) : CrossTimestamp :=
  if m_initialized c then
    c <| last_qpc := 0 |> <| calibration_count := 0 |> <| successful_timestamps := 0 |>
      <| failed_timestamps := 0 |> <| m_initialized := false |> <| m_method := UNKNOWN |>
  else c.

(** [isRDTSCAvailable]: bit 8 of EDX. *)
Definition isRDTSCAvailable (edx : Z) : bool := Z.testbit edx 8.

(** The readings of [getRDTSCFrequency] a tenth of a second apart. *)
Record RdtscReadings := mkRdtsc {
  rf_edx : Z; rf_qpc_freq : Z; rf_qpc_start : Z; rf_qpc_end : Z; rf_start : Z; rf_end : Z;
}.
Definition getRDTSCFrequency (r : RdtscReadings) : option Z :=
  if negb (isRDTSCAvailable (rf_edx r)) then Some 0
  else
    let qpc_delta := u64 (rf_qpc_end r - rf_qpc_start r) in
    let rdtsc_delta := u64 (rf_end r - rf_start r) in
    udiv (u64 (rdtsc_delta * u64 (rf_qpc_freq r))) qpc_delta.

Definition detectBestMethod (edx : Z) (c : CrossTimestamp) : TimestampMethod :=
  if m_hw_available c then HARDWARE_ASSISTED
  else if isRDTSCAvailable edx then RDTSC_SYSTEM_TIME
  else QPC_SYSTEM_TIME.

(** [initialize]: [label] is whether there is one, [qpf] the frequency where
    [QueryPerformanceFrequency] succeeds. *)
Definition initialize (label : bool) (qpf : option Z) (r : RdtscReadings) (qpc : nat -> Z)
    (c : CrossTimestamp) : option (bool * CrossTimestamp) :=
  let c := if m_initialized c then cleanup c else c in
  if negb label then Some (false, c)
  else
    match qpf with
    | None => Some (false, c)
    | Some freq =>
        let c := c <| m_qpc_frequency := freq |> in
        if freq =? 0 then Some (false, c)
        else
          let c := c <| m_method := detectBestMethod (rf_edx r) c |> in
          c ← match m_method c with
              | RDTSC_SYSTEM_TIME =>
                  f ← getRDTSCFrequency r;
                  let c := c <| m_rdtsc_frequency := f |> in
                  Some (if f =? 0 then c <| m_method := QPC_SYSTEM_TIME |> else c)
              | HARDWARE_ASSISTED => Some (c <| m_method := QPC_SYSTEM_TIME |>)
              | _ => Some c
              end;
          Some (true, calibrateCorrelation qpc c <| m_initialized := true |>)
    end.

Definition isPreciseTimestampingSupported (c : CrossTimestamp) : bool :=
  m_initialized c && negb (bool_decide (m_method c = FALLBACK_CORRELATION)).

Definition qpc_quality (error_ns : Z) : Z :=
  if error_ns <? 100 then 95 else if error_ns <? 500 then 85 else if error_ns <? 1000 then 70 else 50.
Definition rdtsc_quality (error_ns : Z) : Z :=
  if error_ns <? 50 then 98 else if error_ns <? 200 then 90 else if error_ns <? 500 then 75 else 60.

(** The system and the device time; the caller's device time keeps its version. *)
Definition getCrossTimestamp_QPC (r : Readings) (device : Timestamp) (c : CrossTimestamp)
    : option (Timestamp * Timestamp * CrossTimestamp) :=
  let qpc_device := Z.quot (i64 (qpc_before r + qpc_after r)) 2 in
  device_ns ← ticks_to_ns (m_qpc_frequency c) qpc_device;
  error_ns ← ticks_to_ns (m_qpc_frequency c) (i64 (u64 (qpc_after r - qpc_before r)));
  Some (fileTimeToTimestamp (rd_time r), set64 device device_ns,
        c <| m_estimated_error_ns := error_ns |> <| m_quality := qpc_quality error_ns |>).

Definition getCrossTimestamp_RDTSC (r : Readings) (device : Timestamp) (c : CrossTimestamp)
    : option (Timestamp * Timestamp * CrossTimestamp) :=
  let rdtsc_device := u64 (rdtsc_before r + rdtsc_after r) / 2 in
  device_ns ← ticks_to_ns (m_rdtsc_frequency c) rdtsc_device;
  error_ns ← ticks_to_ns (m_rdtsc_frequency c) (u64 (rdtsc_after r - rdtsc_before r));
  Some (fileTimeToTimestamp (rd_time r), set64 device device_ns,
        c <| m_estimated_error_ns := error_ns |> <| m_quality := rdtsc_quality error_ns |>).

Definition getCrossTimestamp_Fallback (r : Readings) (c : CrossTimestamp)
    : option (Timestamp * Timestamp * CrossTimestamp) :=
  let t := fileTimeToTimestamp (rd_time r) in
  Some (t, t, c <| m_estimated_error_ns := 15600000 |> <| m_quality := 30 |>).

(** [getCrossTimestamp]: the two times and the local clock and nominal rate, or
    nothing when the object is not initialised; every method succeeds. *)
Definition getCrossTimestamp (r : Readings) (device : Timestamp) (c : CrossTimestamp)
    : option (option (Timestamp * Timestamp * Z * Z) * CrossTimestamp) :=
  if negb (m_initialized c) then Some (None, c)
  else
    '(s, d, c) ← match m_method c with
                 | QPC_SYSTEM_TIME => getCrossTimestamp_QPC r device c
                 | RDTSC_SYSTEM_TIME => getCrossTimestamp_RDTSC r device c
                 | HARDWARE_ASSISTED => getCrossTimestamp_QPC r device c
                 | _ => getCrossTimestamp_Fallback r c
                 end;
    let c := c <| successful_timestamps := u64 (successful_timestamps c + 1) |> in
    Some (Some (s, d, seconds_ls s, 1000000000), updateCorrelation (rd_calibration r) c).

(** ** The clock of the card

    [nanoseconds64ToTimestamp], of a timestamp without a version. *)
Definition nanoseconds64ToTimestamp (time : Z) : Timestamp :=
  timestamp (time mod 1000000000) (Z.land (time / 1000000000) 0xFFFFFFFF)
    (u16 (Z.shiftr (time / 1000000000) 32)).

(** [scaleNativeClockToNanoseconds] and [scaleTSCClockToNanoseconds]: a [long
    double] is a [double] for the compiler of Windows. *)
Definition scale_clock (hz time : Z) : option Z :=
  let per_ns := fl_div fmt_double (fl_of_Z fmt_double hz) (fl_of_Z fmt_double 1000000000) in
  cast_u 64 (fl_div fmt_double (fl_of_Z fmt_double time) per_ns).

(** The 64-bit number of two DWORDs of a buffer. *)
Definition qword (lo hi : Z) : Z := Z.lor (Z.shiftl hi 32) lo.

(** [HWTimestamper_gettime]: by the cross timestamp where it is supported, or by
    the six DWORDs that the card answers, if it does. *)
Definition win_gettime (r : Readings) (oid : option (Z * Z * Z * Z)) (netclock_hz tsc_hz v : Z)
    (device : Timestamp) (c : CrossTimestamp)
    : option (option (Timestamp * Timestamp) * CrossTimestamp) :=
  '(a, c) ← (if isPreciseTimestampingSupported c then getCrossTimestamp r device c
             else Some (None, c));
  match a with
  | Some (s, d, _, _) => Some (Some (s <| _version := v |>, d <| _version := v |>), c)
  | None =>
      match oid with
      | None => Some (None, c)
      | Some (b0, b1, b2, b3) =>
          net ← scale_clock netclock_hz (qword b0 b1);
          tsc ← scale_clock tsc_hz (qword b2 b3);
          Some (Some (nanoseconds64ToTimestamp tsc <| _version := v |>,
                      nanoseconds64ToTimestamp net <| _version := v |>), c)
      end
  end.

(** ** The cross timestamp *)

Lemma udiv_pos a b : 0 < b -> udiv a b = Some (a / b).
Proof. intros H. unfold udiv. by rewrite (proj2 (Z.eqb_neq b 0) ltac:(lia)). Qed.

(** The count in nanoseconds: never more than 64 bits of nanoseconds over the
    frequency, and exact while the product has 64 bits. *)
Lemma ticks_to_ns_spec freq n : fits 64 n -> 0 < freq < 2 ^ 64 -> exists t,
  ticks_to_ns freq n = Some t /\ fits 64 t /\ t <= (2 ^ 64 - 1) / freq /\
  (n * NS_PER_SECOND < 2 ^ 64 -> t = n * NS_PER_SECOND / freq).
Proof.
  intros Hn Hf. unfold ticks_to_ns. change (u64 n) with (uwrap 64 n). change (u64 freq) with (uwrap 64 freq).
  rewrite (uwrap_small 64 n), (uwrap_small 64 freq), udiv_pos by (done || unfold fits; lia).
  eexists. split; [done|]. pose proof (uwrap_fits 64 (n * 1000000000) ltac:(lia)) as Hp.
  unfold u64, NS_PER_SECOND, fits in *. split; [|split].
  - split; [apply Z.div_pos; lia|]. apply Z.div_lt_upper_bound; nia.
  - apply Z.div_le_mono; lia.
  - intros Hb. rewrite uwrap_small; [done|]. unfold fits. lia.
Qed.

(** A valid time of the system: after the epoch, in 64 bits of nanoseconds. *)
Definition filetime_ok (ft : FILETIME) : Prop :=
  fits 32 (dwLowDateTime ft) /\ fits 32 (dwHighDateTime ft) /\
  0 <= (filetime ft - WINDOWS_TO_UNIX_EPOCH_OFFSET) * 100 < 2 ^ 64.

Lemma filetime_value ft : filetime_ok ft ->
  fileTimeToUnixNanos ft = (filetime ft - WINDOWS_TO_UNIX_EPOCH_OFFSET) * 100.
Proof.
  intros (_ & _ & H). unfold fileTimeToUnixNanos, u64. rewrite (uwrap_small 64 (_ - _)); [|unfold fits; lia].
  by rewrite uwrap_small.
Qed.

(** A time of the system that is made from nanoseconds gives them back, to a
    hundred. *)
Lemma unix_filetime n : fits 64 n -> fileTimeToUnixNanos (unixNsToFileTime n) = n - n mod 100.
Proof.
  intros [Hn Hn']. unfold unixNsToFileTime.
  pose proof (Z.div_mod n 100 ltac:(lia)). pose proof (Z.mod_pos_bound n 100 ltac:(lia)).
  set (w := n / 100 + WINDOWS_TO_UNIX_EPOCH_OFFSET).
  assert (Hw : WINDOWS_TO_UNIX_EPOCH_OFFSET <= w /\ w < 2 ^ 59)
    by (unfold w, WINDOWS_TO_UNIX_EPOCH_OFFSET in *; lia).
  change (u64 w) with (uwrap 64 w). rewrite uwrap_small by (unfold fits, WINDOWS_TO_UNIX_EPOCH_OFFSET in *; lia).
  assert (Hf : filetime (mkFileTime (Z.land w 0xFFFFFFFF) (u32 (Z.shiftr w 32))) = w).
  { unfold filetime. cbn [dwLowDateTime dwHighDateTime].
    change 0xFFFFFFFF with (Z.ones 32). rewrite Z.land_ones, Z.shiftr_div_pow2 by lia.
    change (u32 (w / 2 ^ 32)) with (uwrap 32 (w / 2 ^ 32)).
    unfold WINDOWS_TO_UNIX_EPOCH_OFFSET in Hw. rewrite uwrap_small.
    - rewrite Z.lor_comm, lor_shiftl_add by (lia || apply Z.mod_pos_bound; lia).
      pose proof (Z.div_mod w (2 ^ 32) ltac:(lia)). lia.
    - split; [apply Z.div_pos; lia|]. apply Z.div_lt_upper_bound; lia. }
  unfold fileTimeToUnixNanos. rewrite Hf. unfold w.
  replace (n / 100 + _ - _) with (n / 100) by lia. unfold u64.
  rewrite (uwrap_small 64 (n / 100)), uwrap_small; unfold fits; lia.
Qed.

(** What [initialize] leaves: one of the two counters, with a frequency. *)
Definition cross_ok (c : CrossTimestamp) : Prop :=
  m_initialized c = true /\ 0 < m_qpc_frequency c < 2 ^ 63 /\
  (m_method c = QPC_SYSTEM_TIME \/ m_method c = RDTSC_SYSTEM_TIME /\ 0 < m_rdtsc_frequency c < 2 ^ 64).

Lemma calibrate_fields qpc c :
  let c' := calibrateCorrelation qpc c in
  m_initialized c' = m_initialized c /\ m_method c' = m_method c /\
  m_qpc_frequency c' = m_qpc_frequency c /\ m_rdtsc_frequency c' = m_rdtsc_frequency c /\
  m_quality c' = m_quality c /\ m_estimated_error_ns c' = m_estimated_error_ns c /\
  last_qpc c' = qpc 9%nat.
Proof. done. Qed.
Lemma update_fields qpc c :
  let c' := updateCorrelation qpc c in
  m_initialized c' = m_initialized c /\ m_method c' = m_method c /\
  m_qpc_frequency c' = m_qpc_frequency c /\ m_rdtsc_frequency c' = m_rdtsc_frequency c /\
  m_quality c' = m_quality c /\ m_estimated_error_ns c' = m_estimated_error_ns c.
Proof. unfold updateCorrelation. by destruct (_ || _). Qed.

Lemma udiv_fits a b q : fits 64 a -> 0 <= b -> udiv a b = Some q -> fits 64 q.
Proof.
  intros [Ha Ha'] Hb. unfold udiv. destruct (Z.eqb_spec b 0); [done|]. injection 1 as <-. unfold fits.
  split; [apply Z.div_pos; lia|]. apply Z.div_lt_upper_bound; nia.
Qed.
Lemma rdtsc_frequency_fits r f : getRDTSCFrequency r = Some f -> fits 64 f.
Proof.
  unfold getRDTSCFrequency. destruct (negb _); [injection 1 as <-; unfold fits; lia|].
  apply udiv_fits; [apply uwrap_fits; lia|]. apply (uwrap_fits 64). lia.
Qed.

Lemma initialize_ok freq r qpc c b c' : m_hw_available c = false -> 0 < freq < 2 ^ 63 ->
  initialize true (Some freq) r qpc c = Some (b, c') -> b = true /\ cross_ok c'.
Proof.
  intros Hhw Hf. unfold initialize. cbn [negb]. rewrite (proj2 (Z.eqb_neq freq 0) ltac:(lia)).
  set (c1 := if m_initialized c then _ else c).
  assert (Hhw1 : m_hw_available c1 = false) by (unfold c1, cleanup; by repeat case_match).
  assert (Hm : detectBestMethod (rf_edx r) (c1 <| m_qpc_frequency := freq |>) =
    if isRDTSCAvailable (rf_edx r) then RDTSC_SYSTEM_TIME else QPC_SYSTEM_TIME).
  { unfold detectBestMethod. change (m_hw_available _) with (m_hw_available c1). by rewrite Hhw1. }
  rewrite Hm. destruct (isRDTSCAvailable (rf_edx r)); cbn [m_method set field_setter mbind option_bind];
    [|injection 1 as <- <-; split; [done|]; split; [done|]; split; [done|]; by left].
  destruct (getRDTSCFrequency r) as [f|] eqn:E; cbn [mbind option_bind]; [|done].
  pose proof (rdtsc_frequency_fits _ _ E) as Hfit. unfold fits in Hfit.
  destruct (Z.eqb_spec f 0) as [->|Hne]; injection 1 as <- <-; (split; [done|]); (split; [done|]);
    (split; [done|]); [by left|]. right. split; [done|]. change (0 < f < 2 ^ 64). lia.
Qed.

(** The counter that the method reads: its frequency, and what it was before and
    after the time of the system. *)
Definition counter_of (c : CrossTimestamp) (r : Readings) : Z * Z * Z :=
  match m_method c with
  | RDTSC_SYSTEM_TIME => (m_rdtsc_frequency c, rdtsc_before r, rdtsc_after r)
  | _ => (m_qpc_frequency c, qpc_before r, qpc_after r)
  end.
Definition quality_of (c : CrossTimestamp) : Z -> Z :=
  match m_method c with RDTSC_SYSTEM_TIME => rdtsc_quality | _ => qpc_quality end.

(** The counter's middle and its delta, whichever of the two it is. *)
Lemma middle_signed a b : 0 <= a <= b -> b < 2 ^ 62 ->
  Z.quot (i64 (a + b)) 2 = (a + b) / 2 /\ i64 (u64 (b - a)) = b - a.
Proof.
  intros Ha Hb. change (i64 (a + b)) with (swrap 64 (a + b)). rewrite swrap_small by (unfold sfits; lia).
  split; [apply Z.quot_div_nonneg; lia|]. change (u64 (b - a)) with (uwrap 64 (b - a)).
  rewrite uwrap_small by (unfold fits; lia). apply swrap_small. unfold sfits. lia.
Qed.
Lemma middle_unsigned a b : 0 <= a <= b -> b < 2 ^ 62 ->
  u64 (a + b) / 2 = (a + b) / 2 /\ u64 (b - a) = b - a.
Proof. intros Ha Hb. split; [f_equal|]; apply uwrap_small; unfold fits; lia. Qed.

(** What the two methods return, in one form. *)
Lemma getCross_run c r device f a b : cross_ok c -> counter_of c r = (f, a, b) -> 0 <= a <= b -> b < 2 ^ 62 ->
  exists dns ens, ticks_to_ns f ((a + b) / 2) = Some dns /\ ticks_to_ns f (b - a) = Some ens /\
    0 < f < 2 ^ 64 /\
    getCrossTimestamp r device c =
      Some (Some (fileTimeToTimestamp (rd_time r), set64 device dns,
                  seconds_ls (fileTimeToTimestamp (rd_time r)), 1000000000),
            updateCorrelation (rd_calibration r)
              (c <| m_estimated_error_ns := ens |> <| m_quality := quality_of c ens |>
                 <| successful_timestamps := u64 (successful_timestamps c + 1) |>)).
Proof.
  intros (Hi & Hq & Hm) Hc Ha Hb.
  assert (Hmid : fits 64 ((a + b) / 2) /\ fits 64 (b - a)).
  { unfold fits. split; [|lia]. split; [apply Z.div_pos; lia|]. apply Z.div_lt_upper_bound; lia. }
  assert (Hf : 0 < f < 2 ^ 64).
  { unfold counter_of in Hc. destruct Hm as [Hm|[Hm Hf]]; rewrite Hm in Hc; injection Hc as <- <- <-; lia. }
  destruct (ticks_to_ns_spec f _ (proj1 Hmid) Hf) as (dns & Hd & _).
  destruct (ticks_to_ns_spec f _ (proj2 Hmid) Hf) as (ens & He & _).
  exists dns, ens. split; [done|]. split; [done|]. split; [done|].
  unfold getCrossTimestamp, quality_of. rewrite Hi. cbn [negb]. unfold counter_of in Hc.
  destruct Hm as [Hm|[Hm _]]; rewrite Hm in Hc; injection Hc as Hf1 Ha1 Hb1; rewrite Hm;
    unfold getCrossTimestamp_QPC, getCrossTimestamp_RDTSC; rewrite Hf1, Ha1, Hb1.
  - destruct (middle_signed a b Ha Hb) as [-> ->]. by rewrite Hd, He.
  - destruct (middle_unsigned a b Ha Hb) as [-> ->]. by rewrite Hd, He.
Qed.

Lemma cross_ok_update c qpc e q n : cross_ok c ->
  cross_ok (updateCorrelation qpc (c <| m_estimated_error_ns := e |> <| m_quality := q |>
              <| successful_timestamps := n |>)).
Proof.
  intros (Hi & Hq & Hm). unfold cross_ok.
  destruct (update_fields qpc (c <| m_estimated_error_ns := e |> <| m_quality := q |>
    <| successful_timestamps := n |>)) as (-> & -> & -> & -> & _). done.
Qed.


(** A counter of ten million ticks a second, 1844 seconds after it started, and a
    tick later than its nanoseconds have 64 bits. *)
Definition win_readings (qpc : Z) : Readings :=
  mkReadings qpc (qpc + 20) 0 0 (mkFileTime (133485408000000000 mod 2 ^ 32) (133485408000000000 / 2 ^ 32))
    (fun i => qpc + 10000 * Z.of_nat i).
Definition no_rdtsc : RdtscReadings := mkRdtsc 0 10000000 0 1000000 0 0.
Definition win_cross : CrossTimestamp :=
  match initialize true (Some 10000000) no_rdtsc (fun i => Z.of_nat i) cross_new with
  | Some (_, c) => c
  | None => cross_new
  end.


(** A tenth of a microsecond later the device time is back at the start, and the
    legacy way would have asked the card. *)
Example device_time_restarts :
  exists s c', win_gettime (win_readings 18446744064) None 0 0 3 (timestamp 0 0 0) win_cross =
    Some (Some (s, mkTimestamp 29 0 0 3), c').
Proof. vm_compute. do 2 eexists. reflexivity. Qed.
