(* ===== verification/WinSimpleClock.v ===== *)
(** * The simple cross timestamp of the Windows build

    [WindowsSimpleCrossTimestamp] (windows/daemon_cl/windows_crosststamp_simple.cpp):
    the cross timestamp without the class of WinClock, with global variables, and
    that the two agree. *)

From Stdlib Require Import ZArith Lia.
From stdpp Require Import base list.
From S2P Require Import Prelude Timestamp WinClock.

(** The global variables. *)
Record Simple := mkSimple {
  g_initialized : bool;
  g_qpc_frequency : Z;                    (* LONGLONG *)
  g_system_time_precise_available : bool;
  g_last_estimated_error_ns : Z;          (* uint64_t *)
}.
#[export] Instance eta_Simple : Settable Simple := fun g =>
  mkSimple (g_initialized g) (g_qpc_frequency g) (g_system_time_precise_available g) (g_last_estimated_error_ns g).

Definition simple_new : Simple := mkSimple false 0 false 0.

(** [initialize]: [qpf] is whether [QueryPerformanceFrequency] succeeds and what it
    stores, [kernel32] whether the library is there and has the precise time. *)
Definition simple_initialize (qpf : bool * Z) (kernel32 : option bool) (g : Simple) : bool * Simple :=
  if g_initialized g then (true, g)
  else
    let g := g <| g_qpc_frequency := qpf.2 |> in
    if negb qpf.1 || (qpf.2 =? 0) then (false, g)
    else
      let g := match kernel32 with Some precise => g <| g_system_time_precise_available := precise |> | None => g end in
      (true, g <| g_initialized := true |>).

Definition simple_cleanup (g : Simple) : Simple := mkSimple false 0 false 0.

Definition simple_quality (precise : bool) (error_ns : Z) : Z :=
  if precise then
    if error_ns <? 100 then 95 else if error_ns <? 500 then 85 else if error_ns <? 1000 then 70 else 50
  else
    if error_ns <? 500 then 70 else if error_ns <? 1000 then 50 else if error_ns <? 5000 then 30 else 15.

(** [getCrossTimestamp]: the two times in nanoseconds and the quality. *)
Definition simple_getCrossTimestamp (r : Readings) (g : Simple) : option (option (Z * Z * Z) * Simple) :=
  if negb (g_initialized g) then Some (None, g)
  else
    let qpc_mid := Z.quot (i64 (qpc_before r + qpc_after r)) 2 in
    device_ns ← ticks_to_ns (g_qpc_frequency g) qpc_mid;
    let qpc_delta := u64 (qpc_after r - qpc_before r) in
    error_ns ← ticks_to_ns (g_qpc_frequency g) qpc_delta;
    Some (Some (fileTimeToUnixNanos (rd_time r), device_ns,
                simple_quality (g_system_time_precise_available g) error_ns),
          g <| g_last_estimated_error_ns := error_ns |>).

Definition isPreciseTimestampingAvailable (g : Simple) : bool :=
  g_initialized g && g_system_time_precise_available g.
Definition getSystemTimeNs (ft : FILETIME) (g : Simple) : Z :=
  if g_initialized g then fileTimeToUnixNanos ft else 0.
Definition getQPCTimeNs (qpc : Z) (g : Simple) : option Z :=
  if g_initialized g then ticks_to_ns (g_qpc_frequency g) qpc else Some 0.

(** ** Agreement with the class *)

(** Once initialised, no division is by zero. *)
Definition simple_ok (g : Simple) : Prop := g_initialized g = true -> u64 (g_qpc_frequency g) <> 0.

Lemma initialize_keeps qpf kernel32 g : simple_ok g -> sfits 64 qpf.2 -> simple_ok (simple_initialize qpf kernel32 g).2.
Proof.
  intros Hok Hs. unfold simple_initialize. destruct (g_initialized g) eqn:Hi; [done|].
  destruct (negb qpf.1 || (qpf.2 =? 0)) eqn:H0.
  { intros Hi'. cbn in Hi'. congruence. }
  apply orb_false_elim in H0 as [_ H0%Z.eqb_neq].
  assert (u64 qpf.2 <> 0) by (unfold u64, uwrap, sfits in *; rewrite Z.mod_divide by done; intros [k Hk]; nia).
  intros _. by destruct kernel32.
Qed.

Lemma ticks_of_wrapped freq n : ticks_to_ns freq (i64 (u64 n)) = ticks_to_ns freq (u64 n).
Proof.
  assert (H : u64 (i64 (u64 n)) = u64 (u64 n)); [|unfold ticks_to_ns; by rewrite H].
  unfold i64, u64, swrap, uwrap. rewrite Zminus_mod, Zmod_mod, <- Zminus_mod. f_equal. lia.
Qed.

(** The function and the class, by the performance counter of the same frequency
    and the same readings: the same two times and the same error; the same quality
    where the system has its precise time, and never a better one without. *)
Theorem simple_agrees r device c g : g_initialized g = true -> simple_ok g -> g_qpc_frequency g = m_qpc_frequency c ->
  exists s d e q c', simple_getCrossTimestamp r g = Some (Some (s, d, q), g <| g_last_estimated_error_ns := e |>) /\
    getCrossTimestamp_QPC r device c = Some (set64 (timestamp 0 0 0) s, set64 device d, c') /\
    m_estimated_error_ns c' = e /\ q <= m_quality c' /\
    (g_system_time_precise_available g = true -> q = m_quality c').
Proof.
  intros Hi Hok Hf. specialize (Hok Hi). unfold simple_getCrossTimestamp, getCrossTimestamp_QPC. rewrite Hi, <- Hf.
  assert (Ht : forall n, exists t, ticks_to_ns (g_qpc_frequency g) n = Some t).
  { intros n. unfold ticks_to_ns, udiv. rewrite (proj2 (Z.eqb_neq _ _) Hok). by eexists. }
  destruct (Ht (Z.quot (i64 (qpc_before r + qpc_after r)) 2)) as [d Hd].
  destruct (Ht (u64 (qpc_after r - qpc_before r))) as [e He].
  cbn [negb]. rewrite ticks_of_wrapped, Hd, He. cbn [mbind option_bind]. do 5 eexists.
  split; [reflexivity|]. split; [reflexivity|]. split; [reflexivity|]. cbn [m_quality]. unfold simple_quality.
  change (m_quality (c <| m_estimated_error_ns := e |> <| m_quality := qpc_quality e |>)) with (qpc_quality e).
  unfold qpc_quality. split; [|by intros ->].
  destruct (g_system_time_precise_available g); [lia|].
  destruct (Z.ltb_spec e 100), (Z.ltb_spec e 500), (Z.ltb_spec e 1000), (Z.ltb_spec e 5000); lia.
Qed.
