(* ===== verification/WinWireless.v ===== *)
(** * The wireless driver of the Windows build

    [IntelWirelessAdapter] (windows/daemon_cl/intel_wireless.cpp) and
    [WindowsWirelessTimestamper] (windows/daemon_cl/windows_hal.cpp): the events
    of the driver and the inputs of the daemon that they lead to, the extension of
    its 32-bit counter, and the requests of a correlated time with their
    time-outs. *)

From Stdlib Require Import ZArith Lia.
From Stdlib.Floats Require Import SpecFloat.
From stdpp Require Import base gmap list.
From S2P Require Import Prelude Timestamp CFloat Identity World Wireless Dispatch.

(** ** Scaling *)

(** [scale64( i, m, n )]: [m] and [n] have 32 bits, the products 64; none where
    [n] is zero. *)
Definition scale64 (i m n : Z) : option Z :=
  if n =? 0 then None
  else
    let rem := i mod n in
    let i := i / n in
    let res := u64 (i * m) in
    let tmp := u64 (rem * m) in
    let tmp := tmp / n in
    Some (u64 (res + tmp)).

(** ** The adapter *)

Definition GP2_ROLLOVER : Z := 4294967296.
Definition ULLONG_MAX : Z := 2 ^ 64 - 1.

(** The members of [IntelWirelessAdapter], and whether [ct_lock] is held. *)
Record Adapter := mkAdapter {
  ct_locked : bool;
  ct_done : bool;
  ct_miss : Z;       (* int *)
  gp2_last : Z;      (* uint64_t *)
  gp2_ext : Z;       (* unsigned *)
}.
#[export] Instance eta_Adapter : Settable Adapter := fun a =>
  mkAdapter (ct_locked a) (ct_done a) (ct_miss a) (gp2_last a) (gp2_ext a).

(** After the constructor and [initialize]. *)
Definition IntelWirelessAdapter_new (garbage : bool) : Adapter := mkAdapter false garbage 0 ULLONG_MAX 0.

Definition calc_rollover (gp2 : Z) (a : Adapter) : Z * Adapter :=
  let gp2 := Z.land gp2 0xFFFFFFFF in
  if gp2_last a =? ULLONG_MAX then (gp2, a <| gp2_last := gp2 |>)
  else
    let a := if (gp2 <? GP2_ROLLOVER / 4) && (GP2_ROLLOVER * 3 / 4 <? gp2_last a)
             then a <| gp2_ext := u32 (gp2_ext a + 1) |> else a in
    let l_gp2_ext := gp2_ext a in
    let '(l_gp2_ext, a) :=
      if (gp2_last a <? GP2_ROLLOVER / 4) && (GP2_ROLLOVER * 3 / 4 <? gp2)
      then (u64 (l_gp2_ext - 1), a) else (l_gp2_ext, a <| gp2_last := gp2 |>) in
    (u64 (gp2 + u64 (l_gp2_ext * GP2_ROLLOVER)), a).

(** The counts that are read one after the other. *)
Fixpoint extend (reads : list Z) (a : Adapter) : list Z * Adapter :=
  match reads with
  | [] => ([], a)
  | gp2 :: reads' =>
      let '(t, a) := calc_rollover gp2 a in
      let '(ts, a) := extend reads' a in (t :: ts, a)
  end.

(** ** The timestamper *)

(** [WIRELESS_CORRELATEDTIME] *)
Record CorrelatedTime := mkCorrelated { TSC : Z; LocalClk : Z }.   (* uint64_t *)

Record WlTimestamper := mkWlTs {
  system_counter : Z;           (* uint64_t *)
  system_time : Timestamp;
  device_time : Timestamp;
  tsc_hz : Z;                   (* LONGLONG *)
}.
#[export] Instance eta_WlTimestamper : Settable WlTimestamper := fun t =>
  mkWlTs (system_counter t) (system_time t) (device_time t) (tsc_hz t).

(** The branch [TIMINGMSMT_CORRELATEDTIME_EVENT] of [WirelessTimestamperCallback]. *)
Definition correlated_callback (c : CorrelatedTime) (t : WlTimestamper) : option WlTimestamper :=
  counter ← scale64 (TSC c) NS_PER_SECOND (u32 (tsc_hz t));
  let local := u64 (LocalClk c * 10) in
  Some (t <| system_counter := counter |> <| system_time := set64 (system_time t) counter |>
          <| device_time := set64 (device_time t) (u64 (local * 10)) |>).

(** ** The events of the driver *)

(** The data of an event of timing measurement.  [in_tail] is the octets that
    follow the first of [fwup_data], with that one, in the driver's memory: of
    these the structure has six, with its padding, and [followup] follows. *)
Record ConfirmData := mkConfirm { cf_peer : LinkLayerAddress; cf_token : Z; cf_T1 : Z; cf_T4 : Z }.
Record IndicationData := mkIndication {
  in_peer : LinkLayerAddress; in_token : Z; in_fwup_token : Z;
  in_T1 : Z; in_T4 : Z; in_T2 : Z; in_T3 : Z; in_Length : Z; in_tail : list Z;
}.
Inductive IntelEvent :=
  | EvOther
  | EvConfirm (c : ConfirmData)
  | EvIndication (i : IndicationData)
  | EvCorrelated (c : CorrelatedTime).

Definition followup_size : Z := 75.
Definition indication_tail : Z := 6.
Definition SIZE_PTP_SPEC : Z := 5.

(** [vendor_extension_copy_length]: an [int], from which a [size_t] is taken and
    compared with zero. *)
Definition vendor_extension_copy_length (Length : Z) : Z :=
  let len := Length - 1 in
  let over := u64 (u64 len - followup_size) in
  i32 (u32 (u64 (u64 len - (if 0 <? over then over else 0)))).

(** What is handed to the work queue. *)
Inductive Job :=
  | JobConfirm (c : ConfirmData)
  | JobIndication (i : IndicationData).

(** [IntelWirelessTimestamperEventHandler], from an address that is registered:
    the job, where the event leads to one; none where the driver's memory is read
    past its end or a clock cannot be scaled. *)
Definition event_handler (e : IntelEvent) (a : Adapter) (t : WlTimestamper)
    : option (option Job * Adapter * WlTimestamper) :=
  match e with
  | EvOther => Some (None, a, t)
  | EvConfirm c =>
      let '(t1, a) := calc_rollover (cf_T1 c) a in
      let '(t4, a) := calc_rollover (cf_T4 c) a in
      Some (Some (JobConfirm (mkConfirm (cf_peer c) (cf_token c) t1 t4)), a, t)
  | EvIndication i =>
      let '(t2, a) := calc_rollover (in_T2 i / 100) a in
      let '(t3, a) := calc_rollover (in_T3 i / 100) a in
      let n := indication_tail + vendor_extension_copy_length (in_Length i) in
      tail ← slice 0 (Z.to_nat n) (in_tail i);
      Some (Some (JobIndication (mkIndication (in_peer i) (in_token i) (in_fwup_token i)
                                   (in_T1 i) (in_T4 i) t2 t3 (in_Length i) tail)), a, t)
  | EvCorrelated c =>
      if 0 <? ct_miss a then Some (None, a <| ct_miss := ct_miss a - 1 |>, t)
      else
        let '(clk, a) := calc_rollover (LocalClk c) a in
        t ← correlated_callback (mkCorrelated (TSC c) clk) t;
        Some (None, a <| ct_done := true |>, t)
  end.

(** [WirelessTimestamperCallback] of a job: the input of the daemon. *)
Definition dialog_of (garbage : Z) (action ack token : Z) : WirelessDialog :=
  WirelessDialog_new garbage <| action_devclk := action |> <| ack_devclk := ack |>
    <| dialog_token := u8 token |>.
Definition WirelessTimestamperCallback (garbage : Z) (p : pid) (j : Job) : Input :=
  match j with
  | JobConfirm c => Confirm p (dialog_of garbage (cf_T1 c) (cf_T4 c) (cf_token c))
  | JobIndication i =>
      Indication p (in_peer i) (dialog_of garbage (in_T2 i) (in_T3 i) (in_token i))
        (dialog_of garbage (in_T1 i) (in_T4 i) (in_fwup_token i))
        (in_tail i) (u64 (in_Length i - (SIZE_PTP_SPEC - 1)))
  end.

(** ** Correlated times *)

Definition CORRELATEDTIME_TRANSACTION_TIMEOUT : Z := 110.
(** The wait of a turn of the loop, from the tick counts of the first turn and of
    this. *)
Definition ct_wait (start now : Z) : Z :=
  let start := if start =? 0 then now else start in
  let elapsed := u32 (now - start) in
  if elapsed <? CORRELATEDTIME_TRANSACTION_TIMEOUT
  then u32 (CORRELATEDTIME_TRANSACTION_TIMEOUT - elapsed) else 0.

(** [refreshCrossTimestamp] in its two parts, before and after it waits: the
    request, which a failure returns from with the lock, and the end of the loop,
    with the last answer of [SleepConditionVariableSRW]. *)
Definition refresh_begin (granted : bool) (a : Adapter) : option bool * Adapter :=
  let a := a <| ct_locked := true |> <| ct_done := false |> in
  if granted then (None, a <| ct_locked := false |>) else (Some false, a).
Definition refresh_end (wait_return : bool) (a : Adapter) : bool * Adapter :=
  (wait_return, if wait_return then a else a <| ct_miss := ct_miss a + 1 |>).

(** [HWTimestamper_gettime]: [freq] is the local to system frequency offset of the
    port; an extrapolation from the last correlated time where there is no new
    one. *)
Definition per_ns (hz : Z) : spec_float :=
  fl_div fmt_double (fl_of_Z fmt_double hz) (fl_of_Z fmt_double 1000000000).
Definition wl_gettime (refreshed : bool) (tsc_now : Z) (freq : spec_float) (device : Timestamp)
    (system : Timestamp) (t : WlTimestamper) : option (Timestamp * Timestamp) :=
  if refreshed then Some (system_time t, device_time t)
  else
    let delta := fl_of_Z fmt_double (u64 (u64 tsc_now - system_counter t)) in
    device_delta ← cast_u 32 (fl_div fmt_double delta (per_ns (tsc_hz t)));
    device_delta ← cast_u 32 (fl_mul fmt_double (fl_of_Z fmt_double device_delta) freq);
    now ← cast_u 64 (fl_div fmt_double (fl_of_Z fmt_double tsc_now) (per_ns (tsc_hz t)));
    Some (set64 system now, ts_plus (set64 device device_delta) (device_time t)).

(** ** Registration

    The map from the addresses to their timestampers; [deregisterTimestamper]
    returns what happened to be there when it finds none. *)
Definition registerTimestamper {T} (addr : LinkLayerAddress) (t : T) (m : gmap LinkLayerAddress T)
    : bool * gmap LinkLayerAddress T :=
  match m !! addr with
  | None => (true, <[addr := t]> m)
  | Some _ => (false, m)
  end.
Definition deregisterTimestamper {T} (garbage : bool) (addr : LinkLayerAddress)
    (m : gmap LinkLayerAddress T) : bool * gmap LinkLayerAddress T :=
  match m !! addr with
  | Some _ => (true, delete addr m)
  | None => (garbage, m)
  end.
(** [attachAdapter]: the handle of the first adapter with the address. *)
Definition attachAdapter (mac_addr : LinkLayerAddress) (adapters : option (list (LinkLayerAddress * Z)))
    : option Z :=
  l ← adapters;
  r ← list_find (fun e => memcmp e.1 mac_addr = Eq) l;
  Some r.2.2.

(** [HWTimestamper_init]: whether it succeeds, by the steps in their order. *)
Definition wl_init (initialized api : bool) (local : option LinkLayerAddress)
    (adapters : option (list (LinkLayerAddress * Z))) (tsc : Z) (registered : bool) : bool :=
  if initialized then true
  else
    api && match local with
           | None => false
           | Some mac =>
               match attachAdapter mac adapters with
               | None => false
               | Some _ => negb (tsc =? 0) && registered
               end
           end.

(** ** Scaling is exact *)

Lemma scale64_exact i m n : fits 64 i -> fits 32 m -> 0 < n < 2 ^ 32 ->
  scale64 i m n = Some (u64 (i * m / n)).
Proof.
  intros Hi Hm Hn. unfold scale64. rewrite (proj2 (Z.eqb_neq n 0) ltac:(lia)). f_equal.
  pose proof (Z.div_mod i n ltac:(lia)) as Hdm. pose proof (Z.mod_pos_bound i n ltac:(lia)) as Hmod.
  assert (Hr : u64 (i mod n * m) = i mod n * m) by (apply uwrap_small; unfold fits in *; nia).
  rewrite Hr. rewrite Hdm at 3. replace ((n * (i / n) + i mod n) * m) with (i mod n * m + (i / n * m) * n) by nia.
  rewrite Z.div_add by lia. unfold u64, uwrap.
  rewrite Z.add_mod_idemp_l by lia. f_equal. lia.
Qed.

(** ** The extension of the counter *)

(** The adapter has last read the time [L], and its counts start at [base] turns
    of the counter. *)
Definition tracks (base L : Z) (a : Adapter) : Prop :=
  gp2_last a = L mod GP2_ROLLOVER /\ gp2_ext a = L / GP2_ROLLOVER - base /\
  base * GP2_ROLLOVER <= L < 2 ^ 63.

Lemma land_rollover t : Z.land t 0xFFFFFFFF = t mod GP2_ROLLOVER.
Proof. change 0xFFFFFFFF with (Z.ones 32). by rewrite Z.land_ones. Qed.

Lemma calc_first t a : gp2_last a = ULLONG_MAX -> gp2_ext a = 0 -> 0 <= t < 2 ^ 63 ->
  (calc_rollover (t mod GP2_ROLLOVER) a).1 = t mod GP2_ROLLOVER /\
  tracks (t / GP2_ROLLOVER) t (calc_rollover (t mod GP2_ROLLOVER) a).2.
Proof.
  intros Hl He Ht. unfold calc_rollover. rewrite Hl, Z.eqb_refl, land_rollover, Z.mod_mod by done.
  split; [done|]. split; [done|]. cbn [gp2_ext set field_setter fst snd]. rewrite He.
  pose proof (Z.div_mod t GP2_ROLLOVER ltac:(done)). pose proof (Z.mod_pos_bound t GP2_ROLLOVER ltac:(done)). lia.
Qed.

(** A time less than a quarter of a turn from the last is extended to itself, and
    it becomes the last but for a late one of the turn before. *)
Lemma calc_next base L t a : 0 <= base -> tracks base L a -> 0 <= t < 2 ^ 63 -> Z.abs (t - L) < GP2_ROLLOVER / 4 ->
  (calc_rollover (t mod GP2_ROLLOVER) a).1 = u64 (t - base * GP2_ROLLOVER) /\
  exists L', tracks base L' (calc_rollover (t mod GP2_ROLLOVER) a).2 /\ (L' = t \/ L' = L /\ t < L).
Proof.
  intros Hb (Hl & He & HL) Ht Hd. unfold calc_rollover. rewrite land_rollover, Z.mod_mod by done.
  pose proof (Z.div_mod t GP2_ROLLOVER ltac:(done)) as Dt. pose proof (Z.mod_pos_bound t GP2_ROLLOVER ltac:(done)) as Bt.
  pose proof (Z.div_mod L GP2_ROLLOVER ltac:(done)) as DL. pose proof (Z.mod_pos_bound L GP2_ROLLOVER ltac:(done)) as BL.
  set (q := t / GP2_ROLLOVER) in *. set (r := t mod GP2_ROLLOVER) in *.
  set (Q := L / GP2_ROLLOVER) in *. set (R := L mod GP2_ROLLOVER) in *. rewrite Hl.
  change (GP2_ROLLOVER / 4) with 1073741824 in *. change (GP2_ROLLOVER * 3 / 4) with 3221225472.
  unfold ULLONG_MAX, GP2_ROLLOVER in *. rewrite (proj2 (Z.eqb_neq R _)) by lia.
  assert (Hw : forall x, 0 <= x < 2 ^ 32 -> u32 x = x) by (intros; by apply uwrap_small).
  assert (Hw' : forall x, 0 <= x < 2 ^ 64 -> u64 x = x) by (intros; by apply uwrap_small).
  destruct ((r <? 1073741824) && (3221225472 <? R)) eqn:Hfwd.
  - apply andb_prop in Hfwd as [H1%Z.ltb_lt H2%Z.ltb_lt]. assert (Hq : q = Q + 1) by lia.
    cbn [gp2_ext gp2_last set field_setter]. rewrite Hl, (proj2 (Z.ltb_ge R 1073741824)) by lia.
    cbn [andb fst snd]. rewrite He, (Hw (Q - base + 1)) by lia. split; [f_equal; rewrite Hw'; lia|].
    exists t. split; [|by left]. split; [done|]. split; [|unfold GP2_ROLLOVER; lia].
    change (t / GP2_ROLLOVER) with q. cbn [gp2_ext set field_setter]. lia.
  - rewrite Hl. destruct ((R <? 1073741824) && (3221225472 <? r)) eqn:Hback; cbn [fst snd].
    + apply andb_prop in Hback as [H1%Z.ltb_lt H2%Z.ltb_lt]. assert (Hq : q = Q - 1) by lia.
      rewrite He. split; [|exists L; split; [done|right; split; [done|lia]]].
      unfold u64, uwrap. rewrite Z.mul_mod_idemp_l, Z.add_mod_idemp_r by done. f_equal. lia.
    + assert (Hq : q = Q).
      { apply andb_false_iff in Hfwd as [H1%Z.ltb_ge|H1%Z.ltb_ge];
          apply andb_false_iff in Hback as [H2%Z.ltb_ge|H2%Z.ltb_ge]; lia. }
      rewrite He. split; [f_equal; rewrite Hw'; lia|]. exists t. split; [|by left].
      split; [done|]. split; [|unfold GP2_ROLLOVER; lia]. change (t / GP2_ROLLOVER) with q. cbn [gp2_ext set field_setter]. lia.
Qed.

(** The times of which none is an eighth of a turn from the latest before it. *)
Fixpoint near_order (M : Z) (ts : list Z) : Prop :=
  match ts with
  | [] => True
  | t :: ts' => 0 <= t < 2 ^ 63 /\ Z.abs (t - M) < GP2_ROLLOVER / 8 /\ near_order (Z.max M t) ts'
  end.

Lemma extend_near base ts : forall M L a, 0 <= base -> tracks base L a -> M - GP2_ROLLOVER / 8 <= L <= M ->
  near_order M ts ->
  (extend (map (fun t => t mod GP2_ROLLOVER) ts) a).1 = map (fun t => u64 (t - base * GP2_ROLLOVER)) ts.
Proof.
  induction ts as [|t ts IH]; intros M L a Hb Ht HL Hn; [done|]. destruct Hn as (Hr & Hd & Hn).
  change (GP2_ROLLOVER / 8) with 536870912 in *.
  destruct (calc_next base L t a Hb Ht Hr) as (Hv & L' & Ht' & HL').
  { change (GP2_ROLLOVER / 4) with 1073741824. lia. }
  cbn [map extend]. destruct (calc_rollover _ a) as [v a']. cbn [fst snd] in *.
  pose proof (IH (Z.max M t) L' a' Hb Ht' ltac:(lia) Hn) as IH'.
  destruct (extend _ a') as [vs a'']. cbn [fst] in *. by rewrite Hv, IH'.
Qed.

(** C20: the 32-bit counter of the adapter is extended without a jump: whenever
    its values are read, of which the driver's threads may deliver some late, the
    results are the true times counted from the turn of the first, as long as none
    is an eighth of a turn away from the latest before it. *)
Theorem calc_rollover_unwraps t ts garbage : 0 <= t < 2 ^ 63 -> near_order t ts ->
  (extend (map (fun t => t mod GP2_ROLLOVER) (t :: ts)) (IntelWirelessAdapter_new garbage)).1 =
  map (fun t' => u64 (t' - t / GP2_ROLLOVER * GP2_ROLLOVER)) (t :: ts).
Proof.
  intros Ht Hn. cbn [map extend].
  destruct (calc_first t (IntelWirelessAdapter_new garbage) eq_refl eq_refl Ht) as [Hv Htr].
  destruct (calc_rollover _ _) as [v a]. cbn [fst snd] in *.
  pose proof (extend_near (t / GP2_ROLLOVER) ts t t a) as H. destruct (extend _ a) as [vs a']. cbn [fst] in *.
  rewrite H; [|apply Z.div_pos; [lia|done]|done|change (GP2_ROLLOVER / 8) with 536870912; lia|done].
  f_equal. rewrite Hv. pose proof (Z.div_mod t GP2_ROLLOVER ltac:(done)).
  pose proof (Z.mod_pos_bound t GP2_ROLLOVER ltac:(done)). unfold GP2_ROLLOVER in *.
  symmetry. replace (t - _) with (t mod 4294967296) by lia. apply uwrap_small. unfold fits. lia.
Qed.

(** ** The requests of a correlated time

    One request at a time: what was asked and answered so far, and the time-outs
    whose answer had come by the time the lock was taken again. *)
Record Ct := mkCt {
  ct_adapter : Adapter;
  ct_timestamper : WlTimestamper;
  requested : nat;
  answers : list CorrelatedTime;
  waiting : bool;
  late : nat;
}.
#[export] Instance eta_Ct : Settable Ct := fun s =>
  mkCt (ct_adapter s) (ct_timestamper s) (requested s) (answers s) (waiting s) (late s).

Inductive CtStep :=
  | Request (granted : bool)
  | Answer (c : CorrelatedTime)
  | Wake            (* the waiting thread finds [ct_done] *)
  | TimeOut.

(** A step of the driver, which answers a request once and in its order, or of the
    waiting thread; none where it cannot be taken: while [ct_lock] is held, nothing
    can. *)
Definition ct_step (s : Ct) (i : CtStep) : option Ct :=
  if ct_locked (ct_adapter s) then None
  else
    match i with
    | Request granted =>
        if waiting s then None
        else
          let '(failed, a) := refresh_begin granted (ct_adapter s) in
          Some (s <| ct_adapter := a |> <| waiting := granted |>
                  <| requested := if granted then S (requested s) else requested s |>)
    | Answer c =>
        if (length (answers s) <? requested s)%nat then
          '(_, a, t) ← event_handler (EvCorrelated c) (ct_adapter s) (ct_timestamper s);
          Some (s <| ct_adapter := a |> <| ct_timestamper := t |> <| answers := answers s ++ [c] |>)
        else None
    | Wake =>
        if waiting s && ct_done (ct_adapter s)
        then Some (s <| ct_adapter := (refresh_end true (ct_adapter s)).2 |> <| waiting := false |>)
        else None
    | TimeOut =>
        if waiting s
        then Some (s <| ct_adapter := (refresh_end false (ct_adapter s)).2 |> <| waiting := false |>
                     <| late := if ct_done (ct_adapter s) then S (late s) else late s |>)
        else None
    end.
Fixpoint ct_run (s : Ct) (steps : list CtStep) : option Ct :=
  match steps with
  | [] => Some s
  | i :: steps' => s ← ct_step s i; ct_run s steps'
  end.
Definition ct_init (garbage : bool) (t : WlTimestamper) : Ct :=
  mkCt (IntelWirelessAdapter_new garbage) t 0 [] false 0.

(** The times of the timestamper are those of an answer. *)
Definition times_of (c : CorrelatedTime) (t : WlTimestamper) : Prop :=
  exists counter, scale64 (TSC c) NS_PER_SECOND (u32 (tsc_hz t)) = Some counter /\
    system_counter t = counter /\ TIMESTAMP_TO_NS (system_time t) = counter.

Definition open_request (s : Ct) : bool := waiting s && negb (ct_done (ct_adapter s)).

(** Each request that is neither answered nor open is counted as missed, and so is
    each late time-out. *)
Record ct_ok (s : Ct) : Prop := {
  ok_miss : 0 <= ct_miss (ct_adapter s);
  ok_order : (length (answers s) <= requested s)%nat;
  ok_count : ct_miss (ct_adapter s) + Z.b2z (open_request s) =
             Z.of_nat (requested s) - Z.of_nat (length (answers s)) + Z.of_nat (late s);
  ok_own : waiting s && ct_done (ct_adapter s) = true ->
    late s = 0%nat /\ length (answers s) = requested s /\
    exists c, last (answers s) = Some c /\ times_of c (ct_timestamper s);
}.

Lemma scale64_fits i m n r : scale64 i m n = Some r -> fits 64 r.
Proof. unfold scale64. case_match; [done|]. injection 1 as <-. apply uwrap_fits. lia. Qed.

Lemma correlated_times c t t' : correlated_callback c t = Some t' -> times_of c t'.
Proof.
  unfold correlated_callback, times_of. destruct (scale64 _ _ _) as [r|] eqn:E; [|done]. injection 1 as <-.
  exists r. cbn [tsc_hz system_counter system_time set field_setter]. split; [done|]. split; [done|].
  by apply set64_TO_NS, (scale64_fits _ _ _ _ E).
Qed.

Lemma calc_rollover_ct gp2 a :
  let a' := (calc_rollover gp2 a).2 in
  ct_locked a' = ct_locked a /\ ct_miss a' = ct_miss a /\ ct_done a' = ct_done a.
Proof. unfold calc_rollover. repeat case_match; simplify_eq; done. Qed.

(** An answer is missed, or it is taken for the open request. *)
Lemma answer_cases s c s' : ct_step s (Answer c) = Some s' ->
  ct_locked (ct_adapter s) = false /\ (length (answers s) < requested s)%nat /\
  ct_locked (ct_adapter s') = false /\ answers s' = answers s ++ [c] /\
  requested s' = requested s /\ waiting s' = waiting s /\ late s' = late s /\
  ((0 < ct_miss (ct_adapter s) /\ ct_miss (ct_adapter s') = ct_miss (ct_adapter s) - 1 /\
    ct_done (ct_adapter s') = ct_done (ct_adapter s) /\ ct_timestamper s' = ct_timestamper s) \/
   (ct_miss (ct_adapter s) <= 0 /\ ct_miss (ct_adapter s') = ct_miss (ct_adapter s) /\
    ct_done (ct_adapter s') = true /\ times_of c (ct_timestamper s'))).
Proof.
  unfold ct_step. destruct (ct_locked (ct_adapter s)) eqn:Hl; [done|].
  destruct (Nat.ltb_spec (length (answers s)) (requested s)) as [Hn|]; [|done].
  cbn [event_handler]. destruct (Z.ltb_spec 0 (ct_miss (ct_adapter s))) as [Hm|Hm]; cbn [mbind option_bind].
  - injection 1 as <-. do 7 (split; [done|]). by left.
  - pose proof (calc_rollover_ct (LocalClk c) (ct_adapter s)) as (H1 & H2 & H3).
    destruct (calc_rollover _ _) as [clk a]. cbn [snd] in *.
    destruct (correlated_callback _ _) as [t|] eqn:E; cbn [mbind option_bind]; [|done]. injection 1 as <-.
    split; [done|]. split; [done|]. split; [cbn; congruence|]. do 4 (split; [done|]). right.
    split; [done|]. split; [done|]. split; [done|]. exact (correlated_times _ _ _ E).
Qed.

Lemma ct_step_ok s i s' : ct_step s i = Some s' -> ct_ok s -> ct_ok s'.
Proof.
  intros Hs [Hm Ho Hc Hown]. destruct i as [granted|c| |].
  - unfold ct_step in Hs. destruct (ct_locked _); [done|]. unfold open_request in Hc.
    destruct (waiting s); [done|]. cbn [andb Z.b2z] in Hc.
    destruct granted; cbn in Hs; injection Hs as <-; split; cbn; try done; try lia; unfold open_request; cbn; lia.
  - destruct (answer_cases _ _ _ Hs) as (_ & Hn & _ & Ha & Hr & Hw & Hl & Hcase). unfold open_request in *.
    destruct Hcase as [(Hp & Hm' & Hd & Ht)|(Hp & Hm' & Hd & Ht)].
    + split; rewrite ?Ha, ?Hr, ?Hl, ?Hm', ?length_app; cbn [length]; try lia.
      * unfold open_request. rewrite Hw, Hd. lia.
      * rewrite Hw, Hd. intros Hx. destruct (Hown Hx) as (_ & E & _). lia.
    + assert (Hx : waiting s = true /\ ct_done (ct_adapter s) = false /\ late s = 0%nat /\
                   requested s = S (length (answers s))).
      { destruct (waiting s), (ct_done (ct_adapter s)); cbn [andb negb Z.b2z] in Hc; lia. }
      destruct Hx as (Hx1 & Hx2 & Hx3 & Hx4). rewrite Hx1, Hx2 in Hc. cbn [andb negb Z.b2z] in Hc.
      split; rewrite ?Ha, ?Hr, ?Hl, ?Hm', ?length_app; cbn [length]; try lia.
      * unfold open_request. rewrite Hw, Hx1, Hd. cbn [andb negb Z.b2z]. lia.
      * intros _. split; [done|]. split; [lia|]. exists c. split; [apply last_snoc|done].
  - unfold ct_step in Hs. destruct (ct_locked _); [done|]. unfold open_request in Hc.
    destruct (waiting s && ct_done (ct_adapter s)) eqn:Hx; [|done]. injection Hs as <-.
    apply andb_prop in Hx as [Hx1 Hx2]. rewrite Hx1, Hx2 in Hc. cbn [andb negb Z.b2z] in Hc.
    split; cbn; try done; unfold open_request; cbn; lia.
  - unfold ct_step in Hs. destruct (ct_locked _); [done|]. unfold open_request in Hc.
    destruct (waiting s) eqn:Hx; [|done]. injection Hs as <-.
    destruct (ct_done (ct_adapter s)) eqn:Hd; cbn [andb negb Z.b2z] in Hc; split; cbn; try done; try lia;
      unfold open_request; cbn; lia.
Qed.

Lemma ct_init_ok garbage t : ct_ok (ct_init garbage t).
Proof. split; done. Qed.
Lemma ct_run_ok steps : forall s s', ct_run s steps = Some s' -> ct_ok s -> ct_ok s'.
Proof.
  induction steps as [|i steps IH]; intros s s'; cbn [ct_run]; [by injection 1 as <-|].
  destruct (ct_step s i) as [s1|] eqn:E; cbn [mbind option_bind]; [|done].
  intros Hr Hok. exact (IH _ _ Hr (ct_step_ok _ _ _ E Hok)).
Qed.

(** After a late time-out no answer is taken any more. *)
Lemma late_step s i s' : ct_ok s -> (0 < late s)%nat -> ct_step s i = Some s' ->
  (0 < late s')%nat /\ ct_timestamper s' = ct_timestamper s.
Proof.
  intros [Hm Ho Hc Hown] Hl Hs. destruct i as [granted|c| |].
  - unfold ct_step in Hs. destruct (ct_locked _); [done|]. destruct (waiting s); [done|].
    by destruct granted; cbn in Hs; injection Hs as <-.
  - destruct (answer_cases _ _ _ Hs) as (_ & Hn & _ & _ & _ & _ & Hl' & Hcase). rewrite Hl'. split; [done|].
    destruct Hcase as [(_ & _ & _ & H)|(Hp & _)]; [done|]. destruct (open_request s); cbn in Hc; lia.
  - unfold ct_step in Hs. destruct (ct_locked _); [done|]. destruct (_ && _); [|done]. by injection Hs as <-.
  - unfold ct_step in Hs. destruct (ct_locked _); [done|]. destruct (waiting s); [|done]. injection Hs as <-.
    cbn. split; [|done]. destruct (ct_done _); lia.
Qed.
Lemma late_run steps : forall s s', ct_ok s -> (0 < late s)%nat -> ct_run s steps = Some s' ->
  (0 < late s')%nat /\ ct_timestamper s' = ct_timestamper s.
Proof.
  induction steps as [|i steps IH]; intros s s' Hok Hl; cbn [ct_run]; [by injection 1 as <-|].
  destruct (ct_step s i) as [s1|] eqn:E; cbn [mbind option_bind]; [|done]. intros Hr.
  destruct (late_step _ _ _ Hok Hl E) as [Hl1 <-]. exact (IH _ _ (ct_step_ok _ _ _ E Hok) Hl1 Hr).
Qed.

Lemma answer_hz s c s' : ct_step s (Answer c) = Some s' ->
  tsc_hz (ct_timestamper s') = tsc_hz (ct_timestamper s).
Proof.
  unfold ct_step. destruct (ct_locked _); [done|]. destruct (_ <? _)%nat; [|done]. cbn [event_handler].
  destruct (0 <? _); cbn [mbind option_bind]; [by injection 1 as <-|].
  destruct (calc_rollover _ _) as [clk a]. unfold correlated_callback.
  destruct (scale64 _ _ _); cbn [mbind option_bind]; [|done]. by injection 1 as <-.
Qed.

(** The answers that are still to come, all of them, wake an open request. *)
Lemma answers_wake cs : forall s, ct_ok s -> ct_locked (ct_adapter s) = false -> late s = 0%nat ->
  waiting s = true -> u32 (tsc_hz (ct_timestamper s)) <> 0 ->
  (length (answers s) + length cs)%nat = requested s ->
  exists s', ct_run s (map Answer cs ++ [Wake]) = Some s' /\ answers s' = answers s ++ cs.
Proof.
  induction cs as [|c cs IH]; intros s Hok Hlk Hl Hw Hhz Hlen.
  - cbn [map app ct_run]. destruct Hok as [Hm Ho Hc Hown]. cbn [length] in Hlen.
    assert (Hd : ct_done (ct_adapter s) = true).
    { destruct (ct_done (ct_adapter s)) eqn:E; [done|]. unfold open_request in Hc. rewrite Hw, E in Hc. cbn in Hc. lia. }
    unfold ct_step. rewrite Hlk, Hw, Hd. cbn. eexists. split; [done|]. by rewrite app_nil_r.
  - cbn [length] in Hlen. destruct (ct_step s (Answer c)) as [s1|] eqn:E.
    + pose proof (answer_hz _ _ _ E) as Hhz1.
      destruct (answer_cases _ _ _ E) as (_ & _ & Hlk1 & Ha1 & Hr1 & Hw1 & Hl1 & _).
      destruct (IH s1 (ct_step_ok _ _ _ E Hok) Hlk1) as (s' & Hr & Ha); try congruence.
      { rewrite Ha1, Hr1, length_app. cbn [length]. lia. }
      exists s'. cbn [map app ct_run]. rewrite E. split; [exact Hr|]. by rewrite Ha, Ha1, <- app_assoc.
    + exfalso. revert E. unfold ct_step. rewrite Hlk, (proj2 (Nat.ltb_lt _ _)) by lia. cbn [event_handler].
      destruct (0 <? _); [done|]. destruct (calc_rollover _ _) as [clk a].
      unfold correlated_callback, scale64. by rewrite (proj2 (Z.eqb_neq _ _) Hhz).
Qed.


(** ** The octets of a Follow_Up

    Whatever the length of the vendor specific field, as many octets are copied as
    [followup] has. *)
Lemma copy_length_constant L : fits 8 L -> vendor_extension_copy_length L = followup_size.
Proof.
  intros [H0 H1]. unfold vendor_extension_copy_length, followup_size.
  assert (H : forallb (fun n => vendor_extension_copy_length (Z.of_nat n) =? 75) (seq 0 256) = true)
    by (vm_compute; reflexivity).
  rewrite forallb_forall in H. specialize (H (Z.to_nat L)). rewrite Z2Nat.id in H by lia.
  apply Z.eqb_eq, H, in_seq. lia.
Qed.

(** An indication is handled where the driver's memory has all of these. *)
Lemma indication_reads i a t : fits 8 (in_Length i) ->
  is_Some (event_handler (EvIndication i) a t) <-> (81 <= length (in_tail i))%nat.
Proof.
  intros HL. cbn [event_handler]. destruct (calc_rollover _ a) as [t2 a2].
  destruct (calc_rollover _ a2) as [t3 a3]. rewrite copy_length_constant by done.
  change (Z.to_nat (indication_tail + followup_size)) with 81%nat. unfold slice.
  destruct (decide (0 + 81 <= length (in_tail i))%nat) as [H|H]; cbn [mbind option_bind];
    split; try lia; try (by eexists); by intros [x Hx].
Qed.

(** ** Witnesses *)

Lemma calc_rollover_unwraps_witness :
  (extend [4294967000; 4294967290; 10; 4294967295; 20] (IntelWirelessAdapter_new false)).1 =
  [4294967000; 4294967290; 4294967306; 4294967295; 4294967316].
Proof.
  refine (eq_trans (calc_rollover_unwraps 4294967000 [4294967290; 4294967306; 4294967295; 4294967316] false _ _) _);
    [closed_tac | vm_compute; intuition congruence | reflexivity].
Defined.

Definition wl_timestamper : WlTimestamper := mkWlTs 0 (timestamp 0 0 0) (timestamp 0 0 0) 10000000.
Definition correlated (n : Z) : CorrelatedTime := mkCorrelated (n * 10000000) (n * 100000000).
(** A request that times out, and a second that gets both answers. *)
Definition ct_steps : list CtStep := [Request true; TimeOut; Request true].
Definition ct_state (steps : list CtStep) : Ct :=
  default (ct_init false wl_timestamper) (ct_run (ct_init false wl_timestamper) steps).

