(* ===== verification/WinNet.v ===== *)
(** * The network interface of the Windows build

    windows/daemon_cl/packet.cpp, [WindowsPCAPNetworkInterface] and the
    timestamps of [WindowsEtherTimestamper] (windows/daemon_cl/windows_hal.hpp):
    the frame that is sent, the frame that is received through the packet
    capture, and the timestamps that the card keeps of them.  What the capture
    library and the driver answer is an argument. *)

From Stdlib Require Import ZArith Lia.
From stdpp Require Import base list.
From S2P Require Import Prelude Timestamp Identity Message World Clock Port Media Ether Transmit Receive LinuxNet WinClock.

(** ** Errors *)

(** [packet_error_t] *)
Inductive packet_error_t :=
  | PACKET_NO_ERROR | PACKET_NOMEMORY_ERROR | PACKET_BADBUFFER_ERROR | PACKET_XMIT_ERROR
  | PACKET_IFLOOKUP_ERROR | PACKET_IFNOTFOUND_ERROR | PACKET_CREATEMUTEX_ERROR
  | PACKET_GETMUTEX_ERROR | PACKET_RLSMUTEX_ERROR | PACKET_RECVTIMEOUT_ERROR
  | PACKET_RECVFAILED_ERROR | PACKET_BIND_ERROR.
#[export] Instance packet_error_eq_dec : EqDecision packet_error_t.
Proof. solve_decision. Defined.

Definition PACKET_HDR_LENGTH : nat := 14.
Definition MAX_FRAME_SIZE : nat := 96.

(** [struct packet_handle]: whether the interface is open, its address, and the
    type of the frames that the filter passes. *)
Record PacketHandle := mkHandle {
  iface : bool; iface_addr : LinkLayerAddress; ethertype : option Z;
}.
#[export] Instance eta_PacketHandle : Settable PacketHandle := fun h =>
  mkHandle (iface h) (iface_addr h) (ethertype h).

(** [mallocPacketHandle]: the handle is stored before its mutex is created. *)
Definition mallocPacketHandle (memory mutex : bool) (garbage : LinkLayerAddress)
    : packet_error_t * option PacketHandle :=
  if negb memory then (PACKET_NOMEMORY_ERROR, None)
  else if negb mutex then (PACKET_CREATEMUTEX_ERROR, Some (mkHandle false garbage None))
  else (PACKET_NO_ERROR, Some (mkHandle false garbage None)).

(** [openInterfaceByAddr]: [adapters] is the addresses of the system's list. *)
Definition openInterfaceByAddr (adapters : option (list (list Z))) (opened : bool)
    (addr : LinkLayerAddress) (h : PacketHandle) : packet_error_t * PacketHandle :=
  match adapters with
  | None => (PACKET_IFLOOKUP_ERROR, h)
  | Some l =>
      if existsb (fun a => (length a =? ETHER_ADDR_OCTETS)%nat && mem_eq a addr) l then
        if opened then (PACKET_NO_ERROR, h <| iface := true |> <| iface_addr := addr |>)
        else (PACKET_IFLOOKUP_ERROR, h <| iface := false |>)
      else (PACKET_IFNOTFOUND_ERROR, h)
  end.

Definition packetBind (compiled filtered : bool) (ty : Z) (h : PacketHandle)
    : packet_error_t * PacketHandle :=
  if negb compiled then (PACKET_BIND_ERROR, h)
  else if negb filtered then (PACKET_BIND_ERROR, h)
  else (PACKET_NO_ERROR, h <| ethertype := Some ty |>).

(** ** Frames *)

(** [sendFrame]: the header is written over the start of the buffer, and the frame
    is read from it; none where the buffer ends before.  The result, the octets
    that are given to the capture library, and the buffer. *)
Definition sendFrame (h : PacketHandle) (addr : LinkLayerAddress) (ty : Z) (payload : list Z)
    (len : nat) (sent : bool) : option (packet_error_t * list Z * list Z) :=
  let ret := if (len <? PACKET_HDR_LENGTH)%nat then PACKET_BADBUFFER_ERROR else PACKET_NO_ERROR in
  payload ← puts 0 [(0%nat, addr); (6%nat, iface_addr h); (12%nat, le_encode 2 (htons ty))] payload;
  frame ← slice 0 (len + PACKET_HDR_LENGTH) payload;
  Some (if sent then ret else PACKET_XMIT_ERROR, frame, payload).

(** A frame as it is captured: its whole length, and the octets that are kept. *)
Record Captured := mkCaptured { cap_len : Z; cap_data : list Z }.
Definition capture (frame : list Z) : Captured :=
  mkCaptured (Z.of_nat (length frame)) (take MAX_FRAME_SIZE frame).

(** [pcap_next_ex]: nothing within the time, a failure, or a frame. *)
Inductive Next := NextTimeout | NextFailed | NextFrame (c : Captured).

(** What [recvFrame] copies of a frame: the length, the payload and the source
    address; none where the captured octets end before. *)
Definition copy_frame (c : Captured) (payload : list Z) (len : Z) : option (Z * list Z * LinkLayerAddress) :=
  let n := u32 (cap_len c - Z.of_nat PACKET_HDR_LENGTH) in
  let n := if len <=? n then len else n in
  data ← slice PACKET_HDR_LENGTH (Z.to_nat n) (cap_data c);
  payload ← put 0 data payload;
  src ← slice ETHER_ADDR_OCTETS ETHER_ADDR_OCTETS (cap_data c);
  Some (n, payload, src).
(** [recvFrame]: the lock, the frame, and the release of the lock. *)
Definition recvFrame (locked : bool) (r : Next) (released : bool) (payload : list Z) (len : Z)
    : option (packet_error_t * option (Z * list Z * LinkLayerAddress)) :=
  if negb locked then Some (PACKET_GETMUTEX_ERROR, None)
  else
    let unlock e := if released then e else PACKET_RLSMUTEX_ERROR in
    match r with
    | NextTimeout => Some (unlock PACKET_RECVTIMEOUT_ERROR, None)
    | NextFailed => Some (unlock PACKET_RECVFAILED_ERROR, None)
    | NextFrame c => f ← copy_frame c payload len; Some (unlock PACKET_NO_ERROR, Some f)
    end.

(** ** The interface *)

(** [send] *)
Definition win_send (h : PacketHandle) (addr : LinkLayerAddress) (ty : Z) (payload : list Z) (len : nat)
    (sent : bool) : option (bool * list Z) :=
  '(e, frame, _) ← sendFrame h addr ty payload len sent;
  Some (bool_decide (e = PACKET_NO_ERROR), frame).

(** [nrecv] *)
Definition win_nrecv (locked : bool) (r : Next) (released : bool) (payload : list Z) (len : Z)
    : option (NetResult * option (Z * list Z * LinkLayerAddress)) :=
  '(e, f) ← recvFrame locked r released payload len;
  Some (match e, f with
        | PACKET_NO_ERROR, Some (n, _, src) => net_succeed src n
        | PACKET_RECVTIMEOUT_ERROR, _ => net_trfail
        | _, _ => net_fatal
        end, f).

(** The destructor of the interface, [closeInterface] of its handle: none where it
    reads through a null pointer, or the member [iface] before it is set. *)
Definition destroy (h : option PacketHandle) (set_up : bool) : option unit :=
  match h with Some _ => if set_up then Some () else None | None => None end.

(** [createInterface]: the interface, when every step succeeds; its destructor runs
    otherwise. *)
Definition win_createInterface (label : option LinkLayerAddress) (memory mutex : bool)
    (garbage : LinkLayerAddress) (adapters : option (list (list Z))) (opened compiled filtered : bool)
    (ty : Z) : option (option (LinkLayerAddress * PacketHandle)) :=
  let failed h set_up := _ ← destroy h set_up; Some None in
  match label with
  | None => failed None false
  | Some addr =>
      match mallocPacketHandle memory mutex garbage with
      | (PACKET_NO_ERROR, Some h) =>
          let '(e, h) := openInterfaceByAddr adapters opened addr h in
          if negb (bool_decide (e = PACKET_NO_ERROR)) then failed (Some h) true
          else
            let '(e, h) := packetBind compiled filtered ty h in
            if negb (bool_decide (e = PACKET_NO_ERROR)) then failed (Some h) true
            else Some (Some (addr, h))
      | (_, h) => failed h false
      end
  end.

(** ** Timestamps of the card *)

Definition ERROR_SUCCESS : Z := 0.
Definition ERROR_GEN_FAILURE : Z := 31.

(** What the driver answers to a question for a timestamp: the code, the four
    DWORDs of a success, and how many octets it returned. *)
Record OidAnswer := mkOid { oid_result : Z; oid_buf : Z * Z * Z * Z; oid_returned : Z }.

(** The loop over the timestamps that the card has: the last of them, or what was
    in the buffer before, and the answer that ends it; none when the driver never
    ends. *)
Fixpoint oid_loop (l : list OidAnswer) (buf : Z * Z * Z * Z) : option (Z * Z * Z * Z * OidAnswer) :=
  match l with
  | [] => None
  | a :: l' => if oid_result a =? ERROR_SUCCESS then oid_loop l' (oid_buf a) else Some (buf, a)
  end.

(** [HWTimestamper_txtimestamp] and [HWTimestamper_rxtimestamp]: the code, and the
    timestamp of a success; [garbage] is the buffer before.  That of a sent frame
    is not compared with the frame. *)
Definition card_timestamp (hz v : Z) (b : Z * Z * Z * Z) : option (Z * option Timestamp) :=
  let '(b0, b1, _, _) := b in
  ns ← scale_clock hz (qword b0 b1);
  Some (GPTP_EC_SUCCESS, Some (nanoseconds64ToTimestamp ns <| _version := v |>)).
Definition win_txtimestamp (hz v : Z) (garbage : Z * Z * Z * Z) (l : list OidAnswer)
    : option (Z * option Timestamp) :=
  '(buf, a) ← oid_loop l garbage;
  if negb (oid_result a =? ERROR_GEN_FAILURE) then Some (GPTP_EC_FAILURE, None)
  else if negb (oid_returned a =? 16) then Some (GPTP_EC_EAGAIN, None)
  else card_timestamp hz v buf.
Definition win_rxtimestamp (hz v : Z) (sequence : Z) (garbage : Z * Z * Z * Z) (l : list OidAnswer)
    : option (Z * option Timestamp) :=
  '(buf, a) ← oid_loop l garbage;
  if negb (oid_result a =? ERROR_GEN_FAILURE) then Some (GPTP_EC_FAILURE, None)
  else if negb (oid_returned a =? 16) then Some (GPTP_EC_EAGAIN, None)
  else
    let '(_, _, _, b3) := buf in
    if negb (htons (u16 (Z.shiftr b3 16)) =? sequence) then Some (GPTP_EC_EAGAIN, None)
    else card_timestamp hz v buf.

(** ** A frame from one station to another *)

Lemma put_middle p x bs y : length x = length bs ->
  put (length p) bs (p ++ x ++ y) = Some (p ++ bs ++ y).
Proof.
  intros H. unfold put. rewrite decide_True by (rewrite !length_app; lia). f_equal.
  rewrite take_app_length. f_equal. f_equal. rewrite app_assoc.
  rewrite drop_app_length' by (rewrite length_app; lia). done.
Qed.

(** The frame of a message, as both the stations see it. *)
Definition frame_of (dest src : LinkLayerAddress) (ty : Z) (msg : list Z) : list Z :=
  dest ++ src ++ be_encode 2 ty ++ msg.

Lemma send_frame h dest ty hdr msg rest sent :
  length dest = ETHER_ADDR_OCTETS -> length (iface_addr h) = ETHER_ADDR_OCTETS -> fits 16 ty ->
  length hdr = PACKET_HDR_LENGTH ->
  exists payload, sendFrame h dest ty (hdr ++ msg ++ rest) (length msg) sent =
    Some (if sent then if (length msg <? PACKET_HDR_LENGTH)%nat then PACKET_BADBUFFER_ERROR
                       else PACKET_NO_ERROR else PACKET_XMIT_ERROR,
          frame_of dest (iface_addr h) ty msg, payload).
Proof.
  unfold ETHER_ADDR_OCTETS, PACKET_HDR_LENGTH. intros Hd Hs Hty Hh.
  assert (Ety : le_encode 2 (htons ty) = be_encode 2 ty).
  { unfold htons. change (u16 ty) with (uwrap 16 ty). by rewrite uwrap_small, bswap_encode by done. }
  assert (Hsplit : hdr = take 6 hdr ++ take 6 (drop 6 hdr) ++ drop 12 hdr).
  { by rewrite <- (take_drop 6 hdr) at 1; rewrite <- (take_drop 6 (drop 6 hdr)) at 1; rewrite drop_drop. }
  set (x1 := take 6 hdr) in *. set (x2 := take 6 (drop 6 hdr)) in *. set (x3 := drop 12 hdr) in *.
  assert (H1 : length x1 = 6%nat) by (unfold x1; rewrite length_take; lia).
  assert (H2 : length x2 = 6%nat) by (unfold x2; rewrite length_take, length_drop; lia).
  assert (H3 : length x3 = 2%nat) by (unfold x3; rewrite length_drop; lia).
  unfold sendFrame. rewrite Ety, Hsplit. cbn [puts Nat.add]. rewrite <- !app_assoc.
  pose proof (put_middle [] x1 dest (x2 ++ x3 ++ msg ++ rest) ltac:(congruence)) as P1. cbn [length app] in P1.
  rewrite P1. pose proof (put_middle dest x2 (iface_addr h) (x3 ++ msg ++ rest) ltac:(congruence)) as P2.
  rewrite Hd in P2. rewrite P2.
  pose proof (put_middle (dest ++ iface_addr h) x3 (be_encode 2 ty) (msg ++ rest)
    ltac:(by rewrite length_be_encode)) as P3.
  rewrite length_app, Hd, Hs, <- !app_assoc in P3. cbn [Nat.add] in P3. rewrite P3. cbn [mbind option_bind].
  assert (Hf : slice 0 (length msg + 14) (dest ++ iface_addr h ++ be_encode 2 ty ++ msg ++ rest) =
               Some (frame_of dest (iface_addr h) ty msg)).
  { replace (length msg + 14)%nat with (length (frame_of dest (iface_addr h) ty msg))
      by (unfold frame_of; rewrite !length_app, length_be_encode, Hd, Hs; lia).
    pose proof (slice_middle [] (frame_of dest (iface_addr h) ty msg) rest) as S. cbn [length app] in S.
    rewrite <- S. unfold frame_of. by rewrite <- !app_assoc. }
  change PACKET_HDR_LENGTH with 14%nat. rewrite Hf. by eexists.
Qed.

(** The frame on the other side, with the octets [pad] that the medium adds. *)
Lemma copy_frame_spec dest src ty msg pad buf len : length dest = ETHER_ADDR_OCTETS ->
  length src = ETHER_ADDR_OCTETS -> Z.of_nat (length (msg ++ pad)) <= len -> len <= Z.of_nat (length buf) ->
  len < 2 ^ 32 - 14 ->
  copy_frame (capture (frame_of dest src ty msg ++ pad)) buf len =
    if (length (msg ++ pad) + PACKET_HDR_LENGTH <=? MAX_FRAME_SIZE)%nat
    then Some (Z.of_nat (length (msg ++ pad)), (msg ++ pad) ++ drop (length (msg ++ pad)) buf, src)
    else None.
Proof.
  unfold ETHER_ADDR_OCTETS, PACKET_HDR_LENGTH, MAX_FRAME_SIZE. intros Hd Hs Hl Hb H32.
  set (body := msg ++ pad) in *.
  assert (Hf : frame_of dest src ty msg ++ pad = (dest ++ src ++ be_encode 2 ty) ++ body)
    by (unfold frame_of, body; by rewrite <- !app_assoc).
  assert (Hhd : length (dest ++ src ++ be_encode 2 ty) = 14%nat)
    by (rewrite !length_app, length_be_encode, Hd, Hs; done).
  rewrite Hf. unfold copy_frame, capture. cbn [cap_len cap_data].
  rewrite length_app, Hhd. replace (Z.of_nat (14 + length body) - Z.of_nat PACKET_HDR_LENGTH)
    with (Z.of_nat (length body)) by (unfold PACKET_HDR_LENGTH; lia).
  change (u32 (Z.of_nat (length body))) with (uwrap 32 (Z.of_nat (length body))).
  rewrite uwrap_small by (unfold fits; lia).
  assert (Hn : (if len <=? Z.of_nat (length body) then len else Z.of_nat (length body)) = Z.of_nat (length body)).
  { destruct (Z.leb_spec len (Z.of_nat (length body))); lia. }
  rewrite Hn, Nat2Z.id. destruct (Nat.leb_spec (length body + 14) 96) as [H96|H96].
  - rewrite take_ge by (rewrite length_app, Hhd; unfold MAX_FRAME_SIZE; lia).
    pose proof (slice_middle (dest ++ src ++ be_encode 2 ty) body []) as S1.
    rewrite Hhd, app_nil_r in S1. change PACKET_HDR_LENGTH with 14%nat. rewrite S1. cbn [mbind option_bind].
    unfold put. rewrite decide_True by lia. cbn [mbind option_bind take app].
    pose proof (slice_middle dest src (be_encode 2 ty ++ body)) as S2. rewrite Hd, Hs in S2.
    change ETHER_ADDR_OCTETS with 6%nat. rewrite <- !app_assoc, S2. reflexivity.
  - assert (S : slice PACKET_HDR_LENGTH (length body)
      (take MAX_FRAME_SIZE ((dest ++ src ++ be_encode 2 ty) ++ body)) = None); [|by rewrite S].
    unfold slice. rewrite decide_False; [done|].
    rewrite length_take, length_app, Hhd. unfold PACKET_HDR_LENGTH, MAX_FRAME_SIZE. lia.
Qed.

(** C29: a message that is sent arrives, with the address of its sender, as long
    as the whole frame has 96 octets at most, those that the capture keeps.  A
    longer frame, like an Announce message with the path of two clocks, is read
    past the octets that were captured; and a message shorter than a frame header
    is reported as not sent, though it is. *)
Theorem frame_roundtrip h dest ty hdr msg rest pad buf len :
  length dest = ETHER_ADDR_OCTETS -> length (iface_addr h) = ETHER_ADDR_OCTETS -> fits 16 ty ->
  length hdr = PACKET_HDR_LENGTH -> Z.of_nat (length (msg ++ pad)) <= len ->
  len <= Z.of_nat (length buf) -> len < 2 ^ 32 - 14 ->
  exists frame,
    win_send h dest ty (hdr ++ msg ++ rest) (length msg) true =
      Some (negb (length msg <? PACKET_HDR_LENGTH)%nat, frame) /\
    win_nrecv true (NextFrame (capture (frame ++ pad))) true buf len =
      if (length (msg ++ pad) + PACKET_HDR_LENGTH <=? MAX_FRAME_SIZE)%nat
      then let n := length (msg ++ pad) in
           Some (net_succeed (iface_addr h) (Z.of_nat n),
                 Some (Z.of_nat n, (msg ++ pad) ++ drop n buf, iface_addr h))
      else None.
Proof.
  intros Hd Hs Hty Hh Hl Hb H32. exists (frame_of dest (iface_addr h) ty msg).
  destruct (send_frame h dest ty hdr msg rest true Hd Hs Hty Hh) as (payload & E).
  unfold win_send. rewrite E. cbn [mbind option_bind]. split.
  - by destruct (length msg <? PACKET_HDR_LENGTH)%nat.
  - unfold win_nrecv, recvFrame. cbn [negb].
    rewrite (copy_frame_spec dest (iface_addr h) ty msg pad buf len Hd Hs Hl Hb H32).
    by destruct (_ <=? _)%nat.
Qed.

(** ** The timestamps of the card

    Of all the timestamps that the card has, only the last is kept. *)
Lemma oid_loop_last oks e rest : Forall (fun a => oid_result a = ERROR_SUCCESS) oks ->
  oid_result e <> ERROR_SUCCESS -> forall garbage,
  oid_loop (oks ++ e :: rest) garbage = Some (default garbage (oid_buf <$> last oks), e).
Proof.
  intros Hok He. induction Hok as [|a l Ha Hl IH]; intros garbage; cbn [app oid_loop].
  - by rewrite (proj2 (Z.eqb_neq _ _) He).
  - rewrite Ha, Z.eqb_refl, IH, last_cons. by destruct (last l).
Qed.

(** A received frame has its timestamp where the last of the card is of its
    sequence id; those of the others are lost. *)
Lemma rx_timestamp_last hz v seq garbage oks e rest : oks <> [] ->
  Forall (fun a => oid_result a = ERROR_SUCCESS) oks ->
  oid_result e = ERROR_GEN_FAILURE -> oid_returned e = 16 ->
  exists a, last oks = Some a /\
    win_rxtimestamp hz v seq garbage (oks ++ e :: rest) =
      let '(_, _, _, b3) := oid_buf a in
      if htons (u16 (Z.shiftr b3 16)) =? seq then card_timestamp hz v (oid_buf a)
      else Some (GPTP_EC_EAGAIN, None).
Proof.
  intros Hne Hok He Hr. destruct (last oks) as [a|] eqn:E; [|by apply last_None in E].
  exists a. split; [done|]. unfold win_rxtimestamp.
  rewrite (oid_loop_last oks e rest Hok) by (by rewrite He). rewrite E. cbn [mbind option_bind fmap option_fmap option_map default].
  rewrite He, Hr, !Z.eqb_refl. cbn [negb]. destruct (oid_buf a) as [[[b0 b1] b2] b3]. cbn. by destruct (_ =? seq).
Qed.

(** The 64 octets of an Announce message and the 12 of a path of one clock, with
    20 for a path of two. *)
Lemma frame_roundtrip_witness :
  let h := mkHandle true [1; 2; 3; 4; 5; 6] (Some 0x88F7) in
  let dest := [1; 0x80; 0xC2; 0; 0; 0xE] in
  exists f1 f2,
    win_send h dest 0x88F7 (repeat 0 14 ++ repeat 7 76 ++ []) 76 true = Some (true, f1) /\
    win_nrecv true (NextFrame (capture (f1 ++ []))) true (repeat 0 128) 128 =
      Some (net_succeed [1; 2; 3; 4; 5; 6] 76, Some (76, (repeat 7 76 ++ []) ++ drop 76 (repeat 0 128), [1; 2; 3; 4; 5; 6])) /\
    win_nrecv true (NextFrame (capture (f2 ++ []))) true (repeat 0 128) 128 = None.
Proof.
  intros h dest.
  destruct (frame_roundtrip h dest 0x88F7 (repeat 0 14) (repeat 7 76) [] [] (repeat 0 128) 128)
    as (f1 & H1 & H2); [reflexivity|reflexivity|closed_tac|reflexivity|closed_tac|closed_tac|closed_tac|].
  destruct (frame_roundtrip h dest 0x88F7 (repeat 0 14) (repeat 7 84) [] [] (repeat 0 128) 128)
    as (f2 & _ & H4); [reflexivity|reflexivity|closed_tac|reflexivity|closed_tac|closed_tac|closed_tac|].
  exists f1, f2. split; [exact H1|]. split; [exact H2|exact H4].
Defined.
