(* ===== verification/WinIpc.v ===== *)
(** * The named pipe of the Windows build

    [WindowsNamedPipeIPC] (windows/daemon_cl/windows_hal.cpp), [PeerList]
    (windows/daemon_cl/PeerList.hpp) and [IPCListener]
    (windows/daemon_cl/IPCListener.cpp): the offsets that the daemon updates, the
    list of peers, and the thread that answers the clients of the pipe.  What the
    system answers, and what a client writes, is an argument. *)

From Stdlib Require Import ZArith Lia.
From Stdlib.Floats Require Import SpecFloat.
From stdpp Require Import base gmap list sorting.
From S2P Require Import Prelude Timestamp CFloat Identity Message World Fixture LinuxIpc.

(** ** Peers *)

Definition IP_ADDR_OCTETS : nat := 4.
Inductive AddrWhich := MAC_ADDR | IP_ADDR | INVALID_ADDR.
(** [PeerAddr]: the union has the octets of the longer of the two. *)
Record PeerAddr := mkPeerAddr { which : AddrWhich; addr_octets : list Z }.
#[export] Instance AddrWhich_eq_dec : EqDecision AddrWhich.
Proof. solve_decision. Defined.
#[export] Instance PeerAddr_eq_dec : EqDecision PeerAddr.
Proof. solve_decision. Defined.

(** [operator==] and [operator<], whose operands the comparison of the octets has
    the other way round. *)
Definition addr_memcmp (n : nat) (a b : PeerAddr) : comparison :=
  memcmp (take n (addr_octets a)) (take n (addr_octets b)).
Definition peer_eq (this other : PeerAddr) : bool :=
  match which this with
  | MAC_ADDR => match addr_memcmp ETHER_ADDR_OCTETS other this with Eq => true | _ => false end
  | IP_ADDR => match addr_memcmp IP_ADDR_OCTETS other this with Eq => true | _ => false end
  | INVALID_ADDR => false
  end.
Definition peer_lt (this other : PeerAddr) : bool :=
  match which this with
  | MAC_ADDR => match addr_memcmp ETHER_ADDR_OCTETS other this with Lt => true | _ => false end
  | IP_ADDR => match addr_memcmp IP_ADDR_OCTETS other this with Lt => true | _ => false end
  | INVALID_ADDR => false
  end.

(** [PeerList]: the addresses with their states, and the two handlers. *)
Record PeerList := mkPeerList {
  internal_vector : list (PeerAddr * Z);
  peer_init : option (PeerAddr -> option Z);       (* the state, where it is made *)
  peer_rm : option (Z -> bool);
  peers_ready : bool;
}.
#[export] Instance eta_PeerList : Settable PeerList := fun l =>
  mkPeerList (internal_vector l) (peer_init l) (peer_rm l) (peers_ready l).
Definition PeerList_new (garbage : bool) : PeerList := mkPeerList [] None None garbage.

(** [find]: the place, and whether the address is there. *)
Fixpoint find (a : PeerAddr) (v : list (PeerAddr * Z)) : nat * bool :=
  match v with
  | [] => (0%nat, false)
  | p :: v' =>
      if peer_eq a p.1 then (0%nat, true)
      else if peer_lt a p.1 then (0%nat, false)
      else let '(i, found) := find a v' in (S i, found)
  end.
(** [add]: without an initializer, or where it fails, nothing is added. *)
Definition add_peer (a : PeerAddr) (l : PeerList) : bool * PeerList :=
  let v := internal_vector l in
  let '(i, found) := find a v in
  if found then (false, l)
  else
    match peer_init l with
    | None => (true, l)
    | Some f =>
        match f a with
        | None => (true, l)
        | Some st => (true, l <| internal_vector := take i v ++ (a, st) :: drop i v |>)
        end
    end.
Definition remove_peer (a : PeerAddr) (l : PeerList) : bool * PeerList :=
  let v := internal_vector l in
  let '(i, found) := find a v in
  if found then (true, l <| internal_vector := take i v ++ drop (S i) v |>) else (false, l).

(** ** Offsets *)

(** [Offset]; a ratio is a [double] for the compiler of Windows. *)
Record Offset := mkOffset {
  of_ml_phoffset : Z; of_ml_freqoffset : spec_float;
  of_ls_phoffset : Z; of_ls_freqoffset : spec_float; of_local_time : Z;
  of_grandmaster_id : ClockIdentity; of_gptp_domain : Z;
  of_clock_identity : ClockIdentity; of_priority1 : Z; of_clock_class : Z;
  of_variance : Z; of_accuracy : Z; of_priority2 : Z; of_domain : Z;
  of_log_sync : Z; of_log_announce : Z; of_log_pdelay : Z; of_port_number : Z;
}.
#[export] Instance eta_Offset : Settable Offset := fun o =>
  mkOffset (of_ml_phoffset o) (of_ml_freqoffset o) (of_ls_phoffset o) (of_ls_freqoffset o) (of_local_time o)
    (of_grandmaster_id o) (of_gptp_domain o) (of_clock_identity o) (of_priority1 o) (of_clock_class o)
    (of_variance o) (of_accuracy o) (of_priority2 o) (of_domain o) (of_log_sync o) (of_log_announce o)
    (of_log_pdelay o) (of_port_number o).

Definition Offset_zero : Offset :=
  mkOffset 0 (S754_zero false) 0 (S754_zero false) 0 (repeat 0 8) 0 (repeat 0 8) 0 0 0 0 0 0 0 0 0 0.
(** [LockableOffset]: the constructor leaves [ready] as it is. *)
Record LockableOffset := mkLockable { lo_offset : Offset; ready : bool }.
#[export] Instance eta_Lockable : Settable LockableOffset := fun l => mkLockable (lo_offset l) (ready l).
Definition LockableOffset_new (garbage : bool) : LockableOffset :=
  mkLockable (Offset_zero <| of_priority1 := 0xFF |> <| of_clock_class := 0xFF |> <| of_accuracy := 0xFF |>
                <| of_priority2 := 0xFF |>) garbage.

(** [update], [update_grandmaster], [update_network_interface], each with the lock:
    the counters and the states that the Linux interface shows are left out. *)
Definition pipe_update (ml ls : Z) (mlf lsf : spec_float) (time : Z) (l : LockableOffset) : LockableOffset :=
  mkLockable (lo_offset l <| of_local_time := time |> <| of_ml_freqoffset := mlf |> <| of_ml_phoffset := ml |>
                <| of_ls_freqoffset := lsf |> <| of_ls_phoffset := ls |>) true.
Definition pipe_update_grandmaster (id : ClockIdentity) (domain : Z) (l : LockableOffset) : LockableOffset :=
  mkLockable (lo_offset l <| of_grandmaster_id := id |> <| of_gptp_domain := domain |>) true.
Definition pipe_update_network_interface (id : ClockIdentity) (p1 class variance accuracy p2 domain
    log_sync log_announce log_pdelay port : Z) (l : LockableOffset) : LockableOffset :=
  mkLockable (lo_offset l <| of_clock_identity := id |> <| of_priority1 := p1 |> <| of_clock_class := class |>
                <| of_variance := variance |> <| of_accuracy := accuracy |> <| of_priority2 := p2 |>
                <| of_domain := domain |> <| of_log_sync := log_sync |> <| of_log_announce := log_announce |>
                <| of_log_pdelay := log_pdelay |> <| of_port_number := port |>) true.
(** The calls that the effects of the daemon are. *)
Definition pipe_effect (e : Effect) (l : LockableOffset) : LockableOffset :=
  match e with
  | EIpcUpdate ml ls mlf lsf time _ _ _ _ => pipe_update ml ls mlf lsf time l
  | EIpcGrandmaster id domain => pipe_update_grandmaster id domain l
  | EIpcInterface id p1 q p2 domain log_sync log_announce log_pdelay port =>
      pipe_update_network_interface id p1 (cq_class q) (offsetScaledLogVariance q) (clockAccuracy q) p2 domain
        log_sync log_announce log_pdelay port l
  | _ => l
  end.

(** ** The listener *)

Inductive PipeState :=
  | PIPE_CLOSED | PIPE_UNCONNECT | PIPE_CONNECT_PENDING | PIPE_CONNECT | PIPE_READ_PENDING.

(** What [ConnectNamedPipe], a wait of the event, and a read answer, and the message
    of a client: a control message, a query or an unknown one. *)
Inductive ConnectAnswer := ConnectDone | ConnectAlready | ConnectPending | ConnectError.
Inductive WaitAnswer := WaitObject | WaitTimeout | WaitOther.
Inductive ReadAnswer := ReadDone | ReadBroken | ReadError.
Inductive CtrlWhich := ADD_PEER | REMOVE_PEER | IllegalCtrl.
Inductive PipeMsg := CtrlMsg (c : CtrlWhich) (a : PeerAddr) | OffsetMsg | UnknownMsg.

(** The answers of a turn of the loop. *)
Record Turn := mkTurn {
  tn_create : bool; tn_reset : bool; tn_connect : ConnectAnswer; tn_wait : WaitAnswer;
  tn_read : ReadAnswer; tn_complete : ReadAnswer; tn_msg : PipeMsg; tn_rest : bool;
}.

(** The listener: its state, whether [pipe] is a handle, how many pipes were made
    and closed, whether the thread has ended, and the shared data. *)
Record Listener := mkListener {
  pipe_state : PipeState; pipe_open : bool; created : nat; closed : nat; ended : bool;
  offsets : LockableOffset; peers : PeerList; replies : list Offset;
}.
#[export] Instance eta_Listener : Settable Listener := fun l =>
  mkListener (pipe_state l) (pipe_open l) (created l) (closed l) (ended l) (offsets l) (peers l) (replies l).

Definition close_pipe (l : Listener) : Listener :=
  if pipe_open l then l <| closed := S (closed l) |> <| pipe_open := false |> else l.
(** [do_error], and the end of the loop. *)
Definition leave (l : Listener) : Listener := close_pipe l <| ended := true |>.
Definition goto_state (s : PipeState) (l : Listener) : Listener := l <| pipe_state := s |>.

(** The two waits. *)
Definition wait_connect (t : Turn) (l : Listener) : Listener :=
  match tn_wait t with
  | WaitObject => goto_state PIPE_CONNECT l
  | WaitTimeout => l
  | WaitOther => leave l
  end.
(** The offsets are answered where they are ready, zeros before. *)
Definition reply (l : Listener) : Listener :=
  l <| replies := replies l ++ [if ready (offsets l) then lo_offset (offsets l) else Offset_zero] |>.
Definition handle_message (t : Turn) (l : Listener) : Listener :=
  match tn_msg t with
  | CtrlMsg c a =>
      if negb (tn_rest t) then leave l
      else
        match c with
        | IllegalCtrl => leave l
        | ADD_PEER =>
            goto_state PIPE_CONNECT (if peers_ready (peers l) then l <| peers := (add_peer a (peers l)).2 |> else l)
        | REMOVE_PEER =>
            goto_state PIPE_CONNECT (if peers_ready (peers l) then l <| peers := (remove_peer a (peers l)).2 |> else l)
        end
  | OffsetMsg => if negb (tn_rest t) then leave l else goto_state PIPE_CONNECT (reply l)
  | UnknownMsg => leave l
  end.
Definition wait_read (t : Turn) (l : Listener) : Listener :=
  match tn_wait t with
  | WaitOther => leave l
  | WaitTimeout => l
  | WaitObject =>
      match tn_complete t with
      | ReadBroken => goto_state PIPE_CLOSED l
      | ReadError => leave l
      | ReadDone => handle_message t l
      end
  end.

(** A turn of [IPCListenerLoop]. *)
Definition turn (t : Turn) (l : Listener) : Listener :=
  match pipe_state l with
  | PIPE_CLOSED =>
      let l := close_pipe l in
      if tn_create t
      then goto_state PIPE_UNCONNECT (l <| created := S (created l) |> <| pipe_open := true |>)
      else leave l
  | PIPE_UNCONNECT =>
      if negb (tn_reset t) then leave l
      else
        match tn_connect t with
        | ConnectDone | ConnectAlready => goto_state PIPE_CONNECT l
        | ConnectPending => wait_connect t (goto_state PIPE_CONNECT_PENDING l)
        | ConnectError => leave l
        end
  | PIPE_CONNECT_PENDING => wait_connect t l
  | PIPE_CONNECT =>
      if negb (tn_reset t) then leave l
      else
        match tn_read t with
        | ReadError => leave l
        | ReadBroken => goto_state PIPE_CLOSED l
        | ReadDone => wait_read t (goto_state PIPE_READ_PENDING l)
        end
  | PIPE_READ_PENDING => wait_read t l
  end.

(** The daemon and the listener: an effect of the daemon, a turn, or [stop]. *)
Inductive IpcEvent := Update (e : Effect) | TurnOf (t : Turn) | StopListener.
Definition ipc_event (l : Listener) (e : IpcEvent) : Listener :=
  match e with
  | Update e => l <| offsets := pipe_effect e (offsets l) |>
  | TurnOf t => if ended l then l else turn t l
  | StopListener => if ended l then l else leave l
  end.
Definition listener_run (es : list IpcEvent) (l : Listener) : Listener := foldl ipc_event l es.
Definition listener_new (garbage garbage' : bool) : Listener :=
  mkListener PIPE_CLOSED false 0 0 false (LockableOffset_new garbage) (PeerList_new garbage') [].

(** ** The list of peers is a set *)

(** The octets that the addresses of a kind are compared by. *)
Definition kind_length (k : AddrWhich) : nat :=
  match k with MAC_ADDR => ETHER_ADDR_OCTETS | IP_ADDR => IP_ADDR_OCTETS | INVALID_ADDR => 0%nat end.
Definition key (k : AddrWhich) (a : PeerAddr) : list Z := take (kind_length k) (addr_octets a).
Definition of_kind (k : AddrWhich) (a : PeerAddr) : Prop :=
  which a = k /\ octets_of_length 6 (addr_octets a).

Section Kind.
Context (k : AddrWhich) (Hk : k <> INVALID_ADDR).
Abbreviation wf := (octets_of_length (kind_length k)).
(** The greater keys come first. *)
Definition before (x y : list Z) : Prop := mem_lt y x = true.

Lemma key_wf a : of_kind k a -> wf (key k a).
Proof.
  intros [_ [Ho Hl]]. split; [by apply Forall_take|]. unfold key. rewrite length_take, Hl.
  by destruct k.
Qed.
Lemma peer_eq_key a b : of_kind k a -> of_kind k b -> peer_eq a b = true <-> key k b = key k a.
Proof.
  intros Ha Hb. rewrite <- (oo_eqb (OctetOrder := mem_order (kind_length k)) _ _ (key_wf b Hb) (key_wf a Ha)).
  unfold peer_eq, mem_eq, key. destruct Ha as [-> _]. by destruct k.
Qed.
Lemma peer_lt_key a b : of_kind k a -> peer_lt a b = mem_lt (key k b) (key k a).
Proof. intros [Ha _]. unfold peer_lt, mem_lt, key. rewrite Ha. by destruct k. Qed.

Abbreviation keys v := (map (fun p : PeerAddr * Z => key k p.1) v).
Definition all_kind (v : list (PeerAddr * Z)) : Prop := Forall (fun p => of_kind k p.1) v.

Lemma keys_wf v y : all_kind v -> y ∈ keys v -> wf y.
Proof.
  intros Hv Hy. apply list_elem_of_fmap in Hy as (p & -> & Hp). unfold all_kind in Hv.
  rewrite Forall_forall in Hv. by apply key_wf, Hv.
Qed.

Lemma find_spec a v : of_kind k a -> all_kind v -> StronglySorted before (keys v) ->
  let '(i, found) := find a v in
  exists pre post, v = pre ++ post /\ length pre = i /\ Forall (fun y => before y (key k a)) (keys pre) /\
    if found then exists p post', post = p :: post' /\ key k p.1 = key k a
    else Forall (before (key k a)) (keys post).
Proof.
  intros Ha. induction v as [|p v IH]; intros Hv Hs; cbn [find].
  { exists [], []. repeat split; constructor. }
  apply Forall_cons in Hv as [Hp Hv]. cbn [map] in Hs. apply StronglySorted_inv in Hs as [Hs Hf].
  destruct (peer_eq a p.1) eqn:He.
  { exists [], (p :: v). repeat split; [constructor|]. exists p, v. split; [done|]. by apply peer_eq_key. }
  destruct (peer_lt a p.1) eqn:Hlt; rewrite (peer_lt_key a p.1 Ha) in Hlt.
  - exists [], (p :: v). repeat split; [constructor|]. cbn [map]. constructor; [done|].
    rewrite Forall_forall in Hf |- *. intros y Hy. unfold before in *.
    apply (oo_trans (OctetOrder := mem_order (kind_length k)) _ (key k p.1)); auto using key_wf.
    by apply (keys_wf v).
  - specialize (IH Hv Hs). destruct (find a v) as [i found]. destruct IH as (pre & post & -> & Hi & Hpre & Hpost).
    exists (p :: pre), post. split; [done|]. split; [cbn; by rewrite Hi|]. split; [|done]. cbn [map]. constructor; [|done].
    unfold before. destruct (oo_total (OctetOrder := mem_order (kind_length k)) _ _ (key_wf a Ha) (key_wf p.1 Hp))
      as [H|[H|H]]; [done| |congruence].
    exfalso. assert (Ht : peer_eq a p.1 = true) by (by apply peer_eq_key). congruence.
Qed.

(** The list shows a set of keys, each once. *)
Record shows_set (v : list (PeerAddr * Z)) (S : gset (list Z)) : Prop := {
  ss_kind : all_kind v;
  ss_sorted : StronglySorted before (keys v);
  ss_elem x : x ∈ keys v <-> x ∈ S;
}.

Lemma before_irrefl a : of_kind k a -> ~ before (key k a) (key k a).
Proof. intros Ha H. unfold before in H. by rewrite oo_irrefl in H by (by apply key_wf). Qed.

Lemma find_found (a : PeerAddr) (v : list (PeerAddr * Z)) (S : gset (list Z)) : of_kind k a -> shows_set v S -> (find a v).2 = bool_decide (key k a ∈ S).
Proof.
  intros Ha [Hv Hs He]. pose proof (find_spec a v Ha Hv Hs) as H. destruct (find a v) as [i found]. cbn [snd].
  destruct H as (pre & post & -> & Hi & Hpre & Hpost). symmetry. rewrite map_app in He. destruct found.
  - destruct Hpost as (p & post' & -> & Hp). apply bool_decide_true, He, elem_of_app. right. cbn [map]. rewrite Hp. by left.
  - apply bool_decide_false. intros Hin. apply He, elem_of_app in Hin as [Hin|Hin];
      [rewrite Forall_forall in Hpre; by apply (before_irrefl a Ha), Hpre
      |rewrite Forall_forall in Hpost; by apply (before_irrefl a Ha), Hpost].
Qed.

Lemma add_shows a l S : of_kind k a -> shows_set (internal_vector l) S ->
  (forall b, exists f st, peer_init l = Some f /\ f b = Some st) ->
  (add_peer a l).1 = bool_decide (key k a ∉ S) /\
  shows_set (internal_vector (add_peer a l).2) ({[key k a]} ∪ S) /\ peer_init (add_peer a l).2 = peer_init l.
Proof.
  intros Ha Hsh Hi. pose proof (find_found a _ S Ha Hsh) as Hf. destruct Hsh as [Hv Hs He].
  pose proof (find_spec a _ Ha Hv Hs) as H. unfold add_peer.
  destruct (find a (internal_vector l)) as [i found]. cbn [snd] in Hf. subst found.
  destruct (bool_decide_reflect (key k a ∈ S)) as [Hin|Hin].
  - cbn [fst snd]. split; [symmetry; apply bool_decide_false; tauto|]. split; [|done].
    assert (E : {[key k a]} ∪ S = S) by set_solver. rewrite E. by split.
  - destruct H as (pre & post & E & Hl & Hpre & Hpost). destruct (Hi a) as (f & st & Hf & Hfa). rewrite Hf, Hfa. cbn [fst snd].
    split; [symmetry; by apply bool_decide_true|]. split; [|exact Hf]. cbn [internal_vector set field_setter].
    rewrite E in *. subst i. rewrite take_app_length, drop_app_length. unfold all_kind in Hv. apply Forall_app in Hv as [Hv1 Hv2].
    rewrite map_app in Hs, He. apply StronglySorted_app in Hs as (Hx & Hs1 & Hs2). rewrite Forall_forall in Hpre. split.
    + apply Forall_app. split; [done|]. by constructor.
    + rewrite map_app. cbn [map fst]. apply StronglySorted_app. split; [|split; [done|by constructor]].
      intros x1 x2 H1 [->|H2]%elem_of_cons; [by apply Hpre|by apply Hx].
    + intros x. rewrite map_app. cbn [map fst]. rewrite elem_of_app, elem_of_cons, elem_of_union, elem_of_singleton, <- He, elem_of_app.
      tauto.
Qed.

Lemma remove_shows a l S : of_kind k a -> shows_set (internal_vector l) S ->
  (remove_peer a l).1 = bool_decide (key k a ∈ S) /\
  shows_set (internal_vector (remove_peer a l).2) (S ∖ {[key k a]}) /\ peer_init (remove_peer a l).2 = peer_init l.
Proof.
  intros Ha Hsh. pose proof (find_found a _ S Ha Hsh) as Hf. destruct Hsh as [Hv Hs He].
  pose proof (find_spec a _ Ha Hv Hs) as H. unfold remove_peer.
  destruct (find a (internal_vector l)) as [i found]. cbn [snd] in Hf. subst found.
  destruct (bool_decide_reflect (key k a ∈ S)) as [Hin|Hin]; cbn [fst snd]; (split; [done|]); (split; [|done]).
  - destruct H as (pre & post & E & Hl & Hpre & (p & post' & -> & Hp)). cbn [internal_vector set field_setter].
    rewrite E in *. subst i. rewrite take_app_length, drop_app_ge by lia. replace (_ - _)%nat with 1%nat by lia.
    cbn [drop]. unfold all_kind in Hv. apply Forall_app in Hv as [Hv1 Hv2]. apply Forall_cons in Hv2 as [Hv2 Hv3].
    rewrite map_app in Hs, He. cbn [map] in Hs, He. rewrite Hp in Hs, He.
    apply StronglySorted_app in Hs as (Hx & Hs1 & Hs2). apply StronglySorted_inv in Hs2 as [Hs2 Hpost].
    rewrite Forall_forall in Hpre, Hpost. split.
    + by apply Forall_app.
    + rewrite map_app. apply StronglySorted_app. split; [|done]. intros x1 x2 H1 H2. apply Hx; [done|by right].
    + intros x. rewrite map_app, elem_of_app, elem_of_difference, elem_of_singleton, <- He, elem_of_app, elem_of_cons.
      split; [|tauto]. intros Hor. split; [tauto|]. intros ->.
      destruct Hor as [Hy|Hy]; [by apply (before_irrefl a Ha), Hpre|by apply (before_irrefl a Ha), Hpost].
  - assert (E : S ∖ {[key k a]} = S) by set_solver. rewrite E. by split.
Qed.

(** Operations of the list, and of a set. *)
Inductive PeerOp := Add (a : PeerAddr) | Remove (a : PeerAddr).
Definition op_addr (o : PeerOp) : PeerAddr := match o with Add a | Remove a => a end.
Definition peer_op (o : PeerOp) (l : PeerList) : bool * PeerList :=
  match o with Add a => add_peer a l | Remove a => remove_peer a l end.
Definition set_op (o : PeerOp) (S : gset (list Z)) : bool * gset (list Z) :=
  match o with
  | Add a => (bool_decide (key k a ∉ S), {[key k a]} ∪ S)
  | Remove a => (bool_decide (key k a ∈ S), S ∖ {[key k a]})
  end.
Fixpoint run_ops {T} (f : PeerOp -> T -> bool * T) (os : list PeerOp) (s : T) : list bool * T :=
  match os with
  | [] => ([], s)
  | o :: os' => let '(b, s) := f o s in let '(bs, s) := run_ops f os' s in (b :: bs, s)
  end.

Lemma run_shows os : forall l S, Forall (fun o => of_kind k (op_addr o)) os -> shows_set (internal_vector l) S ->
  (forall b, exists f st, peer_init l = Some f /\ f b = Some st) ->
  (run_ops peer_op os l).1 = (run_ops set_op os S).1 /\
  shows_set (internal_vector (run_ops peer_op os l).2) (run_ops set_op os S).2.
Proof.
  induction os as [|o os IH]; intros l S Hk' Hs Hi; [done|]. apply Forall_cons in Hk' as [Ho Hos]. cbn [run_ops].
  assert (H : (peer_op o l).1 = (set_op o S).1 /\ shows_set (internal_vector (peer_op o l).2) (set_op o S).2 /\
              peer_init (peer_op o l).2 = peer_init l).
  { destruct o as [a|a]; cbn [peer_op set_op fst snd op_addr] in *; [by apply add_shows|by apply remove_shows]. }
  destruct (peer_op o l) as [b l'], (set_op o S) as [b' S']. cbn [fst snd] in H. destruct H as (-> & Hs' & Hi').
  assert (Hi2 : forall b, exists f st, peer_init l' = Some f /\ f b = Some st) by (intros x; rewrite Hi'; apply Hi).
  destruct (IH l' S' Hos Hs' Hi2) as [H1 H2].
  destruct (run_ops peer_op os l'), (run_ops set_op os S'). cbn [fst snd] in *. split; [by f_equal|done].
Qed.
End Kind.


(** ** What the clients read *)

(** The members of the structure of the Linux interface that the pipe shows. *)
Definition project (d : gPtpTimeData) : Offset :=
  mkOffset (ml_phoffset d) (ml_freqoffset d) (ls_phoffset d) (ls_freqoffset d) (LinuxIpc.local_time d)
    (gptp_grandmaster_id d) (gptp_domain_number d) (td_clock_identity d) (td_priority1 d) (clock_class d)
    (offset_scaled_log_variance d) (clock_accuracy d) (td_priority2 d) (td_domain_number d)
    (log_sync_interval d) (log_announce_interval d) (log_pdelay_interval d) (port_number d).
Definition data_new : gPtpTimeData :=
  zero_data <| td_priority1 := 0xFF |> <| clock_class := 0xFF |> <| clock_accuracy := 0xFF |> <| td_priority2 := 0xFF |>.
Definition is_ipc (e : Effect) : bool :=
  match e with EIpcUpdate _ _ _ _ _ _ _ _ _ | EIpcGrandmaster _ _ | EIpcInterface _ _ _ _ _ _ _ _ _ => true | _ => false end.
Fixpoint effects_of (es : list IpcEvent) : list Effect :=
  match es with [] => [] | Update e :: es' => e :: effects_of es' | _ :: es' => effects_of es' end.
(** What the daemon has shown after the events, zeros before anything. *)
Definition shown (garbage : bool) (es : list IpcEvent) : Offset :=
  if garbage || existsb is_ipc (effects_of es)
  then project (fold_left (fun d e => show 0 e d) (effects_of es) data_new) else Offset_zero.

Lemma pipe_effect_project e d r :
  pipe_effect e (mkLockable (project d) r) = mkLockable (project (show 0 e d)) (r || is_ipc e).
Proof. destruct e; cbn; by rewrite ?orb_true_r, ?orb_false_r. Qed.

Lemma turn_offsets t l : offsets (turn t l) = offsets l.
Proof.
  unfold turn, wait_connect, wait_read, handle_message, reply, leave, close_pipe, goto_state.
  repeat case_match; reflexivity.
Qed.

(** No pipe is lost, and a listener that has ended has closed its own. *)
Record pipes_ok (l : Listener) : Prop := {
  po_count : created l = (closed l + if pipe_open l then 1 else 0)%nat;
  po_ended : ended l = true -> pipe_open l = false;
  po_state : ended l = false -> pipe_state l <> PIPE_CLOSED -> pipe_open l = true;
}.
Definition current (l : Listener) : Offset := if ready (offsets l) then lo_offset (offsets l) else Offset_zero.

Lemma leave_ok l : created l = (closed l + if pipe_open l then 1 else 0)%nat -> pipes_ok (leave l).
Proof. intros H. unfold leave, close_pipe. destruct (pipe_open l) eqn:E; split; cbn; try done; rewrite ?E; lia. Qed.
Lemma leave_replies l : replies (leave l) = replies l.
Proof. unfold leave, close_pipe. by destruct (pipe_open l). Qed.

(** A turn that does not end the listener keeps its pipe, and it answers at most
    once, with what is shown. *)
Lemma turn_ok t l : pipes_ok l -> ended l = false ->
  pipes_ok (turn t l) /\ (replies (turn t l) = replies l \/ replies (turn t l) = replies l ++ [current l]).
Proof.
  intros Hok Hn. pose proof Hok as [Hc He Hs]. unfold turn.
  assert (Hgo : forall s, pipe_state l <> PIPE_CLOSED -> pipes_ok (goto_state s l)).
  { intros s Hne. split; cbn; try done. intros _ _. by apply Hs. }
  assert (Hl : forall s, pipes_ok (leave (goto_state s l)) /\ replies (leave (goto_state s l)) = replies l).
  { intros s. split; [by apply leave_ok|]. by rewrite leave_replies. }
  assert (Hl0 : pipes_ok (leave l) /\ replies (leave l) = replies l) by (split; [by apply leave_ok|apply leave_replies]).
  assert (Hr : forall s, pipe_state l <> PIPE_CLOSED -> pipes_ok (wait_read t (goto_state s l)) /\
    (replies (wait_read t (goto_state s l)) = replies l \/ replies (wait_read t (goto_state s l)) = replies l ++ [current l])).
  { intros s Hne. unfold wait_read, handle_message.
    assert (Hk : forall l', pipe_open l' = pipe_open l -> created l' = created l -> closed l' = closed l ->
      ended l' = ended l -> pipes_ok (goto_state PIPE_CONNECT l')).
    { intros l' E1 E2 E3 E4. split; cbn; rewrite ?E1, ?E2, ?E3, ?E4; try done. intros _ _. by apply Hs. }
    destruct (tn_wait t); [|split; [by apply Hgo|by left]|destruct (Hl s); split; [done|by left]].
    destruct (tn_complete t); [|split; [by apply (Hgo PIPE_CLOSED)|by left]|destruct (Hl s); split; [done|by left]].
    destruct (tn_msg t) as [c a| |]; [|destruct (tn_rest t)|]; try (destruct (Hl s); split; [done|by left]).
    - destruct (tn_rest t); [|destruct (Hl s); split; [done|by left]]. destruct c; cbn [negb];
        [| |destruct (Hl s); split; [done|by left]]; (split; [apply Hk; destruct (peers_ready _); reflexivity|left; destruct (peers_ready _); reflexivity]).
    - cbn [negb]. split; [by apply Hk|by right]. }
  assert (Hclosed : pipe_state l = PIPE_CLOSED \/ pipe_state l <> PIPE_CLOSED) by (destruct (pipe_state l); first [by left|by right]).
  destruct Hclosed as [Hp|Hne].
  { rewrite Hp. unfold close_pipe. destruct (pipe_open l) eqn:Ho, (tn_create t); (split; [|left]);
      unfold leave, close_pipe; cbn; rewrite ?Ho; try done; split; cbn; rewrite ?Ho; try done; try lia; congruence. }
  specialize (fun s => Hgo s Hne) as Hgo'. specialize (fun s => Hr s Hne) as Hr'. clear Hgo Hr.
  assert (Hsame : goto_state (pipe_state l) l = l) by (by destruct l).
  destruct (pipe_state l) eqn:Hp; [done| | | |].
  - destruct (tn_reset t); cbn [negb]; [|split; [tauto|left; tauto]].
    destruct (tn_connect t); try (split; [apply Hgo'|by left]); [|split; [tauto|left; tauto]].
    unfold wait_connect. destruct (tn_wait t);
      [split; [exact (Hgo' PIPE_CONNECT)|by left]|split; [apply Hgo'|by left]|].
    destruct (Hl PIPE_CONNECT_PENDING); split; [done|by left].
  - unfold wait_connect. destruct (tn_wait t);
      [split; [apply Hgo'|by left]|split; [exact Hok|by left]|split; [tauto|left; tauto]].
  - destruct (tn_reset t); cbn [negb]; [|split; [tauto|left; tauto]].
    destruct (tn_read t); [apply Hr'|split; [apply Hgo'|by left]|split; [tauto|left; tauto]].
  - specialize (Hr' PIPE_READ_PENDING). by rewrite Hsame in Hr'.
Qed.

Lemma event_ok l e : pipes_ok l -> pipes_ok (ipc_event l e).
Proof.
  intros Hok. destruct e as [e|t|]; cbn [ipc_event].
  - destruct Hok. by split.
  - destruct (ended l) eqn:He; [done|]. by apply turn_ok.
  - destruct (ended l); [done|]. apply leave_ok, Hok.
Qed.

(** A run keeps the pipes, and what is shown. *)
Lemma run_ok es g g' : let l := listener_run es (listener_new g g') in
  pipes_ok l /\ offsets l = mkLockable (project (fold_left (fun d e => show 0 e d) (effects_of es) data_new))
                              (g || existsb is_ipc (effects_of es)).
Proof.
  unfold listener_run. cbv zeta.
  assert (H : forall es l d r, pipes_ok l -> offsets l = mkLockable (project d) r ->
    pipes_ok (foldl ipc_event l es) /\
    offsets (foldl ipc_event l es) =
      mkLockable (project (fold_left (fun d e => show 0 e d) (effects_of es) d)) (r || existsb is_ipc (effects_of es))).
  { clear. induction es as [|e es IH]; intros l d r Hok Hd; [by rewrite orb_false_r|]. cbn [foldl].
    destruct e as [e|t|]; cbn [effects_of fold_left existsb].
    - rewrite orb_assoc. apply IH; [by apply event_ok|]. cbn [ipc_event offsets set field_setter]. rewrite Hd.
      apply pipe_effect_project.
    - apply IH; [by apply event_ok|]. cbn [ipc_event]. destruct (ended l); [done|]. by rewrite turn_offsets.
    - apply IH; [by apply event_ok|]. cbn [ipc_event]. destruct (ended l); [done|].
      unfold leave, close_pipe. by destruct (pipe_open l). }
  apply H; [by split|]. done.
Qed.

Lemma current_shown es g g' : current (listener_run es (listener_new g g')) = shown g es.
Proof. destruct (run_ok es g g') as [_ H]. unfold current. rewrite H. done. Qed.

Lemma run_snoc es e l : listener_run (es ++ [e]) l = ipc_event (listener_run es l) e.
Proof. unfold listener_run. by rewrite foldl_app. Qed.
Lemma effects_snoc es t : effects_of (es ++ [TurnOf t]) = effects_of es.
Proof. induction es as [|[e|t'|] es IH]; cbn; by rewrite ?IH. Qed.

(** A client that connects and asks, and a system that refuses nothing. *)
Definition friendly (t : Turn) : Prop :=
  tn_create t = true /\ tn_reset t = true /\ tn_connect t = ConnectDone /\ tn_wait t = WaitObject /\
  tn_read t = ReadDone /\ tn_complete t = ReadDone /\ tn_msg t = OffsetMsg /\ tn_rest t = true.

Lemma friendly_turn t l : friendly t -> ended l = false ->
  ended (turn t l) = false /\
  match pipe_state l with
  | PIPE_CLOSED => pipe_state (turn t l) = PIPE_UNCONNECT /\ replies (turn t l) = replies l
  | PIPE_UNCONNECT | PIPE_CONNECT_PENDING => pipe_state (turn t l) = PIPE_CONNECT /\ replies (turn t l) = replies l
  | _ => pipe_state (turn t l) = PIPE_CONNECT /\ replies (turn t l) = replies l ++ [current l]
  end.
Proof.
  intros (H1 & H2 & H3 & H4 & H5 & H6 & H7 & H8) He.
  unfold turn, wait_connect, wait_read, handle_message. rewrite H1, H2, H3, H4, H5, H6, H7, H8.
  destruct (pipe_state l); cbn [negb]; try (split; [exact He|split; reflexivity]).
  unfold close_pipe. destruct (pipe_open l); (split; [exact He|split; reflexivity]).
Qed.

(** C22: the listener and its clients.  In every run of the daemon and the
    listener: each pipe that was made is the open one or was closed, once, and none
    is open when the thread has ended; a turn answers at most once, with the
    members that the shared memory of the Linux build shows after the same effects
    of the daemon, or with zeros before the first; within three turns a client that
    asks is answered, whatever a client before it left the pipe in; and when the
    thread has ended, as after a message of an unknown type, nobody is answered any
    more. *)
Theorem listener_serves es g g' : let l := listener_run es (listener_new g g') in
  (created l = (closed l + if pipe_open l then 1 else 0)%nat /\ (ended l = true -> created l = closed l)) /\
  (forall t, replies (ipc_event l (TurnOf t)) = replies l \/
     replies (ipc_event l (TurnOf t)) = replies l ++ [shown g es]) /\
  (forall t1 t2 t3, friendly t1 -> friendly t2 -> friendly t3 -> ended l = false ->
     exists n, (0 < n)%nat /\
       replies (listener_run [TurnOf t1; TurnOf t2; TurnOf t3] l) = replies l ++ repeat (shown g es) n) /\
  (forall more, ended l = true -> replies (listener_run more l) = replies l) /\
  (forall t, tn_msg t = UnknownMsg -> tn_wait t = WaitObject -> tn_complete t = ReadDone ->
     pipe_state l = PIPE_READ_PENDING -> ended (ipc_event l (TurnOf t)) = true).
Proof.
  intros l. destruct (run_ok es g g') as [Hok _]. fold l in Hok. pose proof (current_shown es g g') as Hcur. fold l in Hcur.
  split; [|split; [|split; [|split]]].
  - destruct Hok as [Hc He _]. split; [done|]. intros E. rewrite (He E) in Hc. lia.
  - intros t. cbn [ipc_event]. destruct (ended l) eqn:He; [by left|].
    destruct (turn_ok t l Hok He) as [_ [H|H]]; [by left|right]. by rewrite H, Hcur.
  - intros t1 t2 t3 F1 F2 F3 He. unfold listener_run. cbn [foldl ipc_event]. rewrite He.
    destruct (friendly_turn t1 l F1 He) as [E1 R1]. rewrite E1.
    destruct (friendly_turn t2 _ F2 E1) as [E2 R2]. rewrite E2.
    destruct (friendly_turn t3 _ F3 E2) as [_ R3]. revert R1 R2 R3.
    assert (C : forall t m, current (turn t m) = current m) by (intros; unfold current; by rewrite turn_offsets).
    rewrite !C, Hcur. intros R1. destruct (pipe_state l); destruct R1 as [-> R1]; intros [-> R2] [_ R3]; rewrite R3, R2, R1;
      [exists 1%nat|exists 2%nat|exists 2%nat|exists 3%nat|exists 3%nat]; (split; [lia|]); by rewrite <- ?app_assoc.
  - intros more. unfold listener_run. revert Hok. generalize l. clear. induction more as [|e more IH]; intros l Hok He; [done|].
    cbn [foldl]. destruct e as [e|t|]; cbn [ipc_event]; rewrite ?He; [|by apply IH|by apply IH].
    exact (IH _ (event_ok l (Update e) Hok) He).
  - intros t H1 H2 H3 Hs. cbn [ipc_event]. destruct (ended l) eqn:He; [done|].
    unfold turn. rewrite Hs. unfold wait_read, handle_message. rewrite H2, H3, H1. done.
Qed.

(** ** Witnesses *)

Definition mac_peer (b : Z) : PeerAddr := mkPeerAddr MAC_ADDR [1; 2; 3; 4; 5; b].
Definition peers_empty : PeerList := mkPeerList [] (Some (fun _ => Some 0)) None true.
Lemma peers_empty_shows : shows_set MAC_ADDR (internal_vector peers_empty) ∅.
Proof. split; [constructor|constructor|]. intros x. cbn. set_solver. Qed.


(** A turn of a client that asks, one whose client has gone, and the events of a
    daemon with both. *)
Definition asking : Turn := mkTurn true true ConnectDone WaitObject ReadDone ReadDone OffsetMsg true.
Definition gone : Turn := mkTurn true true ConnectDone WaitObject ReadBroken ReadDone OffsetMsg true.
Definition ipc_events : list IpcEvent :=
  [TurnOf asking; TurnOf asking; TurnOf gone] ++ map Update ipc_measure ++ [TurnOf asking].

Lemma listener_serves_witness :
  let l := listener_run ipc_events (listener_new false true) in
  (created l = closed l + 1)%nat /\ closed l = 1%nat /\
  exists n, (0 < n)%nat /\
    replies (listener_run [TurnOf asking; TurnOf asking; TurnOf asking] l) = replies l ++ repeat (shown false ipc_events) n /\
    of_ml_phoffset (shown false ipc_events) = -5.
Proof.
  intros l. destruct (listener_serves ipc_events false true) as ((Hc & _) & _ & Hf & _).
  split; [exact Hc|]. split; [reflexivity|].
  assert (F : friendly asking) by (repeat split).
  destruct (Hf asking asking asking F F F eq_refl) as (n & Hn & Hr). exists n. split; [exact Hn|]. split; [exact Hr|].
  vm_compute. reflexivity.
Defined.
