(* ===== verification/WinThreads.v ===== *)
(** * Locks, work queues and timers of the Windows build

    [WindowsLock] and [WindowsTimerQueue] (windows/daemon_cl/windows_hal.hpp,
    with the handler of windows/daemon_cl/windows_hal_common.cpp) and
    [WindowsWorkQueue] (windows/daemon_cl/work_queue.cpp).  The mutex of the system
    is a thread and a count; what the system answers is an argument. *)

From Stdlib Require Import ZArith Lia.
From stdpp Require Import base gmap list.
From S2P Require Import Prelude World.

(** ** WindowsLock *)

Inductive OSLockType := oslock_recursive | oslock_nonrecursive.
Inductive OSLockResult := oslock_ok | oslock_self | oslock_held | oslock_fail.
#[export] Instance OSLockResult_eq_dec : EqDecision OSLockResult.
Proof. solve_decision. Defined.

(** The mutex: who has it, and how often it was taken. *)
Definition Mutex : Type := option (nat * nat).
(** [WaitForSingleObject]: it is granted to its owner and where it is free. *)
Definition mutex_wait (thread : nat) (m : Mutex) : option Mutex :=
  match m with
  | None => Some (Some (thread, 1%nat))
  | Some (owner, n) => if (owner =? thread)%nat then Some (Some (owner, S n)) else None
  end.
(** [ReleaseMutex]; it fails for the others. *)
Definition mutex_release (thread : nat) (m : Mutex) : Mutex :=
  match m with
  | Some (owner, S n) =>
      if (owner =? thread)%nat then match n with O => None | S _ => Some (owner, n) end else m
  | _ => m
  end.
Arguments mutex_release : simpl never.

(** [thread_id] is not set by the constructor. *)
Record WindowsLock := mkLock { lock_type : OSLockType; thread_id : nat; lock_c : Mutex }.
#[export] Instance eta_WindowsLock : Settable WindowsLock := fun l =>
  mkLock (lock_type l) (thread_id l) (lock_c l).
Definition lock_new (t : OSLockType) (garbage : nat) : WindowsLock := mkLock t garbage None.

(** [lock] and [trylock]: a lock that another thread has is waited for, or it is
    [oslock_held]; none is the wait. *)
Definition lock_l (thread : nat) (l : WindowsLock) : option (OSLockResult * WindowsLock) :=
  m ← mutex_wait thread (lock_c l); Some (oslock_ok, l <| lock_c := m |>).
Definition nonreentrant_lock_l (thread : nat) (l : WindowsLock) : option (OSLockResult * WindowsLock) :=
  m ← mutex_wait thread (lock_c l);
  if (thread_id l =? thread)%nat then Some (oslock_self, l <| lock_c := mutex_release thread m |>)
  else Some (oslock_ok, l <| lock_c := m |> <| thread_id := thread |>).
Definition win_lock (thread : nat) (l : WindowsLock) : option (OSLockResult * WindowsLock) :=
  match lock_type l with
  | oslock_recursive => lock_l thread l
  | oslock_nonrecursive => nonreentrant_lock_l thread l
  end.
Definition win_trylock (thread : nat) (l : WindowsLock) : OSLockResult * WindowsLock :=
  default (oslock_held, l) (win_lock thread l).
Definition win_unlock (thread : nat) (l : WindowsLock) : OSLockResult * WindowsLock :=
  (oslock_ok, l <| lock_c := mutex_release thread (lock_c l) |>).

(** Threads that only release what they were granted: how often each has the
    lock. *)
Inductive LockStep := LockBy (thread : nat) | TryLockBy (thread : nat) | UnlockBy (thread : nat).
Definition holds (h : nat -> nat) (thread n : nat) : nat -> nat :=
  fun t => if (t =? thread)%nat then n else h t.
Definition granted (thread : nat) (r : OSLockResult * WindowsLock) (h : nat -> nat) : WindowsLock * (nat -> nat) :=
  (r.2, if decide (r.1 = oslock_ok) then holds h thread (S (h thread)) else h).
Definition lock_step (i : LockStep) (s : WindowsLock * (nat -> nat)) : option (WindowsLock * (nat -> nat)) :=
  let '(l, h) := s in
  match i with
  | LockBy t => r ← win_lock t l; Some (granted t r h)
  | TryLockBy t => Some (granted t (win_trylock t l) h)
  | UnlockBy t =>
      match h t with
      | O => None
      | S n => Some ((win_unlock t l).2, holds h t n)
      end
  end.
Fixpoint lock_run (steps : list LockStep) (s : WindowsLock * (nat -> nat)) : option (WindowsLock * (nat -> nat)) :=
  match steps with [] => Some s | i :: steps' => s ← lock_step i s; lock_run steps' s end.

(** ** WindowsWorkQueue *)

Definition DEFAULT_THREAD_COUNT : nat := 5.
(** A worker: its task, and whether it is running it. *)
Record Worker (J : Type) := mkWorker { task : option J; busy : bool; wk_stop : bool }.
Arguments mkWorker {J}. Arguments task {J}. Arguments busy {J}. Arguments wk_stop {J}.

Section WorkQueue.
Context {J : Type}.
Definition queue_init (number_threads : nat) : list (Worker J) :=
  repeat (mkWorker None false false) (if (number_threads =? 0)%nat then DEFAULT_THREAD_COUNT else number_threads).
(** [submit]: the first worker without a task. *)
Definition submit (j : J) (q : list (Worker J)) : bool * list (Worker J) :=
  match list_find (fun w => task w = None) q with
  | Some (i, w) => (true, <[i := mkWorker (Some j) (busy w) (wk_stop w)]> q)
  | None => (false, q)
  end.
(** A turn of [WindowsWorkQueueLoop], in two steps: the task is run, and the place
    is free after it. *)
Definition work_begin (i : nat) (q : list (Worker J)) : option (J * list (Worker J)) :=
  w ← q !! i;
  match task w with
  | Some j => if busy w || wk_stop w then None else Some (j, <[i := mkWorker (Some j) true (wk_stop w)]> q)
  | None => None
  end.
Definition work_end (i : nat) (q : list (Worker J)) : option (list (Worker J)) :=
  w ← q !! i; if busy w then Some (<[i := mkWorker None false (wk_stop w)]> q) else None.
End WorkQueue.

(** ** WindowsTimerQueue *)

(** [WindowsTimerQueueHandlerArg], with the event descriptor it points to; its own
    address is that of the timer. *)
Record HandlerArg := mkArg { wa_type : Z; inner_arg : nat; wa_rm : bool }.

(** The queues by their types, newest first; the arguments and the descriptors in
    memory; the timers of the system; the retired timers. *)
Record TimerQueue := mkTq {
  timerQueueMap : gmap Z (list nat);
  tq_args : gmap nat HandlerArg;
  tq_descriptors : gset nat;
  tq_timers : gset nat;
  retiredTimers : list nat;
}.
#[export] Instance eta_TimerQueue : Settable TimerQueue := fun q =>
  mkTq (timerQueueMap q) (tq_args q) (tq_descriptors q) (tq_timers q) (retiredTimers q).
Definition tq_new : TimerQueue := mkTq ∅ ∅ ∅ ∅ [].

(** The timer is deleted, the descriptor where it is to be, and the argument; none
    where one of them is not there. *)
Definition delete_arg (a : nat) (q : TimerQueue) : option TimerQueue :=
  arg ← tq_args q !! a;
  let q := q <| tq_timers := tq_timers q ∖ {[a]} |> in
  q ← (if wa_rm arg
       then if decide (inner_arg arg ∈ tq_descriptors q)
            then Some (q <| tq_descriptors := tq_descriptors q ∖ {[inner_arg arg]} |>) else None
       else Some q);
  Some (q <| tq_args := base.delete a (tq_args q) |>).
Fixpoint delete_args (l : list nat) (q : TimerQueue) : option TimerQueue :=
  match l with [] => Some q | a :: l' => q ← delete_arg a q; delete_args l' q end.

Definition cleanupRetiredTimers (q : TimerQueue) : option TimerQueue :=
  q ← delete_args (retiredTimers q) q; Some (q <| retiredTimers := [] |>).

(** [addEvent]: [a] is the new argument; [armed] is whether the system creates the
    timer, which is not asked. *)
Definition tq_addEvent (a : nat) (armed : bool) (ty : Z) (descriptor : nat) (rm : bool) (q : TimerQueue)
    : option TimerQueue :=
  q ← cleanupRetiredTimers q;
  Some (q <| tq_args := <[a := mkArg ty descriptor rm]> (tq_args q) |>
          <| tq_timers := if armed then tq_timers q ∪ {[a]} else tq_timers q |>
          <| timerQueueMap := <[ty := a :: default [] (timerQueueMap q !! ty)]> (timerQueueMap q) |>).

(** [cancelEvent]: all the timers of the type. *)
Definition tq_cancelEvent (ty : Z) (q : TimerQueue) : option (bool * TimerQueue) :=
  match timerQueueMap q !! ty with
  | None => Some (false, q)
  | Some l =>
      q ← delete_args l q;
      Some (true, q <| timerQueueMap := <[ty := []]> (timerQueueMap q) |>)
  end.

(** [WindowsTimerQueueHandler], which the system calls for a timer that expires:
    its body is empty, and the events that it would pass on are none. *)
Definition WindowsTimerQueueHandler (a : nat) (q : TimerQueue) : list (nat * Z) * TimerQueue := ([], q).
(** [OSThreadCallback] *)
Definition OSThreadCallback {S} (function : S -> S) (s : S) : S := s.

(** ** The lock *)

(** The mutex is that of the thread that has the lock, as often as it has it; a
    lock that is not recursive remembers that thread. *)
Record lock_ok (l : WindowsLock) (h : nat -> nat) : Prop := {
  lk_mutex : match lock_c l with
             | None => forall t, h t = 0%nat
             | Some (owner, n) => (0 < n)%nat /\ h owner = n /\ forall t, t <> owner -> h t = 0%nat
             end;
  lk_thread : lock_type l = oslock_nonrecursive ->
              match lock_c l with Some (owner, _) => thread_id l = owner | None => True end;
}.

Lemma holds_same h t n : holds h t n t = n.
Proof. unfold holds. by rewrite Nat.eqb_refl. Qed.
Lemma holds_other h t n t' : t' <> t -> holds h t n t' = h t'.
Proof. intros H. unfold holds. by rewrite (proj2 (Nat.eqb_neq _ _) H). Qed.

(** A lock that nobody else has is granted by its mutex. *)
Lemma mutex_wait_ok l h t : lock_ok l h -> (forall t', t' <> t -> h t' = 0%nat) ->
  mutex_wait t (lock_c l) = Some (Some (t, S (h t))).
Proof.
  intros [Hm _] Ho. destruct (lock_c l) as [[owner n]|]; cbn; [|by rewrite Hm].
  destruct Hm as (Hn & Hh & _). destruct (Nat.eqb_spec owner t) as [<-|Hne]; [by rewrite Hh|].
  specialize (Ho owner Hne). lia.
Qed.
Lemma mutex_wait_some l h t m : lock_ok l h -> mutex_wait t (lock_c l) = Some m ->
  m = Some (t, S (h t)) /\ forall t', t' <> t -> h t' = 0%nat.
Proof.
  intros [Hm _]. destruct (lock_c l) as [[owner n]|]; cbn.
  - destruct Hm as (Hn & Hh & Ho). destruct (Nat.eqb_spec owner t) as [<-|Hne]; [|done]. injection 1 as <-. by rewrite Hh.
  - injection 1 as <-. by rewrite Hm.
Qed.
Lemma mutex_back l h t : lock_ok l h -> (forall t', t' <> t -> h t' = 0%nat) ->
  mutex_release t (Some (t, S (h t))) = lock_c l.
Proof.
  intros [Hm _] Ho. unfold mutex_release. rewrite Nat.eqb_refl.
  destruct (lock_c l) as [[owner n]|]; [|by rewrite Hm].
  destruct Hm as (Hn & Hh & _). destruct (Nat.eq_dec owner t) as [->|Hne]; [rewrite Hh; by destruct n; [lia|]|].
  specialize (Ho owner Hne). lia.
Qed.

Lemma granted_ok l h t r : lock_ok l h -> win_lock t l = Some r ->
  lock_ok (granted t r h).1 (granted t r h).2 /\ lock_type (granted t r h).1 = lock_type l.
Proof.
  intros Hok. pose proof Hok as [Hm Ht]. unfold win_lock, lock_l, nonreentrant_lock_l.
  destruct (mutex_wait t (lock_c l)) as [m|] eqn:E; [|by destruct (lock_type l)].
  destruct (mutex_wait_some l h t m Hok E) as [-> Ho]. cbn [mbind option_bind].
  assert (Hnew : forall l', lock_c l' = Some (t, S (h t)) -> (lock_type l' = oslock_nonrecursive -> thread_id l' = t) ->
    lock_ok l' (holds h t (S (h t)))).
  { intros l' E1 E2. split; rewrite E1; [|done]. split; [lia|]. split; [apply holds_same|].
    intros t' Hne. rewrite holds_other by done. by apply Ho. }
  destruct (lock_type l) eqn:Hty.
  - injection 1 as <-. split; [|done]. unfold granted. cbn [fst snd]. rewrite decide_True by done.
    apply Hnew; [done|]. cbn. congruence.
  - destruct (Nat.eqb_spec (thread_id l) t) as [Heq|Hne].
    + injection 1 as <-. split; [|done]. unfold granted. cbn [fst snd]. rewrite decide_False by done.
      rewrite (mutex_back l h t Hok Ho). by destruct l.
    + injection 1 as <-. split; [|done]. unfold granted. cbn [fst snd]. rewrite decide_True by done. by apply Hnew.
Qed.

Lemma unlock_ok l h t n : lock_ok l h -> h t = S n ->
  lock_ok (win_unlock t l).2 (holds h t n).
Proof.
  intros [Hm Ht] Hh. unfold win_unlock. cbn [snd].
  destruct (lock_c l) as [[owner k]|] eqn:E; [|by rewrite Hm in Hh]. destruct Hm as (Hk & Hho & Ho).
  destruct (Nat.eq_dec t owner) as [->|Hne]; [|by rewrite Ho in Hh].
  rewrite Hho in Hh. rewrite Hh in *. clear Hk. unfold mutex_release. rewrite Nat.eqb_refl.
  destruct n as [|n]; split; cbn [lock_c thread_id set field_setter lock_type]; try done.
  - intros t. destruct (Nat.eq_dec t owner) as [->|Hne]; [apply holds_same|]. rewrite holds_other by done. by apply Ho.
  - split; [lia|]. split; [apply holds_same|]. intros t Hne. rewrite holds_other by done. by apply Ho.
Qed.

Lemma lock_run_ok steps : forall l h l' h', lock_run steps (l, h) = Some (l', h') -> lock_ok l h ->
  lock_ok l' h' /\ lock_type l' = lock_type l.
Proof.
  induction steps as [|i steps IH]; intros l h l' h' Hr Hok; cbn [lock_run] in Hr; [by injection Hr as <- <-|].
  destruct (lock_step i (l, h)) as [[l1 h1]|] eqn:E; [|done]. cbn [mbind option_bind] in Hr.
  assert (H1 : lock_ok l1 h1 /\ lock_type l1 = lock_type l).
  { destruct i as [t|t|t]; cbn [lock_step] in E.
    - destruct (win_lock t l) as [r|] eqn:Ew; [|done]. cbn [mbind option_bind] in E.
      assert (E1 : granted t r h = (l1, h1)) by congruence. pose proof (granted_ok l h t r Hok Ew) as H. by rewrite E1 in H.
    - assert (E1 : granted t (win_trylock t l) h = (l1, h1)) by congruence. revert E1. unfold win_trylock.
      destruct (win_lock t l) as [r|] eqn:Ew; cbn [default]; intros E1.
      + change (granted t r h = (l1, h1)) in E1. pose proof (granted_ok l h t r Hok Ew) as H. by rewrite E1 in H.
      + cbn in E1. injection E1 as <- <-. done.
    - destruct (h t) as [|n] eqn:Eh; [done|]. injection E as <- <-. split; [by apply unlock_ok|done]. }
  destruct H1 as [H1 Hty]. destruct (IH _ _ _ _ Hr H1) as [H2 H3]. split; [done|]. congruence.
Qed.

(** The locks of the Windows build, in every run of threads that give back
    what they were granted.  At most one thread has the lock.  A recursive lock,
    the only kind that the daemon makes, is granted to every thread that is the
    only one to have it, as often as it asks, and is free when it was given back as
    often; the others wait, or are told that it is held.  A lock that is not
    recursive remembers its thread after it was given back: when it is free, the
    thread that had it last is refused, as if it still had it. *)
Theorem windows_lock_spec ty garbage steps l h :
  lock_run steps (lock_new ty garbage, fun _ => 0%nat) = Some (l, h) ->
  (forall t t', (0 < h t)%nat -> (0 < h t')%nat -> t = t') /\
  (forall t, (forall t', t' <> t -> h t' = 0%nat) -> ty = oslock_recursive ->
     exists l', win_lock t l = Some (oslock_ok, l') /\ win_trylock t l = (oslock_ok, l')) /\
  (forall t t', t <> t' -> (0 < h t)%nat -> win_lock t' l = None /\ win_trylock t' l = (oslock_held, l)) /\
  ((forall t, h t = 0%nat) -> lock_c l = None) /\
  (ty = oslock_nonrecursive -> (forall t, h t = 0%nat) ->
     win_lock (thread_id l) l = Some (oslock_self, l) /\
     forall t, t <> thread_id l -> exists l', win_lock t l = Some (oslock_ok, l') /\ thread_id l' = t).
Proof.
  intros Hr. assert (H0 : lock_ok (lock_new ty garbage) (fun _ => 0%nat)) by (split; [intros t|]; done).
  destruct (lock_run_ok _ _ _ _ _ Hr H0) as [Hok Hty]. cbn [lock_type lock_new] in Hty.
  pose proof Hok as [Hm Ht]. split; [|split; [|split; [|split]]].
  - intros t t' H1 H2. destruct (lock_c l) as [[owner n]|]; [|rewrite Hm in H1; lia]. destruct Hm as (_ & _ & Ho).
    destruct (Nat.eq_dec t owner) as [->|Hne]; [|rewrite Ho in H1 by done; lia].
    destruct (Nat.eq_dec t' owner) as [->|Hne]; [done|rewrite Ho in H2 by done; lia].
  - intros t Ho Hrec. unfold win_trylock, win_lock. rewrite Hty, Hrec. unfold lock_l.
    rewrite (mutex_wait_ok l h t Hok Ho). cbn. eexists. split; reflexivity.
  - intros t t' Hne Hp.
    assert (E : mutex_wait t' (lock_c l) = None).
    { destruct (mutex_wait t' (lock_c l)) as [m|] eqn:E; [|done].
      destruct (mutex_wait_some l h t' m Hok E) as [_ Ho]. specialize (Ho t Hne). lia. }
    assert (E' : win_lock t' l = None) by (unfold win_lock, lock_l, nonreentrant_lock_l; rewrite E; by destruct (lock_type l)).
    unfold win_trylock. by rewrite E'.
  - intros Hz. destruct (lock_c l) as [[owner n]|]; [|done]. destruct Hm as (Hn & Hh & _). rewrite Hz in Hh. lia.
  - intros Hn Hz. unfold win_lock. rewrite Hty, Hn. unfold nonreentrant_lock_l. split.
    + rewrite (mutex_wait_ok l h _ Hok) by done. cbn [mbind option_bind]. rewrite Nat.eqb_refl.
      rewrite (mutex_back l h _ Hok) by done. by destruct l.
    + intros t Hne. rewrite (mutex_wait_ok l h _ Hok) by done. cbn [mbind option_bind].
      rewrite (proj2 (Nat.eqb_neq _ _)) by congruence. eexists. split; reflexivity.
Qed.

(** ** The timers

    The timers of the daemon that were added and not cancelled, newest first: the
    type, the argument and the descriptor of each. *)
Abbreviation Added := (list (Z * nat * nat)).
Definition ad_type (x : Z * nat * nat) : Z := x.1.1.
Definition ad_arg (x : Z * nat * nat) : nat := x.1.2.
Definition ad_descriptor (x : Z * nat * nat) : nat := x.2.
Definition of_type (ty : Z) (l : Added) : Added := filter (fun x => ad_type x = ty) l.
Definition other_types (ty : Z) (l : Added) : Added := filter (fun x => ad_type x <> ty) l.

(** The clock adds a timer with a new descriptor, which is deleted with it
    ([IEEE1588Clock::addEventTimer]); it cancels the timers of a type; a timer
    expires. *)
Inductive TimerStep :=
  | AddTimer (a : nat) (armed : bool) (ty : Z) (descriptor : nat)
  | CancelTimer (ty : Z)
  | ExpireTimer (a : nat).
Definition timer_step (i : TimerStep) (q : TimerQueue) : option (list (nat * Z) * TimerQueue) :=
  match i with
  | AddTimer a armed ty d =>
      q ← tq_addEvent a armed ty d true (q <| tq_descriptors := {[d]} ∪ tq_descriptors q |>); Some ([], q)
  | CancelTimer ty => '(_, q) ← tq_cancelEvent ty q; Some ([], q)
  | ExpireTimer a => Some (WindowsTimerQueueHandler a q)
  end.
Definition added_step (i : TimerStep) (l : Added) : Added :=
  match i with
  | AddTimer a _ ty d => (ty, a, d) :: l
  | CancelTimer ty => other_types ty l
  | ExpireTimer _ => l
  end.
(** Allocation: an address that is in use is not given again. *)
Definition fresh_step (i : TimerStep) (l : Added) : Prop :=
  match i with AddTimer a _ _ d => (a ∉ map ad_arg l) /\ (d ∉ map ad_descriptor l) | _ => True end.

(** The memory and the timers of the system are those of what was added, and the
    queues have it in its order. *)
Record tq_mem (q : TimerQueue) (l : Added) : Prop := {
  tm_args : NoDup (map ad_arg l);
  tm_descriptors : NoDup (map ad_descriptor l);
  tm_memory a arg : tq_args q !! a = Some arg <->
    exists x, x ∈ l /\ ad_arg x = a /\ arg = mkArg (ad_type x) (ad_descriptor x) true;
  tm_live d : d ∈ tq_descriptors q <-> exists x, x ∈ l /\ ad_descriptor x = d;
  tm_timers a : a ∈ tq_timers q -> exists x, x ∈ l /\ ad_arg x = a;
}.
Record tq_shows (q : TimerQueue) (l : Added) : Prop := {
  ts_mem : tq_mem q l;
  ts_queue ty : default [] (timerQueueMap q !! ty) = map ad_arg (of_type ty l);
  ts_retired : retiredTimers q = [];
}.

Lemma NoDup_map_filter {A B} (f : A -> B) (P : A -> Prop) `{HP : !forall x, Decision (P x)} (l : list A) :
  NoDup (map f l) -> NoDup (map f (filter P l)).
Proof.
  intros Hl. apply (sublist_NoDup _ (map f l)); [done|]. change ((f <$> filter P l) `sublist_of` (f <$> l)).
  f_equiv. apply sublist_filter.
Qed.
Lemma filter_all {A} (P : A -> Prop) `{HP : !forall x, Decision (P x)} (l : list A) :
  (forall x, x ∈ l -> P x) -> filter P l = l.
Proof.
  induction l as [|x l IH]; intros H; [done|]. rewrite filter_cons_True by (apply H; left). f_equal.
  apply IH. intros y Hy. apply H. by right.
Qed.
Lemma filter_none {A} (P : A -> Prop) `{HP : !forall x, Decision (P x)} (l : list A) :
  (forall x, x ∈ l -> ~ P x) -> filter P l = [].
Proof.
  induction l as [|x l IH]; intros H; [done|]. rewrite filter_cons_False by (apply H; left).
  apply IH. intros y Hy. apply H. by right.
Qed.
Lemma map_inj {A B} (f : A -> B) (l : list A) x y : NoDup (map f l) -> x ∈ l -> y ∈ l -> f x = f y -> x = y.
Proof.
  induction l as [|z l IH]; intros Hd Hx Hy He; [by apply not_elem_of_nil in Hx|]. cbn [map] in Hd.
  apply NoDup_cons in Hd as [Hn Hd]. apply elem_of_cons in Hx as [->|Hx], Hy as [->|Hy]; [done| | |by apply IH];
    destruct Hn; [rewrite He|rewrite <- He]; apply list_elem_of_fmap; eauto.
Qed.

(** Deleting one argument, and then those of a list. *)
Lemma delete_arg_mem q l x : tq_mem q l -> x ∈ l -> exists q',
  delete_arg (ad_arg x) q = Some q' /\ tq_mem q' (filter (fun y => ad_arg y <> ad_arg x) l) /\
  timerQueueMap q' = timerQueueMap q /\ retiredTimers q' = retiredTimers q.
Proof.
  intros [Ha Hd Hm Hl Ht] Hx. unfold delete_arg.
  rewrite (proj2 (Hm (ad_arg x) (mkArg (ad_type x) (ad_descriptor x) true))) by (by exists x).
  cbn [mbind option_bind wa_rm inner_arg]. rewrite decide_True by (apply Hl; by exists x). cbn [mbind option_bind].
  eexists. split; [reflexivity|]. split; [|done].
  split; [by apply NoDup_map_filter|by apply NoDup_map_filter| | |]; cbn.
  - intros a arg. rewrite lookup_delete_Some, Hm. split.
    + intros [Hne (y & Hy & <- & ->)]. exists y. split; [|done]. apply list_elem_of_filter. by split.
    + intros (y & [Hne Hy]%list_elem_of_filter & <- & ->). split; [done|]. by exists y.
  - intros d. rewrite elem_of_difference, elem_of_singleton, Hl. split.
    + intros [(y & Hy & <-) Hne]. exists y. split; [|done]. apply list_elem_of_filter. split; [|done].
      intros He. apply Hne. by rewrite (map_inj ad_arg l y x Ha Hy Hx He).
    + intros (y & [Hne Hy]%list_elem_of_filter & <-). split; [by exists y|]. intros He. apply Hne.
      by rewrite (map_inj ad_descriptor l y x Hd Hy Hx He).
  - intros a [Hin Hne]%elem_of_difference. destruct (Ht a Hin) as (y & Hy & <-). exists y. split; [|done].
    apply list_elem_of_filter. split; [|done]. set_solver.
Qed.

Lemma delete_args_mem xs : forall q l, tq_mem q l -> (forall x, x ∈ xs -> x ∈ l) -> NoDup (map ad_arg xs) ->
  exists q', delete_args (map ad_arg xs) q = Some q' /\
    tq_mem q' (filter (fun y => ad_arg y ∉ map ad_arg xs) l) /\
    timerQueueMap q' = timerQueueMap q /\ retiredTimers q' = retiredTimers q.
Proof.
  induction xs as [|x xs IH]; intros q l Hq Hin Hd.
  { exists q. split; [done|]. split; [|done]. erewrite filter_all; [exact Hq|]. intros y _. apply not_elem_of_nil. }
  cbn [map] in Hd. apply NoDup_cons in Hd as [Hn Hd].
  destruct (delete_arg_mem q l x Hq (Hin x (list_elem_of_here _ _))) as (q1 & E1 & Hq1 & Em & Er).
  destruct (IH q1 _ Hq1) as (q2 & E2 & Hq2 & Em2 & Er2); [|done|].
  { intros y Hy. apply list_elem_of_filter. split; [|apply Hin; by right]. intros He. apply Hn. rewrite <- He.
    apply list_elem_of_fmap. by exists y. }
  exists q2. cbn [map delete_args]. rewrite E1. cbn [mbind option_bind]. split; [done|]. split; [|split; congruence].
  rewrite list_filter_filter in Hq2. erewrite list_filter_iff; [exact Hq2|]. intros y. cbn. rewrite not_elem_of_cons. tauto.
Qed.

Lemma of_type_sub ty l x : x ∈ of_type ty l -> x ∈ l.
Proof. by intros [_ H]%list_elem_of_filter. Qed.

(** What is left after the timers of a type is what is of the other types. *)
Lemma left_other ty l : NoDup (map ad_arg l) ->
  filter (fun y => ad_arg y ∉ map ad_arg (of_type ty l)) l = other_types ty l.
Proof.
  intros Hd. unfold other_types.
  assert (H : forall l' : Added, (forall x, x ∈ l' -> x ∈ l) ->
    filter (fun y => ad_arg y ∉ map ad_arg (of_type ty l)) l' = filter (fun x => ad_type x <> ty) l').
  { induction l' as [|x l' IH]; intros Hs; [done|].
    assert (Hiff : ad_arg x ∉ map ad_arg (of_type ty l) <-> ad_type x <> ty).
    { split.
      - intros Hn He. apply Hn, list_elem_of_fmap. exists x. split; [done|]. apply list_elem_of_filter.
        split; [done|]. apply Hs. by left.
      - intros Hne (y & He & Hy)%list_elem_of_fmap. apply list_elem_of_filter in Hy as [Hy Hyl].
        rewrite (map_inj ad_arg l x y Hd (Hs x (list_elem_of_here _ _)) Hyl He) in Hne. done. }
    rewrite !filter_cons. assert (Hs' : forall y, y ∈ l' -> y ∈ l) by (intros y Hy; apply Hs; by right).
    rewrite (IH Hs'). destruct (decide (ad_type x <> ty)) as [Hp|Hp].
    - by rewrite decide_True by tauto.
    - by rewrite decide_False by tauto. }
  by apply H.
Qed.

Lemma timer_step_shows i q l : tq_shows q l -> fresh_step i l -> exists q',
  timer_step i q = Some ([], q') /\ tq_shows q' (added_step i l).
Proof.
  intros [Hm Hq Hr] Hf. destruct i as [a armed ty d|ty|a]; cbn [timer_step added_step].
  - destruct Hf as [Hfa Hfd]. unfold tq_addEvent, cleanupRetiredTimers. cbn [retiredTimers set field_setter].
    rewrite Hr. cbn [delete_args mbind option_bind]. eexists. split; [reflexivity|]. destruct Hm as [Ha Hd Hm Hl Ht].
    split; [|intros ty'|done]; [cbn|cbn [timerQueueMap set field_setter]].
    + split; cbn [map]; [by constructor|by constructor|..]; cbn.
      * intros b arg. destruct (decide (a = b)) as [->|Hne].
        -- rewrite lookup_insert. rewrite decide_True by done. split.
           ++ injection 1 as <-. exists (ty, b, d). split; [by left|done].
           ++ intros (x & [->|Hx]%elem_of_cons & He & ->); [done|]. destruct Hfa. rewrite <- He.
              apply list_elem_of_fmap. by exists x.
        -- rewrite lookup_insert_ne by done. rewrite Hm. split.
           ++ intros (x & Hx & He). exists x. split; [by right|done].
           ++ intros (x & [->|Hx]%elem_of_cons & He & ->); [done|]. by exists x.
      * intros e. rewrite elem_of_union, elem_of_singleton, Hl. split.
        -- intros [->|(x & Hx & He)]; [exists (ty, a, d); split; [by left|done]|exists x; split; [by right|done]].
        -- intros (x & [->|Hx]%elem_of_cons & He); [by left|right; by exists x].
      * intros b Hb. assert (Hor : b = a \/ b ∈ tq_timers q) by (destruct armed; set_solver).
        destruct Hor as [->|Hb']; [exists (ty, a, d); split; [by left|done]|].
        destruct (Ht b Hb') as (x & Hx & He). exists x. split; [by right|done].
    + unfold of_type. rewrite filter_cons. change (ad_type (ty, a, d)) with ty.
      destruct (decide (ty = ty')) as [->|Hne].
      * rewrite lookup_insert, decide_True by done. cbn. f_equal. apply Hq.
      * rewrite lookup_insert_ne by done. apply Hq.
  - unfold tq_cancelEvent. pose proof (Hq ty) as Hty.
    destruct (timerQueueMap q !! ty) as [xs|] eqn:E; cbn [default] in Hty.
    + change (id xs) with xs in Hty. subst xs.
      assert (Hdt : NoDup (map ad_arg (of_type ty l))) by (apply NoDup_map_filter, Hm).
      destruct (delete_args_mem (of_type ty l) q l Hm (of_type_sub ty l) Hdt) as (q' & E' & Hm' & Hmap & Hret).
      rewrite E'. cbn [mbind option_bind]. eexists. split; [reflexivity|]. rewrite left_other in Hm' by apply Hm.
      split; [by destruct Hm'; split| |cbn; congruence]. intros ty'. cbn. rewrite Hmap. unfold of_type, other_types.
      rewrite list_filter_filter. destruct (decide (ty = ty')) as [->|Hne].
      * rewrite lookup_insert, decide_True by done. cbn.
        rewrite (filter_none (fun x => ad_type x = ty' /\ ad_type x <> ty')); [done|]. intros x _ [H1 H2]. done.
      * rewrite lookup_insert_ne by done. rewrite Hq. unfold of_type. f_equal. apply list_filter_iff. intros x. split; [|tauto].
        intros <-. split; [done|]. congruence.
    + cbn [mbind option_bind]. exists q. split; [done|]. cbn in Hty.
      assert (Ho : other_types ty l = l).
      { apply filter_all. intros x Hx He. assert (Hin : ad_arg x ∈ map ad_arg (of_type ty l)).
        { apply list_elem_of_fmap. exists x. split; [done|]. apply list_elem_of_filter. by split. }
        rewrite <- Hty in Hin. by apply not_elem_of_nil in Hin. }
      rewrite Ho. by split.
  - exists q. split; [done|]. by split.
Qed.

Fixpoint timer_run (steps : list TimerStep) (q : TimerQueue) : option (list (nat * Z) * TimerQueue) :=
  match steps with
  | [] => Some ([], q)
  | i :: steps' => '(e, q) ← timer_step i q; '(es, q) ← timer_run steps' q; Some (e ++ es, q)
  end.
Fixpoint fresh_run (steps : list TimerStep) (l : Added) : Prop :=
  match steps with [] => True | i :: steps' => fresh_step i l /\ fresh_run steps' (added_step i l) end.

Lemma tq_new_shows : tq_shows tq_new [].
Proof.
  split; [|done|done]. split; [constructor|constructor|..].
  - intros a arg. split; [done|]. by intros (x & Hx%not_elem_of_nil & _).
  - intros d. split; [by intros ?%not_elem_of_empty|]. by intros (x & Hx%not_elem_of_nil & _).
  - by intros a ?%not_elem_of_empty.
Qed.

(** C31: the timers of the Windows build.  In every run, the memory of the queue
    is that of the timers that were added and not cancelled: no argument and no
    descriptor is deleted twice or kept longer, and cancelling a type deletes the
    timers of that type, of the system and of the queue, and no other.  But a
    timer that expires passes on no event, and stays until it is cancelled: the
    handler is empty. *)
Theorem windows_timers steps : forall q l, tq_shows q l -> fresh_run steps l -> exists q',
  timer_run steps q = Some ([], q') /\ tq_shows q' (fold_left (fun l i => added_step i l) steps l).
Proof.
  induction steps as [|i steps IH]; intros q l Hq Hf; [by exists q|]. destruct Hf as [Hi Hf].
  destruct (timer_step_shows i q l Hq Hi) as (q1 & E1 & Hq1).
  destruct (IH q1 _ Hq1 Hf) as (q2 & E2 & Hq2). exists q2. cbn [timer_run fold_left]. rewrite E1. cbn [mbind option_bind].
  rewrite E2. done.
Qed.

(** ** The work queue *)

Section Work.
Context {J : Type}.
Inductive WorkStep := Submit (j : J) | Begin (i : nat) | End_ (i : nat).
(** The workers, the jobs that were accepted, and those that were run. *)
Definition work_step (i : WorkStep) (s : list (Worker J) * list J * list J) : option (list (Worker J) * list J * list J) :=
  let '(q, accepted, ran) := s in
  match i with
  | Submit j => let '(b, q) := submit j q in Some (q, if b then accepted ++ [j] else accepted, ran)
  | Begin i => '(j, q) ← work_begin i q; Some (q, accepted, ran ++ [j])
  | End_ i => q ← work_end i q; Some (q, accepted, ran)
  end.
Fixpoint work_run (steps : list WorkStep) (s : list (Worker J) * list J * list J) :=
  match steps with [] => Some s | i :: steps' => s ← work_step i s; work_run steps' s end.

Definition pending (q : list (Worker J)) : list J :=
  omap (fun w => if busy w then None else task w) q.
Definition busy_ok (q : list (Worker J)) : Prop := Forall (fun w => busy w = true -> task w <> None) q.

Lemma pending_insert (q : list (Worker J)) i w w' : q !! i = Some w -> exists a b,
  pending q = a ++ option_list (if busy w then None else task w) ++ b /\
  pending (<[i:=w']> q) = a ++ option_list (if busy w' then None else task w') ++ b.
Proof.
  intros Hi. exists (pending (take i q)), (pending (drop (S i) q)). unfold pending.
  rewrite <- (take_drop_middle q i w Hi) at 1. rewrite (insert_take_drop q i w') by (by apply lookup_lt_Some in Hi).
  rewrite !omap_app. cbn. split; f_equal; [by destruct (busy w), (task w)|by destruct (busy w'), (task w')].
Qed.

Lemma work_step_ok i q acc ran q' acc' ran' : work_step i (q, acc, ran) = Some (q', acc', ran') ->
  busy_ok q -> acc ≡ₚ ran ++ pending q -> busy_ok q' /\ acc' ≡ₚ ran' ++ pending q'.
Proof.
  intros Hs Hb Hp. destruct i as [j|i|i]; cbn [work_step] in Hs.
  - unfold submit in Hs. destruct (list_find _ q) as [[i w]|] eqn:E; injection Hs as <- <- <-; [|done].
    apply list_find_Some in E as (Hi & Ht & _). assert (Hw : busy w = false).
    { unfold busy_ok in Hb. rewrite Forall_lookup in Hb. specialize (Hb i w Hi). destruct (busy w); [|done]. by destruct Hb. }
    split; [apply Forall_insert; [done|]; cbn; congruence|].
    destruct (pending_insert q i w (mkWorker (Some j) (busy w) (wk_stop w)) Hi) as (a & b & E1 & E2).
    rewrite E2, Hp, E1. cbn [busy task]. rewrite Hw, Ht. cbn. solve_Permutation.
  - unfold work_begin in Hs. destruct (q !! i) as [w|] eqn:Hi; [|done]. cbn [mbind option_bind] in Hs.
    destruct (task w) as [j|] eqn:Ht; [|done]. destruct (busy w) eqn:Hw; [done|]. destruct (wk_stop w) eqn:Hst; [done|].
    injection Hs as <- <- <-. split; [apply Forall_insert; [done|]; done|].
    destruct (pending_insert q i w (mkWorker (Some j) true false) Hi) as (a & b & E1 & E2).
    rewrite E2, Hp, E1. cbn [busy task]. rewrite Hw, Ht. cbn. solve_Permutation.
  - unfold work_end in Hs. destruct (q !! i) as [w|] eqn:Hi; [|done]. cbn [mbind option_bind] in Hs.
    destruct (busy w) eqn:Hw; [|done]. injection Hs as <- <- <-. split; [apply Forall_insert; [done|]; done|].
    destruct (pending_insert q i w (mkWorker None false (wk_stop w)) Hi) as (a & b & E1 & E2).
    rewrite E2, Hp, E1. cbn [busy task]. by rewrite Hw.
Qed.

Lemma queue_init_idle n : pending (queue_init n) = [] /\ busy_ok (queue_init (J := J) n).
Proof.
  unfold queue_init. generalize (if (n =? 0)%nat then DEFAULT_THREAD_COUNT else n). intros k.
  split; [by induction k|]. apply Forall_forall. intros w Hw.
  by apply list_elem_of_In, List.repeat_spec in Hw as ->.
Qed.

(** The jobs that a work queue accepts are run once: of those, the ones that were
    not run are with a worker that has not begun; and a job is refused when each
    worker has one. *)
Theorem work_queue_once n steps q acc ran :
  work_run steps (queue_init n, [], []) = Some (q, acc, ran) ->
  acc ≡ₚ ran ++ pending q /\ forall j, (submit j q).1 = false <-> Forall (fun w => task w <> None) q.
Proof.
  assert (H : forall steps q acc ran q' acc' ran', work_run steps (q, acc, ran) = Some (q', acc', ran') ->
    busy_ok q -> acc ≡ₚ ran ++ pending q -> acc' ≡ₚ ran' ++ pending q').
  { clear. induction steps as [|i steps IH]; intros q acc ran q' acc' ran' Hr Hb Hp; [by injection Hr as <- <- <-|].
    cbn [work_run] in Hr. destruct (work_step i (q, acc, ran)) as [[[q1 acc1] ran1]|] eqn:E; [|done].
    destruct (work_step_ok _ _ _ _ _ _ _ E Hb Hp) as [Hb1 Hp1]. exact (IH _ _ _ _ _ _ Hr Hb1 Hp1). }
  intros Hr. destruct (queue_init_idle n) as [Hn Hb]. split; [apply (H _ _ _ _ _ _ _ Hr Hb); by rewrite Hn|].
  intros j. unfold submit. destruct (list_find _ q) as [[i w]|] eqn:E; cbn [fst]; split; try done.
  - intros Hf. apply list_find_Some in E as (Hi & Ht & _). rewrite Forall_lookup in Hf. by destruct (Hf i w Hi).
  - by apply list_find_None in E.
Qed.
End Work.

(** ** Witnesses *)

Lemma windows_lock_spec_witness : exists l h,
  lock_run [LockBy 1; TryLockBy 2; UnlockBy 1] (lock_new oslock_nonrecursive 0, fun _ => 0%nat) = Some (l, h) /\
  win_lock (thread_id l) l = Some (oslock_self, l) /\ thread_id l = 1%nat.
Proof.
  eexists _, _. split; [reflexivity|].
  destruct (windows_lock_spec oslock_nonrecursive 0 [LockBy 1; TryLockBy 2; UnlockBy 1] _ _ eq_refl)
    as (_ & _ & _ & _ & H).
  assert (Hz : forall t, holds (holds (fun _ => 0%nat) 1 1) 1 0 t = 0%nat).
  { intros t. unfold holds. by destruct (t =? 1)%nat. }
  split; [exact (proj1 (H eq_refl Hz))|reflexivity].
Defined.

Definition timer_steps : list TimerStep :=
  [AddTimer 1 true 4 11; AddTimer 2 true 5 12; AddTimer 3 true 4 13; ExpireTimer 1; CancelTimer 4; CancelTimer 9].
Lemma windows_timers_witness : exists q',
  timer_run timer_steps tq_new = Some ([], q') /\ tq_shows q' [(5, 2%nat, 12%nat)].
Proof.
  assert (Hf : fresh_run timer_steps []).
  { cbn. repeat split; set_solver. }
  exact (windows_timers timer_steps tq_new [] tq_new_shows Hf).
Defined.
