(* ===== verification/WinDevice.v ===== *)
(** * Devices, link and command line of the Windows build

    The tables of devices and their clock rates
    (windows/daemon_cl/windows_hal_vendor_intel.cpp,
    windows/daemon_cl/windows_hal_iphlpapi.cpp, windows/daemon_cl/windows_hal.hpp,
    windows/daemon_cl/tsc.hpp), the thread that watches the link
    (windows/daemon_cl/windows_hal.cpp), and the options of
    windows/daemon_cl/daemon_cl.cpp.  The list of adapters and the answers of the
    system are arguments. *)

From Stdlib Require Import ZArith Lia Ascii String.
From stdpp Require Import base gmap list strings.
From S2P Require Import Prelude Timestamp Identity Config CommandLine.

Open Scope string_scope.
Open Scope Z_scope.

(** ** Device tables *)

(** [strstr( s, p ) != NULL] *)
Definition strstr (s p : string) : bool := match String.index 0 p s with Some _ => true | None => false end.

Definition intel_oui_prefixes : list (Z * Z * Z) :=
  [ (0x00, 0x1C, 0xC8); (0x00, 0x15, 0x17); (0x00, 0x1B, 0x21); (0x00, 0x0E, 0x0C); (0x00, 0x02, 0xB3);
    (0x00, 0x03, 0x47); (0x00, 0x07, 0xE9); (0x00, 0x13, 0xCE); (0x00, 0x19, 0x99); (0x00, 0x1F, 0x3C);
    (0x00, 0x0D, 0x3A); (0x90, 0xE2, 0xBA) ].
Definition isIntelDevice (mac : LinkLayerAddress) : bool :=
  match mac with
  | a :: b :: c :: _ => existsb (fun '(x, y, z) => (a =? x) && (b =? y) && (c =? z)) intel_oui_prefixes
  | _ => false
  end.

(** The models, their clock rates, and whether they have timestamps. *)
Definition intel_device_specs : list (string * Z * bool) :=
  [ ("I217", 1000000000, true); ("I218", 1000000000, true); ("I219", 1008000000, true);
    ("I210", 1000000000, true); ("I211", 1000000000, true); ("I350", 1000000000, true);
    ("82599", 1000000000, true); ("X520", 1000000000, true); ("X540", 1000000000, true);
    ("X550", 1000000000, true); ("X710", 1000000000, true); ("XL710", 1000000000, true);
    ("XXV710", 1000000000, true);
    ("82540", 0, false); ("82541", 0, false); ("82545", 0, false); ("82546", 0, false); ("82566", 0, false);
    ("82567", 0, false); ("82571", 0, false); ("82572", 0, false); ("82573", 0, false);
    ("82574", 1000000000, false); ("82575", 0, false); ("82576", 1000000000, false); ("82577", 0, false);
    ("82578", 0, false); ("82579", 1000000000, false) ].
Fixpoint find_spec (specs : list (string * Z * bool)) (desc : string) : option (Z * bool) :=
  match specs with
  | [] => None
  | (model, rate, hw) :: specs' => if strstr desc model then Some (rate, hw) else find_spec specs' desc
  end.
Definition getIntelDeviceSpecs (desc : string) : option (Z * bool) := find_spec intel_device_specs desc.
Definition getIntelClockRate (desc : string) : Z :=
  match getIntelDeviceSpecs desc with Some (rate, _) => rate | None => 0 end.
Definition isIntelTimestampSupported (desc : string) : bool :=
  match getIntelDeviceSpecs desc with Some (_, hw) => hw | None => false end.

(** [DeviceClockRateMap], and the first entry of a description. *)
Definition DeviceClockRateMap : list (Z * string) :=
  [ (1000000000, "I217-LM"); (1008000000, "I219"); (1250000000, "I210") ].
Fixpoint map_rate (m : list (Z * string)) (label : string) : Z :=
  match m with
  | [] => 0
  | (rate, desc) :: m' => if strstr label desc then rate else map_rate m' label
  end.

(** An adapter of the system's list: the description, where it has one, the
    hardware address, its state, and what the system says of its timestamps: the
    rate of its clock, and whether it has any. *)
Record Adapter := mkAdapter {
  ad_description : option string; ad_mac : list Z; ad_up : bool; ad_caps : option (Z * bool);
}.
Fixpoint find_adapter (label : string) (l : list Adapter) : option (string * Adapter) :=
  match l with
  | [] => None
  | a :: l' =>
      match ad_description a with
      | Some d => if strstr label d then Some (d, a) else find_adapter label l'
      | None => find_adapter label l'
      end
  end.

(** [getHardwareClockRate_IPHLPAPI]: [adapters] is the list, where the system has
    one. *)
Definition adapter_rate (d : string) (a : Adapter) : Z :=
  match ad_caps a with
  | Some (rate, _) => if negb (rate =? 0) then rate
                      else if (length (ad_mac a) =? 6)%nat && isIntelDevice (ad_mac a) then getIntelClockRate d else 0
  | None => if (length (ad_mac a) =? 6)%nat && isIntelDevice (ad_mac a) then getIntelClockRate d else 0
  end.
Definition getHardwareClockRate_IPHLPAPI (label : option string) (listed : bool) (adapters : option (list Adapter)) : Z :=
  match label with
  | None => 0
  | Some label =>
      if negb listed then 0
      else
        let detected := match adapters with
                        | Some l => match find_adapter label l with Some (d, a) => adapter_rate d a | None => 0 end
                        | None => 0
                        end in
        if detected =? 0 then map_rate DeviceClockRateMap label else detected
  end.

(** [isHardwareTimestampSupported_IPHLPAPI] *)
Definition other_vendor (d : string) : bool :=
  strstr d "NetXtreme-E" || strstr d "BCM57" || strstr d "BCM58" || strstr d "ConnectX" || strstr d "Mellanox".
Definition adapter_supported (d : string) (a : Adapter) : bool :=
  match ad_caps a with
  | Some (_, supported) => supported
  | None =>
      (length (ad_mac a) =? 6)%nat &&
      ((isIntelDevice (ad_mac a) && isIntelTimestampSupported d) || other_vendor d)
  end.
Definition isHardwareTimestampSupported_IPHLPAPI (label : option string) (listed : bool)
    (adapters : option (list Adapter)) : bool :=
  match label with
  | None => false
  | Some label =>
      listed && match adapters with
                | Some l => match find_adapter label l with Some (d, a) => adapter_supported d a | None => false end
                | None => false
                end
  end.

(** [getHardwareClockRate], [isHardwareTimestampSupported] and
    [configureHardwareTimestamp]; [ndis] is what the NDIS way finds. *)
Definition getHardwareClockRate (label : option string) (listed : bool) (adapters : option (list Adapter)) (ndis : Z) : Z :=
  match label with
  | None => 0
  | Some _ =>
      let rate := getHardwareClockRate_IPHLPAPI label listed adapters in
      if negb (rate =? 0) then rate else if negb (ndis =? 0) then ndis else 0
  end.
Definition isHardwareTimestampSupported (label : option string) (listed : bool) (adapters : option (list Adapter))
    (ndis : bool) : bool :=
  match label with
  | None => false
  | Some _ => if isHardwareTimestampSupported_IPHLPAPI label listed adapters then true else ndis
  end.
Definition configureHardwareTimestamp (label : option string) (listed : bool) (adapters : option (list Adapter))
    (ndis : bool) : bool :=
  match label with
  | None => false
  | Some _ => if ndis then true else isHardwareTimestampSupported_IPHLPAPI label listed adapters
  end.

(** [HWTimestamper_init]: the rate of the clock of the card, and whether the rest
    succeeds: the handle, the capabilities, and a frequency of the counter. *)
Definition ether_init (adapter : option string) (listed : bool) (adapters : option (list Adapter)) (ndis : Z)
    (opened caps : bool) (tsc : Z) : option (Z * Z) :=
  d ← adapter;
  let rate := getHardwareClockRate_IPHLPAPI (Some d) listed adapters in
  let rate := if rate =? 0 then ndis else rate in
  let rate := if 0 <? rate then rate else map_rate DeviceClockRateMap d in
  if rate =? 0 then None
  else if negb (opened && caps) then None
  else if tsc =? 0 then None
  else Some (rate, tsc).

(** ** The frequency of the counter *)

Definition ModelNumberSystemClockRateMap : list (list Z * Z) := [ ([0x5E; 0x4E], 24000000) ].
(** The last entry that has the model. *)
Definition FindFrequencyByModel (model_query : Z) : Z :=
  foldl (fun ret '(models, rate) => if existsb (Z.eqb model_query) models then rate else ret) 0
    ModelNumberSystemClockRateMap.
Definition getTSCFrequency (builtin : bool) (max_cpuid_level eax : Z) (is_windows_10 : bool) (revision : Z)
    (qpf : option Z) : Z :=
  let eax := if 0x15 <=? max_cpuid_level then eax else max_cpuid_level in
  if negb is_windows_10 && (0x15 <=? max_cpuid_level) && (1 <=? eax) && builtin
  then FindFrequencyByModel (u8 (Z.shiftr revision 8))
  else default 0 qpf.

(** ** The link *)

(** [checkLinkStatus]: the state of the first adapter with the description and the
    address. *)
Fixpoint link_of (desc : string) (mac : LinkLayerAddress) (l : list Adapter) : bool :=
  match l with
  | [] => false
  | a :: l' =>
      if strstr desc (default "" (ad_description a)) && bool_decide (ad_mac a = mac) then ad_up a
      else link_of desc mac l'
  end.
Definition checkLinkStatus (desc : string) (mac : LinkLayerAddress) (adapters : option (list Adapter)) : bool :=
  match adapters with Some l => link_of desc mac l | None => false end.

(** A turn of [linkMonitorThreadProc]: how the wait ends, and the link then. *)
Inductive MonitorWait := WaitAddr | WaitRoute | WaitExpired | WaitFailed | WaitStrange.
Record MonitorTurn := mkMonitorTurn { mt_wait : MonitorWait; mt_link : bool }.
(** What the port is told, turn by turn, until the wait fails. *)
Fixpoint monitor (last : bool) (turns : list MonitorTurn) : list bool :=
  match turns with
  | [] => []
  | t :: turns' =>
      match mt_wait t with
      | WaitFailed => []
      | WaitStrange => monitor last turns'
      | _ => if Bool.eqb (mt_link t) last then monitor last turns' else mt_link t :: monitor (mt_link t) turns'
      end
  end.
Definition linkMonitorThreadProc (first : bool) (turns : list MonitorTurn) : list bool := monitor first turns.

(** The fall-back of [watchNetLink], when the thread cannot be started. *)
Definition fallback_status (up : bool) (unicast : list bool) : bool :=
  up && (existsb (fun b => b) unicast || (length unicast =? 0)%nat).
(** [watchNetLink]: what the port is told at once, for the first adapter with the
    address of the port. *)
Definition watchNetLink (port : bool) (mac : option LinkLayerAddress) (adapters : option (list (Adapter * list bool)))
    (started : bool) (status : bool) : option bool :=
  match port, mac, adapters with
  | true, Some mac, Some l =>
      r ← list_find (fun a => ad_mac a.1 = mac) l;
      Some (if started then status else fallback_status (ad_up r.2.1) r.2.2)
  | _, _, _ => None
  end.

(** The links that are looked at, until the wait fails. *)
Fixpoint looked (turns : list MonitorTurn) : list bool :=
  match turns with
  | [] => []
  | t :: turns' =>
      match mt_wait t with WaitFailed => [] | WaitStrange => looked turns' | _ => mt_link t :: looked turns' end
  end.

(** The last of some states, after [first], and states that are all changes. *)
Definition final (first : bool) (l : list bool) : bool := foldl (fun _ b => b) first l.
Fixpoint changes (last : bool) (l : list bool) : Prop :=
  match l with [] => True | b :: l' => b <> last /\ changes b l' end.

(** The port is told the changes, and so it knows the link that was looked at
    last, if it knew the first. *)
Lemma monitor_tracks turns : forall first,
  final first (linkMonitorThreadProc first turns) = final first (looked turns) /\
  changes first (linkMonitorThreadProc first turns).
Proof.
  unfold linkMonitorThreadProc. induction turns as [|t turns IH]; intros first; [done|]. cbn [monitor looked].
  destruct (mt_wait t); try done; try apply IH;
    (destruct (Bool.eqb_spec (mt_link t) first) as [->|Hne]; [apply IH|];
     destruct (IH (mt_link t)) as [H1 H2]; split; [exact H1|by split]).
Qed.

(** But a link that goes down between the thread's first look and the status that
    [watchNetLink] tells after it leaves the port told that it is up. *)
Example stale_status mac d :
  let up := mkAdapter (Some d) mac true None in
  final false (linkMonitorThreadProc true [mkMonitorTurn WaitAddr false] ++
               option_list (watchNetLink true (Some mac) (Some [(up, [])]) true true)) = true /\
  final true (looked [mkMonitorTurn WaitAddr false]) = false.
Proof.
  cbn. destruct (decide (mac = mac)); [done|congruence].
Qed.

(** ** The speed of the link *)

Definition INVALID_LINKSPEED : Z := 2 ^ 32 - 1.

(** [findLinkSpeed]: the adapters with their speed in bits per second; the answer of
    the system is not looked at, and without one the list is what the memory holds. *)
Definition findLinkSpeed (local : LinkLayerAddress) (adapters : list (Adapter * Z)) : Z :=
  match list_find (fun a => length (ad_mac a.1) = 6%nat /\ local = ad_mac a.1) adapters with
  | Some (_, (_, speed)) =>
      if speed / 1000 =? LINKSPEED_1G then LINKSPEED_1G
      else if speed / 1000 =? LINKSPEED_100MB then LINKSPEED_100MB
      else INVALID_LINKSPEED
  | None => INVALID_LINKSPEED
  end.

(** ** The command line *)

(** [ispunct] of the C locale. *)
Definition ispunct (c : ascii) : bool :=
  let n := Z.of_nat (nat_of_ascii c) in
  ((33 <=? n) && (n <=? 47)) || ((58 <=? n) && (n <=? 64)) || ((91 <=? n) && (n <=? 96)) || ((123 <=? n) && (n <=? 126)).

(** The digits at the start of [s], after [acc], and where they stop. *)
Fixpoint hex_digits (acc : Z) (s : string) : Z * string :=
  match s with
  | String c s' => match hex_digit 16 c with Some d => hex_digits (acc * 16 + d) s' | None => (acc, s) end
  | EmptyString => (acc, s)
  end.
(** [strtol( s, &end, 16 )] with a [long] of 32 bits: the value and [end]. *)
Definition starts_with_hex (s : string) : bool :=
  match s with String c _ => match hex_digit 16 c with Some _ => true | None => false end | _ => false end.
Definition skip_0x (s : string) : string :=
  match s with
  | String "0" (String c s') => if (Ascii.eqb c "x" || Ascii.eqb c "X") && starts_with_hex s' then s' else s
  | _ => s
  end.
Definition strtol16 (s : string) : Z * string :=
  let '(neg, s2) := sign_of (skip_space s) in
  let s3 := skip_0x s2 in
  if starts_with_hex s3 then
    let '(v, rest) := hex_digits 0 s3 in
    (if (neg : bool) then Z.max (- v) (- 2 ^ 31) else Z.min v (2 ^ 31 - 1), rest)
  else (0, s).

(** [strtoul( s, NULL, 0 )] with an [unsigned long] of 32 bits. *)
Definition strtoul0_32 (s : string) : Z :=
  let '(neg, s2) := sign_of (skip_space s) in
  let '(base, s3) := base_of s2 in
  let v := digits_in base 0 s3 in
  if 2 ^ 32 - 1 <? v then 2 ^ 32 - 1 else if (neg : bool) then u32 (- v) else v.

(** [parseMacAddr]: [None] when it reads behind the end of the string.  A string of
    less than 17 characters is refused and leaves the octets as they are, which no
    caller looks at. *)
Fixpoint mac_octets (n : nat) (cur : string) : option (list Z) :=
  match n with
  | O => Some []
  | S n' =>
      let '(v, rest) := strtol16 cur in
      match rest, n' with
      | _, O => Some [Z.land v 0xFF]
      | String _ cur', _ => l ← mac_octets n' cur'; Some (Z.land v 0xFF :: l)
      | EmptyString, _ => None
      end
  end.
Definition parseMacAddr (macstr : string) (octet_string : list Z) : option (list Z) :=
  if (String.length macstr <? 17)%nat then Some octet_string else mac_octets 6 macstr.

(** The option loop of [_tmain]: the arguments that it has not looked at. *)
Inductive LoopEnd := ShowUsage | OptionsRead (wireless : bool) (priority1 : Z) (rest : list string).
Definition upper (c : ascii) : ascii :=
  let n := nat_of_ascii c in
  if ((97 <=? n) && (n <=? 122))%nat then ascii_of_nat (n - 32) else c.
Definition second (s : string) : option ascii := match s with String _ (String c _) => Some (upper c) | _ => None end.
Definition new_priority (old : Z) (s : string) : Z :=
  let tmp := strtoul0_32 s in if 255 <? tmp then old else tmp.
Fixpoint options (wireless : bool) (priority1 : Z) (args : list string) : LoopEnd :=
  match args with
  | (String c _ as a) :: args' =>
      if ispunct c then
        if decide (second a = Some "H"%char) then ShowUsage
        else if decide (second a = Some "W"%char) then options true priority1 args'
        else if decide (second a = Some "R"%char) then
          match args' with
          | [] => OptionsRead wireless priority1 []
          | v :: args'' => options wireless (new_priority priority1 v) args''
          end
        else options wireless priority1 args'
      else OptionsRead wireless priority1 args
  | _ => OptionsRead wireless priority1 args
  end.

(** What [_tmain] goes on with: the clock's priority, and the addresses of the
    interface, of the virtual interface and of the peer.  [stack] is what the octets
    are before the first address is read. *)
Inductive WinStart :=
| WinUsage
| WinAddressRequired
| WinOverrun
| WinEther (priority1 : Z) (local : list Z)
| WinWireless (priority1 : Z) (local virtual peer : list Z).
Definition tmain (args : list string) (stack : list Z) : WinStart :=
  match args with
  | [] => WinUsage
  | _ =>
      match options false 248 args with
      | ShowUsage => WinUsage
      | OptionsRead wireless priority1 rest =>
          match rest with
          | [] => WinAddressRequired
          | a :: rest =>
              match parseMacAddr a stack with
              | None => WinOverrun
              | Some local =>
                  if negb wireless then WinEther priority1 local
                  else
                    match rest with
                    | [] => WinAddressRequired
                    | v :: rest =>
                        match parseMacAddr v local with
                        | None => WinOverrun
                        | Some virtual =>
                            match rest with
                            | [] => WinAddressRequired
                            | p :: _ => match parseMacAddr p virtual with
                                        | Some peer => WinWireless priority1 local virtual peer
                                        | None => WinOverrun
                                        end
                            end
                        end
                    end
              end
          end
      end
  end.

(** *** Written command lines *)

Definition hex_char (d : Z) : ascii := ascii_of_nat (Z.to_nat (if d <? 10 then 48 + d else 87 + d)).
Definition hex2 (o : Z) (rest : string) : string := String (hex_char (o / 16)) (String (hex_char (o mod 16)) rest).
(** The form [xx-xx-xx-xx-xx-xx] that the usage asks for. *)
Fixpoint written_mac (l : list Z) : string :=
  match l with
  | [] => ""
  | [o] => hex2 o ""
  | o :: l' => hex2 o (String "-" (written_mac l'))
  end.

Inductive WinOption := OptWireless | OptPriority (n : Z) | OptOther (c : ascii).
Definition written_option (o : WinOption) : list string :=
  match o with
  | OptWireless => ["-W"]
  | OptPriority n => ["-R"; decimal n ""]
  | OptOther c => [String "-" (String c "")]
  end.
Definition option_ok (o : WinOption) : Prop :=
  match o with
  | OptWireless => True
  | OptPriority n => 1 <= n < 1000
  | OptOther c => upper c <> "H"%char /\ upper c <> "W"%char /\ upper c <> "R"%char
  end.
(** What an option means: the last valid priority, 248 without one. *)
Definition apply_option (st : bool * Z) (o : WinOption) : bool * Z :=
  match o with
  | OptWireless => (true, st.2)
  | OptPriority n => (st.1, if n <? 256 then n else st.2)
  | OptOther _ => st
  end.
Definition meaning (l : list WinOption) : bool * Z := foldl apply_option (false, 248) l.

Definition octets_ok (l : list Z) : Prop := length l = 6%nat /\ Forall (fun o => 0 <= o < 256) l.

Lemma hex_char_digit d : 0 <= d < 16 ->
  hex_digit 16 (hex_char d) = Some d /\ is_space (hex_char d) = false /\
  hex_char d <> "-"%char /\ hex_char d <> "+"%char /\ hex_char d <> "x"%char /\ hex_char d <> "X"%char.
Proof.
  intros Hd. assert (Hall : Forall (fun d => hex_digit 16 (hex_char d) = Some d /\ is_space (hex_char d) = false /\
      hex_char d <> "-"%char /\ hex_char d <> "+"%char /\ hex_char d <> "x"%char /\ hex_char d <> "X"%char) (seqZ 0 16)).
  { apply (bool_decide_unpack _). vm_compute. exact I. }
  rewrite Forall_forall in Hall. apply Hall. rewrite elem_of_seqZ. lia.
Qed.
Lemma sign_of_other c s : c <> "-"%char -> c <> "+"%char -> sign_of (String c s) = (false, String c s).
Proof. intros H1 H2. destruct c as [[] [] [] [] [] [] [] []]; try reflexivity; congruence. Qed.
Lemma skip_0x_other c d s : d <> "x"%char -> d <> "X"%char -> skip_0x (String c (String d s)) = String c (String d s).
Proof.
  intros H1 H2. unfold skip_0x. rewrite (proj2 (Ascii.eqb_neq d "x")), (proj2 (Ascii.eqb_neq d "X")) by done.
  destruct c as [[] [] [] [] [] [] [] []]; reflexivity.
Qed.
Lemma strtol16_octet o rest : 0 <= o < 256 -> starts_with_hex rest = false -> strtol16 (hex2 o rest) = (o, rest).
Proof.
  intros Ho Hr. unfold hex2. pose proof (Z.mod_pos_bound o 16). pose proof (Z.div_mod o 16 ltac:(done)).
  destruct (hex_char_digit (o / 16)) as (E1 & S1 & A1 & B1 & _); [lia|].
  destruct (hex_char_digit (o mod 16)) as (E2 & _ & _ & _ & C2 & D2); [lia|].
  unfold strtol16. cbn [skip_space]. rewrite S1, sign_of_other, skip_0x_other by done.
  cbn [starts_with_hex hex_digits]. rewrite E1, E2.
  assert (Hd : hex_digits ((0 * 16 + o / 16) * 16 + o mod 16) rest = (o, rest)).
  { replace ((0 * 16 + o / 16) * 16 + o mod 16) with o  by lia.
    destruct rest as [|c rest]; cbn in *; [done|]. by destruct (hex_digit 16 c). }
  rewrite Hd. f_equal. lia.
Qed.
Lemma strtoul0_32_decimal n : 1 <= n < 1000 -> strtoul0_32 (decimal n "") = n.
Proof.
  intros Hn. assert (Hall : Forall (fun n => strtoul0_32 (decimal n "") = n) (seqZ 1 999)).
  { apply (bool_decide_unpack _). vm_compute. exact I. }
  rewrite Forall_forall in Hall. apply Hall. rewrite elem_of_seqZ. lia.
Qed.

Lemma mac_octets_step n cur v rest : strtol16 cur = (v, String "-" rest) ->
  mac_octets (S (S n)) cur = (l ← mac_octets (S n) rest; Some (Z.land v 0xFF :: l)).
Proof. intros H. cbn. by rewrite H. Qed.
Lemma mac_octets_written l : l <> [] -> Forall (fun o => 0 <= o < 256) l -> mac_octets (length l) (written_mac l) = Some l.
Proof.
  induction l as [|o l IH]; [done|]. intros _ Hf. apply Forall_cons in Hf as [Ho Hf].
  assert (Hand : Z.land o 0xFF = o) by (change 0xFF with (Z.ones 8); rewrite Z.land_ones by lia; apply Z.mod_small; lia).
  destruct l as [|o' l].
  - cbn [length mac_octets written_mac]. rewrite strtol16_octet by done. by rewrite Hand.
  - change (written_mac (o :: o' :: l)) with (hex2 o (String "-" (written_mac (o' :: l)))).
    change (length (o :: o' :: l)) with (S (length (o' :: l))).
    assert (Hn : exists n, length (o' :: l) = S n) by (eexists; reflexivity). destruct Hn as [n Hn].
    specialize (IH ltac:(done) Hf). rewrite Hn in *. rewrite (mac_octets_step n _ o (written_mac (o' :: l))); [by rewrite IH, Hand|].
    by apply strtol16_octet.
Qed.
Lemma parse_written l stack : octets_ok l -> parseMacAddr (written_mac l) stack = Some l.
Proof.
  intros [Hl Hf]. unfold parseMacAddr.
  do 7 (destruct l as [|? l]; [try discriminate|]); [|discriminate].
  refine (mac_octets_written _ _ Hf). discriminate.
Qed.

Lemma options_R w p v args : options w p ("-R" :: v :: args) = options w (new_priority p v) args.
Proof. reflexivity. Qed.
Lemma options_written l : forall w p args, Forall option_ok l ->
  options w p (concat (map written_option l) ++ args) =
  options (foldl apply_option (w, p) l).1 (foldl apply_option (w, p) l).2 args.
Proof.
  induction l as [|o l IH]; intros w p args Hl; [done|]. apply Forall_cons in Hl as [Ho Hl].
  destruct o as [|n|c]; cbn [map written_option concat app foldl apply_option fst snd].
  - by apply IH.
  - change ("-R" :: decimal n "" :: ?a) with (["-R"; decimal n ""] ++ a)%list. cbn [app].
    rewrite options_R, IH by done. unfold new_priority.
    rewrite strtoul0_32_decimal by done. cbn zeta.
    replace (255 <? n) with (negb (n <? 256)) by (destruct (Z.ltb_spec n 256), (Z.ltb_spec 255 n); cbn; lia).
    by destruct (n <? 256).
  - destruct Ho as (H1 & H2 & H3). cbn -[decide]. cbn in H1, H2, H3.
    rewrite !decide_False by congruence. by apply IH.
Qed.

(** An address is no option. *)
Lemma written_starts l : octets_ok l -> exists c s, written_mac l = String c s /\ ispunct c = false.
Proof.
  intros [Hl Hf]. do 7 (destruct l as [|? l]; [try discriminate|]); [|discriminate].
  apply Forall_cons in Hf as [Ho _].
  assert (Hall : Forall (fun d => ispunct (hex_char d) = false) (seqZ 0 16)).
  { apply (bool_decide_unpack _). vm_compute. exact I. }
  rewrite Forall_forall in Hall. eexists _, _. split; [reflexivity|]. apply Hall, elem_of_seqZ.
  split; [apply Z.div_pos; lia|]. apply Z.div_lt_upper_bound; lia.
Qed.
Lemma options_stop w p l args : octets_ok l -> options w p (written_mac l :: args) = OptionsRead w p (written_mac l :: args).
Proof. intros H. destruct (written_starts l H) as (c & s & -> & Hc). cbn -[ispunct]. by rewrite Hc. Qed.

(** A command line of the Windows build that is written as its usage says, the
    options before the addresses and these as octets in hexadecimal, is read as that:
    the wireless option and the last priority below 256 (248 without one; a larger
    one is passed over), and one address or, for a wireless port, three. *)
Theorem win_command_line opts local virtual peer stack :
  Forall option_ok opts -> octets_ok local -> octets_ok virtual -> octets_ok peer ->
  tmain (concat (map written_option opts) ++ [written_mac local; written_mac virtual; written_mac peer]) stack =
    (if (meaning opts).1 then WinWireless (meaning opts).2 local virtual peer else WinEther (meaning opts).2 local) /\
  tmain (concat (map written_option opts) ++ [written_mac local]) stack =
    (if (meaning opts).1 then WinAddressRequired else WinEther (meaning opts).2 local).
Proof.
  intros Ho Hl Hv Hp.
  unfold tmain. rewrite !options_written, !options_stop by done. fold (meaning opts).
  rewrite !parse_written by done. cbn [negb].
  assert (Hne : forall (X : WinStart) (l rest : list string) a,
    match (l ++ a :: rest)%list with [] => WinUsage | _ :: _ => X end = X) by (intros ? [|] ? ?; done).
  rewrite !Hne. split; destruct (meaning opts).1; done.
Qed.
Definition mac_x : list Z := [0; 27; 33; 10; 11; 255].
Lemma win_command_line_witness :
  tmain ["-W"; "-R"; "7"; "00-1b-21-0a-0b-ff"; "00-1b-21-0a-0b-ff"; "00-1b-21-0a-0b-ff"] [] = WinWireless 7 mac_x mac_x mac_x.
Proof.
  refine (proj1 (win_command_line [OptWireless; OptPriority 7] mac_x mac_x mac_x [] _ _ _ _));
    [repeat constructor; cbn; lia|..]; (split; [done|repeat constructor; done]).
Defined.
