(* ===== verification/Conditions.v ===== *)
(** * Condition variables, and a port that waits for its listening thread

    [OSCondition] (common/avbts_oscondition.hpp) with its Linux and its Windows
    class (linux/src/linux_hal_common.cpp, windows/daemon_cl/windows_hal.hpp), as
    programs of threads that interleave one action at a time, wake-ups without a
    signal included; and what the ports use them for: the thread that starts a
    port waits until the port's listening thread runs (common/ether_port.cpp,
    common/wireless_port.cpp). *)

From Stdlib Require Import ZArith Lia.
From stdpp Require Import base gmap list.
From S2P Require Import Prelude.

(** ** Actions

    What a thread does with the lock, the condition variable and [wait_count] of
    one condition, and the start of another thread.  [IRelock] is the second half
    of a wait: the lock is taken again before the wait returns. *)
Inductive Instr := ILock | IUp | ISleep | IRelock | IDown | IUnlock | IWakeAll | IStart (k : nat).
#[export] Instance Instr_eq_dec : EqDecision Instr.
Proof. solve_decision. Defined.

(** The operations.  [IWakeAll] wakes only while somebody is [waiting]; it is
    [pthread_cond_broadcast] or [WakeAllConditionVariable]. *)
Definition LinuxCondition_wait_prelock : list Instr := [ILock; IUp].
Definition LinuxCondition_wait : list Instr := [ISleep; IDown; IUnlock].
Definition LinuxCondition_signal : list Instr := [ILock; IWakeAll; IUnlock].
(** [result] is what [SleepConditionVariableSRW] returns; it is to be false only
    after a time-out, and none is set. *)
Definition WindowsCondition_wait_prelock : list Instr := [ILock; IUp].
Definition WindowsCondition_wait (result : bool) : list Instr :=
  ISleep :: if result then [IDown; IUnlock] else [].
Definition WindowsCondition_signal : list Instr := [ILock; IWakeAll; IUnlock].

(** ** Threads

    The rest of a thread's program, and whether it sleeps on the condition. *)
Record Thread := mkThread { code : list Instr; asleep : bool }.
#[export] Instance Thread_eq_dec : EqDecision Thread.
Proof. solve_decision. Defined.
Definition wake (t : Thread) : Thread := mkThread (code t) false.

Record State := mkState { owner : option nat; wait_count : Z; threads : list Thread }.
#[export] Instance State_eq_dec : EqDecision State.
Proof. solve_decision. Defined.

(** [up], [down] and [waiting] of [OSCondition]. *)
Definition up (s : State) : State := mkState (owner s) (wait_count s + 1) (threads s).
Definition down (s : State) : State := mkState (owner s) (wait_count s - 1) (threads s).
Definition waiting (s : State) : bool := 0 <? wait_count s.

Definition goes_on (i : nat) (c : list Instr) (s : State) : State :=
  mkState (owner s) (wait_count s) (<[i := mkThread c false]> (threads s)).
Definition with_owner (o : option nat) (s : State) : State := mkState o (wait_count s) (threads s).

Section Programs.
(** The programs of the threads that may be started. *)
Context (prog : nat -> list Instr).

(** The next action of the thread [i]; none while it waits for the lock or
    sleeps. *)
Definition step (i : nat) (s : State) : option State :=
  t ← threads s !! i;
  if asleep t then None else
  match code t with
  | [] => None
  | (ILock | IRelock) :: c => match owner s with Some _ => None | None => Some (with_owner (Some i) (goes_on i c s)) end
  | IUp :: c => Some (up (goes_on i c s))
  | IDown :: c => Some (down (goes_on i c s))
  | ISleep :: c =>
      Some (mkState None (wait_count s) (<[i := mkThread (IRelock :: c) true]> (threads s)))
  | IUnlock :: c => Some (with_owner None (goes_on i c s))
  | IWakeAll :: c =>
      let s := goes_on i c s in
      Some (if waiting s then mkState (owner s) (wait_count s) (wake <$> threads s) else s)
  | IStart k :: c =>
      let s := goes_on i c s in
      Some (mkState (owner s) (wait_count s) (threads s ++ [mkThread (prog k) false]))
  end.

(** A wake-up that nobody asked for. *)
Definition spurious (i : nat) (s : State) : option State :=
  t ← threads s !! i;
  if asleep t then Some (mkState (owner s) (wait_count s) (<[i := wake t]> (threads s))) else None.

Inductive Step (s : State) : State -> Prop :=
  | step_acts i s' : step i s = Some s' -> Step s s'
  | step_wakes i s' : spurious i s = Some s' -> Step s s'.
Inductive Reach (s0 : State) : State -> Prop :=
  | reach_start : Reach s0 s0
  | reach_step s s' : Reach s0 s -> Step s s' -> Reach s0 s'.

(** ** Discipline

    A program that has the lock ([h]) and has counted itself [n] times uses the
    condition as it is meant: it counts and wakes with the lock, sleeps only when
    it is counted, and leaves with neither. *)
Fixpoint disciplined (h : bool) (n : Z) (c : list Instr) : Prop :=
  match c with
  | [] => h = false /\ n = 0
  | ILock :: c' => h = false /\ disciplined true n c'
  | IRelock :: c' => h = false /\ 0 < n /\ disciplined true n c'
  | IUp :: c' => h = true /\ disciplined true (n + 1) c'
  | IDown :: c' => h = true /\ 0 < n /\ disciplined true (n - 1) c'
  | ISleep :: c' => h = true /\ 0 < n /\ disciplined true n c'
  | IUnlock :: c' => h = true /\ disciplined false n c'
  | IWakeAll :: c' => h = true /\ disciplined true n c'
  | IStart _ :: c' => disciplined h n c'
  end.
(** How often it has counted itself: what it still takes off. *)
Fixpoint counts (c : list Instr) : Z :=
  match c with
  | [] => 0
  | IUp :: c' => counts c' - 1
  | IDown :: c' => counts c' + 1
  | _ :: c' => counts c'
  end.
Lemma disciplined_counts h n c : disciplined h n c -> counts c = n.
Proof.
  revert h n. induction c as [|[] c IH]; intros h n; cbn.
  - by intros [_ ->].
  - intros [_ H]. by apply IH in H.
  - intros [_ H]. apply IH in H. lia.
  - intros (_ & _ & H). by apply IH in H.
  - intros (_ & _ & H). by apply IH in H.
  - intros (_ & _ & H). apply IH in H. lia.
  - intros [_ H]. by apply IH in H.
  - intros [_ H]. by apply IH in H.
  - apply IH.
Qed.

Fixpoint total (ts : list Thread) : Z := match ts with [] => 0 | t :: ts' => counts (code t) + total ts' end.
Lemma total_app l l' : total (l ++ l') = total l + total l'.
Proof. induction l as [|t l IH]; cbn; [done|]. lia. Qed.
Lemma total_insert l i t t' : l !! i = Some t -> total (<[i := t']> l) = total l - counts (code t) + counts (code t').
Proof.
  revert i. induction l as [|a l IH]; intros [|i] Hi; [done..| |].
  - injection Hi as ->. change (<[0%nat := t']> (t :: l)) with (t' :: l). cbn [total]. lia.
  - change (<[S i := t']> (a :: l)) with (a :: <[i := t']> l). cbn [total]. rewrite (IH i Hi). lia.
Qed.
Lemma total_wake l : total (wake <$> l) = total l.
Proof. induction l as [|t l IH]; [done|]. rewrite fmap_cons. cbn [total]. by rewrite IH. Qed.
Lemma total_some l t : (forall t, t ∈ l -> 0 <= counts (code t)) -> t ∈ l -> counts (code t) <= total l.
Proof.
  induction l as [|a l IH]; intros Hl Ht; [by apply elem_of_nil in Ht|]. cbn.
  pose proof (Hl a ltac:(left)) as Ha. apply elem_of_cons in Ht as [->|Ht].
  - assert (0 <= total l); [|lia]. clear -Hl. induction l as [|b l IH]; cbn; [lia|].
    pose proof (Hl b ltac:(right; left)).
    assert (0 <= total l); [|lia]. apply IH. intros u Hu. apply Hl. apply elem_of_cons in Hu as [->|Hu]; [left|by do 2 right].
  - assert (counts (code t) <= total l); [|lia]. apply IH; [|done]. intros u Hu. apply Hl. by right.
Qed.

(** ** The invariant

    Every thread is in the middle of a disciplined program, as the owner of the
    lock or not; it sleeps only inside a wait; the count is that of the threads
    that have counted themselves. *)
Record inv (s : State) : Prop := {
  inv_thread i t : threads s !! i = Some t ->
    0 <= counts (code t) /\ disciplined (bool_decide (owner s = Some i)) (counts (code t)) (code t) /\
    (asleep t = true -> exists c, code t = IRelock :: c);
  inv_count : wait_count s = total (threads s);
  inv_owner i : owner s = Some i -> (i < length (threads s))%nat;
}.

Context (Hprog : forall k, disciplined false 0 (prog k)).

Lemma inv_update s i t h n t' : inv s -> threads s !! i = Some t ->
  n = wait_count s - counts (code t) + counts (code t') -> 0 <= counts (code t') ->
  disciplined (bool_decide (h = Some i)) (counts (code t')) (code t') ->
  (asleep t' = true -> exists c, code t' = IRelock :: c) ->
  (forall j, j <> i -> bool_decide (h = Some j) = bool_decide (owner s = Some j)) ->
  inv (mkState h n (<[i := t']> (threads s))).
Proof.
  intros [Ht Hc Hb] Hi Hn H0 Hd Ha Ho. constructor; cbn.
  - intros j u. rewrite list_lookup_insert_Some. intros [(-> & <- & _)|[Hne Hj]]; [by split|].
    rewrite Ho by done. by apply Ht.
  - by rewrite (total_insert _ _ _ _ Hi), <- Hc.
  - intros j Hj. rewrite length_insert. destruct (decide (j = i)) as [->|Hne]; [by eapply lookup_lt_Some|].
    apply Hb. specialize (Ho j Hne). rewrite bool_decide_eq_true_2 in Ho by done. symmetry in Ho.
    by apply bool_decide_eq_true_1 in Ho.
Qed.

Lemma inv_woken s : inv s -> inv (mkState (owner s) (wait_count s) (wake <$> threads s)).
Proof.
  intros [Ht Hc Hb]. constructor; cbn; [|by rewrite total_wake|intros i Hi; rewrite length_fmap; by apply Hb].
  intros i t. rewrite list_lookup_fmap. intros (u & Hu & ->)%fmap_Some. destruct (Ht i u Hu) as (H0 & Hd & _).
  by repeat split.
Qed.

Lemma inv_started s k : inv s -> inv (mkState (owner s) (wait_count s) (threads s ++ [mkThread (prog k) false])).
Proof.
  intros [Ht Hc Hb]. pose proof (disciplined_counts _ _ _ (Hprog k)) as Hk. constructor; cbn.
  - intros i t. rewrite lookup_app_Some. intros [Hi|[Hl Hi]]; [by apply Ht|].
    apply list_lookup_singleton_Some in Hi as [Hi <-]. cbn. rewrite Hk. split; [done|]. split; [|done].
    rewrite bool_decide_eq_false_2; [apply Hprog|]. intros Ho.
    specialize (Hb i Ho). lia.
  - rewrite total_app. cbn. lia.
  - intros i Hi. rewrite length_app. specialize (Hb i Hi). lia.
Qed.

Lemma others o (i j : nat) : j <> i -> (o = None \/ o = Some i) ->
  bool_decide (o = Some j) = false /\ bool_decide (Some i = Some j) = false.
Proof. intros Hj Ho. split; apply bool_decide_eq_false_2; [destruct Ho as [->| ->]|]; congruence. Qed.

Lemma step_inv i s s' : inv s -> step i s = Some s' -> inv s'.
Proof.
  intros Hs. unfold step. destruct (threads s !! i) as [t|] eqn:Hi; [|done]. cbn [mbind option_bind].
  destruct (asleep t) eqn:Ha; [done|]. destruct (inv_thread s Hs i t Hi) as (H0 & Hd & _).
  pose proof (inv_update s i t) as Hup.
  destruct (code t) as [|a c] eqn:Hc; [done|].
  assert (Hown : forall b, bool_decide (owner s = Some i) = b -> if b then owner s = Some i else True)
    by (intros [] Hb; [by apply bool_decide_eq_true_1 in Hb|done]).
  assert (Hself : bool_decide (Some i = Some i) = true) by by apply bool_decide_eq_true_2.
  assert (Hnone : forall j : nat, bool_decide (None = Some j) = false) by (intros; by apply bool_decide_eq_false_2).
  destruct a; cbn [disciplined counts] in Hd, H0, Hup.
  - destruct (owner s) eqn:Ho; [done|]. intros [= <-]. destruct Hd as [_ Hd].
    apply Hup; cbn; try done; try lia; [by rewrite ?Hself|]. intros j Hj. destruct (others None i j Hj (or_introl eq_refl)). congruence.
  - intros [= <-]. destruct Hd as [Hb Hd]. pose proof (Hown _ Hb) as Ho. cbn in Ho.
    replace (counts c - 1 + 1) with (counts c) in Hd by lia.
    apply Hup; cbn; try done; try lia. by rewrite ?Hb.
  - intros [= <-]. destruct Hd as (Hb & Hn & Hd). pose proof (Hown _ Hb) as Ho. cbn in Ho.
    apply Hup; cbn; try done; try lia; [by intros _; eexists|].
    intros j Hj. destruct (others (Some i) i j Hj (or_intror eq_refl)). rewrite Ho. by rewrite ?Hnone.
  - destruct (owner s) eqn:Ho; [done|]. intros [= <-]. destruct Hd as (_ & Hn & Hd).
    apply Hup; cbn; try done; try lia; [by rewrite ?Hself|]. intros j Hj. destruct (others None i j Hj (or_introl eq_refl)). congruence.
  - intros [= <-]. destruct Hd as (Hb & Hn & Hd). pose proof (Hown _ Hb) as Ho. cbn in Ho.
    replace (counts c + 1 - 1) with (counts c) in Hd by lia.
    apply Hup; cbn; try done; try lia. by rewrite ?Hb.
  - intros [= <-]. destruct Hd as [Hb Hd]. pose proof (Hown _ Hb) as Ho. cbn in Ho.
    apply Hup; cbn; try done; try lia.
    intros j Hj. destruct (others (Some i) i j Hj (or_intror eq_refl)). rewrite Ho. by rewrite ?Hnone.
  - destruct Hd as [Hb Hd]. pose proof (Hown _ Hb) as Ho. cbn in Ho.
    assert (Hg : inv (goes_on i c s)) by (apply Hup; cbn; try done; try lia; by rewrite ?Hb).
    destruct (waiting (goes_on i c s)); intros [= <-]; [by apply (inv_woken (goes_on i c s))|done].
  - intros [= <-]. apply (inv_started (goes_on i c s)). apply Hup; cbn; try done; lia.
Qed.

Lemma spurious_inv i s s' : inv s -> spurious i s = Some s' -> inv s'.
Proof.
  intros Hs. unfold spurious. destruct (threads s !! i) as [t|] eqn:Hi; [|done]. cbn [mbind option_bind].
  destruct (asleep t); [|done]. intros [= <-]. destruct (inv_thread s Hs i t Hi) as (H0 & Hd & _).
  apply (inv_update s i t); cbn; try done. lia.
Qed.

Lemma reach_inv s s' : inv s -> Reach s s' -> inv s'.
Proof.
  intros Hs. induction 1 as [|s1 s2 _ IH Hst]; [done|]. destruct Hst; [by eapply step_inv|by eapply spurious_inv].
Qed.

(** ** No signal is lost

    Whoever has counted itself is awake after the wake-up, because the count says
    that there is somebody to be woken. *)
Lemma wake_all_wakes i t c s s' : inv s -> threads s !! i = Some t -> code t = IWakeAll :: c -> step i s = Some s' ->
  forall j u, threads s' !! j = Some u -> asleep u = false.
Proof.
  intros Hs Hi Hc Hst j u Hu. assert (Hs' : inv s') by (by eapply step_inv).
  revert Hst. unfold step. rewrite Hi. cbn [mbind option_bind]. destruct (asleep t); [done|]. rewrite Hc.
  destruct (waiting (goes_on i c s)) eqn:Hw; intros [= <-].
  - cbn in Hu. rewrite list_lookup_fmap in Hu. apply fmap_Some in Hu as (v & _ & ->). done.
  - destruct (asleep u) eqn:Ha; [|done]. exfalso. destruct (inv_thread _ Hs' j u Hu) as (H0 & Hd & Hr).
    destruct (Hr Ha) as [c' Hc']. rewrite Hc' in Hd. destruct Hd as (_ & Hn & _).
    assert (counts (code u) <= wait_count (goes_on i c s)).
    { rewrite (inv_count _ Hs'). apply total_some; [|by eapply list_elem_of_lookup_2].
      intros v Hv. apply list_elem_of_lookup_1 in Hv as [k Hk]. by apply (inv_thread _ Hs' k v Hk). }
    rewrite Hc' in H. unfold waiting in Hw. apply Z.ltb_ge in Hw. lia.
Qed.

(** ** Runs end

    An action or a wake-up makes the rest of the programs smaller. *)
Fixpoint weight0 (c : list Instr) : nat :=
  match c with [] => 0 | ISleep :: c' => 3 + weight0 c' | _ :: c' => 1 + weight0 c' end.
Fixpoint weight (c : list Instr) : nat :=
  match c with
  | [] => 0
  | ISleep :: c' => 3 + weight c'
  | IStart k :: c' => 1 + weight0 (prog k) + weight c'
  | _ :: c' => 1 + weight c'
  end.
Context (Hflat : forall k, weight (prog k) = weight0 (prog k)).

Definition thread_size (t : Thread) : nat := weight (code t) + if asleep t then 1 else 0.
Definition size (s : State) : nat := sum_list_with thread_size (threads s).
Lemma size_insert l i t t' : l !! i = Some t ->
  (sum_list_with thread_size (<[i := t']> l) + thread_size t = sum_list_with thread_size l + thread_size t')%nat.
Proof.
  revert i. induction l as [|a l IH]; intros [|i] Hi; [done..| |].
  - injection Hi as ->. cbn. lia.
  - specialize (IH i Hi). change (<[S i := t']> (a :: l)) with (a :: <[i := t']> l). cbn [sum_list_with]. lia.
Qed.
Lemma size_wake l : (sum_list_with thread_size (wake <$> l) <= sum_list_with thread_size l)%nat.
Proof.
  induction l as [|t l IH]; [done|]. rewrite fmap_cons. cbn [sum_list_with]. unfold thread_size at 1 3. cbn [wake code asleep].
  destruct (asleep t); lia.
Qed.

Lemma step_smaller s s' : Step s s' -> (size s' < size s)%nat.
Proof.
  unfold size. intros [i s1 Hst|i s1 Hst]; revert Hst.
  - unfold step. destruct (threads s !! i) as [t|] eqn:Hi; [|done]. cbn [mbind option_bind].
    destruct (asleep t) eqn:Ha; [done|]. pose proof (size_insert (threads s) i t) as Hsz.
    assert (Ht : thread_size t = weight (code t)) by (unfold thread_size; rewrite Ha; lia).
    destruct (code t) as [|a c] eqn:Hc; [done|]. rewrite Ht in Hsz.
    destruct a; cbn [weight] in Hsz; try match goal with |- context [match owner s with _ => _ end] => destruct (owner s) end; intros [= <-]; cbn [threads goes_on with_owner up down];
      pose proof (Hsz (mkThread c false) Hi) as Hsc; unfold thread_size in Hsc at 3; cbn [code asleep] in Hsc.
    all: try lia.
    + specialize (Hsz (mkThread (IRelock :: c) true) Hi). unfold thread_size in Hsz at 3. cbn [code asleep weight] in Hsz. lia.
    + case_match; cbn [threads goes_on]; [|lia]. pose proof (size_wake (<[i := mkThread c false]> (threads s))). lia.
    + rewrite sum_list_with_app. cbn [sum_list_with]. unfold thread_size at 2. cbn [code asleep]. rewrite Hflat. lia.
  - unfold spurious. destruct (threads s !! i) as [t|] eqn:Hi; [|done]. cbn [mbind option_bind].
    destruct (asleep t) eqn:Ha; [|done]. intros [= <-]. cbn [threads].
    pose proof (size_insert (threads s) i t (wake t) Hi) as Hsz. unfold thread_size in Hsz at 2 4. rewrite Ha in Hsz.
    cbn [wake code asleep] in Hsz. lia.
Qed.
End Programs.

(** ** Runs from the start *)

Definition ready_to_run (c : list Instr) : Thread := mkThread c false.
Definition start (cs : list (list Instr)) : State := mkState None 0 (ready_to_run <$> cs).

Lemma start_inv cs : Forall (disciplined false 0) cs -> inv (start cs).
Proof.
  intros Hcs. assert (Hc : forall c, c ∈ cs -> disciplined false 0 c) by by apply Forall_forall. constructor.
  - intros i t. cbn. rewrite list_lookup_fmap. intros (c & Hi & ->)%fmap_Some. cbn.
    apply list_elem_of_lookup_2 in Hi. pose proof (disciplined_counts _ _ _ (Hc c Hi)) as ->. repeat split; auto; done.
  - cbn. clear Hc. induction Hcs as [|c cs Hd _ IH]; [done|]. rewrite fmap_cons. cbn [total].
    rewrite <- IH. cbn. by rewrite (disciplined_counts _ _ _ Hd).
  - done.
Qed.

(** [n] actions or wake-ups one after the other. *)
Inductive Steps (prog : nat -> list Instr) (s : State) : nat -> State -> Prop :=
  | steps_none : Steps prog s 0 s
  | steps_more n s' s'' : Steps prog s n s' -> Step prog s' s'' -> Steps prog s (S n) s''.
Lemma steps_bound prog s n s' : (forall k, weight prog (prog k) = weight0 (prog k)) ->
  Steps prog s n s' -> (n + size prog s' <= size prog s)%nat.
Proof.
  intros Hf. induction 1 as [|n s1 s2 _ IH Hst]; [lia|]. pose proof (step_smaller prog Hf _ _ Hst). lia.
Qed.

(** ** The condition of a port *)

Record ConditionOps := { c_wait_prelock : list Instr; c_wait : list Instr; c_signal : list Instr }.
Definition LinuxCondition : ConditionOps :=
  {| c_wait_prelock := LinuxCondition_wait_prelock; c_wait := LinuxCondition_wait;
     c_signal := LinuxCondition_signal |}.
Definition WindowsCondition (result : bool) : ConditionOps :=
  {| c_wait_prelock := WindowsCondition_wait_prelock; c_wait := WindowsCondition_wait result;
     c_signal := WindowsCondition_signal |}.
Definition platforms : list ConditionOps := [LinuxCondition; WindowsCondition true].

(** What a thread does with a condition: it waits, and may start other threads
    once it has counted itself; or it signals. *)
Inductive Use := Waits (starts : list nat) | Signals.
Definition use_code (o : ConditionOps) (u : Use) : list Instr :=
  match u with
  | Waits starts => c_wait_prelock o ++ (IStart <$> starts) ++ c_wait o
  | Signals => c_signal o
  end.
Definition uses (o : ConditionOps) (us : list Use) : list Instr := concat (use_code o <$> us).

(** The threads of a port: the listening thread signals before its loop, which
    does not touch the condition; nor does the thread that watches the link. *)
Definition openPort (o : ConditionOps) : list Instr := c_signal o.
Definition port_threads (o : ConditionOps) (k : nat) : list Instr :=
  match k with O => openPort o | _ => [] end.

(** The start of a port, where the two threads can be started or not. *)
Definition EtherPort_start (o : ConditionOps) (link listening : bool) : list Instr :=
  c_wait_prelock o ++
  if link then IStart 1 :: (if listening then IStart 0 :: c_wait o else []) else [].
Definition WirelessPort_start (o : ConditionOps) (listening : bool) : list Instr :=
  c_wait_prelock o ++ if listening then IStart 0 :: c_wait o else [].

(** ** All states of a run

    The states that are reached from one, computed; a list that is closed under
    the steps holds them all. *)
Definition acts (prog : nat -> list Instr) (s : State) : list State :=
  omap (fun i => step prog i s) (seq 0 (length (threads s))).
Definition wakes (s : State) : list State := omap (fun i => spurious i s) (seq 0 (length (threads s))).
Definition next (prog : nat -> list Instr) (s : State) : list State := acts prog s ++ wakes s.

Fixpoint explore (next : State -> list State) (fuel : nat) (todo seen : list State) : list State :=
  match fuel, todo with
  | S f, s :: todo' =>
      let new := filter (fun s' => s' ∉ seen) (remove_dups (next s)) in
      explore next f (todo' ++ new) (seen ++ new)
  | _, _ => seen
  end.
Definition closed (next : State -> list State) (l : list State) : bool :=
  forallb (fun s => forallb (fun s' => bool_decide (s' ∈ l)) (next s)) l.

Lemma step_index prog i s s' : step prog i s = Some s' -> i ∈ seq 0 (length (threads s)).
Proof.
  unfold step. destruct (threads s !! i) eqn:Hi; [|done]. intros _. apply elem_of_seq.
  apply lookup_lt_Some in Hi. lia.
Qed.
Lemma spurious_index i s s' : spurious i s = Some s' -> i ∈ seq 0 (length (threads s)).
Proof.
  unfold spurious. destruct (threads s !! i) eqn:Hi; [|done]. intros _. apply elem_of_seq.
  apply lookup_lt_Some in Hi. lia.
Qed.
Lemma acts_spec prog i s s' : step prog i s = Some s' -> s' ∈ acts prog s.
Proof. intros H. apply list_elem_of_omap. exists i. split; [by eapply step_index|done]. Qed.
Lemma next_spec prog s s' : Step prog s s' -> s' ∈ next prog s.
Proof.
  intros [i s1 H|i s1 H]; apply elem_of_app; [left; by eapply acts_spec|right].
  apply list_elem_of_omap. exists i. split; [by eapply spurious_index|done].
Qed.
Lemma closed_next nx l s s' : closed nx l = true -> s ∈ l -> s' ∈ nx s -> s' ∈ l.
Proof.
  unfold closed. rewrite forallb_forall. intros H Hs Hs'. apply list_elem_of_In in Hs. specialize (H s Hs).
  rewrite forallb_forall in H. apply list_elem_of_In in Hs'. specialize (H s' Hs'). by apply bool_decide_eq_true_1 in H.
Qed.
Lemma reach_closed prog l s0 s : closed (next prog) l = true -> s0 ∈ l -> Reach prog s0 s -> s ∈ l.
Proof.
  intros Hc H0. induction 1 as [|s1 s2 _ IH Hst]; [done|]. by eapply closed_next, next_spec.
Qed.

(** ** The theorems *)

(** The operations of both platforms are disciplined. *)
Lemma uses_disciplined o us : o ∈ platforms -> disciplined false 0 (uses o us).
Proof.
  intros Ho. unfold uses. induction us as [|u us IH]; [by split|]. cbn [fmap list_fmap concat].
  revert IH. generalize (concat (use_code o <$> us)). intros c Hc.
  apply elem_of_cons in Ho as [->|[->|[]%elem_of_nil]%elem_of_cons]; destruct u as [starts|]; cbn; try done;
    (split; [done|]; split; [done|]; rewrite <- app_assoc; induction starts as [|k starts IH]; [by cbn|exact IH]).
Qed.

(** C25: no signal of a condition is lost.  On both platforms, for any number of
    threads that wait and signal as often as they like, and start others: the lock
    has one owner, the count is exactly that of the threads between [wait_prelock]
    and the end of their [wait], and when [signal] comes to its wake-up nobody
    stays asleep, although it wakes only while the count says that somebody
    waits. *)
Theorem no_signal_lost o (programs : nat -> list Use) (first : list (list Use)) s i t c s' :
  let prog k := uses o (programs k) in
  o ∈ platforms -> Reach prog (start (uses o <$> first)) s ->
  threads s !! i = Some t -> code t = IWakeAll :: c -> step prog i s = Some s' ->
  owner s = Some i /\ wait_count s = total (threads s) /\
  (forall j u, threads s !! j = Some u -> 0 <= counts (code u) /\ (asleep u = true -> 0 < counts (code u))) /\
  (forall j u, threads s' !! j = Some u -> asleep u = false).
Proof.
  intros prog Hpl Hr Hi Hc Hst. assert (Hp : forall k, disciplined false 0 (prog k)) by (intros k; by apply uses_disciplined).
  assert (Hs : inv s).
  { eapply reach_inv; [exact Hp| |exact Hr]. apply start_inv, Forall_fmap, Forall_true. intros us. by apply uses_disciplined. }
  destruct (inv_thread s Hs i t Hi) as (_ & Hd & _). rewrite Hc in Hd. destruct Hd as [Ho _].
  split; [by apply bool_decide_eq_true_1 in Ho|]. split; [apply (inv_count s Hs)|]. split.
  - intros j u Hj. destruct (inv_thread s Hs j u Hj) as (H0 & Hd & Ha). split; [done|]. intros Hu.
    destruct (Ha Hu) as [c' Hc']. rewrite Hc' in Hd |- *. by destruct Hd as (_ & Hn & _).
  - by apply (wake_all_wakes prog Hp i t c s s').
Qed.

(** The port's start is over, and nothing is left of it. *)
Definition ended (s : State) : bool :=
  forallb (fun t => bool_decide (code t = []) && negb (asleep t)) (threads s) &&
  bool_decide (owner s = None) && bool_decide (wait_count s = 0).
(** The listening thread, the [k]-th, has come to its signal. *)
Definition signalled (k : nat) (s : State) : bool :=
  match threads s !! k with Some t => bool_decide (IWakeAll ∉ code t) | None => false end.
Definition first_code (s : State) : list Instr := match threads s with t :: _ => code t | [] => [] end.

(** Runs without wake-ups that nobody asked for. *)
Inductive Acts (prog : nat -> list Instr) (s0 : State) : State -> Prop :=
  | acts_start : Acts prog s0 s0
  | acts_step s i s' : Acts prog s0 s -> step prog i s = Some s' -> Acts prog s0 s'.
Lemma acts_closed prog l s0 s : closed (acts prog) l = true -> s0 ∈ l -> Acts prog s0 s -> s ∈ l.
Proof. intros Hc H0. induction 1 as [|s1 i s2 _ IH Hst]; [done|]. by eapply closed_next, acts_spec. Qed.

(** A property of all states that are reached, by computing them. *)
Definition all_states (nx : State -> list State) (P : State -> bool) (s0 : State) : bool :=
  let l := explore nx 400 [s0] [s0] in closed nx l && bool_decide (s0 ∈ l) && forallb P l.
Lemma check_reach prog P s0 s : all_states (next prog) P s0 = true -> Reach prog s0 s -> P s = true.
Proof.
  unfold all_states. set (l := explore _ _ _ _). intros [[Hc H0]%andb_prop HP]%andb_prop Hr. apply bool_decide_eq_true_1 in H0. rewrite forallb_forall in HP.
  apply HP, list_elem_of_In. by eapply reach_closed.
Qed.
Lemma check_acts prog P s0 s : all_states (acts prog) P s0 = true -> Acts prog s0 s -> P s = true.
Proof.
  unfold all_states. set (l := explore _ _ _ _). intros [[Hc H0]%andb_prop HP]%andb_prop Hr. apply bool_decide_eq_true_1 in H0. rewrite forallb_forall in HP.
  apply HP, list_elem_of_In. by eapply acts_closed.
Qed.
Lemma acts_none prog s : (forall i, step prog i s = None) -> acts prog s = [].
Proof.
  intros H. unfold acts. induction (seq 0 (length (threads s))) as [|i l IH]; [done|]. cbn. by rewrite H.
Qed.

(** The start of a port with its condition, and the place of the listening
    thread. *)
Definition port_starts (o : ConditionOps) : list (list Instr * nat) :=
  [(EtherPort_start o true true, 2%nat); (WirelessPort_start o true, 1%nat)].
Definition failed_starts (o : ConditionOps) : list (list Instr) :=
  [EtherPort_start o false false; EtherPort_start o true false; WirelessPort_start o false].

(** What is checked of one start, in its finitely many states. *)
Definition checked (o : ConditionOps) (p : list Instr) (k : nat) : bool :=
  (size (port_threads o) (start [p]) <=? 12)%nat &&
  all_states (next (port_threads o))
    (fun s => (ended s && signalled k s) || negb (bool_decide (acts (port_threads o) s = []))) (start [p]) &&
  all_states (acts (port_threads o))
    (fun s => negb (bool_decide (first_code s = [])) || signalled k s) (start [p]) &&
  forallb (fun f => all_states (next (port_threads o))
                      (fun s => (length p <=? length (first_code s))%nat) (start [f ++ p])) (failed_starts o).
Lemma all_checked : forallb (fun o => forallb (fun pk => checked o pk.1 pk.2) (port_starts o)) platforms = true.
Proof. by vm_compute. Qed.

Lemma port_flat o : o ∈ platforms -> forall k, weight (port_threads o) (port_threads o k) = weight0 (port_threads o k).
Proof. by intros [->|[->|[]%elem_of_nil]%elem_of_cons]%elem_of_cons [|k]. Qed.


(** ** Runs *)

(** The actions of the threads [js], one after the other. *)
Fixpoint run (prog : nat -> list Instr) (js : list nat) (s : State) : option State :=
  match js with [] => Some s | i :: js' => s' ← step prog i s; run prog js' s' end.
Lemma run_reach prog js : forall s0 s s', Reach prog s0 s -> run prog js s = Some s' -> Reach prog s0 s'.
Proof.
  induction js as [|i js IH]; intros s0 s s' Hr; cbn; [by intros [= <-]|].
  destruct (step prog i s) as [s1|] eqn:E; [|done]. cbn. apply IH. eapply reach_step; [exact Hr|by eapply step_acts].
Qed.

(** The wait has no loop: a wake-up that nobody asked for, and the start of the
    port goes on before the listening thread has begun. *)
Lemma woken_early : exists s,
  Reach (port_threads LinuxCondition) (start [WirelessPort_start LinuxCondition true]) s /\
  first_code s = [] /\ signalled 1 s = false /\ wait_count s = 0.
Proof.
  destruct (run (port_threads LinuxCondition) [0; 0; 0; 0]%nat (start [WirelessPort_start LinuxCondition true]))
    as [s1|] eqn:E1; [|by vm_compute in E1].
  destruct (spurious 0 s1) as [s2|] eqn:E2; [|vm_compute in E1; injection E1 as <-; by vm_compute in E2].
  destruct (run (port_threads LinuxCondition) [0; 0; 0]%nat s2) as [s3|] eqn:E3;
    [|vm_compute in E1; injection E1 as <-; vm_compute in E2; injection E2 as <-; by vm_compute in E3].
  exists s3. split.
  - eapply run_reach; [|exact E3]. eapply reach_step; [|by eapply step_wakes].
    eapply run_reach; [apply reach_start|exact E1].
  - vm_compute in E1. injection E1 as <-. vm_compute in E2. injection E2 as <-. vm_compute in E3. injection E3 as <-.
    by vm_compute.
Qed.

(** A waiting thread and one that signals. *)
Definition one_waits : list (list Instr) := uses LinuxCondition <$> [[Waits []]; [Signals]].
Definition before_wake : State := default (start []) (run (fun _ => []) [0; 0; 0; 1]%nat (start one_waits)).
Definition after_wake : State := default (start []) (step (fun _ => []) 1 before_wake).

Lemma no_signal_lost_witness :
  (exists u, threads before_wake !! 0%nat = Some u /\ asleep u = true) /\
  forall j u, threads after_wake !! j = Some u -> asleep u = false.
Proof.
  split; [by eexists; vm_compute|].
  apply (no_signal_lost LinuxCondition (fun _ => []) [[Waits []]; [Signals]] before_wake 1 (mkThread [IWakeAll; IUnlock] false) [IUnlock] after_wake).
  - by left.
  - apply (run_reach _ [0; 0; 0; 1]%nat _ (start one_waits)); [apply reach_start|by vm_compute].
  - by vm_compute.
  - done.
  - by vm_compute.
Defined.

