(* ===== verification/LinuxThreads.v ===== *)
(** * Locks, sleeping and threads of the Linux build

    [LinuxLock], [LinuxTimer] and [LinuxThread] (linux/src/linux_hal_common.cpp),
    with the sleeping timer and the threads of the Windows build
    (windows/daemon_cl/windows_hal.hpp), whose lock is in WinThreads.v.  What the
    system answers is an argument. *)

From Stdlib Require Import ZArith Lia.
From stdpp Require Import base gmap list.
From S2P Require Import Prelude World WinThreads.

(** ** LinuxLock *)

(** The mutex of the threads library, recursive or not: a thread that has one
    which is not recursive waits for itself.  None is the wait. *)
Definition pthread_mutex_lock (recursive : bool) (thread : nat) (m : Mutex) : option Mutex :=
  match m with
  | None => Some (Some (thread, 1%nat))
  | Some (owner, n) => if recursive && (owner =? thread)%nat then Some (Some (owner, S n)) else None
  end.
(** It may be given back by its owner; for another thread a recursive one fails,
    and else the behaviour is undefined. *)
Definition pthread_mutex_unlock (recursive : bool) (thread : nat) (m : Mutex) : option (Z * Mutex) :=
  match m with
  | Some (owner, S n) =>
      if (owner =? thread)%nat then Some (0, match n with O => None | S _ => Some (owner, n) end)
      else if recursive then Some (1, m) else None
  | _ => if recursive then Some (1, m) else None
  end.

Record LinuxLock := mkLinuxLock { ll_recursive : bool; ll_mutex : Mutex }.
#[export] Instance eta_LinuxLock : Settable LinuxLock := fun l => mkLinuxLock (ll_recursive l) (ll_mutex l).

(** [initialize]: the outcome of [pthread_mutex_init]. *)
Definition LinuxLock_initialize (type : OSLockType) (lock_c : Z) : option LinuxLock :=
  if lock_c =? 0
  then Some (mkLinuxLock match type with oslock_recursive => true | oslock_nonrecursive => false end None)
  else None.
Definition LinuxLock_lock (thread : nat) (l : LinuxLock) : option (OSLockResult * LinuxLock) :=
  m ← pthread_mutex_lock (ll_recursive l) thread (ll_mutex l); Some (oslock_ok, l <| ll_mutex := m |>).
Definition LinuxLock_trylock (thread : nat) (l : LinuxLock) : OSLockResult * LinuxLock :=
  match pthread_mutex_lock (ll_recursive l) thread (ll_mutex l) with
  | Some m => (oslock_ok, l <| ll_mutex := m |>)
  | None => (oslock_fail, l)
  end.
Definition LinuxLock_unlock (thread : nat) (l : LinuxLock) : option (OSLockResult * LinuxLock) :=
  r ← pthread_mutex_unlock (ll_recursive l) thread (ll_mutex l);
  Some (if r.1 =? 0 then oslock_ok else oslock_fail, l <| ll_mutex := r.2 |>).

(** ** Sleeping *)

(** [struct timespec] *)
Record timespec := mkTimespec { tv_sec : Z; tv_nsec : Z }.
Definition ts_ns (t : timespec) : Z := tv_sec t * 1000000000 + tv_nsec t.
Inductive Nanosleep := Slept | Interrupted (rem : timespec) | SleepError.
(** What [sleep] ends with: its result, or [_exit]; with the nanoseconds that the
    calls have slept. *)
Inductive SleepEnd := Returns (micros slept : Z) | Exits (slept : Z) | StillSleeping (slept : Z).

(** [LinuxTimer::sleep]: the answers of the calls of [nanosleep], in their order. *)
Fixpoint nanosleep_loop (micros : Z) (req : timespec) (slept : Z) (answers : list Nanosleep) : SleepEnd :=
  match answers with
  | [] => StillSleeping slept
  | Slept :: _ => Returns micros (slept + ts_ns req)
  | Interrupted rem :: answers' => nanosleep_loop micros rem (slept + (ts_ns req - ts_ns rem)) answers'
  | SleepError :: _ => Exits slept
  end.
Definition sleep_request (micros : Z) : timespec := mkTimespec (micros / 1000000) (micros mod 1000000 * 1000).
Definition LinuxTimer_sleep (micros : Z) (answers : list Nanosleep) : SleepEnd :=
  nanosleep_loop micros (sleep_request micros) 0 answers.

(** [WindowsTimer::sleep]: the milliseconds that it asks for, and its result. *)
Definition WindowsTimer_sleep (micros : Z) : Z * Z := (u32 (micros / 1000), micros).

(** ** Threads *)

Definition SIGALRM : Z := 14.
(** The signals that a thread has blocked. *)
Abbreviation SigMask := (gset Z).

(** [LinuxThread::start]: the outcomes of its three calls; its result, the mask of
    the caller after it, and that of the new thread, which inherits it. *)
Definition LinuxThread_start (block create restore : Z) (mask : SigMask) : bool * SigMask * option SigMask :=
  if negb (block =? 0) then (false, mask, None)
  else
    let blocked := mask ∪ {[SIGALRM]} in
    if negb (create =? 0) then (false, blocked, None)
    else
      let oset := mask ∖ {[SIGALRM]} in
      if negb (restore =? 0) then (false, blocked, Some blocked) else (true, oset, Some blocked).

(** [OSThreadArg] in the memory that [start] takes for it; the function's result
    is there when the thread has ended. *)
Abbreviation ArgHeap := (gmap nat (option Z)).
Definition LinuxThread_run (arg : nat) (ret : Z) (h : ArgHeap) : ArgHeap := <[arg := Some ret]> h.
(** [join]: none where the memory is not there any more; it waits for the thread,
    so that its result is there. *)
Definition LinuxThread_join (joined : Z) (arg : nat) (h : ArgHeap) : option (option Z * ArgHeap) :=
  if negb (joined =? 0) then Some (None, h)
  else match h !! arg with
       | Some (Some ret) => Some (Some ret, base.delete arg h)
       | _ => None
       end.
(** [WindowsThread] *)
Definition WindowsThread_start (created : bool) (arg : nat) (h : ArgHeap) : bool * ArgHeap :=
  (created, <[arg := None]> h).
Definition WindowsThread_join (wait_object_0 : bool) (arg : nat) (h : ArgHeap) : option (option Z * ArgHeap) :=
  if wait_object_0
  then match h !! arg with Some (Some ret) => Some (Some ret, base.delete arg h) | _ => None end
  else Some (None, h).

(** ** The two locks *)

(** A recursive lock of Linux does what one of Windows does, but for the name of
    the refusal; given back by its owner, it is free when the Windows lock is. *)
Lemma linux_lock_agrees thread m : pthread_mutex_lock true thread m = mutex_wait thread m.
Proof. by destruct m as [[owner n]|]. Qed.
Lemma linux_unlock_agrees thread m n : m = Some (thread, S n) ->
  pthread_mutex_unlock true thread m = Some (0, mutex_release thread m).
Proof. intros ->. cbn. unfold mutex_release. by rewrite Nat.eqb_refl. Qed.

(** A lock that is not recursive: on Linux a thread that takes it again waits for
    itself for ever; on Windows it is told so. *)
Lemma nonrecursive_differs thread garbage l r w : LinuxLock_initialize oslock_nonrecursive 0 = Some l ->
  LinuxLock_lock thread l = Some r -> win_lock thread (lock_new oslock_nonrecursive garbage) = Some w ->
  garbage <> thread ->
  LinuxLock_lock thread r.2 = None /\ (LinuxLock_trylock thread r.2).1 = oslock_fail /\
  exists l', win_lock thread w.2 = Some (oslock_self, l').
Proof.
  intros [= <-] [= <-] Hw Hg. revert Hw. cbn. destruct (Nat.eqb_spec garbage thread); [done|].
  intros [= <-]. split; [done|]. split; [done|]. unfold win_lock, nonreentrant_lock_l. cbn. rewrite !Nat.eqb_refl.
  by eexists.
Qed.

(** ** Sleeping takes its time *)

Lemma sleep_request_ns micros : 0 <= micros -> ts_ns (sleep_request micros) = micros * 1000 /\
  0 <= tv_nsec (sleep_request micros) < 1000000000.
Proof.
  intros Hm. unfold ts_ns, sleep_request. cbn. pose proof (Z.div_mod micros 1000000 ltac:(lia)).
  pose proof (Z.mod_pos_bound micros 1000000 ltac:(lia)). lia.
Qed.
Lemma nanosleep_loop_sum micros answers : forall req slept r s,
  nanosleep_loop micros req slept answers = Returns r s -> r = micros /\ s = slept + ts_ns req.
Proof.
  induction answers as [|[|rem|] answers IH]; intros req slept r s; cbn; [done|by intros [= <- <-]| |done].
  intros [-> ->]%IH. split; [done|]. lia.
Qed.
(** However often signals interrupt it, a sleep that returns has slept what was
    asked for. *)
Lemma sleep_exact micros answers r s : 0 <= micros -> LinuxTimer_sleep micros answers = Returns r s ->
  r = micros /\ s = micros * 1000.
Proof. intros Hm [-> ->]%nanosleep_loop_sum. split; [done|]. by rewrite (proj1 (sleep_request_ns micros Hm)). Qed.
(** On Windows it is cut to whole milliseconds: less than one is none. *)
Lemma windows_sleep_short micros : 0 <= micros < 1000 -> WindowsTimer_sleep micros = (0, micros).
Proof. intros Hm. unfold WindowsTimer_sleep. by rewrite Z.div_small. Qed.

(** ** The timer's signal *)

(** A thread that is started has the timers' signal blocked, and its caller has it
    unblocked; but a start that fails leaves it blocked in the caller. *)
Lemma thread_start_mask create restore mask ok caller new :
  LinuxThread_start 0 create restore mask = (ok, caller, new) ->
  (ok = true -> (SIGALRM ∉ caller) /\ (forall s, s <> SIGALRM -> (s ∈ caller <-> s ∈ mask)) /\
     (exists m, new = Some m /\ SIGALRM ∈ m)) /\
  (ok = false -> SIGALRM ∈ caller).
Proof.
  unfold LinuxThread_start. cbn. destruct (create =? 0); cbn; [destruct (restore =? 0); cbn|]; intros [= <- <- <-].
  - split; [|done]. intros _. split; [set_solver|]. split; [set_solver|]. eexists. split; [done|set_solver].
  - split; [done|set_solver].
  - split; [done|set_solver].
Qed.
(** A thread is joined once. *)
Lemma join_once arg ret h : let h' := LinuxThread_run arg ret h in exists h'',
  LinuxThread_join 0 arg h' = Some (Some ret, h'') /\ LinuxThread_join 0 arg h'' = None.
Proof.
  intros h'. subst h'. exists (base.delete arg (<[arg := Some ret]> h)). unfold LinuxThread_join, LinuxThread_run.
  change (negb (0 =? 0)) with false. cbn iota. rewrite lookup_insert_eq. split; [done|]. by rewrite lookup_delete_eq.
Qed.
