(* ===== verification/LinuxDrivers.v ===== *)
(** * The other timestamping hardware of the Linux build

    [LinuxTimestamperIntelCE] with its own [nrecv]
    (linux/src/linux_hal_intelce.cpp, .hpp), and the pulse per second output of
    the i210 (linux/src/linux_hal_i210.cpp).  What the drivers answer is an
    argument; the registers of the card are a map. *)

From Stdlib Require Import ZArith Lia.
From stdpp Require Import base gmap list.
From S2P Require Import Prelude Timestamp Identity Message Wire World Transmit LinuxNet.

(** ** LinuxTimestamperIntelCE *)

Definition NET_CLOCK_ADJUST : Z := 1000 / 25.
Definition TX_PHY_TIME : Z := 8000.
Definition RX_PHY_TIME : Z := 8000.
Definition scale_clock (count : Z) : Z := u64 (count * NET_CLOCK_ADJUST).

(** What the driver's clock answers: its result, the time, which is what was there
    before when it has none, and the identity and the number of the captured
    message, as they are on the wire. *)
Inductive IsmdResult := ISMD_SUCCESS | ISMD_ERROR_NO_DATA_AVAILABLE | ISMD_ERROR.
#[export] Instance IsmdResult_eq_dec : EqDecision IsmdResult.
Proof. solve_decision. Defined.
Record Captured := mkCaptured { cap_result : IsmdResult; cap_time : Z; msgid : list Z; msgseq : list Z }.

Record IntelCE := mkIntelCE { last_tx_time : Z; last_rx_time : Z; ce_version : Z }.
#[export] Instance eta_IntelCE : Settable IntelCE := fun c => mkIntelCE (last_tx_time c) (last_rx_time c) (ce_version c).
Definition IntelCE_new (version : Z) : IntelCE := mkIntelCE 0 0 version.

Definition captured_id (a : Captured) : PortIdentity :=
  mkPortIdentity (take 8 (msgid a)) (default 0 (rd16 8 (msgid a))).
Definition captured_sequence (a : Captured) : Z := default 0 (rd16 0 (msgseq a)).

(** The code, the timestamp and the counter of a success, and the times that were
    seen last. *)
Definition ce_timestamp_common (identity : PortIdentity) (sequenceId : Z) (tx : bool) (a : Captured) (c : IntelCE)
    : Z * option (Timestamp * Z) * IntelCE :=
  let last := if tx then last_tx_time c else last_rx_time c in
  let '(result, c) :=
    if cap_time a =? last then (ISMD_ERROR_NO_DATA_AVAILABLE, c)
    else (cap_result a, if tx then c <| last_tx_time := cap_time a |> else c <| last_rx_time := cap_time a |>) in
  match result with
  | ISMD_ERROR_NO_DATA_AVAILABLE => (GPTP_EC_EAGAIN, None, c)
  | ISMD_ERROR => (GPTP_EC_FAILURE, None, c)
  | ISMD_SUCCESS =>
      let timestamp_s := scale_clock (cap_time a) in
      if negb (captured_sequence a =? sequenceId) || pid_ne (captured_id a) identity
      then (GPTP_EC_EAGAIN, None, c)
      else
        let timestamp_s := u64 (if tx then timestamp_s + TX_PHY_TIME else timestamp_s - RX_PHY_TIME) in
        (GPTP_EC_SUCCESS,
         Some (set64 (timestamp 0 0 0) timestamp_s <| _version := ce_version c |>, u32 timestamp_s), c)
  end.
Definition ce_txtimestamp (identity : PortIdentity) (mid : PTPMessageId) (a : Captured) (c : IntelCE)
    : Z * option (Timestamp * Z) * IntelCE :=
  ce_timestamp_common identity (_sequenceId mid) true a c.
Definition ce_rxtimestamp (identity : PortIdentity) (mid : PTPMessageId) (a : Captured) (c : IntelCE)
    : Z * option (Timestamp * Z) * IntelCE :=
  ce_timestamp_common identity (_sequenceId mid) false a c.

(** [post_init] and [HWTimestamper_init]: the driver's results. *)
Definition ce_post_init (filter : IsmdResult) : bool := bool_decide (filter = ISMD_SUCCESS).
Definition ce_init (alloc : IsmdResult) : bool := bool_decide (alloc = ISMD_SUCCESS).
(** The system's time and the card's, of the event that was triggered. *)
Definition ce_gettime (trigger correlated : IsmdResult) (system device : Z) (system_time device_time : Timestamp)
    : option (Timestamp * Timestamp) :=
  if negb (bool_decide (trigger = ISMD_SUCCESS)) then None
  else if negb (bool_decide (correlated = ISMD_SUCCESS)) then None
  else Some (set64 system_time system, set64 device_time (scale_clock device)).

(** [LinuxNetworkInterface::nrecv] of this build.  The sender's address is taken
    from a structure that nobody has filled in: [stack] is what was there.  A lock
    that is busy is fatal. *)
Inductive Recv := RecvFailed | Received (data : list Z).
Definition ce_nrecv_locked (sel : Select) (r : Recv) (stack : LinkLayerAddress) (buf : list Z)
    : NetResult * list Z :=
  match sel with
  | SelTimeout | SelNotOurs => (net_trfail, buf)
  | SelFailed _ => (net_fatal, buf)
  | SelReady =>
      match r with
      | RecvFailed => (net_fatal, buf)
      | Received data =>
          let data := take (length buf) data in
          (net_succeed (take 6 stack) (Z.of_nat (length data)), data ++ drop (length data) buf)
      end
  end.
Definition ce_nrecv (lk : LockResult) (sel : Select) (r : Recv) (stack : LinkLayerAddress) (unlocked : bool)
    (buf : list Z) : NetResult * list Z :=
  match lk with
  | LockGot => let '(ret, buf) := ce_nrecv_locked sel r stack buf in (if unlocked then ret else net_fatal, buf)
  | LockFailed | LockBusy => (net_fatal, buf)
  end.

(** ** The pulse per second output of the i210 *)

Definition IGB_CTRL : Z := 0x0000.
Definition TSSDP : Z := 0x003C.
Definition SYSTIMH : Z := 0xB604.
Definition TSAUXC : Z := 0xB640.
Definition TRGTTIML0 : Z := 0xB644.
Definition TRGTTIMH0 : Z := 0xB648.
Definition FREQOUT0 : Z := 0xB654.

(** The registers, of 32 bits. *)
Definition Registers : Type := Z -> Z.
Definition igb_writereg (reg v : Z) (r : Registers) : Registers := fun x => if x =? reg then u32 v else r x.

(** [pci_connect], which clears the device first: the first device that is probed and attached. *)
Fixpoint pci_connect (devices : list (bool * bool)) (k : nat) : option nat :=
  match devices with
  | [] => None
  | (probed, attached) :: devices' => if probed && attached then Some k else pci_connect devices' (S k)
  end.

(** [LinuxTimestamperIGBPrivate]: the device, and whether it is initialised, which
    the allocation leaves as it finds it. *)
Record IgbPrivate := mkIgb { igb_dev : option nat; igb_initd : bool }.
#[export] Instance eta_IgbPrivate : Settable IgbPrivate := fun p => mkIgb (igb_dev p) (igb_initd p).

Definition pps_registers (r : Registers) : Registers :=
  let r := igb_writereg TRGTTIMH0 (u32 (r SYSTIMH + 2)) r in
  let r := igb_writereg TRGTTIML0 0 r in
  let r := igb_writereg FREQOUT0 500000000 r in
  let r := igb_writereg IGB_CTRL (Z.lor (r IGB_CTRL) 0x400000) r in
  let r := igb_writereg TSSDP (Z.lor (Z.land (r TSSDP) (Z.lnot 0x40)) 0x80) r in
  let r := igb_writereg TSSDP (Z.lor (r TSSDP) 0x100) r in
  igb_writereg TSAUXC (Z.lor (r TSAUXC) 0x14) r.
Definition HWTimestamper_PPS_start (devices : list (bool * bool)) (initialised garbage : bool)
    (igb_private : option IgbPrivate) (r : Registers) : bool * option IgbPrivate * Registers :=
  let p := default (mkIgb None garbage) igb_private in
  match pci_connect devices 0 with
  | None => (false, Some (p <| igb_dev := None |>), r)
  | Some k =>
      let p := p <| igb_dev := Some k |> in
      if negb initialised then (false, Some p, r)
      else (true, Some (p <| igb_initd := true |>), pps_registers r)
  end.
(** None is a null pointer. *)
Definition HWTimestamper_PPS_stop (igb_private : option IgbPrivate) (r : Registers) : option (bool * Registers) :=
  p ← igb_private;
  if negb (igb_initd p) then Some (false, r)
  else Some (true, igb_writereg TSAUXC (Z.land (r TSAUXC) (Z.lnot 0x14)) r).

(** ** The captured times *)

(** What a success gives: the scaled time with the delay of the card, of the
    message that was asked for, and a time that was not seen before. *)
Lemma ce_success identity seq tx a c t v c' :
  ce_timestamp_common identity seq tx a c = (GPTP_EC_SUCCESS, Some (t, v), c') ->
  cap_result a = ISMD_SUCCESS /\ captured_sequence a = seq /\ pid_ne (captured_id a) identity = false /\
  cap_time a <> (if tx then last_tx_time c else last_rx_time c) /\
  cap_time a = (if tx then last_tx_time c' else last_rx_time c') /\
  TIMESTAMP_TO_NS t = u64 (cap_time a * 40 + (if tx then 8000 else - 8000)) /\ v = u32 (TIMESTAMP_TO_NS t) /\
  _version t = ce_version c.
Proof.
  unfold ce_timestamp_common. destruct (Z.eqb_spec (cap_time a) (if tx then last_tx_time c else last_rx_time c)) as [|Hne]; [done|].
  destruct (cap_result a); [|done|done].
  destruct (Z.eqb_spec (captured_sequence a) seq); cbn [negb orb]; [|done].
  destruct (pid_ne (captured_id a) identity) eqn:Hid; [done|].
  set (s := u64 (if tx then _ else _)). intros [= <- <- <-].
  assert (Hs : fits 64 s) by (apply (uwrap_fits 64); lia).
  destruct (set64_TO_NS (timestamp 0 0 0) s Hs) as (Hv & _ & _).
  assert (Hs' : s = u64 (cap_time a * 40 + (if tx then 8000 else - 8000))).
  { subst s. unfold scale_clock, u64, uwrap, NET_CLOCK_ADJUST, TX_PHY_TIME, RX_PHY_TIME. change (1000 / 25) with 40.
    destruct tx; [by rewrite Zplus_mod_idemp_l|by rewrite Zminus_mod_idemp_l]. }
  split; [done|]. split; [done|]. split; [done|]. split; [done|].
  split; [by destruct tx|].
  split; [transitivity s; [exact Hv|exact Hs']|]. split; [f_equal; symmetry; exact Hv|]. by destruct tx.
Qed.

(** A time is given once: asked again with the same capture, the driver has
    nothing, for any message.  So the capture of another message is used up too. *)
Lemma ce_once identity seq tx a c : let r := ce_timestamp_common identity seq tx a c in
  forall identity' seq' a', cap_time a' = cap_time a ->
  ce_timestamp_common identity' seq' tx a' r.2 = (GPTP_EC_EAGAIN, None, r.2).
Proof.
  cbn zeta. intros identity' seq' a' Ha. unfold ce_timestamp_common at 1.
  assert (Hl : cap_time a' = (if tx then last_tx_time (ce_timestamp_common identity seq tx a c).2
                              else last_rx_time (ce_timestamp_common identity seq tx a c).2)).
  { rewrite Ha. unfold ce_timestamp_common. destruct (Z.eqb_spec (cap_time a) (if tx then last_tx_time c else last_rx_time c)) as [E|_].
    - by destruct tx.
    - destruct (cap_result a); repeat case_match; by destruct tx. }
  by rewrite (proj2 (Z.eqb_eq _ _) Hl).
Qed.

(** Transmission and reception do not see each other's times. *)
Lemma ce_separate identity seq tx a c : let c' := (ce_timestamp_common identity seq tx a c).2 in
  (if tx then last_rx_time c' = last_rx_time c else last_tx_time c' = last_tx_time c) /\ ce_version c' = ce_version c.
Proof.
  cbn zeta. unfold ce_timestamp_common. destruct (_ =? _); [by destruct tx|].
  destruct (cap_result a); repeat case_match; by destruct tx.
Qed.

(** A first capture at the time zero of the card is never given. *)
Lemma ce_time_zero identity seq tx a version : cap_time a = 0 ->
  (ce_timestamp_common identity seq tx a (IntelCE_new version)).1 = (GPTP_EC_EAGAIN, None).
Proof. intros Ha. unfold ce_timestamp_common. rewrite Ha. by destruct tx. Qed.

(** ** The registers *)

Lemma igb_same reg v r : igb_writereg reg v r reg = u32 v.
Proof. unfold igb_writereg. by rewrite Z.eqb_refl. Qed.
Lemma igb_other reg v r x : x <> reg -> igb_writereg reg v r x = r x.
Proof. intros Hx. unfold igb_writereg. by rewrite (proj2 (Z.eqb_neq _ _) Hx). Qed.

(** A register of 32 bits, bit by bit. *)
Lemma u32_testbit v n : 0 <= n < 32 -> Z.testbit (u32 v) n = Z.testbit v n.
Proof. intros Hn. unfold u32, uwrap. by rewrite Z.mod_pow2_bits_low by lia. Qed.

(** The bits that are set and cleared, and the rest of the register. *)
Definition bits_changed (v w sets clears : Z) : Prop :=
  forall n, 0 <= n < 32 -> Z.testbit w n = (Z.testbit v n && negb (Z.testbit clears n)) || Z.testbit sets n.

Lemma bits_or v b : bits_changed v (u32 (Z.lor v b)) b 0.
Proof. intros n Hn. rewrite u32_testbit, Z.lor_spec, Z.bits_0 by done. by rewrite andb_true_r. Qed.
Lemma bits_and v b : bits_changed v (u32 (Z.land v (Z.lnot b))) 0 b.
Proof. intros n Hn. rewrite u32_testbit, Z.land_spec, Z.lnot_spec, Z.bits_0 by lia. by rewrite orb_false_r. Qed.
Lemma bits_trans u v w s1 s2 c : bits_changed u v s1 c -> bits_changed v w s2 0 -> bits_changed u w (Z.lor s1 s2) c.
Proof.
  intros H1 H2 n Hn. rewrite (H2 n Hn), (H1 n Hn), Z.lor_spec, Z.bits_0, andb_true_r. by rewrite orb_assoc.
Qed.

(** The output starts with edges on whole seconds, two seconds after the card's, of
    half a second each; SDP0 is an output of the frequency clock 0; the other bits
    of the registers stay. *)
Lemma pps_start_registers r : let r' := pps_registers r in
  r' TRGTTIMH0 = u32 (r SYSTIMH + 2) /\ r' TRGTTIML0 = 0 /\ r' FREQOUT0 = 500000000 /\
  bits_changed (r IGB_CTRL) (r' IGB_CTRL) (2 ^ 22) 0 /\
  bits_changed (r TSSDP) (r' TSSDP) (2 ^ 7 + 2 ^ 8) (2 ^ 6) /\
  bits_changed (r TSAUXC) (r' TSAUXC) (2 ^ 2 + 2 ^ 4) 0 /\
  (forall x, x ∉ [IGB_CTRL; TSSDP; TSAUXC; TRGTTIML0; TRGTTIMH0; FREQOUT0] -> r' x = r x).
Proof.
  intros r'. subst r'. unfold pps_registers.
  repeat first [rewrite igb_same | rewrite igb_other by done].
  split; [apply uwrap_idem|]. split; [done|]. split; [done|]. split; [apply bits_or|]. split; [|split; [apply bits_or|]].
  - apply (bits_trans _ ( u32 (Z.lor (Z.land (r TSSDP) (Z.lnot 64)) 128)) _ 128 256 64); [|apply bits_or].
    intros n Hn. rewrite u32_testbit, Z.lor_spec, Z.land_spec, Z.lnot_spec by lia. done.
  - intros x Hx. repeat (apply not_elem_of_cons in Hx as [? Hx]). by rewrite !igb_other by done.
Qed.

(** It stops: the bits of TSAUXC are cleared, and what was there before the start
    is back if they were clear. *)
Lemma pps_stop_registers p r : igb_initd p = true -> exists r',
  HWTimestamper_PPS_stop (Some p) r = Some (true, r') /\
  bits_changed (r TSAUXC) (r' TSAUXC) 0 (2 ^ 2 + 2 ^ 4) /\ (forall x, x <> TSAUXC -> r' x = r x).
Proof.
  intros Hp. eexists. split; [cbn; by rewrite Hp|]. split; [rewrite igb_same; apply bits_and|].
  intros x Hx. by apply igb_other.
Qed.

(** Whether it may be stopped after a start that failed is what the memory held;
    without any start the pointer is null. *)
Lemma pps_stop_garbage devices initialised garbage r : (HWTimestamper_PPS_start devices initialised garbage None r).1.1 = false ->
  exists p, (HWTimestamper_PPS_start devices initialised garbage None r).1.2 = Some p /\
  (exists r', HWTimestamper_PPS_stop (Some p) r = Some (garbage, r')) /\ HWTimestamper_PPS_stop None r = None.
Proof.
  unfold HWTimestamper_PPS_start. destruct (pci_connect devices 0) as [k|]; [destruct initialised; [done|]|]; intros _;
    (eexists; split; [done|]; split; [destruct garbage; by eexists|done]).
Qed.
