(* ===== verification/Watchdog.v ===== *)
(** * The watchdogs

    [SystemdWatchdogHandler] and its setting up (linux/src/watchdog.cpp,
    linux/src/daemon_cl.cpp), and [WindowsWatchdogHandler]
    (windows/daemon_cl/watchdog.cpp, .hpp).  Times are those of the threads: only
    sleeping takes time. *)

From Stdlib Require Import ZArith Lia.
From stdpp Require Import base gmap list.
From S2P Require Import Prelude World WinThreads LinuxThreads.

(** ** Linux *)

(** [sd_watchdog_enabled]: its result, and the interval in microseconds, which
    it sets only when the result is positive. *)
Definition getSystemdWatchdogInterval (result interval garbage : Z) : Z * Z :=
  (result, if 0 <? result then interval else garbage).
(** [watchdog_setup]: its result, and the [update_interval] of the thread that it
    starts. *)
Definition watchdog_setup (read : Z * Z) : Z * option Z :=
  let '(watchdog_result, watchdog_interval) := read in
  if negb (watchdog_result =? 0) then (0, Some (watchdog_interval / 2))
  else if watchdog_result <? 0 then (-1, None)
  else (0, None).

(** [SystemdWatchdogHandler::run_update]: the times in nanoseconds at which the
    service manager is notified; each turn sleeps, with its answers of
    [nanosleep]. *)
Fixpoint run_update (update_interval now : Z) (turns : list (list Nanosleep)) : list Z :=
  match turns with
  | [] => []
  | answers :: turns' =>
      now :: match LinuxTimer_sleep update_interval answers with
             | Returns _ slept => run_update update_interval (now + slept) turns'
             | Exits _ | StillSleeping _ => []
             end
  end.

(** The watchdog is notified every half of the interval, however often signals
    interrupt the thread's sleep. *)
Lemma run_update_times interval turns : forall now k t, 0 <= interval ->
  run_update interval now turns !! k = Some t -> t = now + Z.of_nat k * (interval * 1000).
Proof.
  induction turns as [|answers turns IH]; intros now k t Hi; [done|]. cbn.
  destruct k as [|k]; cbn; [intros [= <-]; lia|].
  destruct (LinuxTimer_sleep interval answers) as [r slept|slept|slept] eqn:E; [|done|done].
  apply sleep_exact in E as [_ ->]; [|done]. intros H. apply IH in H; [|done]. lia.
Qed.
(** So between two notifications there is time to spare for the manager's
    interval. *)
Lemma watchdog_in_time result interval garbage update turns now k t t' : 0 < result -> 0 <= interval ->
  watchdog_setup (getSystemdWatchdogInterval result interval garbage) = (0, Some update) ->
  run_update update now turns !! k = Some t -> run_update update now turns !! S k = Some t' ->
  0 <= t' - t <= interval * 1000 / 2.
Proof.
  intros Hr Hi. unfold watchdog_setup, getSystemdWatchdogInterval. rewrite (proj2 (Z.ltb_lt _ _) Hr).
  destruct (Z.eqb_spec result 0); [lia|]. cbn. intros [= <-] H H'.
  pose proof (Z.div_pos interval 2 Hi ltac:(lia)) as Hd.
  apply run_update_times in H, H'; [|done..]. subst. replace (_ - _) with (interval / 2 * 1000) by lia.
  split; [lia|]. apply Z.div_le_lower_bound; [lia|]. pose proof (Z.mul_div_le interval 2 ltac:(lia)). lia.
Qed.
(** But a failure to read the settings is taken for an interval: the setting up
    never fails, and the thread runs with a number that nobody has set. *)
Lemma watchdog_error_ignored result interval garbage : result < 0 ->
  watchdog_setup (getSystemdWatchdogInterval result interval garbage) = (0, Some (garbage / 2)).
Proof.
  intros Hr. unfold watchdog_setup, getSystemdWatchdogInterval. rewrite (proj2 (Z.ltb_ge _ _)) by lia.
  by destruct (Z.eqb_spec result 0); [lia|].
Qed.
Lemma watchdog_never_fails read : (watchdog_setup read).1 = 0.
Proof.
  destruct read as [r i]. unfold watchdog_setup. destruct (Z.eqb_spec r 0) as [->|]; [done|done].
Qed.

(** ** Windows *)

Inductive Health := SERVICE_RUNNING | EventLog (is_healthy : bool).
Record WindowsWatchdog := mkWatchdog {
  update_interval : Z;             (* microseconds *)
  watchdog_thread : bool;          (* there is one *)
  stop_watchdog : bool;
  service_mode : bool;
  service_handle : bool;           (* it is not NULL *)
}.
#[export] Instance eta_WindowsWatchdog : Settable WindowsWatchdog := fun w =>
  mkWatchdog (update_interval w) (watchdog_thread w) (stop_watchdog w) (service_mode w) (service_handle w).

(** [isRunningAsService]: the session, where it is known, and whether there is a
    console. *)
Definition isRunningAsService (session_id : option Z) (console : bool) : bool :=
  match session_id with Some id => id =? 0 | None => negb console end.
(** It changes nothing. *)
Definition initializeServiceWatchdog (w : WindowsWatchdog) : bool * WindowsWatchdog := (true, w).
Definition WindowsWatchdogHandler_new (session_id : option Z) (console : bool) : WindowsWatchdog :=
  let w := mkWatchdog 30000000 false false (isRunningAsService session_id console) false in
  if service_mode w then (initializeServiceWatchdog w).2 else w.
Definition getWindowsWatchdogInterval (w : WindowsWatchdog) : Z * Z := (1, update_interval w).
Definition startWatchdog (created : bool) (w : WindowsWatchdog) : bool * WindowsWatchdog :=
  if watchdog_thread w then (true, w)
  else (created, w <| stop_watchdog := false |> <| watchdog_thread := created |>).

(** What a turn of the loop reports; none is a status that is null. *)
Definition reportServiceStatus (w : WindowsWatchdog) : list Health :=
  if negb (service_mode w) || negb (service_handle w) then [] else [SERVICE_RUNNING].
Definition reportHealth (status : bool) (is_healthy : bool) : list Health :=
  if negb status then [] else [EventLog is_healthy].
Definition report (w : WindowsWatchdog) : list Health :=
  if service_mode w then reportServiceStatus w else reportHealth true true.
Definition sleep_ms (w : WindowsWatchdog) : Z := u32 (update_interval w / 1000).

(** [run_update] from the time [now] in milliseconds, where the flag is set at
    [stop]: the reports with their times, and the time it ends; the fuel bounds
    the turns. *)
Fixpoint win_run_update (fuel : nat) (w : WindowsWatchdog) (now stop : Z) : option (list (Z * Health) * Z) :=
  match fuel with
  | O => None
  | S fuel' =>
      if stop <=? now then Some ([], now)
      else
        r ← win_run_update fuel' w (now + sleep_ms w) stop;
        Some (map (pair now) (report w) ++ r.1, r.2)
  end.
(** [stopWatchdog] of a thread that started at [started], called at [now]: whether
    the thread ended by itself within ten seconds, or was terminated; and when it
    returns. *)
Inductive Stopped := NotRunning | EndedItself (at_ : Z) | Terminated (at_ : Z).
Definition WATCHDOG_WAIT : Z := 10000.
Definition stopWatchdog (fuel : nat) (started now : Z) (w : WindowsWatchdog) : option (Stopped * WindowsWatchdog) :=
  if negb (watchdog_thread w) then Some (NotRunning, w)
  else
    let w := w <| stop_watchdog := true |> in
    r ← win_run_update fuel w started now;
    Some (if r.2 - now <=? WATCHDOG_WAIT then EndedItself (Z.max now r.2) else Terminated (now + WATCHDOG_WAIT),
          w <| watchdog_thread := false |>).

(** The turns that are begun before the flag is set. *)
Definition turns (s started stop : Z) : Z := (stop - started + s - 1) / s.
Lemma win_run_update_ends s w : sleep_ms w = s -> 0 < s -> forall fuel now stop, now <= stop ->
  turns s now stop < Z.of_nat fuel -> exists r, win_run_update fuel w now stop = Some (r, now + turns s now stop * s).
Proof.
  intros Hs Hp. unfold turns. induction fuel as [|fuel IH]; intros now stop Hle Hf.
  - pose proof (Z.div_pos (stop - now + s - 1) s ltac:(lia) Hp). lia.
  - cbn. destruct (Z.leb_spec stop now) as [H|H].
    + assert (stop = now) as -> by lia. exists []. rewrite Z.div_small by lia. do 2 f_equal. lia.
    + rewrite Hs. replace (stop - now + s - 1) with (stop - (now + s) + s - 1 + 1 * s) in * by lia.
      rewrite Z.div_add in * by lia. destruct (Z.le_gt_cases (now + s) stop) as [Hn|Hn].
      * destruct (IH (now + s) stop Hn ltac:(lia)) as [r ->]. cbn. eexists. do 2 f_equal. lia.
      * destruct fuel as [|fuel]; [|].
        { assert (0 <= (stop - (now + s) + s - 1) / s) by (apply Z.div_pos; lia). lia. }
        cbn. rewrite (proj2 (Z.leb_le _ _)) by lia. cbn. eexists. rewrite (Z.div_small (stop - (now + s) + s - 1)) by lia.
        do 2 f_equal. lia.
Qed.

(** The thread sleeps thirty seconds at a time and is waited for ten: it ends by
    itself only when it is told in the last ten seconds of a turn. *)
Lemma stop_graceful session console started now w : let s := 30000 in
  startWatchdog true (WindowsWatchdogHandler_new session console) = (true, w) -> started < now ->
  exists e w', stopWatchdog (S (Z.to_nat (turns s started now))) started now w = Some (e, w') /\
  watchdog_thread w' = false /\
  ((exists t, e = EndedItself t) <-> (started - now) mod s <= WATCHDOG_WAIT).
Proof.
  intros s Hw Hlt. assert (Hs : sleep_ms w = s /\ watchdog_thread w = true).
  { revert Hw. unfold startWatchdog, WindowsWatchdogHandler_new. destruct (isRunningAsService session console); intros [= <-]; done. }
  destruct Hs as [Hs Ht]. unfold stopWatchdog. rewrite Ht. cbn [negb]. cbv zeta.
  assert (H0 : 0 <= turns s started now) by (unfold turns; apply Z.div_pos; lia).
  match goal with |- context [win_run_update ?f ?w1 started now] =>
    destruct (win_run_update_ends s w1 Hs ltac:(lia) f started now ltac:(lia) ltac:(lia)) as [r Hr] end.
  rewrite Hr. cbn [mbind option_bind fst snd]. eexists _, _. split; [done|]. split; [done|].
  assert (Hm : started + turns s started now * s - now = (started - now) mod s).
  { unfold turns. subst s. apply (Z.mod_unique _ _ (- ((now - started + 30000 - 1) / 30000))); [left|]; [|lia].
    pose proof (Z.div_mod (now - started + 30000 - 1) 30000 ltac:(lia)).
    pose proof (Z.mod_pos_bound (now - started + 30000 - 1) 30000 ltac:(lia)). lia. }
  rewrite Hm. destruct (Z.leb_spec ((started - now) mod s) WATCHDOG_WAIT) as [H|H]; split; intros Hx.
  - done.
  - by eexists.
  - by destruct Hx.
  - lia.
Qed.

(** As a service it reports nothing: the handle of the service is never set. *)
Lemma service_silent fuel session console now stop w r t :
  WindowsWatchdogHandler_new session console = w -> service_mode w = true ->
  win_run_update fuel w now stop = Some (r, t) -> r = [].
Proof.
  intros Hw Hm. assert (Hr : report w = []).
  { unfold report, reportServiceStatus. rewrite Hm. subst w. unfold WindowsWatchdogHandler_new. by destruct (isRunningAsService session console). }
  clear Hw. revert now r t. induction fuel as [|fuel IH]; intros now r t; [done|]. cbn.
  destruct (stop <=? now); [by intros [= <- _]|]. rewrite Hr.
  destruct (win_run_update fuel w (now + sleep_ms w) stop) as [[r' t']|] eqn:E; [|done]. cbn. intros [= <- _].
  by eapply IH.
Qed.
