(* ===== verification/WinMonitor.v ===== *)
(** * The link monitors of the Windows build, and the NDIS way

    Starting, stopping and cleaning up the monitors of links, with the handles
    they hold (windows/daemon_cl/windows_hal.cpp), and the functions of
    windows/daemon_cl/windows_hal_ndis.cpp.  What a monitor's thread does is in
    WinDevice.v; the outcomes of the system calls are arguments. *)

From Stdlib Require Import ZArith Lia String.
From stdpp Require Import base gmap list strings.
From S2P Require Import Prelude Identity World WinDevice.

Open Scope string_scope.
Open Scope Z_scope.

(** ** Monitors and their handles *)

(** [LinkMonitorContext]: the handles of the two notifications and of the thread. *)
Record LinkMonitorContext := mkMonitor {
  hAddrChange : nat; hRouteChange : nat; hMonitorThread : nat; bStopMonitoring : bool;
}.
(** The monitors in memory; the nodes of [g_linkMonitors], in their order; the
    handles that are open; whether [g_linkMonitorLock] is there. *)
Record Monitors := mkMonitors {
  contexts : gmap nat LinkMonitorContext;
  g_linkMonitors : list nat;
  handles : gset nat;
  g_linkMonitorInitialized : bool;
}.
#[export] Instance eta_Monitors : Settable Monitors := fun m =>
  mkMonitors (contexts m) (g_linkMonitors m) (handles m) (g_linkMonitorInitialized m).
Definition no_monitors : Monitors := mkMonitors ∅ [] ∅ false.

Definition initializeLinkMonitoring (m : Monitors) : Monitors := m <| g_linkMonitorInitialized := true |>.
(** A handle that is NULL, 0, is neither opened nor closed. *)
Definition close (h : nat) (m : Monitors) : Monitors :=
  if (h =? 0)%nat then m else m <| handles := handles m ∖ {[h]} |>.
Definition opened (h : nat) (m : Monitors) : Monitors :=
  if (h =? 0)%nat then m else m <| handles := {[h]} ∪ handles m |>.

(** [startLinkMonitoring] with the memory [c]; [addr] and [route] are the handles
    that the two notifications leave, where these succeed, which may be NULL all
    the same, and [thread] that of the thread. *)
Definition startLinkMonitoring (arguments : bool) (addr route thread : option nat) (c : nat) (m : Monitors)
    : option nat * Monitors :=
  if negb arguments then (None, m) else
  let m := initializeLinkMonitoring m in
  match addr with
  | None => (None, m)
  | Some a =>
      let m := opened a m in
      match route with
      | None => (None, close a m)
      | Some r =>
          let m := opened r m in
          match thread with
          | None => (None, close r (close a m))
          | Some t =>
              let m := opened t m in
              (Some c, m <| contexts := <[c := mkMonitor a r t false]> (contexts m) |>
                         <| g_linkMonitors := (g_linkMonitors m ++ [c])%list |>)
          end
      end
  end.

(** [stopLinkMonitoring]: the thread is waited for for ten seconds, and whether it
    has ended does not matter; none where the context is not there any more. *)
Definition stopLinkMonitoring (c : nat) (m : Monitors) : option Monitors :=
  x ← contexts m !! c;
  let m := close (hRouteChange x) (close (hAddrChange x) (close (hMonitorThread x) m)) in
  let m := if g_linkMonitorInitialized m
           then m <| g_linkMonitors := filter (fun c' => c' <> c) (g_linkMonitors m) |> else m in
  Some (m <| contexts := base.delete c (contexts m) |>).

(** [cleanupLinkMonitoring]: the loop holds the node of the monitor it stops; none
    where the node that it goes on from has been taken out of the list. *)
Fixpoint cleanup_loop (fuel : nat) (it : option nat) (m : Monitors) : option Monitors :=
  match it with
  | None => Some m
  | Some c =>
      match fuel with
      | O => None
      | S fuel' =>
          m ← stopLinkMonitoring c m;
          match list_find (fun c' => c' = c) (g_linkMonitors m) with
          | Some (i, _) => cleanup_loop fuel' (g_linkMonitors m !! S i) m
          | None => None
          end
      end
  end.
Definition cleanupLinkMonitoring (m : Monitors) : option Monitors :=
  if g_linkMonitorInitialized m then
    m ← cleanup_loop (S (length (g_linkMonitors m))) (head (g_linkMonitors m)) m;
    Some (m <| g_linkMonitors := [] |> <| g_linkMonitorInitialized := false |>)
  else Some m.

(** ** The NDIS way *)

(** [startNDISLinkMonitoring] gives no context, and [stopNDISLinkMonitoring] frees
    one that is given. *)
Definition startNDISLinkMonitoring (desc : string) (mac : LinkLayerAddress) : option nat := None.
Definition stopNDISLinkMonitoring (context : option nat) (h : gset nat) : gset nat :=
  match context with Some c => h ∖ {[c]} | None => h end.

(** A subkey of the registry's class of network adapters: whether it is opened, and
    its values, where it has them. *)
Record Subkey := mkSubkey { sk_opens : bool; DriverDesc : option string; TimestampSupported : option Z }.

(** What the subkeys say of the adapter with this label: the first one that says
    anything. *)
Definition subkey_says (label : string) (k : Subkey) : option bool :=
  if negb (sk_opens k) then None else
  match DriverDesc k with
  | None => None
  | Some desc =>
      if negb (strstr label desc) then None else
      match TimestampSupported k with
      | Some v => Some (negb (v =? 0))
      | None => if isIntelTimestampSupported desc then Some true
                else if other_vendor desc then Some true else None
      end
  end.
Fixpoint registry_supported (label : string) (keys : list Subkey) : bool :=
  match keys with
  | [] => false
  | k :: keys' => match subkey_says label k with Some b => b | None => registry_supported label keys' end
  end.
(** [structures]: whether the build has the timestamp structures of NDIS as macros;
    [registry]: the subkeys, where the class is opened.  With them the clock rate's
    function does not compile, for it assigns to a variable that is not declared;
    it is modelled without them. *)
Definition getHardwareClockRate_NDIS (label : option string) : Z := 0.
Definition isHardwareTimestampSupported_NDIS (structures : bool) (label : option string)
    (registry : option (list Subkey)) : bool :=
  match label with
  | None => false
  | Some label =>
      structures && match registry with Some keys => registry_supported label keys | None => false end
  end.
Definition configurable (label : string) : bool :=
  isIntelTimestampSupported label
  || (strstr label "ConnectX" || strstr label "Mellanox") || strstr label "NetXtreme-E".
Definition configureHardwareTimestamp_NDIS (structures : bool) (label : option string)
    (registry : option (list Subkey)) : bool :=
  match label with
  | None => false
  | Some l =>
      if structures then isHardwareTimestampSupported_NDIS structures label registry && configurable l
      else isHardwareTimestampSupported_NDIS structures label registry
  end.

(** ** No handle is lost

    The open handles are those of the monitors in the list, each of one of them. *)
Definition handles_of (x : LinkMonitorContext) : list nat := [hAddrChange x; hRouteChange x; hMonitorThread x].
Record monitors_ok (m : Monitors) : Prop := {
  mo_listed c : c ∈ g_linkMonitors m <-> is_Some (contexts m !! c);
  mo_once : NoDup (g_linkMonitors m);
  mo_handles h : h ∈ handles m <-> exists c x, contexts m !! c = Some x /\ h ∈ handles_of x;
  mo_owner c c' x x' h : contexts m !! c = Some x -> contexts m !! c' = Some x' ->
    h ∈ handles_of x -> h ∈ handles_of x' -> c = c';
  mo_null : 0%nat ∉ handles m;
  mo_init : g_linkMonitors m <> [] -> g_linkMonitorInitialized m = true;
}.
Lemma no_monitors_ok : monitors_ok no_monitors.
Proof.
  constructor; cbn; try done.
  - intros c. rewrite lookup_empty. split; [intros []%elem_of_nil|by intros []].
  - constructor.
  - intros h. split; [set_solver|]. intros (c & x & H & _). by rewrite lookup_empty in H.
Qed.

(** What the system gives: handles that are not NULL and not open, each one once. *)
Definition given (l : list (option nat)) (m : Monitors) : Prop :=
  NoDup (omap id l) /\ forall h, h ∈ omap id l -> h ∉ handles m /\ h <> 0%nat.

Lemma opened_given h m : h <> 0%nat -> opened h m = m <| handles := {[h]} ∪ handles m |>.
Proof. intros H. unfold opened. by rewrite (proj2 (Nat.eqb_neq h 0) H). Qed.
Lemma close_given h m : h <> 0%nat -> close h m = m <| handles := handles m ∖ {[h]} |>.
Proof. intros H. unfold close. by rewrite (proj2 (Nat.eqb_neq h 0) H). Qed.

Lemma monitors_ok_init m hs : monitors_ok m -> hs = handles m ->
  monitors_ok (mkMonitors (contexts m) (g_linkMonitors m) hs true).
Proof. intros [] ->. by constructor. Qed.

Lemma monitors_ok_add m c x : monitors_ok m -> contexts m !! c = None ->
  NoDup (handles_of x) -> (forall h, h ∈ handles_of x -> h ∉ handles m /\ h <> 0%nat) ->
  monitors_ok (mkMonitors (<[c := x]> (contexts m)) (g_linkMonitors m ++ [c])%list
                 ({[hMonitorThread x]} ∪ ({[hRouteChange x]} ∪ ({[hAddrChange x]} ∪ handles m))) true).
Proof.
  intros [] Hc Hd Hn.
  assert (Hnew : forall c' x' h, contexts m !! c' = Some x' -> h ∈ handles_of x' -> h ∉ handles_of x).
  { intros c' x' h Hc' Hh Hx. apply (proj1 (Hn h Hx)), mo_handles0. by exists c', x'. }
  constructor; cbn.
  - intros c'. rewrite elem_of_app, list_elem_of_singleton, mo_listed0. destruct (decide (c' = c)) as [->|Hne].
    + rewrite lookup_insert_eq. split; [by eexists|by right].
    + rewrite lookup_insert_ne by done. split; [by intros [|]|by left].
  - apply NoDup_app. split; [done|]. split; [|apply NoDup_singleton].
    intros c' Hc' ->%list_elem_of_singleton. apply mo_listed0 in Hc'. rewrite Hc in Hc'. by destruct Hc'.
  - intros h. assert (Hh : h ∈ {[hMonitorThread x]} ∪ ({[hRouteChange x]} ∪ ({[hAddrChange x]} ∪ handles m)) <->
      h ∈ handles_of x \/ h ∈ handles m) by (unfold handles_of; set_solver). rewrite Hh, mo_handles0. clear Hh. split.
    + intros [Hh|(c' & x' & Hc' & Hh)]; [exists c, x; by rewrite lookup_insert_eq|].
      exists c', x'. split; [|done]. rewrite lookup_insert_ne; [done|]. congruence.
    + intros (c' & x' & Hc' & Hh). destruct (decide (c' = c)) as [->|Hne].
      * rewrite lookup_insert_eq in Hc'. injection Hc' as <-. by left.
      * rewrite lookup_insert_ne in Hc' by done. right. by exists c', x'.
  - intros c1 c2 x1 x2 h. destruct (decide (c1 = c)) as [->|H1], (decide (c2 = c)) as [->|H2];
      rewrite ?lookup_insert_eq, ?lookup_insert_ne by done; try done.
    + intros [= <-] H2' Ha Hb. by destruct (Hnew c2 x2 h H2' Hb).
    + intros H1' [= <-] Ha Hb. by destruct (Hnew c1 x1 h H1' Ha).
    + apply mo_owner0.
  - assert (H0 : 0%nat ∉ handles_of x) by (intros H; by destruct (Hn _ H)). unfold handles_of in H0. set_solver.
  - done.
Qed.

Lemma start_ok arguments addr route thread c m r m' : monitors_ok m -> contexts m !! c = None ->
  given [addr; route; thread] m ->
  startLinkMonitoring arguments addr route thread c m = (r, m') -> monitors_ok m' /\
  (r = None -> handles m' = handles m /\ contexts m' = contexts m /\ g_linkMonitors m' = g_linkMonitors m).
Proof.
  intros Hm Hc [Hd Hn]. unfold startLinkMonitoring. destruct arguments; cbn [negb]; [|by intros [= <- <-]].
  destruct addr as [a|]; [|intros [= <- <-]; split; [by apply monitors_ok_init|done]].
  assert (Ha : a ∉ handles m /\ a <> 0%nat) by (apply Hn; by left). destruct Ha as [Ha Ha0].
  rewrite (opened_given a) by done.
  destruct route as [b|]; [|rewrite close_given by done; intros [= <- <-]].
  2:{ assert (E : ({[a]} ∪ handles m) ∖ {[a]} = handles m) by set_solver.
      split; [apply (monitors_ok_init m _ Hm E)|by intros _]. }
  assert (Hb : b ∉ handles m /\ b <> 0%nat) by (apply Hn; by right; left). destruct Hb as [Hb Hb0].
  rewrite (opened_given b) by done.
  destruct thread as [t|]; [rewrite opened_given by (apply Hn; by right; right; left)|rewrite !close_given by done]; intros [= <- <-].
  2:{ assert (E : ((({[b]} ∪ ({[a]} ∪ handles m)) ∖ {[a]}) ∖ {[b]}) = handles m) by set_solver.
      split; [apply (monitors_ok_init m _ Hm E)|by intros _]. }
  split; [|done]. exact (monitors_ok_add m c (mkMonitor a b t false) Hm Hc Hd Hn).
Qed.

Lemma stop_ok c m : monitors_ok m -> is_Some (contexts m !! c) -> exists m',
  stopLinkMonitoring c m = Some m' /\ monitors_ok m' /\ contexts m' = base.delete c (contexts m) /\
  g_linkMonitors m' = filter (fun c' => c' <> c) (g_linkMonitors m) /\
  forall h, h ∈ handles m' <-> h ∈ handles m /\ forall x, contexts m !! c = Some x -> h ∉ handles_of x.
Proof.
  intros [] [x Hx]. assert (Hi : g_linkMonitorInitialized m = true).
  { apply mo_init0. intros Hl. assert (Hc : c ∈ g_linkMonitors m) by (apply mo_listed0; by eexists).
    rewrite Hl in Hc. by apply elem_of_nil in Hc. }
  assert (H0 : forall h, h ∈ handles_of x -> h <> 0%nat).
  { intros h Hh ->. apply mo_null0, mo_handles0. by exists c, x. }
  unfold stopLinkMonitoring. rewrite Hx. cbn [mbind option_bind].
  rewrite !close_given by (apply H0; unfold handles_of; set_solver). cbn.
  rewrite Hi. eexists. split; [done|]. cbn.
  assert (Hh : forall h, h ∈ ((handles m ∖ {[hMonitorThread x]}) ∖ {[hAddrChange x]}) ∖ {[hRouteChange x]} <->
    h ∈ handles m /\ h ∉ handles_of x) by (intros h; unfold handles_of; set_solver).
  split; [constructor; cbn|split; [done|split; [done|]]].
  - intros c'. rewrite list_elem_of_filter, mo_listed0. destruct (decide (c' = c)) as [->|Hne].
    + rewrite lookup_delete_eq. split; [by intros [? _]|by intros []].
    + rewrite lookup_delete_ne by done. by split; [intros [_ ?]|].
  - by apply NoDup_filter.
  - intros h. rewrite Hh, mo_handles0. split.
    + intros [(c' & x' & Hc' & Hin) Hn]. exists c', x'. split; [|done]. rewrite lookup_delete_ne; [done|].
      intros ->. rewrite Hx in Hc'. by injection Hc' as ->.
    + intros (c' & x' & Hc' & Hin). apply lookup_delete_Some in Hc' as [Hne Hc']. split; [by exists c', x'|].
      intros Hin'. by apply Hne, (mo_owner0 c c' x x' h).
  - intros c1 c2 x1 x2 h [_ H1]%lookup_delete_Some [_ H2]%lookup_delete_Some. by apply mo_owner0.
  - rewrite Hh. by intros [? _].
  - done.
  - intros h. rewrite Hh. split; intros [H1 H2]; (split; [done|]); [by intros y [= <-]|by apply H2].
Qed.

Lemma filter_not_in (c : nat) (l : list nat) : c ∉ l -> filter (fun c' => c' <> c) l = l.
Proof.
  induction l as [|a l IH]; [done|]. intros [Ha Hl]%not_elem_of_cons.
  rewrite filter_cons_True by congruence. by rewrite IH.
Qed.

(** A monitor that was started and is stopped leaves nothing behind. *)
Lemma start_stop a b t c m m' : monitors_ok m -> contexts m !! c = None -> given [Some a; Some b; Some t] m ->
  startLinkMonitoring true (Some a) (Some b) (Some t) c m = (Some c, m') -> exists m'',
  stopLinkMonitoring c m' = Some m'' /\ contexts m'' = contexts m /\ handles m'' = handles m /\
  g_linkMonitors m'' = g_linkMonitors m.
Proof.
  intros Hm Hc Hg E. destruct (start_ok _ _ _ _ _ _ _ _ Hm Hc Hg E) as [Hm' _].
  destruct Hg as [_ Hn]. revert E. unfold startLinkMonitoring. cbn [negb].
  rewrite !opened_given by (apply Hn; unfold omap; cbn; set_solver). intros [= <-].
  destruct (stop_ok c _ Hm') as (m'' & Es & _ & Hx & Hl & Hh); [cbn; rewrite lookup_insert_eq; by eexists|].
  exists m''. split; [exact Es|]. split; [rewrite Hx; cbn; by rewrite delete_insert_id|]. split.
  - apply set_eq. intros h. rewrite Hh. cbn. rewrite lookup_insert_eq. split.
    + intros [H1 H2]. specialize (H2 _ eq_refl). unfold handles_of in H2. cbn in H2. set_solver.
    + intros H1. split; [set_solver|]. intros x [= <-] H2. unfold handles_of in H2. cbn in H2. apply (proj1 (Hn h ltac:(unfold omap; cbn; set_solver))), H1.
  - rewrite Hl. cbn. rewrite filter_app. assert (Hnot : c ∉ g_linkMonitors m).
    { rewrite (mo_listed m Hm), Hc. by intros []. }
    rewrite filter_not_in by done. rewrite filter_cons_False by (intros H; by apply H). by rewrite app_nil_r.
Qed.

(** The loop of the cleaning up goes on from a node that the stopping has taken out:
    with a monitor that runs its behaviour is undefined, and without one it only
    takes the lock away. *)
Lemma cleanup_undefined m : monitors_ok m -> g_linkMonitors m <> [] -> cleanupLinkMonitoring m = None.
Proof.
  intros Hm Hl. unfold cleanupLinkMonitoring. rewrite (mo_init m Hm Hl).
  destruct (g_linkMonitors m) as [|c l] eqn:El; [done|]. cbn [head length cleanup_loop].
  destruct (stop_ok c m Hm) as (m' & -> & _ & _ & Hl' & _); [apply (mo_listed m Hm); rewrite El; left|].
  cbn [mbind option_bind]. destruct (list_find (fun c' => c' = c) (g_linkMonitors m')) as [[i c']|] eqn:E; [|done].
  apply list_find_Some in E as (Hi & -> & _). apply list_elem_of_lookup_2 in Hi. rewrite Hl' in Hi.
  by apply list_elem_of_filter in Hi as [[] _].
Qed.
Lemma cleanup_empty m : g_linkMonitors m = [] ->
  cleanupLinkMonitoring m = Some (m <| g_linkMonitorInitialized := false |>).
Proof.
  intros Hl. unfold cleanupLinkMonitoring. destruct m as [ctx l h i]. cbn in *. subst l. by destruct i.
Qed.

(** ** The NDIS way finds nothing *)

(** Without the structures; and where none is found the other way decides. *)
Lemma ndis_finds_nothing label registry :
  isHardwareTimestampSupported_NDIS false label registry = false /\
  configureHardwareTimestamp_NDIS false label registry = false /\ getHardwareClockRate_NDIS label = 0.
Proof. by destruct label. Qed.
Lemma ndis_falls_through label listed adapters registry :
  getHardwareClockRate (Some label) listed adapters (getHardwareClockRate_NDIS (Some label)) =
    getHardwareClockRate_IPHLPAPI (Some label) listed adapters /\
  isHardwareTimestampSupported (Some label) listed adapters
    (isHardwareTimestampSupported_NDIS false (Some label) registry) =
    isHardwareTimestampSupported_IPHLPAPI (Some label) listed adapters.
Proof.
  unfold getHardwareClockRate, isHardwareTimestampSupported, getHardwareClockRate_NDIS. split.
  - by destruct (Z.eqb_spec (getHardwareClockRate_IPHLPAPI (Some label) listed adapters) 0) as [->|].
  - by destruct (isHardwareTimestampSupported_IPHLPAPI (Some label) listed adapters).
Qed.

(** With them the first subkey that says anything decides. *)
Lemma registry_first label before k after b : Forall (fun k => subkey_says label k = None) before ->
  subkey_says label k = Some b -> registry_supported label (before ++ k :: after) = b.
Proof. intros Hb Hk. induction Hb as [|k' before Hk' _ IH]; cbn; [by rewrite Hk|]. by rewrite Hk'. Qed.
Lemma registry_none label keys : Forall (fun k => subkey_says label k = None) keys ->
  registry_supported label keys = false.
Proof. induction 1 as [|k keys Hk _ IH]; cbn; [done|]. by rewrite Hk. Qed.
